(** * Smart Routine Scheduler: the hybrid timetable optimisation engine

    A shallow embedding of the scheduling core of the repository
    ([utils/geneticAlgorithm.ts], [utils/cpsatSolver.ts],
    [utils/hybridOptimizer.ts], [types/timetable.ts]) and the properties
    its specification states about it.

    Conventions of the embedding.
    - JavaScript strings are [string], a character being a code unit
      below 256; template literals are written out with [+++]; an optional
      field that is printed inside a template literal prints as the text
      [undefined], as it does in JavaScript.
    - Integral JavaScript numbers (counts, capacities, semesters) are [Z];
      scores that are always finite are exact rationals [Q] (rounding of
      doubles is not modelled), and a score that can be [NaN] or an
      infinity is a [number], with the arithmetic of [Num]. Zero has no
      sign: every division by zero in this code divides by a length or by
      a product of lengths.
    - [Set<string>] is a duplicate-free list of keys in insertion order
      and [Map<string, V>] an association list in insertion order.
    - A plain object indexed by strings ([Record<string, V>]) is the
      association list of its own properties, read through
      [objectPrototype]: under a name that every object inherits, such as
      [constructor] or [toString], a read finds the inherited value when
      the object has no property of its own. [Object.keys] and
      [Object.values] are only used where their order does not matter.
    - [new Date(...)], [String.prototype.localeCompare], [Math.log] and
      [Math.random] belong to the JavaScript runtime; they are parameters
      of the sections that use them. *)

From Stdlib Require Import List String Ascii Bool Arith ZArith QArith Qround Qminmax Lia
  Permutation.
Import ListNotations.
Local Open Scope string_scope.
Local Open Scope list_scope.

(** String concatenation, as in a template literal. *)
Infix "+++" := String.append (right associativity, at level 60).

(** ** The data model of [types/timetable.ts] *)

Inductive RoomType : Type := theory | lab.

Inductive Parity : Type := parity_odd | parity_even.

Inductive ConflictType : Type :=
  room_conflict | teacher_conflict | student_conflict | constraint_violation.

Inductive Severity : Type := high | medium | low.

Definition RoomType_eqb (a b : RoomType) : bool :=
  match a, b with
  | theory, theory | lab, lab => true
  | _, _ => false
  end.

Module TimeSlot.
Record t : Type := mk
  { id : string; day : string; startTime : string; endTime : string }.
End TimeSlot.

Module Room.
Record t : Type := mk
  { id : string; name : string; capacity : Z; type : RoomType;
    equipment : list string }.
End Room.

Module Availability.
Record t : Type := mk { day : string; timeSlots : list string }.
End Availability.

Module Teacher.
Record t : Type := mk
  { id : string; name : string; email : string; subjects : list string;
    departmentCourseId : option string;
    taughtSubjectIds : option (list string);
    availability : list Availability.t;
    maxHoursPerDay : Z; maxHoursPerWeek : Z }.
End Teacher.

Module Course.
Record t : Type := mk
  { id : string; name : string; code : string; credits : Z; duration : Z;
    teacherId : string; studentsCount : Z; roomType : RoomType;
    requiredEquipment : list string; sessionsPerWeek : Z;
    semester : option Z; sections : option (list string) }.
End Course.

Module Subject.
Record t : Type := mk
  { id : string; courseId : string; semester : Z; name : string;
    code : string; type : RoomType }.
End Subject.

Module ClassSchedule.
Record t : Type := mk
  { id : string; courseId : string; subjectId : option string;
    section : option string; semester : option Z; teacherId : string;
    roomId : string; timeSlotId : string; day : string;
    startTime : string; endTime : string }.
End ClassSchedule.

Module TimetableConstraints.
Record t : Type := mk
  { maxClassesPerDay : Z; minBreakBetweenClasses : Q;
    preferredStartTime : string; preferredEndTime : string;
    avoidBackToBackClasses : bool; balanceWorkload : bool;
    semesterParity : option Parity;
    theoryIntervalMinutes : option Z; labIntervalMinutes : option Z }.
End TimetableConstraints.

Module Conflict.
Record t : Type := mk
  { type : ConflictType; description : string; severity : Severity;
    classes : list string }.
End Conflict.

(** A JavaScript number: a rational, [NaN], or one of the infinities. *)
Inductive number : Type :=
| finite (q : Q)
| NaN
| PositiveInfinity
| NegativeInfinity.

(** Two JavaScript numbers are the same: both finite and equal, both
    [NaN], or the same infinity. *)
Definition sameNumber (a b : number) : Prop :=
  match a, b with
  | finite x, finite y => x == y
  | NaN, NaN => True
  | PositiveInfinity, PositiveInfinity => True
  | NegativeInfinity, NegativeInfinity => True
  | _, _ => False
  end.

(** The arithmetic of JavaScript numbers: [+], [-], [*], [/], [Math.max],
    [Math.min] and [x || y]. *)
Module Num.

Definition opp (a : number) : number :=
  match a with
  | finite x => finite (- x)
  | NaN => NaN
  | PositiveInfinity => NegativeInfinity
  | NegativeInfinity => PositiveInfinity
  end.

Definition add (a b : number) : number :=
  match a, b with
  | NaN, _ | _, NaN => NaN
  | finite x, finite y => finite (x + y)
  | PositiveInfinity, NegativeInfinity | NegativeInfinity, PositiveInfinity => NaN
  | PositiveInfinity, _ | _, PositiveInfinity => PositiveInfinity
  | NegativeInfinity, _ | _, NegativeInfinity => NegativeInfinity
  end.

Definition sub (a b : number) : number := add a (opp b).

(** An infinity times or divided by a finite number of the given sign. *)
Definition scaled (infinity : number) (sign : comparison) : number :=
  match sign with
  | Gt => infinity
  | Lt => opp infinity
  | Eq => NaN
  end.

Definition mul (a b : number) : number :=
  match a, b with
  | NaN, _ | _, NaN => NaN
  | finite x, finite y => finite (x * y)
  | finite x, infinity => scaled infinity (Qcompare x 0)
  | infinity, finite y => scaled infinity (Qcompare y 0)
  | PositiveInfinity, infinity => infinity
  | NegativeInfinity, infinity => opp infinity
  end.

Definition div (a b : number) : number :=
  match a, b with
  | NaN, _ | _, NaN => NaN
  | finite x, finite y =>
      if Qeq_bool y 0 then scaled PositiveInfinity (Qcompare x 0) else finite (x / y)
  | finite _, _ => finite 0
  | infinity, finite y =>
      match Qcompare y 0 with Lt => opp infinity | _ => infinity end
  | _, _ => NaN
  end.

Definition max (a b : number) : number :=
  match a, b with
  | NaN, _ | _, NaN => NaN
  | finite x, finite y => finite (Qmax x y)
  | PositiveInfinity, _ | _, PositiveInfinity => PositiveInfinity
  | NegativeInfinity, c | c, NegativeInfinity => c
  end.

Definition min (a b : number) : number :=
  match a, b with
  | NaN, _ | _, NaN => NaN
  | finite x, finite y => finite (Qmin x y)
  | NegativeInfinity, _ | _, NegativeInfinity => NegativeInfinity
  | PositiveInfinity, c | c, PositiveInfinity => c
  end.

(** [a || b]: zero and [NaN] are the numbers that count as false. *)
Definition orElse (a b : number) : number :=
  match a with
  | finite x => if Qeq_bool x 0 then b else a
  | NaN => b
  | _ => a
  end.

(** The sum of [array.reduce((sum, x) => sum + x, 0)]. *)
Definition sum (l : list number) : number := fold_left add l (finite 0).

End Num.

Module OptimizationMetrics.
Record t : Type := mk
  { totalConflicts : Z; roomUtilization : number; teacherWorkloadBalance : number;
    studentSatisfaction : number; constraintSatisfaction : number }.
End OptimizationMetrics.

Module GenerationData.
Record t : Type := mk
  { generation : Z; bestFitness : Q; averageFitness : Q; worstFitness : Q }.
End GenerationData.

Module OptimizationResult.
Record t : Type := mk
  { schedule : list ClassSchedule.t; fitness : number;
    conflicts : list Conflict.t; metrics : OptimizationMetrics.t;
    generationData : list GenerationData.t }.
End OptimizationResult.

Module GeneticAlgorithmParams.
Record t : Type := mk
  { populationSize : Z; generations : Z; mutationRate : Q;
    crossoverRate : Q; eliteSize : Z }.
End GeneticAlgorithmParams.

(** ** Strings, sets of keys and dates *)

(** [`${x}`] for an optional string field. *)
Definition show (o : option string) : string :=
  match o with Some s => s | None => "undefined" end.

(** [Set.prototype.has] and [Set.prototype.add] on a set of string keys. *)
Definition has (s : list string) (k : string) : bool :=
  existsb (String.eqb k) s.

Definition add (s : list string) (k : string) : list string :=
  if has s k then s else s ++ [k].

(** [Array.prototype.includes] on an array of strings. *)
Definition includes (l : list string) (k : string) : bool :=
  existsb (String.eqb k) l.

(** Relational operators on two [Date] values: an invalid date converts to
    [NaN], and every comparison with [NaN] is false. *)
Definition dateLt (a b : option Z) : bool :=
  match a, b with Some x, Some y => (x <? y)%Z | _, _ => false end.

Definition dateLe (a b : option Z) : bool :=
  match a, b with Some x, Some y => (x <=? y)%Z | _, _ => false end.

(** [m[k] = (m[k] || 0) + 1] on a table of counters. *)
Fixpoint bump (k : string) (m : list (string * Z)) : list (string * Z) :=
  match m with
  | [] => [(k, 1%Z)]
  | (k', n) :: m' =>
      if k' =? k then (k', (n + 1)%Z) :: m' else (k', n) :: bump k m'
  end.

Definition tally (keys : list string) : list (string * Z) :=
  fold_left (fun m k => bump k m) keys [].

(** [m[k] || 0]. *)
Fixpoint count (m : list (string * Z)) (k : string) : Z :=
  match m with
  | [] => 0%Z
  | (k', n) :: m' => if k' =? k then n else count m' k
  end.

(** [Array.prototype.sort] with a comparator, as a stable insertion sort:
    [cmp a b] is the sign of the comparator's result. *)
Fixpoint insertBy {A : Type} (cmp : A -> A -> comparison) (x : A) (l : list A) : list A :=
  match l with
  | [] => [x]
  | y :: l' =>
      match cmp x y with
      | Gt => y :: insertBy cmp x l'
      | _ => x :: l
      end
  end.

Definition sortBy {A : Type} (cmp : A -> A -> comparison) (l : list A) : list A :=
  fold_right (insertBy cmp) [] l.

(** [m.get(key).push(cls)] on a table of arrays, creating the entry when
    it is missing. *)
Fixpoint pushTo {A : Type} (key : string) (cls : A)
  (m : list (string * list A)) : list (string * list A) :=
  match m with
  | [] => [(key, [cls])]
  | (k, l) :: m' =>
      if k =? key then (k, l ++ [cls]) :: m' else (k, l) :: pushTo key cls m'
  end.

(** Filing under keys: [sel x] is the key and the value filed for [x], if
    any; [file] is one step of the loops that call [pushTo], and
    [filed k l] the values of [l] filed under [k], in order. *)
Definition file {X B : Type} (sel : X -> option (string * B))
  (m : list (string * list B)) (x : X) : list (string * list B) :=
  match sel x with
  | Some (k, v) => pushTo k v m
  | None => m
  end.

Definition filed {X B : Type} (sel : X -> option (string * B)) (k : string)
  (l : list X) : list B :=
  flat_map
    (fun x =>
       match sel x with
       | Some (k', v) => if k' =? k then [v] else []
       | None => []
       end)
    l.

Definition sumQ (l : list Q) : Q := fold_left Qplus l 0.

Definition size {A : Type} (l : list A) : Q := inject_Z (Z.of_nat (List.length l)).

(** [x || 1] on a finite number. *)
Definition orOne (x : Q) : Q := if Qeq_bool x 0 then 1 else x.

(** [m[key] || []] and [m.get(key)] on such a table. *)
Fixpoint lookup {A : Type} (m : list (string * A)) (key : string) : option A :=
  match m with
  | [] => None
  | (k, v) :: m' => if k =? key then Some v else lookup m' key
  end.

(** [m.set(key, v)] on a [Map]: an existing key keeps its place. *)
Fixpoint set {A : Type} (key : string) (v : A) (m : list (string * A)) : list (string * A) :=
  match m with
  | [] => [(key, v)]
  | (k, v') :: m' => if k =? key then (k, v) :: m' else (k, v') :: set key v m'
  end.

(** The properties that every plain object inherits from
    [Object.prototype], each with the [length] of its value: the number of
    parameters of a function, and none for [__proto__], whose value is the
    prototype itself. All of these values count as true. *)
Definition objectPrototype : list (string * option Z) :=
  [("constructor", Some 1%Z); ("__defineGetter__", Some 2%Z);
   ("__defineSetter__", Some 2%Z); ("hasOwnProperty", Some 1%Z);
   ("__lookupGetter__", Some 1%Z); ("__lookupSetter__", Some 1%Z);
   ("isPrototypeOf", Some 1%Z); ("propertyIsEnumerable", Some 1%Z);
   ("toString", Some 0%Z); ("valueOf", Some 0%Z); ("__proto__", None);
   ("toLocaleString", Some 0%Z)].

Definition inherited (key : string) : bool :=
  match lookup objectPrototype key with Some _ => true | None => false end.

(** An object none of whose own properties has an inherited name. *)
Definition plain {A : Type} (m : list (string * A)) : Prop :=
  forall entry, In entry m -> inherited (fst entry) = false.

(** [if (!m[key]) m[key] = []; m[key].push(x)] on a plain object [m] whose
    own properties are arrays: under an inherited name that [m] does not
    have itself, [m[key]] is the inherited value, which has no [push],
    and the call throws a [TypeError] ([None]). *)
Definition pushToObject {A : Type} (key : string) (x : A) (m : list (string * list A))
  : option (list (string * list A)) :=
  match lookup m key with
  | Some _ => Some (pushTo key x m)
  | None => if inherited key then None else Some (pushTo key x m)
  end.

(** The loop [for (const x of xs) { ...push... }] that files [xs] in an
    empty plain object. *)
Definition groupInObject {A : Type} (key : A -> string) (xs : list A)
  : option (list (string * list A)) :=
  fold_left
    (fun m x => match m with Some m => pushToObject (key x) x m | None => None end)
    xs (Some []).

(** A counter kept in a plain object: a count, or the text that
    [(m[k] || 0) + 1] makes of an inherited function (its source text
    followed by [1]). *)
Inductive Counter : Type := counted (n : Z) | text.

(** A name under which a counter is text: an inherited name other than
    [__proto__], whose setter ignores a text. *)
Definition shadows (key : string) : bool := inherited key && negb (key =? "__proto__").

(** [m[k] = (m[k] || 0) + 1] on a plain object [m] of counters. *)
Definition bumpObject (k : string) (m : list (string * Counter)) : list (string * Counter) :=
  match lookup m k with
  | Some (counted n) => set k (counted (n + 1)) m
  | Some text => m
  | None =>
      if inherited k then (if shadows k then set k text m else m)
      else set k (counted 1%Z) m
  end.

(** A counter where a number is expected: a text is not the text of a
    number. *)
Definition counterValue (c : Counter) : number :=
  match c with
  | counted n => finite (inject_Z n)
  | text => NaN
  end.

(** [m[k] || 0] on such an object, where a number is expected: an
    inherited function or object counts as true and is not a number. *)
Definition countIn (m : list (string * Counter)) (k : string) : number :=
  match lookup m k with
  | Some c => counterValue c
  | None => if inherited k then NaN else finite 0
  end.

(** What holds of an object filled by [bumpObject]: a counter counts at
    least one and sits under a name of its own; a text sits under a name
    that shadows an inherited one. *)
Definition tallied (m : list (string * Counter)) : Prop :=
  forall entry, In entry m ->
    match snd entry with
    | counted n => (0 < n)%Z /\ inherited (fst entry) = false
    | text => shadows (fst entry) = true
    end.

(** [Array.prototype.findIndex]. *)
Fixpoint findIndex {A : Type} (p : A -> bool) (l : list A) : option nat :=
  match l with
  | [] => None
  | x :: l' =>
      if p x then Some 0%nat
      else match findIndex p l' with Some i => Some (S i) | None => None end
  end.

(** The array after an update of the object at index [i]. *)
Fixpoint replaceAt {A : Type} (i : nat) (x : A) (l : list A) : list A :=
  match l, i with
  | [], _ => []
  | _ :: l', O => x :: l'
  | y :: l', S i' => y :: replaceAt i' x l'
  end.

(** The outcome of a call: a value, an exception, a loop of the model that
    ran out of the iterations it was given, or a run that leaves the
    model (a score that is not a finite number). *)
Inductive Completion (A : Type) : Type :=
| Returned (a : A)
| Thrown (message : string)
| OutOfFuel
| Unmodelled (why : string).

Arguments Returned {A} a.
Arguments Thrown {A} message.
Arguments OutOfFuel {A}.
Arguments Unmodelled {A} why.

(** What is done with the value of a call that returns. *)
Definition andThen {A B : Type} (c : Completion A) (f : A -> B) : Completion B :=
  match c with
  | Returned a => Returned (f a)
  | Thrown message => Thrown message
  | OutOfFuel => OutOfFuel
  | Unmodelled why => Unmodelled why
  end.

(** ** Instances of the runtime functions, for running the model

    [isoDate] is [new Date(s).getTime()] on the strings
    [1970-01-01THH:MM] (with [HH < 24] and [MM < 60]) read in the UTC time
    zone, and an invalid date on every other string. [codeUnitCompare]
    orders strings by their code units, which is how [localeCompare]
    orders strings of digits and colons. *)

Module Runtime.

Definition digit (c : ascii) : option Z :=
  let n := Z.of_nat (nat_of_ascii c) in
  if ((48 <=? n) && (n <=? 57))%Z then Some (n - 48)%Z else None.

Definition isoDate (s : string) : option Z :=
  if prefix "1970-01-01T" s then
    match list_ascii_of_string (substring 11 (String.length s - 11) s) with
    | [h1; h2; sep; m1; m2] =>
        match digit h1, digit h2, digit m1, digit m2 with
        | Some a, Some b, Some c, Some d =>
            let h := (10 * a + b)%Z in
            let m := (10 * c + d)%Z in
            if (Ascii.eqb sep ":" && (h <? 24)%Z && (m <? 60)%Z)%bool
            then Some ((h * 60 + m) * 60000)%Z
            else None
        | _, _, _, _ => None
        end
    | _ => None
    end
  else None.

Definition codeUnitCompare (a b : string) : comparison := String.compare a b.

End Runtime.

(** ** [utils/geneticAlgorithm.ts]: the class [GeneticAlgorithm] on values *)

Module GeneticAlgorithm.

Section Instance.

(** The fields set by the constructor. *)
Variable courses : list Course.t.
Variable teachers : list Teacher.t.
Variable rooms : list Room.t.
Variable timeSlots : list TimeSlot.t.
Variable constraints : TimetableConstraints.t.
Variable subjects : list Subject.t.

(** [parseDate s] is the time value in milliseconds of [new Date(s)], and
    [None] when the date is invalid. *)
Variable parseDate : string -> option Z.

(** [localeCompare a b] is the sign of [a.localeCompare(b)]. *)
Variable localeCompare : string -> string -> comparison.

Definition time (hhmm : string) : option Z := parseDate ("1970-01-01T" +++ hhmm).

Definition timeSlotsOverlap (class1 class2 : ClassSchedule.t) : bool :=
  let start1 := time (ClassSchedule.startTime class1) in
  let end1 := time (ClassSchedule.endTime class1) in
  let start2 := time (ClassSchedule.startTime class2) in
  let end2 := time (ClassSchedule.endTime class2) in
  dateLt start1 end2 && dateLt start2 end1.

Definition roomClash (class1 class2 : ClassSchedule.t) : bool :=
  (ClassSchedule.roomId class1 =? ClassSchedule.roomId class2)
  && (ClassSchedule.day class1 =? ClassSchedule.day class2)
  && timeSlotsOverlap class1 class2.

Definition teacherClash (class1 class2 : ClassSchedule.t) : bool :=
  (ClassSchedule.teacherId class1 =? ClassSchedule.teacherId class2)
  && (ClassSchedule.day class1 =? ClassSchedule.day class2)
  && timeSlotsOverlap class1 class2.

(** The body of the inner loop of [detectConflicts] for the pair
    [(schedule[i], schedule[j])]. *)
Definition pairConflicts (class1 class2 : ClassSchedule.t) : list Conflict.t :=
  (if roomClash class1 class2 then
     [Conflict.mk room_conflict
        ("Room " +++ ClassSchedule.roomId class1 +++ " double-booked on "
         +++ ClassSchedule.day class1)
        high [ClassSchedule.id class1; ClassSchedule.id class2]]
   else [])
  ++
  (if teacherClash class1 class2 then
     [Conflict.mk teacher_conflict
        ("Teacher " +++ ClassSchedule.teacherId class1 +++ " double-booked on "
         +++ ClassSchedule.day class1)
        high [ClassSchedule.id class1; ClassSchedule.id class2]]
   else []).

(** [detectConflicts]: all pairs [i < j], in the order of the two loops. *)
Fixpoint detectConflicts (schedule : list ClassSchedule.t) : list Conflict.t :=
  match schedule with
  | [] => []
  | class1 :: rest =>
      flat_map (pairConflicts class1) rest ++ detectConflicts rest
  end.

(** The body of the loop of [detectConflictsForClass] for one [existing]. *)
Definition classConflicts (classItem existing : ClassSchedule.t) : list Conflict.t :=
  (if teacherClash existing classItem then
     [Conflict.mk teacher_conflict
        ("Teacher " +++ ClassSchedule.teacherId classItem +++ " conflict")
        high [ClassSchedule.id existing; ClassSchedule.id classItem]]
   else [])
  ++
  (if roomClash existing classItem then
     [Conflict.mk room_conflict
        ("Room " +++ ClassSchedule.roomId classItem +++ " conflict")
        high [ClassSchedule.id existing; ClassSchedule.id classItem]]
   else []).

Definition detectConflictsForClass
  (classItem : ClassSchedule.t) (existingSchedule : list ClassSchedule.t)
  : list Conflict.t :=
  flat_map (classConflicts classItem) existingSchedule.

(** [teacher.availability.some(avail => avail.day === timeSlot.day &&
    avail.timeSlots.includes(timeSlot.id))]. *)
Definition teacherAvailableAt (teacher : Teacher.t) (timeSlot : TimeSlot.t) : bool :=
  existsb
    (fun avail =>
       (Availability.day avail =? TimeSlot.day timeSlot)
       && includes (Availability.timeSlots avail) (TimeSlot.id timeSlot))
    (Teacher.availability teacher).

(** [{...classItem, day, startTime, endTime, timeSlotId}]. *)
Definition moveTo (classItem : ClassSchedule.t) (timeSlot : TimeSlot.t) : ClassSchedule.t :=
  ClassSchedule.mk
    (ClassSchedule.id classItem) (ClassSchedule.courseId classItem)
    (ClassSchedule.subjectId classItem) (ClassSchedule.section classItem)
    (ClassSchedule.semester classItem) (ClassSchedule.teacherId classItem)
    (ClassSchedule.roomId classItem) (TimeSlot.id timeSlot)
    (TimeSlot.day timeSlot) (TimeSlot.startTime timeSlot)
    (TimeSlot.endTime timeSlot).

(** The loop of [findAlternativeSlot] over the remaining time slots. *)
Fixpoint firstFreeSlot (teacher : Teacher.t) (classItem : ClassSchedule.t)
  (existingSchedule : list ClassSchedule.t) (slots : list TimeSlot.t)
  : option ClassSchedule.t :=
  match slots with
  | [] => None
  | timeSlot :: slots' =>
      if negb (teacherAvailableAt teacher timeSlot) then
        firstFreeSlot teacher classItem existingSchedule slots'
      else
        let testClass := moveTo classItem timeSlot in
        match detectConflictsForClass testClass existingSchedule with
        | [] => Some testClass
        | _ :: _ => firstFreeSlot teacher classItem existingSchedule slots'
        end
  end.

Definition findAlternativeSlot
  (classItem : ClassSchedule.t) (existingSchedule : list ClassSchedule.t)
  : option ClassSchedule.t :=
  match find (fun t => Teacher.id t =? ClassSchedule.teacherId classItem) teachers with
  | None => None
  | Some teacher => firstFreeSlot teacher classItem existingSchedule timeSlots
  end.

(** [`${teacherId}_${roomId}_${day}_${startTime}`]. *)
Definition slotKey (classItem : ClassSchedule.t) : string :=
  ClassSchedule.teacherId classItem +++ "_" +++ ClassSchedule.roomId classItem
  +++ "_" +++ ClassSchedule.day classItem +++ "_" +++ ClassSchedule.startTime classItem.

(** One iteration of the loop of [repairSchedule]; the state is
    [(repairedSchedule, usedSlots)]. *)
Definition repairStep (st : list ClassSchedule.t * list string)
  (classItem : ClassSchedule.t) : list ClassSchedule.t * list string :=
  let '(repairedSchedule, usedSlots) := st in
  if negb (has usedSlots (slotKey classItem)) then
    match detectConflictsForClass classItem repairedSchedule with
    | [] => (repairedSchedule ++ [classItem], add usedSlots (slotKey classItem))
    | _ :: _ =>
        match findAlternativeSlot classItem repairedSchedule with
        | Some repairedClass =>
            (repairedSchedule ++ [repairedClass], add usedSlots (slotKey repairedClass))
        | None => st
        end
    end
  else st.

(** The loop of [repairSchedule] over [schedule], from a state. *)
Definition repairLoop (schedule : list ClassSchedule.t)
  (st : list ClassSchedule.t * list string) : list ClassSchedule.t * list string :=
  fold_left repairStep schedule st.

Definition repairSchedule (schedule : list ClassSchedule.t) : list ClassSchedule.t :=
  fst (repairLoop schedule ([], [])).

(** *** Conditions on the input of repair, used in the statements *)

(** A class or a time slot that starts strictly before it ends. *)
Definition properInterval (startTime endTime : string) : Prop :=
  dateLt (time startTime) (time endTime) = true.

(** The places [findAlternativeSlot] can move the classes of a schedule to. *)
Definition relocations (schedule : list ClassSchedule.t) : list ClassSchedule.t :=
  flat_map (fun classItem => map (moveTo classItem) timeSlots) schedule.

(** The concatenated key of [usedSlots] tells teachers, days and start
    times apart on the classes of [l]. *)
Definition keysFaithful (l : list ClassSchedule.t) : Prop :=
  forall a b, In a l -> In b l -> slotKey a = slotKey b ->
    ClassSchedule.teacherId a = ClassSchedule.teacherId b
    /\ ClassSchedule.day a = ClassSchedule.day b
    /\ ClassSchedule.startTime a = ClassSchedule.startTime b.

(** A state of the repair loop that repairing its own repaired schedule
    reproduces, whose keys are keys of repaired classes, and whose
    repaired classes come from [pool]. *)
Definition settled (pool : list ClassSchedule.t)
  (st : list ClassSchedule.t * list string) : Prop :=
  repairLoop (fst st) ([], []) = st
  /\ (forall k, has (snd st) k = true -> exists e, In e (fst st) /\ slotKey e = k)
  /\ (forall e, In e (fst st) -> In e pool).

Definition keysFaithfulb (l : list ClassSchedule.t) : bool :=
  forallb
    (fun a =>
       forallb
         (fun b =>
            implb (slotKey a =? slotKey b)
              ((ClassSchedule.teacherId a =? ClassSchedule.teacherId b)
               && (ClassSchedule.day a =? ClassSchedule.day b)
               && (ClassSchedule.startTime a =? ClassSchedule.startTime b)))
         l)
    l.

(** *** Fitness *)

(** [teacherWorkload] is a plain object: the count of a teacher whose id is
    an inherited name is a text, and the sums that meet it are [NaN]. *)
Definition calculateWorkloadBalance (schedule : list ClassSchedule.t) : number :=
  let teacherWorkload :=
    fold_left (fun m cls => bumpObject (ClassSchedule.teacherId cls) m) schedule [] in
  let workloads := map (fun kv => counterValue (snd kv)) teacherWorkload in
  match workloads with
  | [] => finite 0
  | _ :: _ =>
      let avg := Num.div (Num.sum workloads) (finite (size workloads)) in
      let variance :=
        Num.div
          (fold_left
             (fun sum load => Num.add sum (Num.mul (Num.sub load avg) (Num.sub load avg)))
             workloads (finite 0))
          (finite (size workloads)) in
      Num.max (finite 0)
        (Num.sub (finite 1) (Num.div variance (Num.orElse (Num.mul avg avg) (finite 1))))
  end.

(** [roomUsage] is a plain object as well, and the two quotients are
    unguarded: with no time slot a rate is [NaN] or infinite, and with no
    room the average is [NaN]. *)
Definition calculateRoomUtilization (schedule : list ClassSchedule.t) : number :=
  let roomUsage :=
    fold_left (fun m cls => bumpObject (ClassSchedule.roomId cls) m) schedule [] in
  let totalSlots := (Z.of_nat (List.length timeSlots) * 5)%Z in
  let utilizationRates :=
    map (fun room => Num.div (countIn roomUsage (Room.id room)) (finite (inject_Z totalSlots)))
      rooms in
  Num.div (Num.sum utilizationRates) (finite (size rooms)).

Definition calculateTimeDistribution (schedule : list ClassSchedule.t) : Q :=
  let timeSlotUsage :=
    tally (map (fun cls => ClassSchedule.day cls +++ "_" +++ ClassSchedule.startTime cls)
             schedule) in
  let usageCounts := map (fun kv => inject_Z (snd kv)) timeSlotUsage in
  match usageCounts with
  | [] => 0
  | _ :: _ =>
      let mean := sumQ usageCounts / size usageCounts in
      let variance :=
        fold_left (fun sum count => sum + (count - mean) * (count - mean)) usageCounts 0
        / size usageCounts in
      Qmax 0 (1 - variance / orOne mean)
  end.

(** The three tests of [calculateConstraintSatisfaction] on one class. *)
Definition teacherAvailabilityOk (cls : ClassSchedule.t) : bool :=
  match find (fun t => Teacher.id t =? ClassSchedule.teacherId cls) teachers with
  | None => false
  | Some teacher =>
      existsb
        (fun avail =>
           (Availability.day avail =? ClassSchedule.day cls)
           && existsb
                (fun slot =>
                   match find (fun ts => TimeSlot.id ts =? slot) timeSlots with
                   | None => false
                   | Some timeSlot =>
                       TimeSlot.startTime timeSlot =? ClassSchedule.startTime cls
                   end)
                (Availability.timeSlots avail))
        (Teacher.availability teacher)
  end.

Definition inPreferredWindow (startTime : string) : bool :=
  let preferredStart := time (TimetableConstraints.preferredStartTime constraints) in
  let preferredEnd := time (TimetableConstraints.preferredEndTime constraints) in
  dateLe preferredStart (time startTime) && dateLe (time startTime) preferredEnd.

Definition roomTypeOk (cls : ClassSchedule.t) : bool :=
  match find (fun r => Room.id r =? ClassSchedule.roomId cls) rooms,
        match ClassSchedule.subjectId cls with
        | None => None
        | Some sid => find (fun s => Subject.id s =? sid) subjects
        end
  with
  | Some room, Some subject =>
      RoomType_eqb (Room.type room)
        (match Subject.type subject with lab => lab | theory => theory end)
  | _, _ => false
  end.

(** One iteration of the [forEach] of [calculateConstraintSatisfaction];
    the state is [(satisfied, total)]. *)
Definition checkClass (st : Z * Z) (cls : ClassSchedule.t) : Z * Z :=
  let '(satisfied, total) := st in
  let total := (total + 3)%Z in
  let satisfied := if teacherAvailabilityOk cls then (satisfied + 1)%Z else satisfied in
  let satisfied :=
    if inPreferredWindow (ClassSchedule.startTime cls) then (satisfied + 1)%Z
    else satisfied in
  let satisfied := if roomTypeOk cls then (satisfied + 1)%Z else satisfied in
  (satisfied, total).

Definition calculateConstraintSatisfaction (schedule : list ClassSchedule.t) : Q :=
  let '(satisfied, total) := fold_left checkClass schedule (0%Z, 0%Z) in
  if (0 <? total)%Z then inject_Z satisfied / inject_Z total else 0.

(** The body of the inner [for] loop of [calculateGapPenalty]: the hours
    added to [totalGaps] for two consecutive classes of one teacher-day. *)
Definition gapBetween (current next : ClassSchedule.t) : Z :=
  let currentEnd := time (ClassSchedule.endTime current) in
  let nextStart := time (ClassSchedule.startTime next) in
  match nextStart, currentEnd with
  | Some n, Some c =>
      let gapMinutes := inject_Z (n - c) / 60000 in
      if Qlt_le_dec
           (TimetableConstraints.minBreakBetweenClasses constraints + 60) gapMinutes
      then Qfloor (gapMinutes / 60)
      else 0%Z
  | _, _ => 0%Z
  end.

Fixpoint dayGaps (classes : list ClassSchedule.t) : Z :=
  match classes with
  | current :: ((next :: _) as rest) => (gapBetween current next + dayGaps rest)%Z
  | _ => 0%Z
  end.

Definition calculateGapPenalty (schedule : list ClassSchedule.t) : Z :=
  let daySchedules :=
    fold_left
      (fun m cls =>
         pushTo (ClassSchedule.teacherId cls +++ "_" +++ ClassSchedule.day cls) cls m)
      schedule [] in
  fold_left
    (fun totalGaps entry =>
       (totalGaps
        + dayGaps
            (sortBy
               (fun a b =>
                  localeCompare (ClassSchedule.startTime a) (ClassSchedule.startTime b))
               (snd entry)))%Z)
    daySchedules 0%Z.

Record ActualCourse : Type := mkActualCourse
  { ac_id : string; ac_courseId : string; ac_subjectId : string;
    ac_section : string; ac_semester : Z; ac_roomType : RoomType;
    ac_studentsCount : Z; ac_sessionsPerWeek : Z }.

(** The filter of [generateActualCourses]; [%] is JavaScript's remainder. *)
Definition subjectWanted (course : Course.t) (subject : Subject.t) : bool :=
  if negb (Subject.courseId subject =? Course.id course) then false
  else
    match TimetableConstraints.semesterParity constraints with
    | Some parity_odd => negb (Z.rem (Subject.semester subject) 2 =? 0)%Z
    | Some parity_even => negb (Z.rem (Subject.semester subject) 2 =? 1)%Z
    | None => true
    end.

Definition generateActualCourses : list ActualCourse :=
  flat_map
    (fun course =>
       match Course.sections course with
       | None | Some [] => []
       | Some sections =>
           flat_map
             (fun section =>
                map
                  (fun subject =>
                     mkActualCourse
                       (Course.id course +++ "_" +++ Subject.id subject +++ "_" +++ section)
                       (Course.id course) (Subject.id subject) section
                       (Subject.semester subject)
                       (match Subject.type subject with lab => lab | theory => theory end)
                       60
                       (match Subject.type subject with lab => 1 | theory => 2 end)%Z)
                  (filter (subjectWanted course) subjects))
             sections
       end)
    courses.

Definition calculateCoverage (schedule : list ClassSchedule.t) : Q :=
  let actualCourses := generateActualCourses in
  let scheduledCourses :=
    fold_left add
      (map
         (fun cls =>
            ClassSchedule.courseId cls +++ "_" +++ show (ClassSchedule.subjectId cls)
            +++ "_" +++ show (ClassSchedule.section cls))
         schedule)
      [] in
  let covered :=
    fold_left
      (fun covered course =>
         if has scheduledCourses (ac_id course) then (covered + 1)%Z else covered)
      actualCourses 0%Z in
  match actualCourses with
  | [] => 0
  | _ :: _ => inject_Z covered / size actualCourses
  end.

(** The [switch] inside the [forEach] over the conflicts. *)
Definition penalise (fitness : Q) (conflict : Conflict.t) : Q :=
  match Conflict.severity conflict with
  | high => fitness - 100
  | medium => fitness - 30
  | low => fitness - 10
  end.

Definition calculateFitness (schedule : list ClassSchedule.t) : number :=
  let fitness := 1000 in
  let conflicts := detectConflicts schedule in
  let fitness := fold_left penalise conflicts fitness in
  let workloadBalance := calculateWorkloadBalance schedule in
  let fitness := Num.add (finite fitness) (Num.mul workloadBalance (finite 80)) in
  let roomUtilization := calculateRoomUtilization schedule in
  let fitness := Num.add fitness (Num.mul roomUtilization (finite 60)) in
  let timeDistribution := calculateTimeDistribution schedule in
  let fitness := Num.add fitness (finite (timeDistribution * 40)) in
  let constraintSatisfaction := calculateConstraintSatisfaction schedule in
  let fitness := Num.add fitness (finite (constraintSatisfaction * 100)) in
  let gapPenalty := inject_Z (calculateGapPenalty schedule) in
  let fitness := Num.sub fitness (finite (gapPenalty * 20)) in
  let coverage := calculateCoverage schedule in
  let fitness := Num.add fitness (finite (coverage * 150)) in
  Num.max fitness (finite 0).

(** [calculateAdaptiveMutationRate]. *)
Definition calculateAdaptiveMutationRate (fitness : number) (baseMutationRate : Q)
  : number :=
  let normalizedFitness :=
    Num.max (finite 0) (Num.min (finite 1) (Num.div fitness (finite 1000))) in
  Num.mul (finite baseMutationRate) (Num.sub (finite 2) normalizedFitness).

(** *** The fitness formula as the specification words it *)

Definition conflictPenalty (c : Conflict.t) : Q :=
  match Conflict.severity c with high => 100 | medium => 30 | low => 10 end.

(** The number of satisfied checks among the three made on one assignment. *)
Definition satisfiedChecks (cls : ClassSchedule.t) : Z :=
  ((if teacherAvailabilityOk cls then 1 else 0)
   + (if inPreferredWindow (ClassSchedule.startTime cls) then 1 else 0)
   + (if roomTypeOk cls then 1 else 0))%Z.

Definition constraintSatisfactionRatio (schedule : list ClassSchedule.t) : Q :=
  match schedule with
  | [] => 0
  | _ :: _ =>
      inject_Z (fold_right Z.add 0%Z (map satisfiedChecks schedule))
      / (3 * size schedule)
  end.

Definition specFitness (schedule : list ClassSchedule.t) : number :=
  Num.max (finite 0)
    (Num.add
       (Num.add
          (Num.add
             (finite
                (1000
                 - fold_right Qplus 0 (map conflictPenalty (detectConflicts schedule))))
             (Num.mul (finite 80) (calculateWorkloadBalance schedule)))
          (Num.mul (finite 60) (calculateRoomUtilization schedule)))
       (finite
          (40 * calculateTimeDistribution schedule
           + 100 * constraintSatisfactionRatio schedule
           - 20 * inject_Z (calculateGapPenalty schedule)
           + 150 * calculateCoverage schedule))).

End Instance.

End GeneticAlgorithm.

(** ** [utils/hybridOptimizer.ts]: [HybridOptimizer.optimize] *)

Module HybridOptimizer.

(** One entry of the [demand] array of a section. *)
Record Demand : Type := mkDemand
  { subject : Subject.t; remaining : Z; usedDays : list string }.

(** The schedule under construction and the three occupancy sets, shared
    by all courses and sections. *)
Record Occupancy : Type := mkOccupancy
  { testSchedule : list ClassSchedule.t;
    occupiedByTeacher : list string;
    occupiedByRoom : list string;
    occupiedBySection : list string }.

(** The state local to one section. *)
Record SectionState : Type := mkSectionState
  { demand : list Demand;
    sectionTeacherAssignments : list (string * string);
    placedOnDay : list (string * Z) }.

(** The arguments of one call of [onProgress]. *)
Record Progress : Type := mkProgress
  { progress : Z; generation : Z; bestFitness : Z }.

Definition dayOrder : list string :=
  ["Monday"; "Tuesday"; "Wednesday"; "Thursday"; "Friday"].

Definition totalRemaining (demand : list Demand) : Z :=
  fold_left (fun a b => (a + remaining b)%Z) demand 0%Z.

(** The call [onProgress?.(i, Math.floor(i / 10), 50 + i * 5)] for
    [i = 0, 10, ..., 100]. *)
Definition simulatedProgress : list Progress :=
  map (fun k => let i := (10 * Z.of_nat k)%Z in mkProgress i (i / 10) (50 + i * 5))
    (seq 0 11).

Section Instance.

Variable courses : list Course.t.
Variable teachers : list Teacher.t.
Variable rooms : list Room.t.
Variable timeSlots : list TimeSlot.t.
Variable constraints : TimetableConstraints.t.
Variable subjects : list Subject.t.
Variable localeCompare : string -> string -> comparison.

Definition filteredSubjects : list Subject.t :=
  filter
    (fun s =>
       match TimetableConstraints.semesterParity constraints with
       | None => true
       | Some parity_odd => (Z.rem (Subject.semester s) 2 =? 1)%Z
       | Some parity_even => (Z.rem (Subject.semester s) 2 =? 0)%Z
       end)
    subjects.

(** [dayToSlots], a plain object: the time slots by day, each day sorted by
    start time; [None] when filing a slot throws a [TypeError]. *)
Definition dayToSlots : option (list (string * list TimeSlot.t)) :=
  match groupInObject TimeSlot.day timeSlots with
  | Some m =>
      Some
        (map
           (fun entry =>
              (fst entry,
               sortBy
                 (fun a b => localeCompare (TimeSlot.startTime a) (TimeSlot.startTime b))
                 (snd entry)))
           m)
  | None => None
  end.

(** [courseIdToSubjects], a plain object as well. *)
Definition courseIdToSubjects : option (list (string * list Subject.t)) :=
  groupInObject Subject.courseId filteredSubjects.

(** [(section.charCodeAt(0) + course.id.length) % dayOrder.length]; on an
    empty section name the sum is [NaN], which [slice] reads as 0. *)
Definition rotation (course : Course.t) (section : string) : nat :=
  match section with
  | EmptyString => 0%nat
  | String c _ => ((nat_of_ascii c + String.length (Course.id course)) mod 5)%nat
  end.

Definition rotatedDays (course : Course.t) (section : string) : list string :=
  let rot := rotation course section in
  skipn rot dayOrder ++ firstn rot dayOrder.

(** [t.taughtSubjectIds?.includes(d.subject.id) ||
    t.departmentCourseId === course.id]. *)
Definition qualified (course : Course.t) (d : Demand) (t : Teacher.t) : bool :=
  match Teacher.taughtSubjectIds t with
  | Some ids => includes ids (Subject.id (subject d))
  | None => false
  end
  || match Teacher.departmentCourseId t with
     | Some c => c =? Course.id course
     | None => false
     end.

(** The loop of [tryPlaceOneOnDay] over the slots of the day. *)
Fixpoint placeInSlots (course : Course.t) (section day : string)
  (slots : list TimeSlot.t) (occ : Occupancy) (st : SectionState)
  : bool * Occupancy * SectionState :=
  match slots with
  | [] => (false, occ, st)
  | slot :: slots' =>
      match
        findIndex (fun d => (0 <? remaining d)%Z && negb (has (usedDays d) day))
          (demand st)
      with
      | None => (false, occ, st)
      | Some idx =>
          match nth_error (demand st) idx with
          | None => (false, occ, st)
          | Some d =>
              let availableTeachers :=
                filter
                  (fun t =>
                     qualified course d t
                     && negb (has (occupiedByTeacher occ)
                                (Teacher.id t +++ "|" +++ TimeSlot.id slot)))
                  teachers in
              match availableTeachers with
              | [] => placeInSlots course section day slots' occ st
              | firstAvailable :: _ =>
                  let unassignedTeachers :=
                    filter
                      (fun teacher =>
                         negb (includes (map snd (sectionTeacherAssignments st))
                                 (Teacher.id teacher)))
                      availableTeachers in
                  let teacher :=
                    match unassignedTeachers with
                    | t :: _ => t
                    | [] => firstAvailable
                    end in
                  match
                    find
                      (fun r =>
                         RoomType_eqb (Room.type r) (Subject.type (subject d))
                         && negb (has (occupiedByRoom occ)
                                    (Room.id r +++ "|" +++ TimeSlot.id slot)))
                      rooms
                  with
                  | None => placeInSlots course section day slots' occ st
                  | Some room =>
                      let sectionKey :=
                        Course.id course +++ "|" +++ section +++ "|" +++ TimeSlot.id slot in
                      if has (occupiedBySection occ) sectionKey then
                        placeInSlots course section day slots' occ st
                      else
                        let assignment :=
                          ClassSchedule.mk
                            ("sched_" +++ Course.id course +++ "_" +++ section +++ "_"
                             +++ Subject.id (subject d) +++ "_" +++ TimeSlot.id slot)
                            (Course.id course) (Some (Subject.id (subject d)))
                            (Some section) (Some (Subject.semester (subject d)))
                            (Teacher.id teacher) (Room.id room) (TimeSlot.id slot)
                            (TimeSlot.day slot) (TimeSlot.startTime slot)
                            (TimeSlot.endTime slot) in
                        (true,
                         mkOccupancy
                           (testSchedule occ ++ [assignment])
                           (add (occupiedByTeacher occ)
                              (Teacher.id teacher +++ "|" +++ TimeSlot.id slot))
                           (add (occupiedByRoom occ)
                              (Room.id room +++ "|" +++ TimeSlot.id slot))
                           (add (occupiedBySection occ) sectionKey),
                         mkSectionState
                           (replaceAt idx
                              (mkDemand (subject d) (remaining d - 1)
                                 (add (usedDays d) day))
                              (demand st))
                           (set (Subject.id (subject d)) (Teacher.id teacher)
                              (sectionTeacherAssignments st))
                           (bump day (placedOnDay st)))
                  end
              end
          end
      end
  end.

Section Tables.

(** The own properties of [dayToSlots] and of [courseIdToSubjects] once
    the two objects are filled. *)
Variable slotsOfDay : list (string * list TimeSlot.t).
Variable subjectsOfCourse : list (string * list Subject.t).

(** [tryPlaceOneOnDay]; it is called with the days of [dayOrder], none of
    which is an inherited name. *)
Definition tryPlaceOneOnDay (course : Course.t) (section day : string)
  (occ : Occupancy) (st : SectionState) : bool * Occupancy * SectionState :=
  let slots := match lookup slotsOfDay day with Some l => l | None => [] end in
  placeInSlots course section day slots occ st.

(** One round of pass 1: the [for] loop over the rotated days; the state
    carries [remainingTotal] and [placedSomething]. *)
Fixpoint pass1Round (course : Course.t) (section : string) (days : list string)
  (remainingTotal : Z) (placedSomething : bool) (occ : Occupancy) (st : SectionState)
  : Z * bool * Occupancy * SectionState :=
  match days with
  | [] => (remainingTotal, placedSomething, occ, st)
  | day :: days' =>
      if (remainingTotal <=? 0)%Z then (remainingTotal, placedSomething, occ, st)
      else
        let '(placed, occ', st') := tryPlaceOneOnDay course section day occ st in
        if placed then
          pass1Round course section days' (totalRemaining (demand st')) true occ' st'
        else pass1Round course section days' remainingTotal placedSomething occ' st'
  end.

(** The [while (remainingTotal > 0)] loop of pass 1, for at most [fuel]
    rounds; [None] when the rounds are used up. *)
Fixpoint pass1 (fuel : nat) (course : Course.t) (section : string)
  (remainingTotal : Z) (occ : Occupancy) (st : SectionState)
  : option (Occupancy * SectionState) :=
  if (0 <? remainingTotal)%Z then
    match fuel with
    | O => None
    | S fuel' =>
        let '(remainingTotal', placedSomething, occ', st') :=
          pass1Round course section (rotatedDays course section) remainingTotal false
            occ st in
        if placedSomething then pass1 fuel' course section remainingTotal' occ' st'
        else Some (occ', st')
    end
  else Some (occ, st).

(** The [while (tryMore > 0 && ...)] loop of pass 2 on one day. *)
Fixpoint fillDay (tryMore : nat) (course : Course.t) (section day : string)
  (occ : Occupancy) (st : SectionState) : Occupancy * SectionState :=
  match tryMore with
  | O => (occ, st)
  | S tryMore' =>
      if existsb (fun d => (0 <? remaining d)%Z) (demand st) then
        let '(placed, occ', st') := tryPlaceOneOnDay course section day occ st in
        if placed then fillDay tryMore' course section day occ' st' else (occ', st')
      else (occ, st)
  end.

Definition pass2 (course : Course.t) (section : string)
  (occ : Occupancy) (st : SectionState) : Occupancy * SectionState :=
  if (0 <? totalRemaining (demand st))%Z then
    fold_left (fun os day => fillDay 3 course section day (fst os) (snd os))
      (rotatedDays course section) (occ, st)
  else (occ, st).

(** The body of the loop over the sections of a course. *)
Definition scheduleSection (course : Course.t) (subjectsForCourse : list Subject.t)
  (section : string) (occ : Occupancy) : option Occupancy :=
  let demand :=
    map
      (fun s =>
         mkDemand s (match Subject.type s with lab => 1 | theory => 2 end)%Z [])
      subjectsForCourse in
  let st :=
    mkSectionState demand []
      [("Monday", 0%Z); ("Tuesday", 0%Z); ("Wednesday", 0%Z); ("Thursday", 0%Z);
       ("Friday", 0%Z)] in
  let remainingTotal := totalRemaining demand in
  match pass1 (Z.to_nat remainingTotal) course section remainingTotal occ st with
  | None => None
  | Some (occ1, st1) => Some (fst (pass2 course section occ1 st1))
  end.

Fixpoint scheduleSections (course : Course.t) (subjectsForCourse : list Subject.t)
  (sections : list string) (occ : Occupancy) : option Occupancy :=
  match sections with
  | [] => Some occ
  | section :: sections' =>
      match scheduleSection course subjectsForCourse section occ with
      | None => None
      | Some occ' => scheduleSections course subjectsForCourse sections' occ'
      end
  end.

(** With no subject filed under [id], [courseIdToSubjects[id] || []] is the
    empty array, unless [id] is an inherited name: then it is the
    inherited value. A function without parameters has [length] 0 and
    passes for an empty array; any other inherited value is [unreadable]:
    it has no [map], and the loop over the sections throws a
    [TypeError]. *)
Definition unreadable (id : string) : bool :=
  match lookup objectPrototype id with
  | None | Some (Some 0%Z) => false
  | Some _ => true
  end.

(** The body of the loop over the courses. *)
Definition scheduleCourse (course : Course.t) (occ : Occupancy) : Completion Occupancy :=
  match lookup subjectsOfCourse (Course.id course) with
  | Some [] => Returned occ
  | Some subjectsForCourse =>
      let sections :=
        match Course.sections course with
        | Some ((_ :: _) as sections) => sections
        | _ => ["A"]
        end in
      match scheduleSections course subjectsForCourse sections occ with
      | Some occ' => Returned occ'
      | None => OutOfFuel
      end
  | None => if unreadable (Course.id course) then Thrown "TypeError" else Returned occ
  end.

Fixpoint scheduleCourses (cs : list Course.t) (occ : Occupancy) : Completion Occupancy :=
  match cs with
  | [] => Returned occ
  | course :: cs' =>
      match scheduleCourse course occ with
      | Returned occ' => scheduleCourses cs' occ'
      | Thrown message => Thrown message
      | OutOfFuel => OutOfFuel
      | Unmodelled why => Unmodelled why
      end
  end.

End Tables.

(** The constructive heuristic that fills [testSchedule]. *)
Definition buildTestSchedule : Completion (list ClassSchedule.t) :=
  match subjects, timeSlots with
  | _ :: _, _ :: _ =>
      match dayToSlots with
      | None => Thrown "TypeError"
      | Some slotsOfDay =>
          match courseIdToSubjects with
          | None => Thrown "TypeError"
          | Some subjectsOfCourse =>
              andThen
                (scheduleCourses slotsOfDay subjectsOfCourse courses
                   (mkOccupancy [] [] [] []))
                testSchedule
          end
      end
  | _, _ => Returned []
  end.

Definition mockResult (schedule : list ClassSchedule.t) : OptimizationResult.t :=
  OptimizationResult.mk schedule (finite 750) []
    (OptimizationMetrics.mk 0 (finite 80) (finite 90) (finite 85) (finite 95))
    [GenerationData.mk 0 500 400 300;
     GenerationData.mk 50 650 550 450;
     GenerationData.mk 100 750 650 550].

(** [optimize]: the calls of [onProgress] it makes, and how it completes. *)
Definition optimize (params : GeneticAlgorithmParams.t)
  : list Progress * Completion OptimizationResult.t :=
  match courses, teachers, rooms with
  | _ :: _, _ :: _, _ :: _ => (simulatedProgress, andThen buildTestSchedule mockResult)
  | _, _, _ => ([], Thrown "Missing required data: courses, teachers, or rooms")
  end.

(** *** The keys of the invariants of a returned schedule *)

Definition roomDayStart (c : ClassSchedule.t) : string * string * string :=
  (ClassSchedule.roomId c, ClassSchedule.day c, ClassSchedule.startTime c).

Definition teacherDayStart (c : ClassSchedule.t) : string * string * string :=
  (ClassSchedule.teacherId c, ClassSchedule.day c, ClassSchedule.startTime c).

(** The keys under which an assignment is recorded in [occupiedByTeacher]
    and [occupiedByRoom]. *)
Definition teacherKey (c : ClassSchedule.t) : string :=
  ClassSchedule.teacherId c +++ "|" +++ ClassSchedule.timeSlotId c.

Definition roomKey (c : ClassSchedule.t) : string :=
  ClassSchedule.roomId c +++ "|" +++ ClassSchedule.timeSlotId c.

(** Time slots that share a day and a start time are the same slot. *)
Definition slotsDistinct : Prop :=
  forall s1 s2, In s1 timeSlots -> In s2 timeSlots ->
    TimeSlot.day s1 = TimeSlot.day s2 ->
    TimeSlot.startTime s1 = TimeSlot.startTime s2 ->
    TimeSlot.id s1 = TimeSlot.id s2.

(** The invariant of the three loops: every assignment made is recorded
    under its keys and sits in a configured time slot, and no key is
    recorded for two assignments. *)
Definition booked (occ : Occupancy) : Prop :=
  (forall c, In c (testSchedule occ) ->
     has (occupiedByTeacher occ) (teacherKey c) = true
     /\ has (occupiedByRoom occ) (roomKey c) = true
     /\ exists slot, In slot timeSlots
                     /\ ClassSchedule.timeSlotId c = TimeSlot.id slot
                     /\ ClassSchedule.day c = TimeSlot.day slot
                     /\ ClassSchedule.startTime c = TimeSlot.startTime slot)
  /\ NoDup (map teacherKey (testSchedule occ))
  /\ NoDup (map roomKey (testSchedule occ)).

(** *** The parts of a returned schedule *)

(** [sections] in the loop over the courses. *)
Definition sectionsOf (course : Course.t) : list string :=
  match Course.sections course with
  | Some ((_ :: _) as sections) => sections
  | _ => ["A"]
  end.

(** What [dayToSlots] and [courseIdToSubjects] hold when no name is
    inherited. *)
Definition slotsByDay : list (string * list TimeSlot.t) :=
  map
    (fun entry =>
       (fst entry,
        sortBy
          (fun a b => localeCompare (TimeSlot.startTime a) (TimeSlot.startTime b))
          (snd entry)))
    (fold_left (fun m slot => pushTo (TimeSlot.day slot) slot m) timeSlots []).

Definition subjectsByCourse : list (string * list Subject.t) :=
  fold_left (fun m subj => pushTo (Subject.courseId subj) subj m) filteredSubjects [].

(** The inputs on which [optimize] meets an inherited name: with a
    subject and a time slot, the day of a time slot, the course id of a
    subject of the requested parity, or the unreadable id of a course. *)
Definition meetsInheritedName : bool :=
  match subjects, timeSlots with
  | _ :: _, _ :: _ =>
      existsb (fun slot => inherited (TimeSlot.day slot)) timeSlots
      || existsb (fun s => inherited (Subject.courseId s)) filteredSubjects
      || existsb (fun c => unreadable (Course.id c)) courses
  | _, _ => false
  end.

(** The subjects filed under the id of a course. *)
Definition subjectsOf (course : Course.t) : list Subject.t :=
  match lookup subjectsByCourse (Course.id course) with
  | Some l => l
  | None => []
  end.

(** The courses and sections in the order in which the two outer loops
    come to them. *)
Definition planOf (cs : list Course.t) : list (Course.t * string) :=
  flat_map
    (fun course =>
       match subjectsOf course with
       | [] => []
       | _ :: _ => map (pair course) (sectionsOf course)
       end)
    cs.

(** The state after the assignment made in [tryPlaceOneOnDay]. *)
Definition placed (course : Course.t) (section day : string) (slot : TimeSlot.t)
  (idx : nat) (d : Demand) (teacher : Teacher.t) (room : Room.t) (occ : Occupancy)
  (st : SectionState) : Occupancy * SectionState :=
  (mkOccupancy
     (testSchedule occ
      ++ [ClassSchedule.mk
            ("sched_" +++ Course.id course +++ "_" +++ section +++ "_"
             +++ Subject.id (subject d) +++ "_" +++ TimeSlot.id slot)
            (Course.id course) (Some (Subject.id (subject d)))
            (Some section) (Some (Subject.semester (subject d)))
            (Teacher.id teacher) (Room.id room) (TimeSlot.id slot)
            (TimeSlot.day slot) (TimeSlot.startTime slot)
            (TimeSlot.endTime slot)])
     (add (occupiedByTeacher occ) (Teacher.id teacher +++ "|" +++ TimeSlot.id slot))
     (add (occupiedByRoom occ) (Room.id room +++ "|" +++ TimeSlot.id slot))
     (add (occupiedBySection occ)
        (Course.id course +++ "|" +++ section +++ "|" +++ TimeSlot.id slot)),
   mkSectionState
     (replaceAt idx (mkDemand (subject d) (remaining d - 1) (add (usedDays d) day))
        (demand st))
     (set (Subject.id (subject d)) (Teacher.id teacher) (sectionTeacherAssignments st))
     (bump day (placedOnDay st))).

(** The state at the start of a section. *)
Definition startOf (subjectsForCourse : list Subject.t) : SectionState :=
  mkSectionState
    (map (fun s => mkDemand s (match Subject.type s with lab => 1 | theory => 2 end)%Z [])
       subjectsForCourse)
    []
    [("Monday", 0%Z); ("Tuesday", 0%Z); ("Wednesday", 0%Z); ("Thursday", 0%Z);
     ("Friday", 0%Z)].

(** A class made of listed parts: a section of a listed course, a subject
    of that course with the requested parity, a listed teacher who teaches
    the subject or belongs to the course, a listed room of the subject's
    type, and a listed time slot of a week day. *)
Definition listed (c : ClassSchedule.t) : Prop :=
  exists course section subject teacher room slot,
    In course courses /\ In section (sectionsOf course)
    /\ In subject filteredSubjects
    /\ Subject.courseId subject = Course.id course
    /\ In teacher teachers
    /\ ((exists ids, Teacher.taughtSubjectIds teacher = Some ids
                     /\ In (Subject.id subject) ids)
        \/ Teacher.departmentCourseId teacher = Some (Course.id course))
    /\ In room rooms /\ Room.type room = Subject.type subject
    /\ In slot timeSlots /\ In (TimeSlot.day slot) dayOrder
    /\ c = ClassSchedule.mk
             ("sched_" +++ Course.id course +++ "_" +++ section +++ "_"
              +++ Subject.id subject +++ "_" +++ TimeSlot.id slot)
             (Course.id course) (Some (Subject.id subject)) (Some section)
             (Some (Subject.semester subject)) (Teacher.id teacher) (Room.id room)
             (TimeSlot.id slot) (TimeSlot.day slot) (TimeSlot.startTime slot)
             (TimeSlot.endTime slot).

End Instance.

(** *** The rules of a returned schedule *)

(** The course and section of an entry of the plan, as a class has them. *)
Definition pairKey (entry : Course.t * string) : string * option string :=
  (Course.id (fst entry), Some (snd entry)).

Definition courseSection (c : ClassSchedule.t) : string * option string :=
  (ClassSchedule.courseId c, ClassSchedule.section c).

(** The subject of a section on a day. *)
Definition subjectDay (c : ClassSchedule.t)
  : string * option string * option string * string :=
  (ClassSchedule.courseId c, ClassSchedule.section c, ClassSchedule.subjectId c,
   ClassSchedule.day c).

(** The section in a time slot. *)
Definition sectionSlot (c : ClassSchedule.t) : string * option string * string :=
  (ClassSchedule.courseId c, ClassSchedule.section c, ClassSchedule.timeSlotId c).

(** The key under which an assignment is recorded in [occupiedBySection]. *)
Definition sectionKey (c : ClassSchedule.t) : string :=
  ClassSchedule.courseId c +++ "|"
  +++ match ClassSchedule.section c with Some s => s | None => "" end
  +++ "|" +++ ClassSchedule.timeSlotId c.

Definition isSession (courseId section subjectId : string) (c : ClassSchedule.t) : bool :=
  (ClassSchedule.courseId c =? courseId)
  && match ClassSchedule.section c with Some s => s =? section | None => false end
  && match ClassSchedule.subjectId c with Some s => s =? subjectId | None => false end.

(** The classes of a subject for a section of a course. *)
Definition sessionsOf (courseId section subjectId : string)
  (schedule : list ClassSchedule.t) : list ClassSchedule.t :=
  filter (isSession courseId section subjectId) schedule.

(** The sessions a subject is to have in a week. *)
Definition wanted (s : Subject.t) : Z :=
  match Subject.type s with lab => 1 | theory => 2 end.

(** The weekly bound on the sessions of a subject for a section. *)
Definition withinWeek (subjects : list Subject.t) (courseId section subjectId : string)
  (schedule : list ClassSchedule.t) : Prop :=
  (List.length (sessionsOf courseId section subjectId schedule) <= 2)%nat
  /\ forall s, In s subjects -> Subject.id s = subjectId -> Subject.type s = lab ->
       (List.length (sessionsOf courseId section subjectId schedule) <= 1)%nat.

(** The rules kept between two sections: the classes belong to the
    sections done, none of these has a subject twice on a day, and each of
    them is within its weekly bound. *)
Definition ruled (subjects : list Subject.t) (done : list (Course.t * string))
  (schedule : list ClassSchedule.t) : Prop :=
  (forall c, In c schedule -> In (courseSection c) (map pairKey done))
  /\ NoDup (map subjectDay schedule)
  /\ forall courseId section subjectId,
       In (courseId, Some section) (map pairKey done) ->
       withinWeek subjects courseId section subjectId schedule.

(** The rules kept within a section. *)
Definition ruledIn (subjects : list Subject.t) (done : list (Course.t * string))
  (course : Course.t) (section : string) (schedule : list ClassSchedule.t)
  (demand : list Demand) : Prop :=
  (forall c, In c schedule ->
     In (courseSection c) (map pairKey done)
     \/ (courseSection c = (Course.id course, Some section)
         /\ exists d, In d demand
                      /\ ClassSchedule.subjectId c = Some (Subject.id (subject d))
                      /\ has (usedDays d) (ClassSchedule.day c) = true))
  /\ NoDup (map subjectDay schedule)
  /\ NoDup (map (fun d => Subject.id (subject d)) demand)
  /\ (forall d, In d demand ->
        In (subject d) subjects
        /\ (0 <= remaining d)%Z
        /\ (Z.of_nat (List.length
                        (sessionsOf (Course.id course) section (Subject.id (subject d))
                           schedule))
            + remaining d = wanted (subject d))%Z)
  /\ forall courseId section subjectId,
       In (courseId, Some section) (map pairKey done) ->
       withinWeek subjects courseId section subjectId schedule.

End HybridOptimizer.

(** ** [utils/cpsatSolver.ts]: the class [CPSATSolver] *)

Module CPSATSolver.

Module CspVariable.
Record t : Type := mk
  { id : string; courseId : string; subjectId : string; section : string;
    teacherId : string; roomId : string; timeSlotId : string; domain : bool }.
End CspVariable.

Inductive ConstraintType : Type :=
  resource_conflict | teacher_availability | room_capacity | time_preference.

Module CspConstraint.
Record t : Type := mk
  { id : string; type : ConstraintType; variables : list string; satisfied : bool }.
End CspConstraint.

(** [this.variables], a [Map] from variable ids to variables. *)
Definition Variables : Type := list (string * CspVariable.t).

(** An assignment of the search, a [Map] from variable ids to booleans. *)
Definition Assignment : Type := list (string * bool).

(** The score of [getConstraintScore]: [Math.log] of a positive count is
    finite, of zero it is minus infinity, of a negative count [NaN]. *)
Inductive Score : Type := Finite (q : Q) | MinusInfinity | NotANumber.

(** [m.delete(key)]. *)
Fixpoint delete {A : Type} (key : string) (m : list (string * A)) : list (string * A) :=
  match m with
  | [] => []
  | (k, v) :: m' => if k =? key then m' else (k, v) :: delete key m'
  end.

(** [m.get(key).add(x)] on a table of sets, creating the entry when it is
    missing. *)
Fixpoint addTo (key x : string) (m : list (string * list string))
  : list (string * list string) :=
  match m with
  | [] => [(key, [x])]
  | (k, l) :: m' => if k =? key then (k, add l x) :: m' else (k, l) :: addTo key x m'
  end.

Definition isResourceConflict (c : CspConstraint.t) : bool :=
  match CspConstraint.type c with resource_conflict => true | _ => false end.

Section Instance.

Variable courses : list Course.t.
Variable teachers : list Teacher.t.
Variable rooms : list Room.t.
Variable timeSlots : list TimeSlot.t.
Variable constraints : TimetableConstraints.t.
Variable subjects : list Subject.t.
Variable parseDate : string -> option Z.

(** [ln n] is [Math.log(n)] for a positive [n]. *)
Variable ln : Z -> Q.

(** [stamp k] is the text of [`${Date.now()}_${Math.random()}`] the [k]-th
    time a class id is made. *)
Variable stamp : nat -> string.

Definition time (hhmm : string) : option Z := parseDate ("1970-01-01T" +++ hhmm).

Definition inPreferredWindow (startTime : string) : bool :=
  let preferredStart := time (TimetableConstraints.preferredStartTime constraints) in
  let preferredEnd := time (TimetableConstraints.preferredEndTime constraints) in
  dateLe preferredStart (time startTime) && dateLe (time startTime) preferredEnd.

Definition teacherAvailableAt (teacher : Teacher.t) (timeSlot : TimeSlot.t) : bool :=
  existsb
    (fun avail =>
       (Availability.day avail =? TimeSlot.day timeSlot)
       && includes (Availability.timeSlots avail) (TimeSlot.id timeSlot))
    (Teacher.availability teacher).

Definition roomTypeFor (subject : Subject.t) : RoomType :=
  match Subject.type subject with lab => lab | theory => theory end.

Definition isVariableValid (subject : Subject.t) (teacher : Teacher.t) (room : Room.t)
  (timeSlot : TimeSlot.t) : bool :=
  let teacherAvailable := teacherAvailableAt teacher timeSlot in
  let roomCompatible := RoomType_eqb (Room.type room) (roomTypeFor subject) in
  let timePreferred := inPreferredWindow (TimeSlot.startTime timeSlot) in
  teacherAvailable && roomCompatible && timePreferred.

Definition subjectWanted (course : Course.t) (subject : Subject.t) : bool :=
  if negb (Subject.courseId subject =? Course.id course) then false
  else
    match TimetableConstraints.semesterParity constraints with
    | Some parity_odd => negb (Z.rem (Subject.semester subject) 2 =? 0)%Z
    | Some parity_even => negb (Z.rem (Subject.semester subject) 2 =? 1)%Z
    | None => true
    end.

(** The variables made for one course, section and subject, in the order
    of the three inner loops. *)
Definition candidateVariables (course : Course.t) (section : string)
  (subject : Subject.t) : list CspVariable.t :=
  let availableTeachers :=
    filter
      (fun t =>
         match Teacher.taughtSubjectIds t with
         | Some ids => includes ids (Subject.id subject)
         | None => false
         end
         || match Teacher.departmentCourseId t with
            | Some c => c =? Course.id course
            | None => false
            end)
      teachers in
  let availableRooms :=
    filter
      (fun room =>
         RoomType_eqb (Room.type room) (roomTypeFor subject)
         && (60 <=? Room.capacity room)%Z)
      rooms in
  flat_map
    (fun teacher =>
       flat_map
         (fun room =>
            map
              (fun timeSlot =>
                 CspVariable.mk
                   (Course.id course +++ "_" +++ Subject.id subject +++ "_" +++ section
                    +++ "_" +++ Teacher.id teacher +++ "_" +++ Room.id room +++ "_"
                    +++ TimeSlot.id timeSlot)
                   (Course.id course) (Subject.id subject) section (Teacher.id teacher)
                   (Room.id room) (TimeSlot.id timeSlot)
                   (isVariableValid subject teacher room timeSlot))
              timeSlots)
         availableRooms)
    availableTeachers.

Definition initializeVariables : Variables :=
  fold_left (fun vars v => set (CspVariable.id v) v vars)
    (flat_map
       (fun course =>
          match Course.sections course with
          | None | Some [] => []
          | Some sections =>
              flat_map
                (fun section =>
                   flat_map (candidateVariables course section)
                     (filter (subjectWanted course) subjects))
                sections
          end)
       courses)
    [].

(** Variable ids grouped by a key of the variable, in insertion order. *)
Definition groupIds (key : CspVariable.t -> string) (vars : Variables)
  : list (string * list string) :=
  fold_left (fun m entry => pushTo (key (snd entry)) (fst entry) m) vars [].

(** The same grouping of the ids [ids], read back from [vars]. *)
Definition groupIdsOf (key : CspVariable.t -> string) (vars : Variables)
  (ids : list string) : list (string * list string) :=
  fold_left
    (fun m varId =>
       match lookup vars varId with
       | Some variable => pushTo (key variable) varId m
       | None => m
       end)
    ids [].

Definition conflictConstraints (prefix timeSlotKey : string)
  (groups : list (string * list string)) : list CspConstraint.t :=
  flat_map
    (fun g =>
       match snd g with
       | _ :: _ :: _ =>
           [CspConstraint.mk (prefix +++ fst g +++ "_" +++ timeSlotKey) resource_conflict
              (snd g) false]
       | _ => []
       end)
    groups.

Definition addResourceConflictConstraints (vars : Variables) : list CspConstraint.t :=
  let timeSlotGroups := groupIds CspVariable.timeSlotId vars in
  flat_map
    (fun g =>
       let timeSlotKey := fst g in
       let variableIds := snd g in
       conflictConstraints "teacher_conflict_" timeSlotKey
         (groupIdsOf CspVariable.teacherId vars variableIds)
       ++ conflictConstraints "room_conflict_" timeSlotKey
            (groupIdsOf CspVariable.roomId vars variableIds))
    timeSlotGroups.

Definition addSubjectRequirementConstraints (vars : Variables) : list CspConstraint.t :=
  map
    (fun g =>
       CspConstraint.mk ("subject_requirement_" +++ fst g) teacher_availability (snd g)
         false)
    (groupIds (fun v => CspVariable.subjectId v +++ "_" +++ CspVariable.section v) vars).

(** The constraints of one section group: the pairs [i < j] of subjects. *)
Fixpoint diversityPairs (vars : Variables) (sectionKey : string)
  (variableIds : list string) (subjectTeacherPairs : list (string * list string))
  : list CspConstraint.t :=
  match subjectTeacherPairs with
  | [] => []
  | (subject1, teachers1) :: rest =>
      flat_map
        (fun st2 =>
           let subject2 := fst st2 in
           let teachers2 := snd st2 in
           let commonTeachers := filter (has teachers2) teachers1 in
           match commonTeachers with
           | [] => []
           | _ :: _ =>
               let conflictingVars :=
                 filter
                   (fun varId =>
                      match lookup vars varId with
                      | Some variable =>
                          ((CspVariable.subjectId variable =? subject1)
                           || (CspVariable.subjectId variable =? subject2))
                          && has commonTeachers (CspVariable.teacherId variable)
                      | None => false
                      end)
                   variableIds in
               match conflictingVars with
               | [] => []
               | _ :: _ =>
                   [CspConstraint.mk
                      ("teacher_diversity_" +++ sectionKey +++ "_" +++ subject1 +++ "_"
                       +++ subject2)
                      resource_conflict conflictingVars false]
               end
           end)
        rest
      ++ diversityPairs vars sectionKey variableIds rest
  end.

Definition addTeacherDiversityConstraints (vars : Variables) : list CspConstraint.t :=
  flat_map
    (fun g =>
       let sectionKey := fst g in
       let variableIds := snd g in
       let subjectTeacherPairs :=
         fold_left
           (fun m varId =>
              match lookup vars varId with
              | Some variable =>
                  addTo (CspVariable.subjectId variable) (CspVariable.teacherId variable) m
              | None => m
              end)
           variableIds [] in
       diversityPairs vars sectionKey variableIds subjectTeacherPairs)
    (groupIds (fun v => CspVariable.courseId v +++ "_" +++ CspVariable.section v) vars).

Definition addWorkloadConstraints (vars : Variables) : list CspConstraint.t :=
  map
    (fun g => CspConstraint.mk ("workload_" +++ fst g) teacher_availability (snd g) false)
    (groupIds CspVariable.teacherId vars).

Definition initializeConstraints (vars : Variables) : list CspConstraint.t :=
  addResourceConflictConstraints vars
  ++ addSubjectRequirementConstraints vars
  ++ addTeacherDiversityConstraints vars
  ++ addWorkloadConstraints vars.

(** *** Propagation *)

(** [this.variables.has(id) && this.variables.get(id)!.domain]. *)
Definition isActive (vars : Variables) (id : string) : bool :=
  match lookup vars id with
  | Some variable => CspVariable.domain variable
  | None => false
  end.

Definition activeVariables (vars : Variables) (constraint : CspConstraint.t) : list string :=
  filter (isActive vars) (CspConstraint.variables constraint).

Definition disable (variable : CspVariable.t) : CspVariable.t :=
  CspVariable.mk (CspVariable.id variable) (CspVariable.courseId variable)
    (CspVariable.subjectId variable) (CspVariable.section variable)
    (CspVariable.teacherId variable) (CspVariable.roomId variable)
    (CspVariable.timeSlotId variable) false.

(** The [forEach] that disables the peers of the only active variable;
    the state is [(this.variables, changed)]. *)
Definition disablePeer (only : string) (st : Variables * bool) (varId : string)
  : Variables * bool :=
  let '(vars, changed) := st in
  if negb (varId =? only) then
    match lookup vars varId with
    | Some variable => (set varId (disable variable) vars, true)
    | None => st
    end
  else st.

(** The guard of [propagateConstraint]: a resource-conflict group with
    exactly one candidate left. *)
Definition hasLoneCandidate (vars : Variables) (constraint : CspConstraint.t) : bool :=
  isResourceConflict constraint
  && match activeVariables vars constraint with
     | [_] => true
     | _ => false
     end.

(** [propagateConstraint]: the constraint and the variables after the
    call, and the value returned. *)
Definition propagateConstraint (constraint : CspConstraint.t) (vars : Variables)
  : CspConstraint.t * Variables * bool :=
  if isResourceConflict constraint then
    match activeVariables vars constraint with
    | [only] =>
        let '(vars', changed) :=
          fold_left (disablePeer only) (CspConstraint.variables constraint) (vars, false) in
        (CspConstraint.mk (CspConstraint.id constraint) (CspConstraint.type constraint)
           (CspConstraint.variables constraint) true,
         vars', changed)
    | _ => (constraint, vars, false)
    end
  else (constraint, vars, false).

(** The [for] loop of one pass over [this.constraintList]. *)
Fixpoint propagateAll (todo : list CspConstraint.t) (vars : Variables) (changed : bool)
  : list CspConstraint.t * Variables * bool :=
  match todo with
  | [] => ([], vars, changed)
  | constraint :: todo' =>
      let '(constraint', vars', changedHere) := propagateConstraint constraint vars in
      let '(done, vars'', changed') :=
        propagateAll todo' vars' (if changedHere then true else changed) in
      (constraint' :: done, vars'', changed')
  end.

(** The [forEach] that deletes the variables whose domain is false. *)
Definition removeInconsistent (vars : Variables) (changed : bool) : Variables * bool :=
  (filter (fun entry => CspVariable.domain (snd entry)) vars,
   if forallb (fun entry => CspVariable.domain (snd entry)) vars then changed else true).

(** The [while (changed && iterations < maxIterations)] loop, with
    [maxIterations - iterations] passes left. *)
Fixpoint propagationLoop (passesLeft : nat) (constraintList : list CspConstraint.t)
  (vars : Variables) : list CspConstraint.t * Variables :=
  match passesLeft with
  | O => (constraintList, vars)
  | S passesLeft' =>
      let '(constraintList', vars', changed) := propagateAll constraintList vars false in
      let '(vars'', changed') := removeInconsistent vars' changed in
      if changed' then propagationLoop passesLeft' constraintList' vars''
      else (constraintList', vars'')
  end.

Definition constraintPropagation (constraintList : list CspConstraint.t) (vars : Variables)
  : list CspConstraint.t * Variables :=
  propagationLoop 100 constraintList vars.

(** What propagation leaves of a constraint: all but its flag
    [satisfied]. *)
Definition sameConstraint (c : CspConstraint.t) : string * ConstraintType * list string :=
  (CspConstraint.id c, CspConstraint.type c, CspConstraint.variables c).

(** *** Search *)

Section Search.

(** [this.constraintList] and [this.variables] after propagation. *)
Variable constraintList : list CspConstraint.t.
Variable vars : Variables.

Definition countConflicts (variableId : string) : nat :=
  List.length
    (filter (fun c => includes (CspConstraint.variables c) variableId) constraintList).

(** [chooseVariable]: the first variable with the fewest constraints;
    [first] is [unassigned[0]], and [minConflicts] starts at infinity. *)
Definition chooseVariable (first : string) (unassigned : list string) : string :=
  snd
    (fold_left
       (fun (st : option nat * string) varId =>
          let conflicts := countConflicts varId in
          match fst st with
          | Some minConflicts =>
              if (conflicts <? minConflicts)%nat then (Some conflicts, varId) else st
          | None => (Some conflicts, varId)
          end)
       unassigned (None, first)).

Definition checkConstraint (constraint : CspConstraint.t) (assignment : Assignment) : bool :=
  if isResourceConflict constraint then
    let trueCount :=
      List.length
        (filter
           (fun varId =>
              match lookup assignment varId with Some true => true | _ => false end)
           (CspConstraint.variables constraint)) in
    (trueCount <=? 1)%nat
  else true.

Definition isConsistent (assignment : Assignment) (variable : string) : bool :=
  forallb (fun constraint => checkConstraint constraint assignment)
    (filter (fun c => includes (CspConstraint.variables c) variable) constraintList).

Definition forwardCheck (assignment : Assignment) (remaining : list string) : list string :=
  filter
    (fun varId =>
       let tempAssignment := set varId true assignment in
       isConsistent tempAssignment varId)
    remaining.

Definition requiredSubjects : list string :=
  fold_left add
    (flat_map
       (fun course =>
          flat_map
            (fun section =>
               map (fun subject => Subject.id subject +++ "_" +++ section)
                 (filter (fun subject => Subject.courseId subject =? Course.id course)
                    subjects))
            (match Course.sections course with Some l => l | None => [] end))
       courses)
    [].

(** The key of a variable in the two sets of [isAssignmentComplete]. *)
Definition coverageKey (v : CspVariable.t) : string :=
  CspVariable.subjectId v +++ "_" +++ CspVariable.section v.

(** Every stored variable belongs to a required (subject, section) key. *)
Definition required : Prop :=
  forall entry, In entry vars -> In (coverageKey (snd entry)) requiredSubjects.

Definition assignedSubjects (assignment : Assignment) : list string :=
  fold_left
    (fun (assigned : list string) (entry : string * bool) =>
       if snd entry then
         match lookup vars (fst entry) with
         | Some variable =>
             add assigned
               (CspVariable.subjectId variable +++ "_" +++ CspVariable.section variable)
         | None => assigned
         end
       else assigned)
    assignment [].

Definition isAssignmentComplete (assignment : Assignment) : bool :=
  let coverage :=
    size (assignedSubjects assignment)
    / inject_Z (Z.max (Z.of_nat (List.length requiredSubjects)) 1) in
  Qle_bool (7 # 10) coverage.

(** The demand units as the specification counts them: a (subject,
    section) pair for each section of a course and each subject of that
    course. [requiredSubjects] holds their keys, of which two units may
    share one. *)
Definition requiredUnits : list (string * string) :=
  flat_map
    (fun course =>
       flat_map
         (fun section =>
            map (fun subject => (Subject.id subject, section))
              (filter (fun subject => Subject.courseId subject =? Course.id course)
                 subjects))
         (match Course.sections course with Some l => l | None => [] end))
    courses.

(** A variable of the unit is selected in the assignment. *)
Definition isCovered (assignment : Assignment) (unit : string * string) : bool :=
  existsb
    (fun entry : string * bool =>
       snd entry
       && match lookup vars (fst entry) with
          | Some variable =>
              (CspVariable.subjectId variable =? fst unit)
              && (CspVariable.section variable =? snd unit)
          | None => false
          end)
    assignment.

(** The demand units that have a selected variable. *)
Definition coveredUnits (assignment : Assignment) : list (string * string) :=
  filter (isCovered assignment) requiredUnits.

(** [backtrack], for a recursion depth of at most [fuel]: [None] when the
    depth is used up, otherwise whether the result is an assignment or
    [null], and the assignment map as the call leaves it. *)
Fixpoint backtrack (fuel : nat) (assignment : Assignment) (unassigned : list string)
  : option (bool * Assignment) :=
  match unassigned with
  | [] => Some (isAssignmentComplete assignment, assignment)
  | first :: _ =>
      match fuel with
      | O => None
      | S fuel' =>
          let variable := chooseVariable first unassigned in
          let remaining := filter (fun v => negb (v =? variable)) unassigned in
          let assignment := set variable true assignment in
          let tried :=
            if isConsistent assignment variable then
              backtrack fuel' assignment (forwardCheck assignment remaining)
            else Some (false, assignment) in
          match tried with
          | None => None
          | Some (true, result) => Some (true, result)
          | Some (false, assignment) =>
              let assignment := set variable false assignment in
              let tried :=
                if isConsistent assignment variable then
                  backtrack fuel' assignment remaining
                else Some (false, assignment) in
              match tried with
              | None => None
              | Some (true, result) => Some (true, result)
              | Some (false, assignment) => Some (false, delete variable assignment)
              end
          end
      end
  end.

Definition backtrackingSearch : option (bool * Assignment) :=
  let unassignedVars :=
    filter (isActive vars) (map fst vars) in
  backtrack (List.length unassignedVars) [] unassignedVars.

(** [assignmentToSchedule]; the state is the schedule and the number of
    ids made. *)
Definition assignmentToSchedule (assignment : Assignment) : list ClassSchedule.t :=
  fst
    (fold_left
       (fun (st : list ClassSchedule.t * nat) (entry : string * bool) =>
          if snd entry then
            match lookup vars (fst entry) with
            | Some variable =>
                match
                  find (fun ts => TimeSlot.id ts =? CspVariable.timeSlotId variable)
                    timeSlots
                with
                | Some timeSlot =>
                    (fst st
                     ++ [ClassSchedule.mk ("class_" +++ stamp (snd st))
                           (CspVariable.courseId variable)
                           (Some (CspVariable.subjectId variable))
                           (Some (CspVariable.section variable)) None
                           (CspVariable.teacherId variable) (CspVariable.roomId variable)
                           (CspVariable.timeSlotId variable) (TimeSlot.day timeSlot)
                           (TimeSlot.startTime timeSlot) (TimeSlot.endTime timeSlot)],
                     S (snd st))
                | None => st
                end
            | None => st
            end
          else st)
       assignment ([], O)).

End Search.

(** *** Scoring of a schedule *)

Definition groupConflicts (type : ConflictType) (label : string)
  (groups : list (string * list ClassSchedule.t)) : list Conflict.t :=
  flat_map
    (fun g =>
       match snd g with
       | _ :: _ :: _ =>
           [Conflict.mk type (label +++ fst g) high (map ClassSchedule.id (snd g))]
       | _ => []
       end)
    groups.

Definition detectConflicts (schedule : list ClassSchedule.t) : list Conflict.t :=
  let roomTimeMap :=
    fold_left
      (fun m cls =>
         pushTo
           (ClassSchedule.roomId cls +++ "_" +++ ClassSchedule.day cls +++ "_"
            +++ ClassSchedule.startTime cls)
           cls m)
      schedule [] in
  let teacherTimeMap :=
    fold_left
      (fun m cls =>
         pushTo
           (ClassSchedule.teacherId cls +++ "_" +++ ClassSchedule.day cls +++ "_"
            +++ ClassSchedule.startTime cls)
           cls m)
      schedule [] in
  groupConflicts room_conflict "Room conflict at " roomTimeMap
  ++ groupConflicts teacher_conflict "Teacher conflict at " teacherTimeMap.

Definition calculateMetrics (schedule : list ClassSchedule.t) (conflicts : list Conflict.t)
  : OptimizationMetrics.t :=
  let totalConflicts := Z.of_nat (List.length conflicts) in
  let roomUsage := tally (map ClassSchedule.roomId schedule) in
  let totalSlots := (Z.of_nat (List.length timeSlots) * 5)%Z in
  let roomUtilization :=
    Num.div (finite (sumQ (map (fun kv => inject_Z (snd kv)) roomUsage)))
      (finite (size rooms * inject_Z totalSlots)) in
  let teacherWorkload := tally (map ClassSchedule.teacherId schedule) in
  let workloads := map (fun kv => finite (inject_Z (snd kv))) teacherWorkload in
  let avgWorkload := Num.div (Num.sum workloads) (finite (size workloads)) in
  let workloadVariance :=
    Num.div
      (fold_left
         (fun sum load =>
            Num.add sum (Num.mul (Num.sub load avgWorkload) (Num.sub load avgWorkload)))
         workloads (finite 0))
      (finite (size workloads)) in
  let teacherWorkloadBalance :=
    Num.max (finite 0)
      (Num.sub (finite 1)
         (Num.div workloadVariance
            (Num.orElse (Num.mul avgWorkload avgWorkload) (finite 1)))) in
  OptimizationMetrics.mk totalConflicts roomUtilization teacherWorkloadBalance
    (Num.max (finite 0)
       (Num.sub (finite 1)
          (Num.div (finite (inject_Z totalConflicts)) (finite (size schedule)))))
    (Num.max (finite 0) (Num.sub (finite 1) (finite (inject_Z totalConflicts / 10)))).

Definition calculateFitness (schedule : list ClassSchedule.t) : Q :=
  let conflicts := detectConflicts schedule in
  let fitness := 1000 - size conflicts * 50 in
  Qmax fitness 0.

Definition resultFor (schedule : list ClassSchedule.t) : OptimizationResult.t :=
  let conflicts := detectConflicts schedule in
  let metrics := calculateMetrics schedule conflicts in
  OptimizationResult.mk schedule (finite (calculateFitness schedule)) conflicts metrics [].

(** The keys of the two maps of [detectConflicts]. *)
Definition roomTimeKey (cls : ClassSchedule.t) : string :=
  ClassSchedule.roomId cls +++ "_" +++ ClassSchedule.day cls +++ "_"
  +++ ClassSchedule.startTime cls.

Definition teacherTimeKey (cls : ClassSchedule.t) : string :=
  ClassSchedule.teacherId cls +++ "_" +++ ClassSchedule.day cls +++ "_"
  +++ ClassSchedule.startTime cls.

(** The teacher, the room and the time slot a class takes. *)
Definition resources (c : ClassSchedule.t) : string * string * string :=
  (ClassSchedule.teacherId c, ClassSchedule.roomId c, ClassSchedule.timeSlotId c).

(** *** The greedy fallback *)

Definition getConstraintScore (course : Course.t) : Score :=
  let students := Course.studentsCount course in
  if (0 <? students)%Z then
    Finite
      (size (Course.requiredEquipment course) * 10
       + ln students * 5
       + inject_Z (Course.sessionsPerWeek course) * 3)
  else if (students =? 0)%Z then MinusInfinity
  else NotANumber.

(** The sign of [bConstraints - aConstraints]; [NaN] counts as zero. *)
Definition byScore (a b : Course.t) : comparison :=
  match getConstraintScore a, getConstraintScore b with
  | Finite x, Finite y => Qcompare y x
  | Finite _, MinusInfinity => Lt
  | MinusInfinity, Finite _ => Gt
  | _, _ => Eq
  end.

(** The two loops of [findBestAssignment]: the candidate assignments, the
    [k]-th of them stamped with the [n + k]-th id. *)
Definition availableAssignments (course : Course.t) (teacher : Teacher.t)
  (roomUsage teacherUsage : list (string * list string)) (n : nat)
  : list ClassSchedule.t * nat :=
  fold_left
    (fun (st : list ClassSchedule.t * nat) (rt : Room.t * TimeSlot.t) =>
       let '(room, timeSlot) := rt in
       if negb (teacherAvailableAt teacher timeSlot) then st
       else
         let roomTimeKey :=
           Room.id room +++ "_" +++ TimeSlot.day timeSlot +++ "_"
           +++ TimeSlot.startTime timeSlot in
         let teacherTimeKey :=
           Teacher.id teacher +++ "_" +++ TimeSlot.day timeSlot +++ "_"
           +++ TimeSlot.startTime timeSlot in
         let roomAvailable :=
           negb (match lookup roomUsage (Room.id room) with
                 | Some used => has used roomTimeKey
                 | None => false
                 end) in
         let teacherTimeAvailable :=
           negb (match lookup teacherUsage (Teacher.id teacher) with
                 | Some used => has used teacherTimeKey
                 | None => false
                 end) in
         if roomAvailable && teacherTimeAvailable then
           (fst st
            ++ [ClassSchedule.mk (Course.id course +++ "_" +++ stamp (snd st))
                  (Course.id course) None None None (Teacher.id teacher) (Room.id room)
                  (TimeSlot.id timeSlot) (TimeSlot.day timeSlot)
                  (TimeSlot.startTime timeSlot) (TimeSlot.endTime timeSlot)],
            S (snd st))
         else st)
    (flat_map
       (fun room =>
          if negb (RoomType_eqb (Room.type room) (Course.roomType course))
             || (Room.capacity room <? Course.studentsCount course)%Z
          then []
          else if negb (forallb (includes (Room.equipment room))
                          (Course.requiredEquipment course))
          then []
          else map (fun timeSlot => (room, timeSlot)) timeSlots)
       rooms)
    ([], n).

Definition findBestAssignment (course : Course.t) (teacher : Teacher.t)
  (roomUsage teacherUsage : list (string * list string)) (n : nat)
  : option ClassSchedule.t * nat :=
  let '(available, n') := availableAssignments course teacher roomUsage teacherUsage n in
  match available with
  | [] => (None, n')
  | firstAvailable :: _ =>
      match
        filter (fun assignment => inPreferredWindow (ClassSchedule.startTime assignment))
          available
      with
      | preferred :: _ => (Some preferred, n')
      | [] => (Some firstAvailable, n')
      end
  end.

(** What [findBestAssignment] may return for a course and its teacher,
    given the two usage maps. *)
Definition offered (course : Course.t) (teacher : Teacher.t)
  (roomUsage teacherUsage : list (string * list string)) (a : ClassSchedule.t) : Prop :=
  exists room timeSlot,
    In room rooms /\ In timeSlot timeSlots
    /\ Room.type room = Course.roomType course
    /\ (Course.studentsCount course <= Room.capacity room)%Z
    /\ (forall eq, In eq (Course.requiredEquipment course) -> In eq (Room.equipment room))
    /\ teacherAvailableAt teacher timeSlot = true
    /\ (forall used, lookup roomUsage (Room.id room) = Some used ->
          has used (roomTimeKey a) = false)
    /\ (forall used, lookup teacherUsage (Teacher.id teacher) = Some used ->
          has used (teacherTimeKey a) = false)
    /\ ClassSchedule.courseId a = Course.id course
    /\ ClassSchedule.teacherId a = Teacher.id teacher
    /\ ClassSchedule.roomId a = Room.id room
    /\ ClassSchedule.timeSlotId a = TimeSlot.id timeSlot
    /\ ClassSchedule.day a = TimeSlot.day timeSlot
    /\ ClassSchedule.startTime a = TimeSlot.startTime timeSlot
    /\ ClassSchedule.endTime a = TimeSlot.endTime timeSlot.

(** The state of [generateConstraintBasedSchedule]. *)
Record Greedy : Type := mkGreedy
  { g_schedule : list ClassSchedule.t;
    roomTimeSlotUsage : list (string * list string);
    teacherTimeSlotUsage : list (string * list string);
    idsMade : nat }.

(** The loop over the sessions of one course. *)
Fixpoint placeSessions (sessions : nat) (course : Course.t) (teacher : Teacher.t)
  (g : Greedy) : Greedy :=
  match sessions with
  | O => g
  | S sessions' =>
      let '(found, n) :=
        findBestAssignment course teacher (roomTimeSlotUsage g) (teacherTimeSlotUsage g)
          (idsMade g) in
      placeSessions sessions' course teacher
        match found with
        | Some assignment =>
            let roomTimeKey :=
              ClassSchedule.roomId assignment +++ "_" +++ ClassSchedule.day assignment
              +++ "_" +++ ClassSchedule.startTime assignment in
            let teacherTimeKey :=
              ClassSchedule.teacherId assignment +++ "_" +++ ClassSchedule.day assignment
              +++ "_" +++ ClassSchedule.startTime assignment in
            mkGreedy (g_schedule g ++ [assignment])
              (addTo (ClassSchedule.roomId assignment) roomTimeKey (roomTimeSlotUsage g))
              (addTo (ClassSchedule.teacherId assignment) teacherTimeKey
                 (teacherTimeSlotUsage g))
              n
        | None =>
            mkGreedy (g_schedule g) (roomTimeSlotUsage g) (teacherTimeSlotUsage g) n
        end
  end.

Definition generateConstraintBasedSchedule : list ClassSchedule.t :=
  let sortedCourses := sortBy byScore courses in
  g_schedule
    (fold_left
       (fun g course =>
          match find (fun t => Teacher.id t =? Course.teacherId course) teachers with
          | None => g
          | Some teacher =>
              placeSessions (Z.to_nat (Course.sessionsPerWeek course)) course teacher g
          end)
       sortedCourses (mkGreedy [] [] [] O)).

Definition solveWithRelaxedConstraints : OptimizationResult.t :=
  resultFor generateConstraintBasedSchedule.

(** *** [solve] *)

Definition solve : Completion OptimizationResult.t :=
  let vars := initializeVariables in
  let constraintList := initializeConstraints vars in
  let '(constraintList, vars) := constraintPropagation constraintList vars in
  match backtrackingSearch constraintList vars with
  | None => OutOfFuel
  | Some (true, assignment) => Returned (resultFor (assignmentToSchedule vars assignment))
  | Some (false, _) => Returned solveWithRelaxedConstraints
  end.

End Instance.

End CPSATSolver.

(** ** The genetic search on shared class objects

    [mutate] copies the array of an individual but not the class objects
    in it, and changes those objects in place; [repairSchedule] and the
    crossovers pass the same objects on to the children. The class objects
    therefore live in a store, a schedule is an array of references into
    it, and this module holds the operations of [GeneticAlgorithm] and of
    [HybridOptimizer] that work by reference. The decisions they take are
    the ones of the module [GeneticAlgorithm] on the values referred to. *)

Module Evolution.

Module Individual.
Record t : Type := mk { schedule : list nat; fitness : Q }.
End Individual.

(** The store of class objects, and the number of calls of [Math.random]
    made so far. *)
Record World : Type := mkWorld { heap : list ClassSchedule.t; draws : nat }.

Definition M (A : Type) : Type := World -> Completion (A * World).

Definition ret {A : Type} (a : A) : M A := fun w => Returned (a, w).

Definition bind {A B : Type} (m : M A) (k : A -> M B) : M B :=
  fun w =>
    match m w with
    | Returned (a, w') => k a w'
    | Thrown message => Thrown message
    | OutOfFuel => OutOfFuel
    | Unmodelled why => Unmodelled why
    end.

Definition throw {A : Type} (message : string) : M A := fun _ => Thrown message.

Notation "x <- m ;; k" := (bind m (fun x => k))
  (at level 61, m at next level, right associativity).

(** Reading a property of [undefined]. *)
Definition typeError {A : Type} : M A := throw "TypeError".

(** A computation that never runs out of the rounds its loops are given. *)
Definition terminates {A : Type} (m : M A) : Prop := forall w, m w <> OutOfFuel.

(** A computation that adds no object to the store and takes none away. *)
Definition steady {A : Type} (m : M A) : Prop :=
  forall w a w', m w = Returned (a, w') -> List.length (heap w') = List.length (heap w).

Definition deref (l : nat) : M ClassSchedule.t :=
  fun w =>
    match nth_error (heap w) l with
    | Some c => Returned (c, w)
    | None => Thrown "TypeError"
    end.

Definition store (l : nat) (c : ClassSchedule.t) : M unit :=
  fun w => Returned (tt, mkWorld (replaceAt l c (heap w)) (draws w)).

Definition alloc (c : ClassSchedule.t) : M nat :=
  fun w => Returned (List.length (heap w), mkWorld (heap w ++ [c]) (draws w)).

(** The classes an array of references refers to. *)
Definition valuesIn (h : list ClassSchedule.t) (schedule : list nat)
  : list ClassSchedule.t :=
  flat_map (fun l => match nth_error h l with Some c => [c] | None => [] end) schedule.

Definition values (schedule : list nat) : M (list ClassSchedule.t) :=
  fun w => Returned (valuesIn (heap w) schedule, w).

(** The start times of the classes of an individual, as the store has
    them. *)
Definition startTimes (h : list ClassSchedule.t) (schedule : list nat) : list string :=
  map ClassSchedule.startTime (valuesIn h schedule).

(** A number that has to be finite for the model to go on. *)
Definition finiteNumber (x : number) : M Q :=
  match x with
  | finite q => ret q
  | _ => fun _ => Unmodelled "a number that is not finite"
  end.

(** [array[i]] where the element is used at once. *)
Definition item {A : Type} (l : list A) (i : nat) : M A :=
  match nth_error l i with Some x => ret x | None => typeError end.

(** The sign of [b.fitness - a.fitness]. *)
Definition byFitness (a b : Individual.t) : comparison :=
  Qcompare (Individual.fitness b) (Individual.fitness a).

(** [array.slice(start, end)] and [array.slice(start)] with integers. *)
Definition clampIndex (k : Z) (len : nat) : nat :=
  if (k <? 0)%Z then Z.to_nat (Z.max (Z.of_nat len + k) 0)
  else Nat.min (Z.to_nat k) len.

Definition slice {A : Type} (l : list A) (start stop : Z) : list A :=
  let s := clampIndex start (List.length l) in
  let e := clampIndex stop (List.length l) in
  firstn (e - s) (skipn s l).

Definition sliceFrom {A : Type} (l : list A) (start : Z) : list A :=
  skipn (clampIndex start (List.length l)) l.

(** [array.splice(i, 1)]. *)
Fixpoint removeAt {A : Type} (i : nat) (l : list A) : list A :=
  match l, i with
  | [], _ => []
  | _ :: l', O => l'
  | x :: l', S i' => x :: removeAt i' l'
  end.

Definition withRoom (c : ClassSchedule.t) (roomId : string) : ClassSchedule.t :=
  ClassSchedule.mk (ClassSchedule.id c) (ClassSchedule.courseId c)
    (ClassSchedule.subjectId c) (ClassSchedule.section c) (ClassSchedule.semester c)
    (ClassSchedule.teacherId c) roomId (ClassSchedule.timeSlotId c)
    (ClassSchedule.day c) (ClassSchedule.startTime c) (ClassSchedule.endTime c).

Definition withTeacher (c : ClassSchedule.t) (teacherId : string) : ClassSchedule.t :=
  ClassSchedule.mk (ClassSchedule.id c) (ClassSchedule.courseId c)
    (ClassSchedule.subjectId c) (ClassSchedule.section c) (ClassSchedule.semester c)
    teacherId (ClassSchedule.roomId c) (ClassSchedule.timeSlotId c)
    (ClassSchedule.day c) (ClassSchedule.startTime c) (ClassSchedule.endTime c).

(** The five fields a swap mutation exchanges, taken from [from]. *)
Definition withPlaceOf (c from : ClassSchedule.t) : ClassSchedule.t :=
  ClassSchedule.mk (ClassSchedule.id c) (ClassSchedule.courseId c)
    (ClassSchedule.subjectId c) (ClassSchedule.section c) (ClassSchedule.semester c)
    (ClassSchedule.teacherId c) (ClassSchedule.roomId from)
    (ClassSchedule.timeSlotId from) (ClassSchedule.day from)
    (ClassSchedule.startTime from) (ClassSchedule.endTime from).

(** The state of the generation loop of [runGeneticEvolution], with the
    calls of [onProgress] made so far. *)
Record Loop : Type := mkLoop
  { population : list Individual.t;
    bestIndividual : Individual.t;
    currentMutationRate : Q;
    stagnationCount : Z;
    lastBestFitness : Q;
    generationData : list GenerationData.t;
    progressCalls : list (Q * Z * Q) }.

Section Instance.

Variable courses : list Course.t.
Variable teachers : list Teacher.t.
Variable rooms : list Room.t.
Variable timeSlots : list TimeSlot.t.
Variable constraints : TimetableConstraints.t.
Variable subjects : list Subject.t.
Variable parseDate : string -> option Z.
Variable localeCompare : string -> string -> comparison.

(** [random k] is the value of the [k]-th call of [Math.random], a number
    from 0 inclusive to 1 exclusive. *)
Variable random : nat -> Q.

Definition mathRandom : M Q :=
  fun w => Returned (random (draws w), mkWorld (heap w) (S (draws w))).

(** [Math.floor(Math.random() * n)]. *)
Definition randomIndex (n : nat) : M nat :=
  r <- mathRandom ;;
  ret (Z.to_nat (Qfloor (r * inject_Z (Z.of_nat n)))).

(** *** [GeneticAlgorithm] by reference *)

(** The fitness of the individuals of this module is a finite number, and
    the module follows the runs in which every fitness is one. Where a
    fitness is [NaN] or infinite the program carries on with it, and the
    comparator of its sorts, [b.fitness - a.fitness], is [NaN] for some
    pairs: it need not be consistent then, in which case the order that
    [sort] gives is left to the implementation. Such a run ends here as
    [Unmodelled]. *)
Definition calculateFitness (schedule : list nat) : M Q :=
  fun w =>
    finiteNumber
      (GeneticAlgorithm.calculateFitness courses teachers rooms timeSlots constraints
         subjects parseDate localeCompare (valuesIn (heap w) schedule))
      w.

(** The loop of [repairSchedule]: a class that is kept stays the same
    object, a class that is moved is a new object. *)
Fixpoint repairLoop (todo : list nat) (repairedSchedule : list nat)
  (usedSlots : list string) : M (list nat) :=
  match todo with
  | [] => ret repairedSchedule
  | l :: todo' =>
      classItem <- deref l ;;
      repaired <- values repairedSchedule ;;
      let slotKey := GeneticAlgorithm.slotKey classItem in
      if negb (has usedSlots slotKey) then
        match GeneticAlgorithm.detectConflictsForClass parseDate classItem repaired with
        | [] => repairLoop todo' (repairedSchedule ++ [l]) (add usedSlots slotKey)
        | _ :: _ =>
            match
              GeneticAlgorithm.findAlternativeSlot teachers timeSlots parseDate classItem
                repaired
            with
            | Some repairedClass =>
                l' <- alloc repairedClass ;;
                repairLoop todo' (repairedSchedule ++ [l'])
                  (add usedSlots (GeneticAlgorithm.slotKey repairedClass))
            | None => repairLoop todo' repairedSchedule usedSlots
            end
        end
      else repairLoop todo' repairedSchedule usedSlots
  end.

Definition repairSchedule (schedule : list nat) : M (list nat) :=
  repairLoop schedule [] [].

(** The end of the three crossovers: both children are repaired, then
    both are scored. *)
Definition makeChildren (child1Schedule child2Schedule : list nat)
  : M (list Individual.t) :=
  repaired1 <- repairSchedule child1Schedule ;;
  repaired2 <- repairSchedule child2Schedule ;;
  fitness1 <- calculateFitness repaired1 ;;
  fitness2 <- calculateFitness repaired2 ;;
  ret [Individual.mk repaired1 fitness1; Individual.mk repaired2 fitness2].

Definition singlePointCrossover (parent1 parent2 : Individual.t) : M (list Individual.t) :=
  let schedule1 := Individual.schedule parent1 in
  let schedule2 := Individual.schedule parent2 in
  let minLength := Nat.min (List.length schedule1) (List.length schedule2) in
  if (minLength =? 0)%nat then ret [parent1; parent2]
  else
    crossoverPoint <- randomIndex minLength ;;
    makeChildren
      (firstn crossoverPoint schedule1 ++ skipn crossoverPoint schedule2)
      (firstn crossoverPoint schedule2 ++ skipn crossoverPoint schedule1).

Definition twoPointCrossover (parent1 parent2 : Individual.t) : M (list Individual.t) :=
  let schedule1 := Individual.schedule parent1 in
  let schedule2 := Individual.schedule parent2 in
  let minLength := Nat.min (List.length schedule1) (List.length schedule2) in
  if (minLength <? 2)%nat then singlePointCrossover parent1 parent2
  else
    point1 <- randomIndex minLength ;;
    point2 <- randomIndex minLength ;;
    let start := Nat.min point1 point2 in
    let stop := Nat.max point1 point2 in
    makeChildren
      (firstn start schedule1 ++ firstn (stop - start) (skipn start schedule2)
       ++ skipn stop schedule1)
      (firstn start schedule2 ++ firstn (stop - start) (skipn start schedule1)
       ++ skipn stop schedule2).

(** The loop of [uniformCrossover], from index [i], for [todo] indices. *)
Fixpoint uniformLoop (todo i : nat) (schedule1 schedule2 child1 child2 : list nat)
  : M (list nat * list nat) :=
  match todo with
  | O => ret (child1, child2)
  | S todo' =>
      r <- mathRandom ;;
      let useParent1 := if Qlt_le_dec r (1 # 2) then true else false in
      let child1 :=
        match useParent1, nth_error schedule1 i, nth_error schedule2 i with
        | true, Some l, _ => child1 ++ [l]
        | _, _, Some l => child1 ++ [l]
        | _, _, None => child1
        end in
      let child2 :=
        match useParent1, nth_error schedule1 i, nth_error schedule2 i with
        | false, Some l, _ => child2 ++ [l]
        | _, _, Some l => child2 ++ [l]
        | _, _, None => child2
        end in
      uniformLoop todo' (S i) schedule1 schedule2 child1 child2
  end.

Definition uniformCrossover (parent1 parent2 : Individual.t) : M (list Individual.t) :=
  let schedule1 := Individual.schedule parent1 in
  let schedule2 := Individual.schedule parent2 in
  let maxLength := Nat.max (List.length schedule1) (List.length schedule2) in
  children <- uniformLoop maxLength 0 schedule1 schedule2 [] [] ;;
  makeChildren (fst children) (snd children).

Definition crossover (parent1 parent2 : Individual.t) : M (list Individual.t) :=
  strategy <- mathRandom ;;
  if Qlt_le_dec strategy (4 # 10) then uniformCrossover parent1 parent2
  else if Qlt_le_dec strategy (7 # 10) then twoPointCrossover parent1 parent2
  else singlePointCrossover parent1 parent2.

Definition mutateTimeSlot (l : nat) : M unit :=
  classItem <- deref l ;;
  match find (fun t => Teacher.id t =? ClassSchedule.teacherId classItem) teachers with
  | None => ret tt
  | Some teacher =>
      let availableTimeSlots :=
        filter (GeneticAlgorithm.teacherAvailableAt teacher) timeSlots in
      match availableTimeSlots with
      | [] => ret tt
      | _ :: _ =>
          k <- randomIndex (List.length availableTimeSlots) ;;
          randomTimeSlot <- item availableTimeSlots k ;;
          store l (GeneticAlgorithm.moveTo classItem randomTimeSlot)
      end
  end.

Definition mutateRoom (l : nat) : M unit :=
  classItem <- deref l ;;
  match
    match ClassSchedule.subjectId classItem with
    | Some sid => find (fun s => Subject.id s =? sid) subjects
    | None => None
    end
  with
  | None => ret tt
  | Some subject =>
      let availableRooms :=
        filter
          (fun room =>
             RoomType_eqb (Room.type room)
               (match Subject.type subject with lab => lab | theory => theory end)
             && (60 <=? Room.capacity room)%Z)
          rooms in
      match availableRooms with
      | [] => ret tt
      | _ :: _ =>
          k <- randomIndex (List.length availableRooms) ;;
          randomRoom <- item availableRooms k ;;
          store l (withRoom classItem (Room.id randomRoom))
      end
  end.

Definition mutateTeacher (l : nat) : M unit :=
  classItem <- deref l ;;
  let availableTeachers :=
    filter
      (fun t =>
         match Teacher.taughtSubjectIds t with
         | Some ids =>
             includes ids
               (match ClassSchedule.subjectId classItem with Some sid => sid | None => "" end)
         | None => false
         end
         || match Teacher.departmentCourseId t with
            | Some c => c =? ClassSchedule.courseId classItem
            | None => false
            end)
      teachers in
  match availableTeachers with
  | _ :: _ :: _ =>
      let otherTeachers :=
        filter (fun t => negb (Teacher.id t =? ClassSchedule.teacherId classItem))
          availableTeachers in
      match otherTeachers with
      | [] => ret tt
      | _ :: _ =>
          k <- randomIndex (List.length otherTeachers) ;;
          randomTeacher <- item otherTeachers k ;;
          store l (withTeacher classItem (Teacher.id randomTeacher))
      end
  | _ => ret tt
  end.

Definition swapMutation (schedule : list nat) (index : nat) : M unit :=
  if (List.length schedule <? 2)%nat then ret tt
  else
    otherIndex <- randomIndex (List.length schedule) ;;
    if (otherIndex =? index)%nat then ret tt
    else
      l1 <- item schedule index ;;
      temp <- deref l1 ;;
      l2 <- item schedule otherIndex ;;
      other <- deref l2 ;;
      _ <- store l1 (withPlaceOf temp other) ;;
      other' <- deref l2 ;;
      store l2 (withPlaceOf other' temp).

(** The loop of [mutate] over the indices of [mutatedSchedule], from [i]. *)
Fixpoint mutateLoop (todo i : nat) (mutatedSchedule : list nat)
  (adaptiveMutationRate : Q) : M unit :=
  match todo with
  | O => ret tt
  | S todo' =>
      r <- mathRandom ;;
      _ <- (if Qlt_le_dec r adaptiveMutationRate then
              mutationType <- mathRandom ;;
              if Qlt_le_dec mutationType (4 # 10) then
                l <- item mutatedSchedule i ;; mutateTimeSlot l
              else if Qlt_le_dec mutationType (7 # 10) then
                l <- item mutatedSchedule i ;; mutateRoom l
              else if Qlt_le_dec mutationType (9 # 10) then
                l <- item mutatedSchedule i ;; mutateTeacher l
              else swapMutation mutatedSchedule i
            else ret tt) ;;
      mutateLoop todo' (S i) mutatedSchedule adaptiveMutationRate
  end.

Definition mutate (individual : Individual.t) (mutationRate : Q) : M Individual.t :=
  let mutatedSchedule := Individual.schedule individual in
  adaptiveMutationRate <-
    finiteNumber
      (GeneticAlgorithm.calculateAdaptiveMutationRate
         (finite (Individual.fitness individual)) mutationRate) ;;
  _ <- mutateLoop (List.length mutatedSchedule) 0 mutatedSchedule adaptiveMutationRate ;;
  repairedSchedule <- repairSchedule mutatedSchedule ;;
  fitness <- calculateFitness repairedSchedule ;;
  ret (Individual.mk repairedSchedule fitness).

(** *** [HybridOptimizer]: selection and the generation loop *)

Definition signature (cls : ClassSchedule.t) : string :=
  ClassSchedule.courseId cls +++ "_" +++ ClassSchedule.teacherId cls +++ "_"
  +++ ClassSchedule.roomId cls +++ "_" +++ ClassSchedule.day cls +++ "_"
  +++ ClassSchedule.startTime cls.

Definition calculateScheduleDifference (schedule1 schedule2 : list ClassSchedule.t) : Q :=
  let set1 := fold_left add (map signature schedule1) [] in
  let set2 := fold_left add (map signature schedule2) [] in
  let intersection := filter (has set2) set1 in
  let union := fold_left add set2 set1 in
  match union with
  | [] => 0
  | _ :: _ => 1 - size intersection / size union
  end.

Definition calculateDiversity (h : list ClassSchedule.t) (individual : Individual.t)
  (others : list Individual.t) : Q :=
  let totalDifference :=
    fold_left
      (fun total other =>
         total
         + calculateScheduleDifference
             (valuesIn h (Individual.schedule individual))
             (valuesIn h (Individual.schedule other)))
      others 0 in
  match others with
  | [] => 0
  | _ :: _ => totalDifference / size others
  end.

(** The [for] loop that finds the most diverse of [remaining]; the state
    is [(maxDiversity, bestIndex)], and [i] the current index. *)
Fixpoint mostDiverse (h : list ClassSchedule.t) (selected remaining : list Individual.t)
  (i : nat) (maxDiversity : Q) (bestIndex : nat) : nat :=
  match remaining with
  | [] => bestIndex
  | candidate :: remaining' =>
      let diversity := calculateDiversity h candidate selected in
      if Qlt_le_dec maxDiversity diversity then
        mostDiverse h selected remaining' (S i) diversity i
      else mostDiverse h selected remaining' (S i) maxDiversity bestIndex
  end.

(** The [while] loop of [diversityPreservingSelection]; every round takes
    one individual out of [remaining], so [rounds] starts at its length. *)
Fixpoint addDiverse (rounds : nat) (h : list ClassSchedule.t) (populationLength : nat)
  (selected remaining : list Individual.t) : list Individual.t :=
  match rounds with
  | O => selected
  | S rounds' =>
      if (List.length selected <? populationLength)%nat then
        match remaining with
        | [] => selected
        | _ :: _ =>
            let bestIndex := mostDiverse h selected remaining 0 (-1) 0 in
            match nth_error remaining bestIndex with
            | Some chosen =>
                addDiverse rounds' h populationLength (selected ++ [chosen])
                  (removeAt bestIndex remaining)
            | None => selected
            end
        end
      else selected
  end.

Definition diversityPreservingSelection (h : list ClassSchedule.t)
  (population : list Individual.t) (eliteSize : Z) : list Individual.t :=
  let population := sortBy byFitness population in
  let selected := slice population 0 eliteSize in
  let remaining := sliceFrom population eliteSize in
  addDiverse (List.length remaining) h (List.length population) selected remaining.

Definition selectParent (population : list Individual.t) : M Individual.t :=
  k1 <- randomIndex (List.length population) ;;
  i1 <- item population k1 ;;
  k2 <- randomIndex (List.length population) ;;
  i2 <- item population k2 ;;
  k3 <- randomIndex (List.length population) ;;
  i3 <- item population k3 ;;
  item (sortBy byFitness [i1; i2; i3]) 0.

(** The [for] loop over the children of a crossover. *)
Fixpoint addChildren (children : list Individual.t) (populationSize : Z)
  (currentMutationRate : Q) (newPopulation : list Individual.t)
  : M (list Individual.t) :=
  match children with
  | [] => ret newPopulation
  | child :: children' =>
      if (Z.of_nat (List.length newPopulation) <? populationSize)%Z then
        r <- mathRandom ;;
        mutated <- (if Qlt_le_dec r currentMutationRate
                    then mutate child currentMutationRate
                    else ret child) ;;
        addChildren children' populationSize currentMutationRate
          (newPopulation ++ [mutated])
      else addChildren children' populationSize currentMutationRate newPopulation
  end.

(** The [while (newPopulation.length < params.populationSize)] loop, for at
    most [fuel] rounds. *)
Fixpoint fillPopulation (fuel : nat) (params : GeneticAlgorithmParams.t)
  (currentMutationRate : Q) (population newPopulation : list Individual.t)
  : M (list Individual.t) :=
  if (Z.of_nat (List.length newPopulation) <? GeneticAlgorithmParams.populationSize params)%Z
  then
    match fuel with
    | O => fun _ => OutOfFuel
    | S fuel' =>
        parent1 <- selectParent population ;;
        parent2 <- selectParent population ;;
        r <- mathRandom ;;
        if Qlt_le_dec r (GeneticAlgorithmParams.crossoverRate params) then
          children <- crossover parent1 parent2 ;;
          newPopulation <-
            addChildren children (GeneticAlgorithmParams.populationSize params)
              currentMutationRate newPopulation ;;
          fillPopulation fuel' params currentMutationRate population newPopulation
        else
          mutated <- mutate parent1 currentMutationRate ;;
          fillPopulation fuel' params currentMutationRate population
            (newPopulation ++ [mutated])
    end
  else ret newPopulation.

(** The elitism loop: [population[i]] for [i] below [eliteSize]. An index
    past the end pushes [undefined], whose fitness is read when the best
    of the new population is looked for: a [TypeError]. *)
Fixpoint elites (count i : nat) (population : list Individual.t) : M (list Individual.t) :=
  match count with
  | O => ret []
  | S count' =>
      elite <- item population i ;;
      rest <- elites count' (S i) population ;;
      ret (elite :: rest)
  end.

(** One generation, from the selection to the new population. *)
Definition nextPopulation (params : GeneticAlgorithmParams.t) (currentMutationRate : Q)
  (population : list Individual.t) : M (list Individual.t) :=
  fun w =>
    let population :=
      diversityPreservingSelection (heap w) population
        (GeneticAlgorithmParams.eliteSize params) in
    let population := sortBy byFitness population in
    (newPopulation <-
       elites (Z.to_nat (GeneticAlgorithmParams.eliteSize params)) 0 population ;;
     fillPopulation
       (Z.to_nat (GeneticAlgorithmParams.populationSize params
                  - Z.of_nat (List.length newPopulation)))
       params currentMutationRate population newPopulation)
      w.

(** [population.reduce((best, ind) => ind.fitness > best.fitness ? ind :
    best, population[0])], whose fitness is read next. *)
Definition fittest (population : list Individual.t) : M Individual.t :=
  match population with
  | [] => typeError
  | first :: _ =>
      ret
        (fold_left
           (fun best ind =>
              if Qlt_le_dec (Individual.fitness best) (Individual.fitness ind)
              then ind else best)
           population first)
  end.

(** The adaptive mutation rate at the start of a generation: the new
    [stagnationCount] and [currentMutationRate]. *)
Definition adapt (params : GeneticAlgorithmParams.t) (generation : Z) (loop : Loop)
  : Z * Q :=
  if (0 <? generation)%Z
     && Qle_bool (Individual.fitness (bestIndividual loop)) (lastBestFitness loop)
  then
    let stagnationCount := (stagnationCount loop + 1)%Z in
    (stagnationCount,
     if (10 <? stagnationCount)%Z
     then Qmin (GeneticAlgorithmParams.mutationRate params * 2) (3 # 10)
     else currentMutationRate loop)
  else (0%Z, GeneticAlgorithmParams.mutationRate params).

Definition maximum (l : list Q) (first : Q) : Q := fold_left Qmax l first.
Definition minimum (l : list Q) (first : Q) : Q := fold_left Qmin l first.

(** The body of the generation loop, up to the progress callback. *)
Definition generationBody (params : GeneticAlgorithmParams.t) (generationOffset : Z)
  (generation : Z) (loop : Loop) : M Loop :=
  let '(stagnationCount, currentMutationRate) := adapt params generation loop in
  population <- nextPopulation params currentMutationRate (population loop) ;;
  currentBest <- fittest population ;;
  let bestIndividual :=
    if Qlt_le_dec (Individual.fitness (bestIndividual loop))
         (Individual.fitness currentBest)
    then currentBest else bestIndividual loop in
  let lastBestFitness := Individual.fitness bestIndividual in
  let fitnesses := map Individual.fitness population in
  let record :=
    GenerationData.mk (generation + generationOffset)
      (maximum fitnesses (Individual.fitness currentBest))
      (sumQ fitnesses / size fitnesses)
      (minimum fitnesses (Individual.fitness currentBest)) in
  let progress :=
    inject_Z (generation + 1) / inject_Z (GeneticAlgorithmParams.generations params)
    * 100 in
  ret
    (mkLoop population bestIndividual currentMutationRate stagnationCount
       lastBestFitness (generationData loop ++ [record])
       (progressCalls loop
        ++ [(progress, (generation + 1 + generationOffset)%Z,
             Individual.fitness bestIndividual)])).

(** The test of the early termination at the end of a generation. *)
Definition goodEnough (loop : Loop) : M bool :=
  best <- values (Individual.schedule (bestIndividual loop)) ;;
  ret
    (if Qlt_le_dec 950 (Individual.fitness (bestIndividual loop)) then
       match GeneticAlgorithm.detectConflicts parseDate best with
       | [] => true
       | _ :: _ => false
       end
     else false).

(** The [for] loop over the generations, [todo] of them left. *)
Fixpoint generationLoop (todo : nat) (params : GeneticAlgorithmParams.t)
  (generationOffset generation : Z) (loop : Loop) : M Loop :=
  match todo with
  | O => ret loop
  | S todo' =>
      loop' <- generationBody params generationOffset generation loop ;;
      stop <- goodEnough loop' ;;
      if stop then ret loop'
      else generationLoop todo' params generationOffset (generation + 1) loop'
  end.

Definition calculateMetrics (conflicts : list Conflict.t) : OptimizationMetrics.t :=
  OptimizationMetrics.mk (Z.of_nat (List.length conflicts)) (finite (85 # 100))
    (finite (92 # 100)) (finite (88 # 100)) (finite (90 # 100)).

(** [runGeneticEvolution]: the result, and the calls of [onProgress]. *)
Definition runGeneticEvolution (initialPopulation : list Individual.t)
  (params : GeneticAlgorithmParams.t) (generationOffset : Z)
  : M (OptimizationResult.t * list (Q * Z * Q)) :=
  initialBest <- fittest initialPopulation ;;
  let start :=
    mkLoop initialPopulation initialBest (GeneticAlgorithmParams.mutationRate params)
      0 (Individual.fitness initialBest) [] [] in
  loop <-
    generationLoop (Z.to_nat (GeneticAlgorithmParams.generations params)) params
      generationOffset 0 start ;;
  schedule <- values (Individual.schedule (bestIndividual loop)) ;;
  let conflicts := GeneticAlgorithm.detectConflicts parseDate schedule in
  let metrics := calculateMetrics conflicts in
  ret
    (OptimizationResult.mk schedule (finite (Individual.fitness (bestIndividual loop)))
       conflicts metrics (generationData loop),
     progressCalls loop).

(** *** [GeneticAlgorithm.selection] *)

(** [array[i]] where an [undefined] element would be passed on; the model
    stops there. *)
Definition element {A : Type} (l : list A) (i : nat) : M A :=
  match nth_error l i with
  | Some x => ret x
  | None => fun _ => Unmodelled "an element that is undefined"
  end.

(** The loop of [tournamentSelection]. *)
Fixpoint tournamentLoop (todo : nat) (population tournament : list Individual.t)
  : M (list Individual.t) :=
  match todo with
  | O => ret tournament
  | S todo' =>
      k <- randomIndex (List.length population) ;;
      individual <- element population k ;;
      tournamentLoop todo' population (tournament ++ [individual])
  end.

Definition tournamentSelection (population : list Individual.t) (tournamentSize : nat)
  : M Individual.t :=
  tournament <- tournamentLoop tournamentSize population [] ;;
  element (sortBy byFitness tournament) 0.

(** The [for] loop of [rouletteWheelSelection] over [adjustedPopulation]. *)
Fixpoint spin (adjustedPopulation : list Individual.t) (cumulativeFitness randomValue : Q)
  : option Individual.t :=
  match adjustedPopulation with
  | [] => None
  | individual :: rest =>
      let cumulativeFitness := cumulativeFitness + Individual.fitness individual in
      if Qle_bool randomValue cumulativeFitness then Some individual
      else spin rest cumulativeFitness randomValue
  end.

(** [rouletteWheelSelection]; with an empty population [Math.min()] is
    [Infinity] and the result [undefined]. *)
Definition rouletteWheelSelection (population : list Individual.t) : M Individual.t :=
  match population with
  | [] => fun _ => Unmodelled "an element that is undefined"
  | first :: _ =>
      let minFitness :=
        minimum (map Individual.fitness population) (Individual.fitness first) in
      let adjustedPopulation :=
        map
          (fun ind =>
             Individual.mk (Individual.schedule ind)
               (Individual.fitness ind - minFitness + 1))
          population in
      let totalFitness :=
        fold_left (fun sum ind => sum + Individual.fitness ind) adjustedPopulation 0 in
      r <- mathRandom ;;
      let randomValue := r * totalFitness in
      match spin adjustedPopulation 0 randomValue with
      | Some individual => ret individual
      | None => element adjustedPopulation (List.length adjustedPopulation - 1)
      end
  end.

(** The [for] loop of [selection] over the tournaments. *)
Fixpoint tournaments (todo : nat) (population selected : list Individual.t)
  : M (list Individual.t) :=
  match todo with
  | O => ret selected
  | S todo' =>
      winner <- tournamentSelection population 3 ;;
      tournaments todo' population (selected ++ [winner])
  end.

(** The [while (selected.length < population.length)] loop of
    [selection], for at most [fuel] rounds. *)
Fixpoint roulettes (fuel : nat) (population selected : list Individual.t)
  : M (list Individual.t) :=
  if (List.length selected <? List.length population)%nat then
    match fuel with
    | O => fun _ => OutOfFuel
    | S fuel' =>
        picked <- rouletteWheelSelection population ;;
        roulettes fuel' population (selected ++ [picked])
    end
  else ret selected.

Definition selection (population : list Individual.t) (eliteSize : Z)
  : M (list Individual.t) :=
  let population := sortBy byFitness population in
  let selected := slice population 0 eliteSize in
  let halfRemaining := ((Z.of_nat (List.length population) - eliteSize) / 2)%Z in
  selected <- tournaments (Z.to_nat halfRemaining) population selected ;;
  roulettes (List.length population) population selected.

(** *** [HybridOptimizer.createVariation] *)

(** The loop of [createVariation], [todo] changes left: a class that is
    changed is a new object. *)
Fixpoint variationLoop (todo : nat) (variation : list nat) : M (list nat) :=
  match todo with
  | O => ret variation
  | S todo' =>
      index <- randomIndex (List.length variation) ;;
      match nth_error variation index with
      | Some l =>
          k <- randomIndex (List.length timeSlots) ;;
          classItem <- deref l ;;
          randomTimeSlot <- item timeSlots k ;;
          l' <- alloc (GeneticAlgorithm.moveTo classItem randomTimeSlot) ;;
          variationLoop todo' (replaceAt index l' variation)
      | None => variationLoop todo' variation
      end
  end.

(** [createVariation]; [Math.floor(schedule.length * 0.1)] is the integer
    quotient of the length by 10. *)
Definition createVariation (schedule : list nat) : M (list nat) :=
  variationLoop (List.length schedule / 10 + 1) schedule.

(** *** Conditions on individuals, used in the statements *)

(** An individual whose classes, as the store has them, are free of
    conflicts and have the fitness the individual records. *)
Definition sound (h : list ClassSchedule.t) (individual : Individual.t) : Prop :=
  GeneticAlgorithm.detectConflicts parseDate (valuesIn h (Individual.schedule individual))
  = []
  /\ GeneticAlgorithm.calculateFitness courses teachers rooms timeSlots constraints
       subjects parseDate localeCompare (valuesIn h (Individual.schedule individual))
     = finite (Individual.fitness individual).

(** An individual whose references all point into the store. *)
Definition allocated (h : list ClassSchedule.t) (individual : Individual.t) : Prop :=
  forall l, In l (Individual.schedule individual) -> (l < List.length h)%nat.

End Instance.

End Evolution.

(** ** Concrete inputs *)

Module Inputs.

Definition slot (id day startTime endTime : string) : TimeSlot.t :=
  TimeSlot.mk id day startTime endTime.

Definition teacher (id : string) (course : option string)
  (taught : option (list string)) (availability : list Availability.t) : Teacher.t :=
  Teacher.mk id id "" [] course taught availability 8 40.

Definition class (id teacherId roomId : string) (s : TimeSlot.t) : ClassSchedule.t :=
  ClassSchedule.mk id "c" None None None teacherId roomId (TimeSlot.id s)
    (TimeSlot.day s) (TimeSlot.startTime s) (TimeSlot.endTime s).

Definition mon9 : TimeSlot.t := slot "s1" "Monday" "09:00" "10:00".
Definition mon10 : TimeSlot.t := slot "s2" "Monday" "10:00" "11:00".

(** Repair: the keys of teacher [a_b] in room [c] and of teacher [a] in
    room [b_c] are the same string. *)
Definition collidingTeachers : list Teacher.t :=
  [teacher "a" None None [Availability.mk "Monday" ["s1"; "s2"]]].

Definition collidingSlots : list TimeSlot.t := [mon9; mon10].

Definition collidingSchedule : list ClassSchedule.t :=
  [class "k1" "a_b" "c" mon10; class "k2" "a" "z" mon9; class "k3" "a" "b_c" mon9].

(** Repair: three classes of teacher [a] in room [r], the first of which
    starts and ends at 10:00; the third clashes with the second. *)
Definition emptyIntervalSchedule : list ClassSchedule.t :=
  [class "e" "a" "r" (slot "s2" "Monday" "10:00" "10:00");
   class "f" "a" "r" mon9;
   class "g" "a" "r" (slot "s3" "Monday" "09:30" "10:30")].

(** Repair: three classes of two teachers in two rooms; the third clashes
    with the first and has to move. *)
Definition plainTeachers : list Teacher.t :=
  [teacher "t1" None None [Availability.mk "Monday" ["s1"; "s2"]];
   teacher "t2" None None [Availability.mk "Monday" ["s1"; "s2"]]].

Definition plainSchedule : list ClassSchedule.t :=
  [class "k1" "t1" "r1" mon9; class "k2" "t2" "r2" mon9; class "k3" "t1" "r2" mon9].

(** [optimize]: one course with two theory subjects, one teacher of the
    department, one theory room, and two time slots that both start on
    Monday at 10:00 (a short and a long one). *)
Definition course (id : string) (sections : option (list string)) : Course.t :=
  Course.mk id id "" 0 1 "" 0 theory [] 1 None sections.

Definition subject (id courseId : string) (type : RoomType) : Subject.t :=
  Subject.mk id courseId 1 id "" type.

Definition room (id : string) (type : RoomType) : Room.t := Room.mk id id 60 type [].

Definition noConstraints : TimetableConstraints.t :=
  TimetableConstraints.mk 6 0 "08:00" "18:00" false false None None None.

Definition params : GeneticAlgorithmParams.t :=
  GeneticAlgorithmParams.mk 50 100 (1 # 10) (8 # 10) 10.

Definition oneCourse : list Course.t := [course "c1" None].
Definition twoSubjects : list Subject.t :=
  [subject "algebra" "c1" theory; subject "logic" "c1" theory].
Definition oneTeacher : list Teacher.t := [teacher "t1" (Some "c1") None []].
Definition oneRoom : list Room.t := [room "r1" theory].

Definition mon10short : TimeSlot.t := slot "mon-10-40min" "Monday" "10:00" "10:40".
Definition mon10long : TimeSlot.t := slot "mon-10-120min" "Monday" "10:00" "12:00".
Definition tue10short : TimeSlot.t := slot "tue-10-40min" "Tuesday" "10:00" "10:40".

Definition coincidingSlots : list TimeSlot.t := [mon10short; mon10long].
Definition separateSlots : list TimeSlot.t := [mon10short; tue10short].

(** A time slot whose day is a name that every object inherits. *)
Definition inheritedDaySlots : list TimeSlot.t :=
  [slot "s1" "constructor" "10:00" "10:40"].

(** What [optimize] returns on the two separate slots: algebra on Monday
    and Tuesday, logic on Monday and Tuesday in no free slot, so only the
    two sessions of algebra. *)
Definition separateResult : OptimizationResult.t :=
  HybridOptimizer.mockResult
    [ClassSchedule.mk "sched_c1_A_algebra_mon-10-40min" "c1" (Some "algebra") (Some "A")
       (Some 1%Z) "t1" "r1" "mon-10-40min" "Monday" "10:00" "10:40";
     ClassSchedule.mk "sched_c1_A_algebra_tue-10-40min" "c1" (Some "algebra") (Some "A")
       (Some 1%Z) "t1" "r1" "tue-10-40min" "Tuesday" "10:00" "10:40"].

(** Scenario D: one feasible slot, and two subjects of section A that
    can only be taught by the same teacher in the same room. *)
Definition sectionA : list Course.t := [course "c1" (Some ["A"])].

Definition mondayTeacher : list Teacher.t :=
  [teacher "t1" (Some "c1") None [Availability.mk "Monday" ["mon-10-40min"]]].

Definition oneSlot : list TimeSlot.t := [mon10short].

(** The same section with a teacher for each subject, both free on Monday
    and on Tuesday. *)
Definition bothDays : list Availability.t :=
  [Availability.mk "Monday" ["mon-10-40min"]; Availability.mk "Tuesday" ["tue-10-40min"]].

Definition twoTeachers : list Teacher.t :=
  [teacher "t1" None (Some ["algebra"]) bothDays;
   teacher "t2" None (Some ["logic"]) bothDays].

(** A course of teacher t1 with thirty students, held twice a week. *)
Definition taughtCourse : list Course.t :=
  [Course.mk "c1" "c1" "" 0 1 "t1" 30 theory [] 2 None (Some ["A"])].

Definition algebraVariable : string := "c1_algebra_A_t1_r1_mon-10-40min".
Definition logicVariable : string := "c1_logic_A_t1_r1_mon-10-40min".

Definition scenarioDVariables : CPSATSolver.Variables :=
  CPSATSolver.initializeVariables sectionA mondayTeacher oneRoom oneSlot noConstraints
    twoSubjects Runtime.isoDate.

Definition scenarioDConstraints : list CPSATSolver.CspConstraint.t :=
  CPSATSolver.initializeConstraints scenarioDVariables.

(** The same section and teacher with the Tuesday slot as well, in which
    the teacher is not available: the two Tuesday variables start with the
    domain false. *)
Definition halfWeekVariables : CPSATSolver.Variables :=
  CPSATSolver.initializeVariables sectionA mondayTeacher oneRoom separateSlots
    noConstraints twoSubjects Runtime.isoDate.

Definition halfWeekConstraints : list CPSATSolver.CspConstraint.t :=
  CPSATSolver.initializeConstraints halfWeekVariables.

(** Two demand units with one key: subject [s_A] for section [x] of
    course c1 and subject [s] for section [A_x] of course c2, with one
    teacher of both subjects who is free in the only slot. *)
Definition unitCourses : list Course.t :=
  [course "c1" (Some ["x"]); course "c2" (Some ["A_x"])].

Definition unitSubjects : list Subject.t :=
  [subject "s_A" "c1" theory; subject "s" "c2" theory].

Definition unitTeacher : list Teacher.t :=
  [teacher "t1" None (Some ["s_A"; "s"]) [Availability.mk "Monday" ["mon-10-40min"]]].

Definition unitVariables : CPSATSolver.Variables :=
  CPSATSolver.initializeVariables unitCourses unitTeacher oneRoom oneSlot noConstraints
    unitSubjects Runtime.isoDate.

(** The genetic search: the values [Math.random] returns in a run, 0.5
    once the list is used up. *)
Definition randomFrom (values : list Q) (k : nat) : Q := nth k values (1 # 2).

(** Elitism (Scenario C): one teacher, one room and twelve hourly slots
    on Monday. Ten individuals of two class objects each, a class at
    08:00 and a class at 10:00, 11:00, ..., 19:00; the fitness of each is
    the one [calculateFitness] gives its schedule. *)
Definition hour (h : nat) : string :=
  match h with
  | 8 => "08" | 9 => "09" | 10 => "10" | 11 => "11" | 12 => "12" | 13 => "13"
  | 14 => "14" | 15 => "15" | 16 => "16" | 17 => "17" | 18 => "18" | 19 => "19"
  | _ => "20"
  end%nat.

Definition mondaySlot (h : nat) : TimeSlot.t :=
  slot ("mon-" +++ hour h) "Monday" (hour h +++ ":00") (hour (S h) +++ ":00").

Definition mondaySlots : list TimeSlot.t := map mondaySlot (seq 8 12).

Definition mondayLongTeacher : list Teacher.t :=
  [teacher "t1" (Some "c1") None [Availability.mk "Monday" (map TimeSlot.id mondaySlots)]].

Definition lesson (id subjectId : string) (s : TimeSlot.t) : ClassSchedule.t :=
  ClassSchedule.mk id "c1" (Some subjectId) (Some "A") (Some 1%Z) "t1" "r1"
    (TimeSlot.id s) (TimeSlot.day s) (TimeSlot.startTime s) (TimeSlot.endTime s).

Definition twoLessons (i : nat) : list ClassSchedule.t :=
  [lesson "algebra-lesson" "algebra" (mondaySlot 8);
   lesson "logic-lesson" "logic" (mondaySlot (10 + i))].

Definition elitismHeap : list ClassSchedule.t := flat_map twoLessons (seq 0 10).

Definition mondayFitness (schedule : list ClassSchedule.t) : Q :=
  match
    GeneticAlgorithm.calculateFitness sectionA mondayLongTeacher oneRoom mondaySlots
      noConstraints twoSubjects Runtime.isoDate Runtime.codeUnitCompare schedule
  with
  | finite fitness => Qred fitness
  | _ => 0
  end.

Definition elitismPopulation : list Evolution.Individual.t :=
  map
    (fun i => Evolution.Individual.mk [2 * i; 2 * i + 1]%nat (mondayFitness (twoLessons i)))
    (seq 0 10).

Definition elitismParams : GeneticAlgorithmParams.t :=
  GeneticAlgorithmParams.mk 10 100 (1 # 10) (8 # 10) 3.

(** Two tournaments won by the fittest individual, no crossover, and a
    mutation of the time slot of its second class. *)
Definition elitismDraws : list Q :=
  [0; 0; 0; 0; 0; 0; 9 # 10; 1 # 2; 5 # 100; 2 # 10; 95 # 100].

(** The state in which [runGeneticEvolution] enters its loop on that
    population. *)
Definition elitismStart : Evolution.Loop :=
  Evolution.mkLoop elitismPopulation
    (Evolution.Individual.mk [0; 1]%nat (mondayFitness (twoLessons 0))) (1 # 10) 0
    (mondayFitness (twoLessons 0)) [] [].

(** Stagnation: one teacher and one room; slots at 08:00 and 17:00 from
    Monday to Friday, and three more slots at the week-end. One individual
    with a class in each slot from Monday to Friday, so with an idle gap
    of eight hours on five days. *)
Definition weekDays : list string :=
  ["Monday"; "Tuesday"; "Wednesday"; "Thursday"; "Friday"].

Definition weekSlots : list TimeSlot.t :=
  flat_map
    (fun d =>
       [slot (d +++ "-08") d "08:00" "09:00"; slot (d +++ "-17") d "17:00" "18:00"])
    weekDays
  ++ [slot "Saturday-08" "Saturday" "08:00" "09:00";
      slot "Sunday-08" "Sunday" "08:00" "09:00";
      slot "Sunday-09" "Sunday" "09:00" "10:00"].

Definition weekTeacher : list Teacher.t :=
  [teacher "t1" (Some "c1") None
     (map (fun d => Availability.mk d [d +++ "-08"; d +++ "-09"; d +++ "-17"])
        (weekDays ++ ["Saturday"; "Sunday"]))].

Definition weekHeap : list ClassSchedule.t :=
  map (fun s => lesson ("class-" +++ TimeSlot.id s) "algebra" s) (firstn 10 weekSlots).

Definition weekFitness (schedule : list ClassSchedule.t) : Q :=
  match
    GeneticAlgorithm.calculateFitness sectionA weekTeacher oneRoom weekSlots noConstraints
      twoSubjects Runtime.isoDate Runtime.codeUnitCompare schedule
  with
  | finite fitness => Qred fitness
  | _ => 0
  end.

Definition weekIndividual : Evolution.Individual.t :=
  Evolution.Individual.mk (seq 0 10) (weekFitness weekHeap).

Definition weekParams : GeneticAlgorithmParams.t :=
  GeneticAlgorithmParams.mk 2 3 (1 # 10) (8 # 10) 1.

(** The draws of one generation: two tournaments won by the fittest
    individual, no crossover, and a mutation of the time slot of the class
    at index [i] only, which gets the slot that [target] selects. *)
Definition oneMove (i : nat) (target : Q) : list Q :=
  [0; 0; 0; 0; 0; 0; 9 # 10] ++ repeat (1 # 2) i ++ [5 # 100; 2 # 10; target]
  ++ repeat (1 # 2) (9 - i).

(** Three generations, each of which moves one afternoon class to the
    week-end: Friday's to Saturday at 08:00, Thursday's to Sunday at 08:00
    and Wednesday's to Sunday at 09:00. *)
Definition weekDraws : list Q :=
  oneMove 9 (8 # 10) ++ oneMove 7 (9 # 10) ++ oneMove 5 (95 # 100).

Definition weekStart : Evolution.Loop :=
  Evolution.mkLoop [weekIndividual] weekIndividual (1 # 10) 0
    (Evolution.Individual.fitness weekIndividual) [] [].

(** What [optimize] returns for section A on the slots of the week; the
    days are taken from Wednesday on. *)
Definition weekResult : OptimizationResult.t :=
  HybridOptimizer.mockResult
    [ClassSchedule.mk "sched_c1_A_algebra_Wednesday-08" "c1" (Some "algebra") (Some "A")
       (Some 1%Z) "t1" "r1" "Wednesday-08" "Wednesday" "08:00" "09:00";
     ClassSchedule.mk "sched_c1_A_algebra_Thursday-08" "c1" (Some "algebra") (Some "A")
       (Some 1%Z) "t1" "r1" "Thursday-08" "Thursday" "08:00" "09:00";
     ClassSchedule.mk "sched_c1_A_logic_Friday-08" "c1" (Some "logic") (Some "A")
       (Some 1%Z) "t1" "r1" "Friday-08" "Friday" "08:00" "09:00";
     ClassSchedule.mk "sched_c1_A_logic_Monday-08" "c1" (Some "logic") (Some "A")
       (Some 1%Z) "t1" "r1" "Monday-08" "Monday" "08:00" "09:00"].

(** The first two classes of [plainSchedule] in the other order, and a
    class whose start time is not a time. *)
Definition swappedSchedule : list ClassSchedule.t :=
  [class "k2" "t2" "r2" mon9; class "k1" "t1" "r1" mon9; class "k3" "t1" "r2" mon9].

Definition noonClass : ClassSchedule.t :=
  class "k2" "t1" "r1" (slot "s3" "Monday" "noon" "13:00").

End Inputs.

(** * Properties *)

(** ** Lists and sets of keys *)

Module Basics.

Lemma flat_map_nil_iff {A B : Type} (f : A -> list B) (l : list A) :
  flat_map f l = [] <-> forall x, In x l -> f x = [].
Proof.
  induction l as [|a l IH]; simpl.
  - split; [intros _ x [] | reflexivity].
  - split.
    + intros H x [<-|Hx].
      * now apply app_eq_nil in H.
      * apply app_eq_nil in H. now apply IH.
    + intros H. rewrite (H a) by now left. simpl. apply IH.
      intros x Hx. apply H. now right.
Qed.

Lemma has_true_iff (s : list string) (k : string) : has s k = true <-> In k s.
Proof.
  unfold has. rewrite existsb_exists. split.
  - intros [x [Hx Hk]]. apply String.eqb_eq in Hk. now subst.
  - intros H. exists k. split; [assumption | apply String.eqb_refl].
Qed.

Lemma has_add (s : list string) (k k' : string) :
  has (add s k) k' = true -> has s k' = true \/ k' = k.
Proof.
  unfold add. destruct (has s k) eqn:E; [now left|].
  rewrite !has_true_iff. intros H. apply in_app_or in H as [H | [H | []]]; auto.
Qed.

Lemma has_add_intro (s : list string) (k k' : string) :
  has s k' = true \/ k' = k -> has (add s k) k' = true.
Proof.
  unfold add. intros [H | ->].
  - destruct (has s k); [assumption|]. rewrite has_true_iff in *.
    apply in_or_app. now left.
  - destruct (has s k) eqn:E; [assumption|]. rewrite has_true_iff.
    apply in_or_app. right. now left.
Qed.

Lemma NoDup_snoc {A : Type} (l : list A) (x : A) :
  NoDup l -> ~ In x l -> NoDup (l ++ [x]).
Proof.
  intros Hl Hx. apply NoDup_app; [assumption | repeat constructor; intros [] |].
  intros a Ha [<- | []]. contradiction.
Qed.

(** A finer key is duplicate-free when a coarser one is and the coarser
    one is determined by the finer one on the list. *)
Lemma NoDup_map_coarser {A B C : Type} (f : A -> B) (g : A -> C) (l : list A) :
  (forall a b, In a l -> In b l -> g a = g b -> f a = f b) ->
  NoDup (map f l) -> NoDup (map g l).
Proof.
  induction l as [|x l IH]; intros Hfg Hf; simpl; [constructor|].
  inversion Hf as [|? ? Hx Hl]; subst. constructor.
  - intros Hin. apply in_map_iff in Hin as [y [Hy Hyl]].
    apply Hx. apply in_map_iff. exists y. split; [|assumption].
    apply Hfg; [now right | now left | assumption].
  - apply IH; [|assumption]. intros a b Ha Hb. apply Hfg; now right.
Qed.

Lemma insertBy_In {A : Type} (cmp : A -> A -> comparison) (x y : A) (l : list A) :
  In y (insertBy cmp x l) -> y = x \/ In y l.
Proof.
  induction l as [|z l IH]; simpl.
  - intros [<- | []]. now left.
  - destruct (cmp x z); simpl; intuition.
Qed.

Lemma sortBy_In {A : Type} (cmp : A -> A -> comparison) (y : A) (l : list A) :
  In y (sortBy cmp l) -> In y l.
Proof.
  unfold sortBy. induction l as [|x l IH]; simpl; [tauto|].
  intros H. apply insertBy_In in H as [-> | H]; [now left | right; auto].
Qed.

Lemma pushTo_In {A : Type} (key : string) (x : A) (m : list (string * list A))
  (k : string) (l : list A) (y : A) :
  In (k, l) (pushTo key x m) -> In y l ->
  y = x \/ exists l', In (k, l') m /\ In y l'.
Proof.
  induction m as [|[k0 l0] m IH]; simpl.
  - intros [[= <- <-] | []] [<- | []]. now left.
  - destruct (k0 =? key).
    + intros [[= <- <-] | H] Hy.
      * apply in_app_or in Hy as [Hy | [<- | []]]; [|now left].
        right. exists l0. split; [now left | assumption].
      * right. exists l. split; [now right | assumption].
    + intros [[= <- <-] | H] Hy.
      * right. exists l0. split; [now left | assumption].
      * destruct (IH H Hy) as [-> | [l' [H1 H2]]]; [now left|].
        right. exists l'. split; [now right | assumption].
Qed.

Lemma lookup_In {A : Type} (m : list (string * A)) (key : string) (v : A) :
  lookup m key = Some v -> exists k, In (k, v) m.
Proof.
  induction m as [|[k0 v0] m IH]; simpl; [discriminate|].
  destruct (k0 =? key).
  - intros [= <-]. exists k0. now left.
  - intros H. destruct (IH H) as [k Hk]. exists k. now right.
Qed.

(** *** Plain objects *)

Lemma lookup_own {A : Type} (m : list (string * A)) (key : string) (v : A) :
  lookup m key = Some v -> In (key, v) m.
Proof.
  induction m as [|[k0 v0] m IH]; simpl; [discriminate|].
  destruct (String.eqb_spec k0 key) as [->|Hne].
  - intros [= <-]. now left.
  - intros H. right. now apply IH.
Qed.

Lemma plain_lookup {A : Type} (m : list (string * A)) (key : string) :
  plain m -> inherited key = true -> lookup m key = None.
Proof.
  intros Hm Hkey. destruct (lookup m key) as [v|] eqn:E; [|reflexivity].
  apply lookup_own in E. apply Hm in E. simpl in E. congruence.
Qed.

Lemma pushTo_plain {A : Type} (key : string) (x : A) (m : list (string * list A)) :
  inherited key = false -> plain m -> plain (pushTo key x m).
Proof.
  intros Hkey. induction m as [|[k l] m IH]; intros Hm entry; simpl.
  - intros [<- | []]. exact Hkey.
  - destruct (k =? key).
    + intros [<- | H]; [apply (Hm (k, l)); now left | apply Hm; now right].
    + intros [<- | H]; [apply (Hm (k, l)); now left|].
      apply IH; [|assumption]. intros e He. apply Hm. now right.
Qed.

Lemma groupInObject_from {A : Type} (key : A -> string) (xs : list A) : forall m,
  plain m ->
  fold_left
    (fun m x => match m with Some m => pushToObject (key x) x m | None => None end)
    xs (Some m)
  = if existsb (fun x => inherited (key x)) xs then None
    else Some (fold_left (fun m x => pushTo (key x) x m) xs m).
Proof.
  induction xs as [|x xs IH]; intros m Hm; simpl; [reflexivity|].
  unfold pushToObject at 2. destruct (inherited (key x)) eqn:E; simpl.
  - rewrite (plain_lookup m (key x) Hm E).
    clear. induction xs as [|y xs IH]; simpl; auto.
  - assert (H : match lookup m (key x) with
                | Some _ => Some (pushTo (key x) x m)
                | None => Some (pushTo (key x) x m)
                end = Some (pushTo (key x) x m)) by (destruct (lookup m (key x)); reflexivity).
    rewrite H. apply IH. now apply pushTo_plain.
Qed.

(** Filing in an empty plain object throws when a key is an inherited
    name; otherwise it makes the table of the keys and their values. *)
Lemma groupInObject_spec {A : Type} (key : A -> string) (xs : list A) :
  groupInObject key xs
  = if existsb (fun x => inherited (key x)) xs then None
    else Some (fold_left (fun m x => pushTo (key x) x m) xs []).
Proof. apply groupInObject_from. intros entry []. Qed.

Lemma grouped_plain {A : Type} (key : A -> string) (xs : list A) : forall m,
  existsb (fun x => inherited (key x)) xs = false -> plain m ->
  plain (fold_left (fun m x => pushTo (key x) x m) xs m).
Proof.
  induction xs as [|x xs IH]; intros m Hxs Hm; simpl in *; [assumption|].
  apply orb_false_iff in Hxs as [Hx Hxs]. apply IH; [assumption|].
  now apply pushTo_plain.
Qed.

End Basics.

(** ** Repair in the genetic algorithm *)

Module RepairFacts.

Import Basics.

Section Facts.

Variable teachers : list Teacher.t.
Variable timeSlots : list TimeSlot.t.
Variable parseDate : string -> option Z.

Abbreviation time := (GeneticAlgorithm.time parseDate).
Abbreviation teacherClash := (GeneticAlgorithm.teacherClash parseDate).
Abbreviation roomClash := (GeneticAlgorithm.roomClash parseDate).
Abbreviation pairConflicts := (GeneticAlgorithm.pairConflicts parseDate).
Abbreviation classConflicts := (GeneticAlgorithm.classConflicts parseDate).
Abbreviation detectConflicts := (GeneticAlgorithm.detectConflicts parseDate).
Abbreviation detectConflictsForClass := (GeneticAlgorithm.detectConflictsForClass parseDate).
Abbreviation firstFreeSlot := (GeneticAlgorithm.firstFreeSlot parseDate).
Abbreviation findAlternativeSlot :=
  (GeneticAlgorithm.findAlternativeSlot teachers timeSlots parseDate).
Abbreviation repairStep := (GeneticAlgorithm.repairStep teachers timeSlots parseDate).
Abbreviation repairSchedule := (GeneticAlgorithm.repairSchedule teachers timeSlots parseDate).
Abbreviation run := (GeneticAlgorithm.repairLoop teachers timeSlots parseDate).
Abbreviation slotKey := GeneticAlgorithm.slotKey.
Abbreviation moveTo := GeneticAlgorithm.moveTo.

Lemma pairConflicts_nil_iff (a x : ClassSchedule.t) :
  pairConflicts a x = [] <-> roomClash a x = false /\ teacherClash a x = false.
Proof.
  unfold GeneticAlgorithm.pairConflicts.
  destruct (roomClash a x), (teacherClash a x); simpl; split;
    try discriminate; try tauto; intros [? ?]; discriminate.
Qed.

Lemma classConflicts_nil_iff (x e : ClassSchedule.t) :
  classConflicts x e = [] <-> roomClash e x = false /\ teacherClash e x = false.
Proof.
  unfold GeneticAlgorithm.classConflicts.
  destruct (roomClash e x), (teacherClash e x); simpl; split;
    try discriminate; try tauto; intros [? ?]; discriminate.
Qed.

(** An assignment appended to a schedule adds exactly the conflicts that
    [detectConflictsForClass] looks for. *)
Lemma detectConflicts_snoc_nil (l : list ClassSchedule.t) (x : ClassSchedule.t) :
  detectConflicts (l ++ [x]) = [] <->
  detectConflicts l = [] /\ detectConflictsForClass x l = [].
Proof.
  unfold GeneticAlgorithm.detectConflictsForClass.
  induction l as [|a l IH]; simpl.
  - tauto.
  - rewrite flat_map_app. simpl. rewrite app_nil_r.
    split.
    + intros H. apply app_eq_nil in H as [H1 H2].
      apply app_eq_nil in H1 as [H1 H3].
      apply IH in H2 as [H2 H4].
      rewrite H1, H2, H4, !app_nil_r. split; [reflexivity|].
      apply classConflicts_nil_iff. now apply pairConflicts_nil_iff.
    + intros [H1 H2]. apply app_eq_nil in H1 as [H1 H3].
      apply app_eq_nil in H2 as [H2 H4].
      rewrite H1. simpl.
      assert (Hp : pairConflicts a x = []).
      { apply pairConflicts_nil_iff. now apply classConflicts_nil_iff. }
      rewrite Hp. simpl. apply IH. now split.
Qed.

Lemma firstFreeSlot_sound teacher classItem existing slots y :
  firstFreeSlot teacher classItem existing slots = Some y ->
  detectConflictsForClass y existing = []
  /\ exists t, In t slots /\ y = moveTo classItem t.
Proof.
  induction slots as [|t slots IH]; simpl; [discriminate|].
  destruct (negb (GeneticAlgorithm.teacherAvailableAt teacher t)).
  - intros H. destruct (IH H) as [H1 [t' [H2 H3]]]. split; [assumption|].
    exists t'. split; [now right | assumption].
  - destruct (detectConflictsForClass (moveTo classItem t) existing) eqn:E.
    + intros [= <-]. split; [assumption|]. exists t. split; [now left | reflexivity].
    + intros H. destruct (IH H) as [H1 [t' [H2 H3]]]. split; [assumption|].
      exists t'. split; [now right | assumption].
Qed.

Lemma findAlternativeSlot_sound classItem existing y :
  findAlternativeSlot classItem existing = Some y ->
  detectConflictsForClass y existing = []
  /\ exists t, In t timeSlots /\ y = moveTo classItem t.
Proof.
  unfold GeneticAlgorithm.findAlternativeSlot.
  destruct (find _ teachers); [apply firstFreeSlot_sound | discriminate].
Qed.

(** What one iteration of the repair loop can do to the repaired schedule:
    nothing, or append an assignment that is free of conflicts with the
    schedule built so far and that is the current one, kept or relocated. *)
Lemma repairStep_cases r u x :
  repairStep (r, u) x = (r, u)
  \/ exists y,
       repairStep (r, u) x = (r ++ [y], add u (slotKey y))
       /\ detectConflictsForClass y r = []
       /\ ((y = x /\ has u (slotKey x) = false)
           \/ exists t, In t timeSlots /\ y = moveTo x t).
Proof.
  unfold GeneticAlgorithm.repairStep.
  destruct (has u (slotKey x)) eqn:Hu; simpl; [now left|].
  destruct (detectConflictsForClass x r) eqn:Hc.
  - right. exists x. repeat split; auto.
  - destruct (findAlternativeSlot x r) as [y|] eqn:Hf; [|now left].
    right. exists y. apply findAlternativeSlot_sound in Hf as [H1 H2].
    repeat split; auto.
Qed.

Lemma run_conflict_free schedule : forall r u,
  detectConflicts r = [] -> detectConflicts (fst (run schedule (r, u))) = [].
Proof.
  unfold GeneticAlgorithm.repairLoop. induction schedule as [|x schedule IH]; intros r u Hr; cbn [fold_left fst]; [assumption|].
  destruct (repairStep_cases r u x) as [-> | [y [-> [Hy _]]]].
  - now apply IH.
  - apply IH. apply detectConflicts_snoc_nil. now split.
Qed.

Lemma run_placed schedule : forall r u before y after,
  (forall b z a, r = b ++ z :: a -> detectConflictsForClass z b = []) ->
  fst (run schedule (r, u)) = before ++ y :: after ->
  detectConflictsForClass y before = [].
Proof.
  unfold GeneticAlgorithm.repairLoop. induction schedule as [|x schedule IH]; intros r u before y after Hr; cbn [fold_left fst].
  - apply Hr.
  - destruct (repairStep_cases r u x) as [-> | [z [-> [Hz _]]]].
    + now apply IH.
    + apply IH. intros b z' a Hsplit.
      destruct a as [|a0 a] using rev_ind.
      * apply app_inj_tail in Hsplit as [-> ->]. assumption.
      * clear IHa. rewrite app_comm_cons, app_assoc in Hsplit.
        apply app_inj_tail in Hsplit as [-> _]. eapply Hr. reflexivity.
Qed.

Lemma run_origin schedule : forall r u y,
  In y (fst (run schedule (r, u))) ->
  In y r
  \/ exists x, In x schedule /\ (y = x \/ exists t, In t timeSlots /\ y = moveTo x t).
Proof.
  unfold GeneticAlgorithm.repairLoop. induction schedule as [|x schedule IH]; intros r u y; cbn [fold_left fst]; [now left|].
  destruct (repairStep_cases r u x) as [-> | [z [-> [_ Hz]]]]; intros Hy.
  - destruct (IH _ _ _ Hy) as [H | [x' [H1 H2]]]; [now left|].
    right. exists x'. split; [now right | assumption].
  - destruct (IH _ _ _ Hy) as [H | [x' [H1 H2]]].
    + apply in_app_or in H as [H | [<- | []]]; [now left|].
      right. exists x. split; [now left|].
      destruct Hz as [[-> _] | Hz]; [now left | now right].
    + right. exists x'. split; [now right | assumption].
Qed.

(** C6. Repair restores conflict-freedom: [detectConflicts] finds nothing
    in a repaired schedule; every assignment of the repaired schedule is
    free of teacher and room conflicts with the assignments placed before
    it; and it is an assignment of the input, kept as it is or relocated
    to one of the configured time slots (the others are dropped). *)
Theorem repair_restores_conflict_freedom (schedule : list ClassSchedule.t) :
  detectConflicts (repairSchedule schedule) = []
  /\ (forall before y after,
        repairSchedule schedule = before ++ y :: after ->
        detectConflictsForClass y before = [])
  /\ (forall y, In y (repairSchedule schedule) ->
        exists x, In x schedule
                  /\ (y = x \/ exists t, In t timeSlots /\ y = moveTo x t)).
Proof.
  unfold GeneticAlgorithm.repairSchedule.
  split; [|split].
  - now apply run_conflict_free.
  - intros before y after. apply run_placed.
    intros [|? ?] ? ? ?; discriminate.
  - intros y Hy. destruct (run_origin _ _ _ _ Hy) as [[] | H]. exact H.
Qed.

Lemma repairStep_keep r u y :
  has u (slotKey y) = false -> detectConflictsForClass y r = [] ->
  repairStep (r, u) y = (r ++ [y], add u (slotKey y)).
Proof.
  intros Hu Hc. unfold GeneticAlgorithm.repairStep. now rewrite Hu, Hc.
Qed.

(** Two classes with the same teacher, day and start time that both start
    before they end are in teacher conflict. *)
Lemma same_start_clash (e y : ClassSchedule.t) :
  ClassSchedule.teacherId e = ClassSchedule.teacherId y ->
  ClassSchedule.day e = ClassSchedule.day y ->
  ClassSchedule.startTime e = ClassSchedule.startTime y ->
  GeneticAlgorithm.properInterval parseDate
    (ClassSchedule.startTime e) (ClassSchedule.endTime e) ->
  GeneticAlgorithm.properInterval parseDate
    (ClassSchedule.startTime y) (ClassSchedule.endTime y) ->
  teacherClash e y = true.
Proof.
  unfold GeneticAlgorithm.properInterval, GeneticAlgorithm.teacherClash,
    GeneticAlgorithm.timeSlotsOverlap.
  intros Ht Hd Hs He Hy. rewrite Ht, Hd, !String.eqb_refl. simpl.
  rewrite Hs at 1. rewrite Hy. rewrite <- Hs. now rewrite He.
Qed.

Section Idempotence.

Variable schedule : list ClassSchedule.t.

Abbreviation pool :=
  (schedule ++ GeneticAlgorithm.relocations timeSlots schedule).

Hypothesis classes_proper : forall x, In x schedule ->
  GeneticAlgorithm.properInterval parseDate
    (ClassSchedule.startTime x) (ClassSchedule.endTime x).

Hypothesis slots_proper : forall t, In t timeSlots ->
  GeneticAlgorithm.properInterval parseDate
    (TimeSlot.startTime t) (TimeSlot.endTime t).

Hypothesis keys_faithful : GeneticAlgorithm.keysFaithful pool.

Lemma pool_proper y : In y pool ->
  GeneticAlgorithm.properInterval parseDate
    (ClassSchedule.startTime y) (ClassSchedule.endTime y).
Proof.
  intros H. apply in_app_or in H as [H | H]; [now apply classes_proper|].
  unfold GeneticAlgorithm.relocations in H. apply in_flat_map in H as [x [_ H]].
  apply in_map_iff in H as [t [<- Ht]]. simpl. now apply slots_proper.
Qed.

Lemma pool_moveTo x t : In x schedule -> In t timeSlots -> In (moveTo x t) pool.
Proof.
  intros Hx Ht. apply in_or_app. right. unfold GeneticAlgorithm.relocations.
  apply in_flat_map. exists x. split; [assumption|]. now apply in_map.
Qed.

Abbreviation settled := (GeneticAlgorithm.settled teachers timeSlots parseDate pool).

Lemma settled_snoc r u y :
  settled (r, u) -> In y pool -> detectConflictsForClass y r = [] ->
  has u (slotKey y) = false ->
  settled (r ++ [y], add u (slotKey y)).
Proof.
  intros [H1 [H2 H3]] Hy Hc Hu. simpl in *. repeat split; simpl.
  - unfold GeneticAlgorithm.repairLoop in *. rewrite fold_left_app, H1. simpl.
    now apply repairStep_keep.
  - intros k Hk. apply has_add in Hk as [Hk | ->].
    + destruct (H2 k Hk) as [e [He1 He2]]. exists e. split; [|assumption].
      apply in_or_app. now left.
    + exists y. split; [|reflexivity]. apply in_or_app. right. now left.
  - intros e He. apply in_app_or in He as [He | [<- | []]]; auto.
Qed.

(** A relocated class never lands on a key that is already used. *)
Lemma relocated_key_fresh r u y :
  settled (r, u) -> In y pool -> detectConflictsForClass y r = [] ->
  has u (slotKey y) = false.
Proof.
  intros [_ [H2 H3]] Hy Hc. simpl in *.
  destruct (has u (slotKey y)) eqn:Hu; [|reflexivity]. exfalso.
  destruct (H2 _ Hu) as [e [He Hk]].
  destruct (keys_faithful e y (H3 e He) Hy Hk) as [Ht [Hd Hs]].
  assert (Hclash : teacherClash e y = true).
  { apply same_start_clash; auto using pool_proper. }
  unfold GeneticAlgorithm.detectConflictsForClass in Hc.
  rewrite flat_map_nil_iff in Hc. specialize (Hc e He).
  apply classConflicts_nil_iff in Hc as [_ Hc]. congruence.
Qed.

Lemma run_settled l : forall st,
  (forall x, In x l -> In x schedule) -> settled st -> settled (run l st).
Proof.
  induction l as [|x l IH]; intros [r u] Hl Hst; [assumption|].
  change (run (x :: l) (r, u)) with (run l (repairStep (r, u) x)).
  assert (Hx : In x schedule) by (apply Hl; now left).
  assert (Hl' : forall z, In z l -> In z schedule) by (intros z Hz; apply Hl; now right).
  destruct (repairStep_cases r u x) as [-> | [y [Hstep [Hc Hy]]]].
  - now apply IH.
  - assert (Hpool : In y pool).
    { destruct Hy as [[-> _] | [t [Ht ->]]].
      - apply in_or_app. now left.
      - now apply pool_moveTo. }
    rewrite Hstep. apply IH; [assumption|].
    apply settled_snoc; auto.
    destruct Hy as [[-> Hu] | _]; [assumption|].
    eapply relocated_key_fresh; eauto.
Qed.

Lemma repair_settled : run (repairSchedule schedule) ([], []) = run schedule ([], []).
Proof.
  assert (H : settled (run schedule ([], []))).
  { apply run_settled; [auto|]. repeat split; simpl.
    - intros k Hk. discriminate.
    - intros e []. }
  destruct H as [H _]. exact H.
Qed.

End Idempotence.

(** Where repair is idempotent: on a schedule whose classes, like the
    configured time slots, start strictly before they end, as long as the
    concatenated occupancy key tells teachers, days and start times apart
    on the classes of the schedule and their relocations. *)
Theorem repair_idempotent (schedule : list ClassSchedule.t) :
  (forall x, In x schedule ->
     GeneticAlgorithm.properInterval parseDate
       (ClassSchedule.startTime x) (ClassSchedule.endTime x)) ->
  (forall t, In t timeSlots ->
     GeneticAlgorithm.properInterval parseDate
       (TimeSlot.startTime t) (TimeSlot.endTime t)) ->
  GeneticAlgorithm.keysFaithful
    (schedule ++ GeneticAlgorithm.relocations timeSlots schedule) ->
  repairSchedule (repairSchedule schedule) = repairSchedule schedule.
Proof.
  intros Hc Hs Hk.
  unfold GeneticAlgorithm.repairSchedule at 1 3.
  now rewrite repair_settled.
Qed.

End Facts.

Lemma keysFaithfulb_sound (l : list ClassSchedule.t) :
  GeneticAlgorithm.keysFaithfulb l = true -> GeneticAlgorithm.keysFaithful l.
Proof.
  unfold GeneticAlgorithm.keysFaithfulb, GeneticAlgorithm.keysFaithful.
  rewrite forallb_forall. intros H a b Ha Hb Hk.
  specialize (H a Ha). rewrite forallb_forall in H. specialize (H b Hb).
  rewrite Hk, String.eqb_refl in H. simpl in H.
  apply andb_prop in H as [H H3]. apply andb_prop in H as [H1 H2].
  now rewrite String.eqb_eq in H1, H2, H3.
Qed.

(** The schedule of [Inputs.plainSchedule] is one. *)
Lemma repair_idempotent_witness :
  GeneticAlgorithm.repairSchedule Inputs.plainTeachers Inputs.collidingSlots
    Runtime.isoDate
    (GeneticAlgorithm.repairSchedule Inputs.plainTeachers Inputs.collidingSlots
       Runtime.isoDate Inputs.plainSchedule)
  = GeneticAlgorithm.repairSchedule Inputs.plainTeachers Inputs.collidingSlots
      Runtime.isoDate Inputs.plainSchedule.
Proof.
  apply (repair_idempotent Inputs.plainTeachers Inputs.collidingSlots
           Runtime.isoDate Inputs.plainSchedule).
  - intros x Hx. simpl in Hx.
    repeat (destruct Hx as [<- | Hx]; [reflexivity|]). destruct Hx.
  - intros t Ht. simpl in Ht.
    repeat (destruct Ht as [<- | Ht]; [reflexivity|]). destruct Ht.
  - apply keysFaithfulb_sound. vm_compute. reflexivity.
Defined.

(** C5 fails on the code. The third class of [Inputs.collidingSchedule]
    clashes with the second and is moved to Monday 10:00. The key of the
    moved class, which the relocation branch records without looking it
    up, is the key of the first class: teacher [a] in room [b_c] and
    teacher [a_b] in room [c] make the same string. A second repair finds
    the key taken and drops the class. *)
Theorem repair_not_idempotent :
  let repaired :=
    GeneticAlgorithm.repairSchedule Inputs.collidingTeachers Inputs.collidingSlots
      Runtime.isoDate Inputs.collidingSchedule in
  repaired
  = [Inputs.class "k1" "a_b" "c" Inputs.mon10; Inputs.class "k2" "a" "z" Inputs.mon9;
     Inputs.class "k3" "a" "b_c" Inputs.mon10]
  /\ GeneticAlgorithm.repairSchedule Inputs.collidingTeachers Inputs.collidingSlots
       Runtime.isoDate repaired
     = [Inputs.class "k1" "a_b" "c" Inputs.mon10; Inputs.class "k2" "a" "z" Inputs.mon9]
  /\ GeneticAlgorithm.repairSchedule Inputs.collidingTeachers Inputs.collidingSlots
       Runtime.isoDate repaired
     <> repaired.
Proof.
  vm_compute. repeat split. discriminate.
Qed.

(** The same happens without any two keys of different classes being one
    string, when a class starts and ends at the same time: the third class
    of [Inputs.emptyIntervalSchedule] is moved to Monday 10:00, where the
    first class, which overlaps nothing, has the same teacher, room, day
    and start time; a second repair drops the moved class. *)
Lemma repair_drops_a_relocated_class :
  let repaired :=
    GeneticAlgorithm.repairSchedule Inputs.collidingTeachers Inputs.collidingSlots
      Runtime.isoDate Inputs.emptyIntervalSchedule in
  repaired
  = [Inputs.class "e" "a" "r" (Inputs.slot "s2" "Monday" "10:00" "10:00");
     Inputs.class "f" "a" "r" Inputs.mon9; Inputs.class "g" "a" "r" Inputs.mon10]
  /\ GeneticAlgorithm.repairSchedule Inputs.collidingTeachers Inputs.collidingSlots
       Runtime.isoDate repaired
     = [Inputs.class "e" "a" "r" (Inputs.slot "s2" "Monday" "10:00" "10:00");
        Inputs.class "f" "a" "r" Inputs.mon9]
  /\ GeneticAlgorithm.keysFaithfulb
       (Inputs.emptyIntervalSchedule
        ++ GeneticAlgorithm.relocations Inputs.collidingSlots Inputs.emptyIntervalSchedule)
     = true.
Proof.
  vm_compute. repeat split.
Qed.

(** C6 on [Inputs.plainSchedule], whose third class has to move. *)
Lemma repair_restores_conflict_freedom_witness :
  GeneticAlgorithm.detectConflicts Runtime.isoDate
    (GeneticAlgorithm.repairSchedule Inputs.plainTeachers Inputs.collidingSlots
       Runtime.isoDate Inputs.plainSchedule)
  = []
  /\ GeneticAlgorithm.detectConflicts Runtime.isoDate Inputs.plainSchedule <> [].
Proof.
  split.
  - apply (proj1 (repair_restores_conflict_freedom Inputs.plainTeachers
                    Inputs.collidingSlots Runtime.isoDate Inputs.plainSchedule)).
  - vm_compute. discriminate.
Defined.

End RepairFacts.

(** ** The fitness function *)

Module FitnessFacts.

Section Facts.

Variable courses : list Course.t.
Variable teachers : list Teacher.t.
Variable rooms : list Room.t.
Variable timeSlots : list TimeSlot.t.
Variable constraints : TimetableConstraints.t.
Variable subjects : list Subject.t.
Variable parseDate : string -> option Z.
Variable localeCompare : string -> string -> comparison.

Abbreviation calculateFitness :=
  (GeneticAlgorithm.calculateFitness courses teachers rooms timeSlots constraints
     subjects parseDate localeCompare).
Abbreviation specFitness :=
  (GeneticAlgorithm.specFitness courses teachers rooms timeSlots constraints
     subjects parseDate localeCompare).
Abbreviation checkClass :=
  (GeneticAlgorithm.checkClass teachers rooms timeSlots constraints subjects parseDate).
Abbreviation satisfiedChecks :=
  (GeneticAlgorithm.satisfiedChecks teachers rooms timeSlots constraints subjects
     parseDate).
Abbreviation calculateConstraintSatisfaction :=
  (GeneticAlgorithm.calculateConstraintSatisfaction teachers rooms timeSlots
     constraints subjects parseDate).
Abbreviation constraintSatisfactionRatio :=
  (GeneticAlgorithm.constraintSatisfactionRatio teachers rooms timeSlots constraints
     subjects parseDate).

Lemma penalise_sum (conflicts : list Conflict.t) : forall fitness,
  fold_left GeneticAlgorithm.penalise conflicts fitness
  == fitness - fold_right Qplus 0 (map GeneticAlgorithm.conflictPenalty conflicts).
Proof.
  induction conflicts as [|c conflicts IH]; intros fitness; simpl.
  - ring.
  - rewrite IH. unfold GeneticAlgorithm.penalise, GeneticAlgorithm.conflictPenalty.
    destruct (Conflict.severity c); ring.
Qed.

Lemma checkClass_counts (schedule : list ClassSchedule.t) : forall satisfied total,
  fold_left checkClass schedule (satisfied, total)
  = ((satisfied + fold_right Z.add 0 (map satisfiedChecks schedule))%Z,
     (total + 3 * Z.of_nat (List.length schedule))%Z).
Proof.
  induction schedule as [|cls schedule IH]; intros satisfied total.
  - simpl. f_equal; lia.
  - cbn [fold_left map fold_right List.length].
    unfold GeneticAlgorithm.checkClass at 2. rewrite IH.
    unfold GeneticAlgorithm.satisfiedChecks at 2.
    destruct (GeneticAlgorithm.teacherAvailabilityOk teachers timeSlots cls),
      (GeneticAlgorithm.inPreferredWindow constraints parseDate
         (ClassSchedule.startTime cls)),
      (GeneticAlgorithm.roomTypeOk rooms subjects cls);
      f_equal; lia.
Qed.

(** Three checks are counted per assignment, and the ratio is the share of
    satisfied ones. *)
Lemma constraintSatisfaction_ratio (schedule : list ClassSchedule.t) :
  calculateConstraintSatisfaction schedule == constraintSatisfactionRatio schedule.
Proof.
  unfold GeneticAlgorithm.calculateConstraintSatisfaction,
    GeneticAlgorithm.constraintSatisfactionRatio.
  rewrite checkClass_counts. destruct schedule as [|cls schedule]; [reflexivity|].
  set (n := List.length (cls :: schedule)).
  assert (Hn : (0 < 3 * Z.of_nat n)%Z) by (subst n; simpl; lia).
  rewrite !Z.add_0_l. apply Z.ltb_lt in Hn as Hn'. rewrite Hn'.
  unfold size. fold n.
  apply Qdiv_comp; [reflexivity|].
  rewrite inject_Z_mult. reflexivity.
Qed.

(** C4. [calculateFitness] is 1000, minus 100, 30 or 10 for each conflict
    of high, medium or low severity, plus 80 times the workload balance,
    60 times the average room utilisation, 40 times the evenness of the
    time distribution, 100 times the share of satisfied checks (three per
    assignment), minus 20 times the gap penalty, plus 150 times the
    coverage, and at least 0. *)
Theorem calculateFitness_formula (schedule : list ClassSchedule.t) :
  sameNumber (calculateFitness schedule) (specFitness schedule).
Proof.
  unfold GeneticAlgorithm.calculateFitness, GeneticAlgorithm.specFitness.
  destruct (GeneticAlgorithm.calculateWorkloadBalance schedule)
    as [workloadBalance| | |],
    (GeneticAlgorithm.calculateRoomUtilization rooms timeSlots schedule)
    as [roomUtilization| | |];
    cbn [Num.add Num.sub Num.mul Num.max Num.opp Num.scaled sameNumber];
    change (Qcompare 80 0) with Gt; change (Qcompare 60 0) with Gt;
    cbn [Num.add Num.sub Num.mul Num.max Num.opp Num.scaled sameNumber];
    try exact I; try reflexivity.
  rewrite Q.max_comm. apply Q.max_compat; [reflexivity|].
  rewrite penalise_sum, constraintSatisfaction_ratio. ring.
Qed.

End Facts.

End FitnessFacts.

(** ** The entry point [optimize] *)

Module OptimizeFacts.

Import Basics HybridOptimizer.

#[local] Arguments String.append : simpl never.

Section Facts.

Variable courses : list Course.t.
Variable teachers : list Teacher.t.
Variable rooms : list Room.t.
Variable timeSlots : list TimeSlot.t.
Variable constraints : TimetableConstraints.t.
Variable subjects : list Subject.t.
Variable localeCompare : string -> string -> comparison.

Abbreviation slotsByDay := (HybridOptimizer.slotsByDay timeSlots localeCompare).
Abbreviation subjectsByCourse := (HybridOptimizer.subjectsByCourse constraints subjects).
Abbreviation filteredSubjects := (HybridOptimizer.filteredSubjects constraints subjects).
Abbreviation placeInSlots := (HybridOptimizer.placeInSlots teachers rooms).
Abbreviation tryPlaceOneOnDay :=
  (HybridOptimizer.tryPlaceOneOnDay teachers rooms slotsByDay).
Abbreviation pass1Round := (HybridOptimizer.pass1Round teachers rooms slotsByDay).
Abbreviation pass1 := (HybridOptimizer.pass1 teachers rooms slotsByDay).
Abbreviation fillDay := (HybridOptimizer.fillDay teachers rooms slotsByDay).
Abbreviation pass2 := (HybridOptimizer.pass2 teachers rooms slotsByDay).
Abbreviation scheduleSection := (HybridOptimizer.scheduleSection teachers rooms slotsByDay).
Abbreviation scheduleSections :=
  (HybridOptimizer.scheduleSections teachers rooms slotsByDay).
Abbreviation scheduleCourse :=
  (HybridOptimizer.scheduleCourse teachers rooms slotsByDay subjectsByCourse).
Abbreviation scheduleCourses :=
  (HybridOptimizer.scheduleCourses teachers rooms slotsByDay subjectsByCourse).
Abbreviation buildTestSchedule :=
  (HybridOptimizer.buildTestSchedule courses teachers rooms timeSlots constraints
     subjects localeCompare).
Abbreviation optimize :=
  (HybridOptimizer.optimize courses teachers rooms timeSlots constraints subjects
     localeCompare).
Abbreviation meetsInheritedName :=
  (HybridOptimizer.meetsInheritedName courses timeSlots constraints subjects).

(** *** Termination of pass 1 *)

Lemma totalRemaining_cons (d : Demand) (l : list Demand) :
  totalRemaining (d :: l) = (remaining d + totalRemaining l)%Z.
Proof.
  unfold totalRemaining. simpl.
  assert (H : forall l a,
             fold_left (fun a b => (a + remaining b)%Z) l a
             = (a + fold_left (fun a b => (a + remaining b)%Z) l 0)%Z).
  { clear. induction l as [|x l IH]; intros a; simpl; [lia|].
    rewrite IH, (IH (remaining x)). lia. }
  apply H.
Qed.

Lemma totalRemaining_replaceAt (l : list Demand) : forall i d d',
  nth_error l i = Some d ->
  totalRemaining (replaceAt i d' l)
  = (totalRemaining l - remaining d + remaining d')%Z.
Proof.
  induction l as [|x l IH]; intros [|i] d d'; simpl; try discriminate.
  - intros [= ->]. rewrite !totalRemaining_cons. lia.
  - intros H. rewrite !totalRemaining_cons, (IH _ _ d' H). lia.
Qed.

(** A call of [tryPlaceOneOnDay] either places one session, which lowers
    the remaining demand by one, or changes nothing. *)
Lemma placeInSlots_remaining course section day slots occ st :
  let r := placeInSlots course section day slots occ st in
  if fst (fst r) then
    totalRemaining (demand (snd r)) = (totalRemaining (demand st) - 1)%Z
  else r = (false, occ, st).
Proof.
  induction slots as [|slot slots IH]; simpl; [reflexivity|].
  destruct (findIndex _ (demand st)) as [idx|]; [|reflexivity].
  destruct (nth_error (demand st) idx) as [d|] eqn:Hd; [|reflexivity].
  destruct (filter _ teachers) as [|firstAvailable ?]; [exact IH|].
  destruct (find _ rooms) as [room|]; [|exact IH].
  destruct (has (occupiedBySection occ) _); [exact IH|].
  simpl. rewrite (totalRemaining_replaceAt _ _ _ _ Hd). simpl. lia.
Qed.

Lemma tryPlaceOneOnDay_remaining course section day occ st :
  let r := tryPlaceOneOnDay course section day occ st in
  if fst (fst r) then
    totalRemaining (demand (snd r)) = (totalRemaining (demand st) - 1)%Z
  else r = (false, occ, st).
Proof. apply placeInSlots_remaining. Qed.

Lemma pass1Round_remaining course section days : forall rt ps occ st,
  rt = totalRemaining (demand st) ->
  let r := pass1Round course section days rt ps occ st in
  fst (fst (fst r)) = totalRemaining (demand (snd r))
  /\ (snd (fst (fst r)) = true -> ps = true \/ (fst (fst (fst r)) < rt)%Z)
  /\ (fst (fst (fst r)) <= rt)%Z.
Proof.
  induction days as [|day days IH]; intros rt ps occ st Hrt; simpl.
  - repeat split; auto; lia.
  - destruct (rt <=? 0)%Z; simpl; [repeat split; auto; lia|].
    pose proof (tryPlaceOneOnDay_remaining course section day occ st) as Ht.
    destruct (tryPlaceOneOnDay course section day occ st) as [[placed occ'] st'].
    simpl in Ht. destruct placed.
    + destruct (IH (totalRemaining (demand st')) true occ' st' eq_refl) as [H1 [H2 H3]].
      repeat split; [assumption | | lia]. intros _. right. lia.
    + injection Ht as -> ->. now apply IH.
Qed.

Lemma pass1_terminates fuel : forall course section rt occ st,
  rt = totalRemaining (demand st) -> (Z.to_nat rt <= fuel)%nat ->
  exists r, pass1 fuel course section rt occ st = Some r.
Proof.
  induction fuel as [|fuel IH]; intros course section rt occ st Hrt Hfuel; simpl.
  - destruct (0 <? rt)%Z eqn:E; [apply Z.ltb_lt in E; lia | eauto].
  - destruct (0 <? rt)%Z eqn:E; [|eauto]. apply Z.ltb_lt in E.
    pose proof (pass1Round_remaining course section (rotatedDays course section)
                  rt false occ st Hrt) as [H1 [H2 H3]].
    destruct (pass1Round _ _ _ rt false occ st) as [[[rt' ps] occ'] st'].
    simpl in *. destruct ps; [|eauto].
    apply IH; [assumption|]. destruct (H2 eq_refl) as [? | ?]; [discriminate | lia].
Qed.

(** *** A property of the occupancy kept by every placement *)

Section Preservation.

Variable P : Occupancy -> Prop.

Hypothesis try_keeps : forall course section day occ st,
  P occ -> P (snd (fst (tryPlaceOneOnDay course section day occ st))).

Lemma pass1Round_keeps course section days : forall rt ps occ st,
  P occ -> P (snd (fst (pass1Round course section days rt ps occ st))).
Proof.
  induction days as [|day days IH]; intros rt ps occ st Hocc; simpl; [assumption|].
  destruct (rt <=? 0)%Z; [assumption|].
  pose proof (try_keeps course section day occ st Hocc) as Ht.
  destruct (tryPlaceOneOnDay course section day occ st) as [[placed occ'] st'].
  destruct placed; now apply IH.
Qed.

Lemma pass1_keeps fuel : forall course section rt occ st r,
  P occ -> pass1 fuel course section rt occ st = Some r -> P (fst r).
Proof.
  induction fuel as [|fuel IH]; intros course section rt occ st r Hocc; simpl.
  - destruct (0 <? rt)%Z; [discriminate | now intros [= <-]].
  - destruct (0 <? rt)%Z; [|now intros [= <-]].
    pose proof (pass1Round_keeps course section (rotatedDays course section)
                  rt false occ st Hocc) as Hr.
    destruct (pass1Round _ _ _ rt false occ st) as [[[rt' ps] occ'] st'].
    destruct ps; [now apply IH | now intros [= <-]].
Qed.

Lemma fillDay_keeps tryMore : forall course section day occ st,
  P occ -> P (fst (fillDay tryMore course section day occ st)).
Proof.
  induction tryMore as [|tryMore IH]; intros course section day occ st Hocc; simpl;
    [assumption|].
  destruct (existsb _ (demand st)); [|assumption].
  pose proof (try_keeps course section day occ st Hocc) as Ht.
  destruct (tryPlaceOneOnDay course section day occ st) as [[placed occ'] st'].
  destruct placed; [now apply IH | assumption].
Qed.

Lemma pass2_keeps course section occ st :
  P occ -> P (fst (pass2 course section occ st)).
Proof.
  unfold HybridOptimizer.pass2. intros Hocc.
  destruct (0 <? totalRemaining (demand st))%Z; [|assumption].
  change occ with (fst (occ, st)) in Hocc. revert Hocc.
  generalize (occ, st). induction (rotatedDays course section) as [|day days IH];
    intros os Hos; cbn [fold_left]; [assumption|].
  apply IH. now apply fillDay_keeps.
Qed.

Lemma scheduleSection_keeps course subjectsForCourse section occ occ' :
  P occ -> scheduleSection course subjectsForCourse section occ = Some occ' -> P occ'.
Proof.
  unfold HybridOptimizer.scheduleSection. intros Hocc.
  destruct (pass1 _ course section _ occ _) as [[occ1 st1]|] eqn:E; [|discriminate].
  intros [= <-]. apply pass2_keeps. exact (pass1_keeps _ _ _ _ _ _ _ Hocc E).
Qed.

Lemma scheduleSections_keeps course subjectsForCourse sections : forall occ occ',
  P occ -> scheduleSections course subjectsForCourse sections occ = Some occ' -> P occ'.
Proof.
  induction sections as [|section sections IH]; intros occ occ' Hocc; simpl.
  - now intros [= <-].
  - destruct (scheduleSection course subjectsForCourse section occ) as [occ1|] eqn:E;
      [|discriminate].
    apply IH. eapply scheduleSection_keeps; eauto.
Qed.

Lemma scheduleCourses_keeps cs : forall occ occ',
  P occ -> scheduleCourses cs occ = Returned occ' -> P occ'.
Proof.
  induction cs as [|course cs IH]; intros occ occ' Hocc; simpl.
  - now intros [= <-].
  - destruct (scheduleCourse course occ) as [occ1| | |] eqn:E; try discriminate.
    apply IH. revert E. unfold HybridOptimizer.scheduleCourse.
    destruct (lookup _ (Course.id course)) as [[|s ss]|].
    + now intros [= <-].
    + destruct (HybridOptimizer.scheduleSections _ _ _ course _ _ occ) as [occ2|] eqn:E;
        [|discriminate].
      intros [= <-]. eapply scheduleSections_keeps; eauto.
    + destruct (unreadable _); [discriminate | now intros [= <-]].
Qed.

End Preservation.

(** *** The heuristic always finishes *)

Lemma scheduleSection_returns course subjectsForCourse section occ :
  exists occ', scheduleSection course subjectsForCourse section occ = Some occ'.
Proof.
  unfold HybridOptimizer.scheduleSection.
  edestruct pass1_terminates as [[occ1 st1] ->]; [| |eauto]; [reflexivity | simpl; lia].
Qed.

Lemma scheduleSections_returns course subjectsForCourse sections : forall occ,
  exists occ', scheduleSections course subjectsForCourse sections occ = Some occ'.
Proof.
  induction sections as [|section sections IH]; intros occ; simpl; [eauto|].
  destruct (scheduleSection_returns course subjectsForCourse section occ) as [occ1 ->].
  apply IH.
Qed.

(** A course whose id is unreadable makes the loop throw; any other
    course is scheduled. *)
Lemma scheduleCourse_completes course occ :
  plain subjectsByCourse ->
  if unreadable (Course.id course)
  then scheduleCourse course occ = Thrown "TypeError"
  else exists occ', scheduleCourse course occ = Returned occ'.
Proof.
  intros Hplain. unfold HybridOptimizer.scheduleCourse.
  destruct (unreadable (Course.id course)) eqn:Eid.
  - assert (Hin : inherited (Course.id course) = true).
    { unfold unreadable in Eid. unfold inherited.
      destruct (lookup objectPrototype (Course.id course)); [reflexivity | discriminate]. }
    now rewrite (plain_lookup _ _ Hplain Hin).
  - destruct (lookup subjectsByCourse (Course.id course)) as [[|s ss]|]; eauto.
    destruct (scheduleSections_returns course (s :: ss)
                (match Course.sections course with
                 | Some ((_ :: _) as sections) => sections
                 | _ => ["A"]
                 end) occ) as [occ1 ->].
    eauto.
Qed.

(** The loop over the courses throws at the first course whose id is
    unreadable, and returns when there is none. *)
Lemma scheduleCourses_completes cs : forall occ,
  plain subjectsByCourse ->
  if existsb (fun c => unreadable (Course.id c)) cs
  then scheduleCourses cs occ = Thrown "TypeError"
  else exists occ', scheduleCourses cs occ = Returned occ'.
Proof.
  intros occ Hplain. revert occ.
  induction cs as [|course cs IH]; intros occ; cbn [existsb]; [simpl; eauto|].
  cbn [HybridOptimizer.scheduleCourses].
  pose proof (scheduleCourse_completes course occ Hplain) as Hc.
  destruct (unreadable (Course.id course)); cbn [orb].
  - now rewrite Hc.
  - destruct Hc as [occ1 ->]. apply IH.
Qed.

Lemma dayToSlots_spec :
  dayToSlots timeSlots localeCompare
  = if existsb (fun slot => inherited (TimeSlot.day slot)) timeSlots then None
    else Some slotsByDay.
Proof.
  unfold dayToSlots. rewrite groupInObject_spec.
  now destruct (existsb _ timeSlots).
Qed.

Lemma courseIdToSubjects_spec :
  courseIdToSubjects constraints subjects
  = if existsb (fun s => inherited (Subject.courseId s)) filteredSubjects then None
    else Some subjectsByCourse.
Proof. unfold courseIdToSubjects. apply groupInObject_spec. Qed.

(** [optimize] builds its schedule unless it meets an inherited name, and
    throws a [TypeError] when it does. *)
Lemma buildTestSchedule_completes :
  if meetsInheritedName then buildTestSchedule = Thrown "TypeError"
  else exists schedule, buildTestSchedule = Returned schedule.
Proof.
  unfold HybridOptimizer.meetsInheritedName, HybridOptimizer.buildTestSchedule.
  destruct subjects as [|s0 ss] eqn:Es; [eauto|]. rewrite <- Es.
  destruct timeSlots as [|t0 ts] eqn:Et; [eauto|]. rewrite <- Et.
  rewrite dayToSlots_spec, courseIdToSubjects_spec.
  destruct (existsb _ timeSlots); [reflexivity|].
  destruct (existsb _ filteredSubjects) eqn:Ec; [reflexivity|]. cbn [orb].
  assert (Hplain : plain subjectsByCourse)
    by (apply grouped_plain; [exact Ec | intros entry []]).
  pose proof (scheduleCourses_completes courses (mkOccupancy [] [] [] []) Hplain) as H.
  destruct (existsb _ courses).
  - now rewrite H.
  - destruct H as [occ ->]. simpl. eauto.
Qed.

(** What a schedule that [optimize] built is made of. *)
Lemma buildTestSchedule_returned schedule :
  buildTestSchedule = Returned schedule ->
  schedule = []
  \/ exists occ,
       scheduleCourses courses (mkOccupancy [] [] [] []) = Returned occ
       /\ testSchedule occ = schedule.
Proof.
  unfold HybridOptimizer.buildTestSchedule.
  destruct subjects as [|s0 ss] eqn:Es; [intros [= <-]; now left|]. rewrite <- Es.
  destruct timeSlots as [|t0 ts] eqn:Et; [intros [= <-]; now left|]. rewrite <- Et.
  rewrite dayToSlots_spec, courseIdToSubjects_spec.
  destruct (existsb _ timeSlots); [discriminate|].
  destruct (existsb _ filteredSubjects); [discriminate|].
  destruct (scheduleCourses courses _) as [occ| | |]; try discriminate.
  intros [= <-]. right. now exists occ.
Qed.

Lemma optimize_searches (params : GeneticAlgorithmParams.t) :
  courses <> [] -> teachers <> [] -> rooms <> [] ->
  optimize params = (simulatedProgress, andThen buildTestSchedule mockResult).
Proof.
  unfold HybridOptimizer.optimize. intros Hc Ht Hr.
  destruct courses; [contradiction|]. destruct teachers; [contradiction|].
  destruct rooms; [contradiction|]. reflexivity.
Qed.

Lemma optimize_returned (params : GeneticAlgorithmParams.t)
  (result : OptimizationResult.t) :
  snd (optimize params) = Returned result ->
  exists schedule, buildTestSchedule = Returned schedule /\ result = mockResult schedule.
Proof.
  intros H.
  assert (Hne : courses <> [] /\ teachers <> [] /\ rooms <> []).
  { revert H. unfold HybridOptimizer.optimize.
    destruct courses; [discriminate|]. destruct teachers; [discriminate|].
    destruct rooms; [discriminate|]. intros _. repeat split; discriminate. }
  destruct Hne as [Hc [Ht Hr]].
  rewrite (optimize_searches params Hc Ht Hr) in H. cbn [snd] in H.
  destruct buildTestSchedule as [schedule| | |]; try discriminate.
  injection H as <-. now exists schedule.
Qed.

(** C1. [optimize] throws its missing-data error, before any progress is
    reported and without a result, when there is no course, no teacher or
    no room; with at least one of each it reports its progress and does
    not throw that error. *)
Theorem optimize_validates_input (params : GeneticAlgorithmParams.t) :
  (courses = [] \/ teachers = [] \/ rooms = [] ->
   optimize params
   = ([], Thrown "Missing required data: courses, teachers, or rooms"))
  /\ (courses <> [] -> teachers <> [] -> rooms <> [] ->
      fst (optimize params) = simulatedProgress
      /\ snd (optimize params)
         <> Thrown "Missing required data: courses, teachers, or rooms").
Proof.
  split.
  - unfold HybridOptimizer.optimize. intros [-> | [-> | ->]]; [reflexivity | |].
    + now destruct courses.
    + destruct courses; [reflexivity|]. now destruct teachers.
  - intros Hc Ht Hr. rewrite (optimize_searches params Hc Ht Hr).
    split; [reflexivity|]. cbn [snd].
    pose proof buildTestSchedule_completes as H.
    destruct meetsInheritedName.
    + rewrite H. discriminate.
    + destruct H as [schedule ->]. discriminate.
Qed.

(** With at least one course, teacher and room, [optimize] throws a
    [TypeError] when it meets an inherited name; otherwise it returns,
    whatever schedule it built, the fitness 750, no conflict, the metrics
    80, 90, 85, 95 and 0, and the three generation records of generations
    0, 50 and 100. *)
Theorem optimize_returns_fixed_scores (params : GeneticAlgorithmParams.t) :
  courses <> [] -> teachers <> [] -> rooms <> [] ->
  if meetsInheritedName then snd (optimize params) = Thrown "TypeError"
  else
    exists result,
      snd (optimize params) = Returned result
      /\ buildTestSchedule = Returned (OptimizationResult.schedule result)
      /\ OptimizationResult.fitness result = finite 750
      /\ OptimizationResult.conflicts result = []
      /\ OptimizationResult.metrics result
         = {| OptimizationMetrics.totalConflicts := 0;
              OptimizationMetrics.roomUtilization := finite 80;
              OptimizationMetrics.teacherWorkloadBalance := finite 90;
              OptimizationMetrics.studentSatisfaction := finite 85;
              OptimizationMetrics.constraintSatisfaction := finite 95 |}
      /\ OptimizationResult.generationData result
         = [GenerationData.mk 0 500 400 300;
            GenerationData.mk 50 650 550 450;
            GenerationData.mk 100 750 650 550].
Proof.
  intros Hc Ht Hr. rewrite (optimize_searches params Hc Ht Hr). cbn [snd].
  pose proof buildTestSchedule_completes as H.
  destruct meetsInheritedName.
  - now rewrite H.
  - destruct H as [schedule Hs]. exists (mockResult schedule). rewrite Hs.
    repeat split.
Qed.

(** *** No double booking of a teacher or a room in a time slot *)

Abbreviation booked := (HybridOptimizer.booked timeSlots).

Lemma fresh_key (keys : list string) (l : list ClassSchedule.t)
  (key : ClassSchedule.t -> string) (k : string) :
  (forall c, In c l -> has keys (key c) = true) -> has keys k = false ->
  ~ In k (map key l).
Proof.
  intros Hall Hk Hin. apply in_map_iff in Hin as [c [<- Hc]].
  rewrite (Hall c Hc) in Hk. discriminate.
Qed.

Lemma filter_head {A : Type} (p : A -> bool) (l : list A) (x : A) (rest : list A) :
  filter p l = x :: rest -> In x l /\ p x = true.
Proof.
  intros H. apply filter_In. rewrite H. now left.
Qed.

Lemma placeInSlots_booked course section day slots : forall occ st,
  (forall slot, In slot slots -> In slot timeSlots) ->
  booked occ -> booked (snd (fst (placeInSlots course section day slots occ st))).
Proof.
  induction slots as [|slot slots IH]; intros occ st Hslots Hocc; simpl; [assumption|].
  assert (Hslots' : forall s, In s slots -> In s timeSlots)
    by (intros s Hs; apply Hslots; now right).
  destruct (findIndex _ (demand st)) as [idx|]; [|assumption].
  destruct (nth_error (demand st) idx) as [d|]; [|assumption].
  destruct (filter _ teachers) as [|firstAvailable others] eqn:Eavail; [now apply IH|].
  destruct (find _ rooms) as [room|] eqn:Eroom; [|now apply IH].
  destruct (has (occupiedBySection occ) _); [now apply IH|].
  (* the teacher chosen is free in this slot *)
  match goal with |- context [Teacher.id ?t +++ "|" +++ TimeSlot.id slot] =>
    assert (Hteacher : has (occupiedByTeacher occ)
                         (Teacher.id t +++ "|" +++ TimeSlot.id slot) = false);
    [|set (teacher := t) in *]
  end.
  { match goal with |- context [filter ?p (firstAvailable :: others)] =>
      destruct (filter p (firstAvailable :: others)) as [|t ts] eqn:Eun
    end.
    - apply filter_head in Eavail as [_ H]. apply andb_prop in H as [_ H].
      now apply negb_true_iff in H.
    - apply filter_head in Eun as [Hin _]. rewrite <- Eavail in Hin.
      apply filter_In in Hin as [_ H]. apply andb_prop in H as [_ H].
      now apply negb_true_iff in H. }
  apply find_some in Eroom as [_ Hroom]. apply andb_prop in Hroom as [_ Hroom].
  apply negb_true_iff in Hroom.
  destruct Hocc as [Hall [Ht Hr]]. simpl.
  unfold HybridOptimizer.booked. split; [|split]; simpl.
  - intros cls Hc. apply in_app_or in Hc as [Hc | [<- | []]].
    + destruct (Hall cls Hc) as [H1 [H2 H3]].
      repeat split; [apply has_add_intro | apply has_add_intro | exact H3]; now left.
    + repeat split; [apply has_add_intro | apply has_add_intro |]; try now right.
      exists slot. repeat split. apply Hslots. now left.
  - rewrite map_app. apply NoDup_snoc; [assumption|].
    apply (fresh_key (occupiedByTeacher occ)); [|assumption].
    intros cls Hc. now apply Hall.
  - rewrite map_app. apply NoDup_snoc; [assumption|].
    apply (fresh_key (occupiedByRoom occ)); [|assumption].
    intros cls Hc. now apply Hall.
Qed.

Lemma grouped_In {A : Type} (key : A -> string) (xs : list A) :
  forall m k l y,
    In (k, l) (fold_left (fun m x => pushTo (key x) x m) xs m) -> In y l ->
    In y xs \/ exists l', In (k, l') m /\ In y l'.
Proof.
  induction xs as [|x xs IH]; intros m k l y; simpl.
  - intros H Hy. right. eauto.
  - intros H Hy. destruct (IH _ _ _ _ H Hy) as [H1 | [l' [H1 H2]]]; [now left; right|].
    destruct (pushTo_In _ _ _ _ _ _ H1 H2) as [-> | H3]; [now left; left | now right].
Qed.

Lemma dayToSlots_In day l slot :
  lookup slotsByDay day = Some l -> In slot l -> In slot timeSlots.
Proof.
  intros Hl Hs. apply lookup_In in Hl as [k Hk].
  unfold HybridOptimizer.slotsByDay in Hk.
  apply in_map_iff in Hk as [[k' l'] [[= <- <-] Hk]].
  apply sortBy_In in Hs.
  destruct (grouped_In _ _ _ _ _ _ Hk Hs) as [H | [? [[] _]]]. exact H.
Qed.

Lemma tryPlaceOneOnDay_booked course section day occ st :
  booked occ -> booked (snd (fst (tryPlaceOneOnDay course section day occ st))).
Proof.
  unfold HybridOptimizer.tryPlaceOneOnDay.
  destruct (lookup _ day) as [l|] eqn:E.
  - apply placeInSlots_booked. intros slot. now apply dayToSlots_In with (day := day).
  - simpl. trivial.
Qed.

Lemma buildTestSchedule_booked schedule :
  buildTestSchedule = Returned schedule ->
  exists occ, testSchedule occ = schedule /\ booked occ.
Proof.
  assert (H0 : booked (mkOccupancy [] [] [] [])).
  { unfold HybridOptimizer.booked. split; [|split]; simpl; [intros ? [] | constructor | constructor]. }
  intros Hb. apply buildTestSchedule_returned in Hb as [-> | [occ [E <-]]].
  - now exists (mkOccupancy [] [] [] []).
  - exists occ. split; [reflexivity|].
    exact (scheduleCourses_keeps booked tryPlaceOneOnDay_booked _ _ _ H0 E).
Qed.

(** C2, as amended. The list of conflicts that [optimize] returns is empty
    in every case; and when time slots that share a day and a start time
    are the same slot, no two assignments of the returned schedule share
    room, day and start time, or teacher, day and start time. *)
Theorem optimize_no_double_booking (params : GeneticAlgorithmParams.t)
  (result : OptimizationResult.t) :
  snd (optimize params) = Returned result ->
  OptimizationResult.conflicts result = []
  /\ (slotsDistinct timeSlots ->
      NoDup (map roomDayStart (OptimizationResult.schedule result))
      /\ NoDup (map teacherDayStart (OptimizationResult.schedule result))).
Proof.
  intros Hret.
  destruct (optimize_returned _ _ Hret) as [schedule [E ->]]. simpl.
  split; [reflexivity|]. intros Hslots.
  destruct (buildTestSchedule_booked _ E) as [occ [<- [Hall [Ht Hr]]]].
  assert (Hsame : forall a b, In a (testSchedule occ) -> In b (testSchedule occ) ->
            ClassSchedule.day a = ClassSchedule.day b ->
            ClassSchedule.startTime a = ClassSchedule.startTime b ->
            ClassSchedule.timeSlotId a = ClassSchedule.timeSlotId b).
  { intros a b Ha Hb Hd Hs.
    destruct (Hall a Ha) as [_ [_ [sa [Hsa [-> [Hda Hta]]]]]].
    destruct (Hall b Hb) as [_ [_ [sb [Hsb [-> [Hdb Htb]]]]]].
    apply Hslots; congruence. }
  split.
  - apply (NoDup_map_coarser roomKey); [|assumption].
    intros a b Ha Hb [= H1 H2 H3]. unfold roomKey. rewrite H1.
    f_equal. f_equal. now apply Hsame.
  - apply (NoDup_map_coarser teacherKey); [|assumption].
    intros a b Ha Hb [= H1 H2 H3]. unfold teacherKey. rewrite H1.
    f_equal. f_equal. now apply Hsame.
Qed.

End Facts.

(** C1 on Scenario B (no teacher) and on a complete input. *)
Lemma optimize_validates_input_witness :
  HybridOptimizer.optimize Inputs.oneCourse [] Inputs.oneRoom Inputs.separateSlots
    Inputs.noConstraints Inputs.twoSubjects Runtime.codeUnitCompare Inputs.params
  = ([], Thrown "Missing required data: courses, teachers, or rooms")
  /\ fst (HybridOptimizer.optimize Inputs.oneCourse Inputs.oneTeacher Inputs.oneRoom
            Inputs.separateSlots Inputs.noConstraints Inputs.twoSubjects
            Runtime.codeUnitCompare Inputs.params)
     = simulatedProgress
  /\ snd (HybridOptimizer.optimize Inputs.oneCourse Inputs.oneTeacher Inputs.oneRoom
            Inputs.separateSlots Inputs.noConstraints Inputs.twoSubjects
            Runtime.codeUnitCompare Inputs.params)
     <> Thrown "Missing required data: courses, teachers, or rooms".
Proof.
  split.
  - apply (optimize_validates_input Inputs.oneCourse [] Inputs.oneRoom).
    right. left. reflexivity.
  - apply (optimize_validates_input Inputs.oneCourse Inputs.oneTeacher Inputs.oneRoom);
      discriminate.
Defined.

(** On a complete input without inherited names [optimize] returns the
    fixed scores. *)
Lemma optimize_returns_fixed_scores_witness :
  exists result,
    snd (HybridOptimizer.optimize Inputs.oneCourse Inputs.oneTeacher Inputs.oneRoom
           Inputs.separateSlots Inputs.noConstraints Inputs.twoSubjects
           Runtime.codeUnitCompare Inputs.params)
    = Returned result
    /\ OptimizationResult.fitness result = finite 750.
Proof.
  pose proof (optimize_returns_fixed_scores Inputs.oneCourse Inputs.oneTeacher
                Inputs.oneRoom Inputs.separateSlots Inputs.noConstraints
                Inputs.twoSubjects Runtime.codeUnitCompare Inputs.params) as H.
  destruct H as [result [H1 [_ [H2 _]]]]; try discriminate.
  exists result. split; assumption.
Defined.

(** C3 fails on the code. With a course, a teacher and a room, two
    subjects and a time slot whose day is [constructor], [optimize] reports
    its progress and then throws a [TypeError]: [dayToSlots] is a plain
    object, in which the day finds the function that every object
    inherits under that name, and that function has no [push]. No result
    is returned. *)
Theorem optimize_throws_on_an_inherited_day :
  HybridOptimizer.optimize Inputs.oneCourse Inputs.oneTeacher Inputs.oneRoom
    Inputs.inheritedDaySlots Inputs.noConstraints Inputs.twoSubjects
    Runtime.codeUnitCompare Inputs.params
  = (simulatedProgress, Thrown "TypeError").
Proof. vm_compute. reflexivity. Qed.

Lemma slotsDistinct_separate : slotsDistinct Inputs.separateSlots.
Proof.
  intros s1 s2 H1 H2. simpl in H1, H2.
  destruct H1 as [<- | [<- | []]], H2 as [<- | [<- | []]];
    try reflexivity; discriminate.
Qed.

(** The amended statement applies to the two separate slots. *)
Lemma optimize_no_double_booking_witness :
  OptimizationResult.conflicts Inputs.separateResult = []
  /\ NoDup (map roomDayStart (OptimizationResult.schedule Inputs.separateResult))
  /\ NoDup (map teacherDayStart (OptimizationResult.schedule Inputs.separateResult)).
Proof.
  destruct (optimize_no_double_booking Inputs.oneCourse Inputs.oneTeacher Inputs.oneRoom
              Inputs.separateSlots Inputs.noConstraints Inputs.twoSubjects
              Runtime.codeUnitCompare Inputs.params Inputs.separateResult)
    as [H1 H2]; [vm_compute; reflexivity|].
  split; [exact H1 | exact (H2 slotsDistinct_separate)].
Defined.

(** C2, as stated, fails: with the two coinciding Monday slots the
    returned schedule books teacher [t1] and room [r1] twice on Monday at
    10:00, and the returned list of conflicts is empty. *)
Lemma optimize_double_books :
  exists result,
    snd (HybridOptimizer.optimize Inputs.oneCourse Inputs.oneTeacher Inputs.oneRoom
           Inputs.coincidingSlots Inputs.noConstraints Inputs.twoSubjects
           Runtime.codeUnitCompare Inputs.params)
    = Returned result
    /\ map roomDayStart (OptimizationResult.schedule result)
       = [("r1", "Monday", "10:00"); ("r1", "Monday", "10:00")]
    /\ map teacherDayStart (OptimizationResult.schedule result)
       = [("t1", "Monday", "10:00"); ("t1", "Monday", "10:00")]
    /\ OptimizationResult.conflicts result = [].
Proof.
  eexists. split; [vm_compute; reflexivity|]. repeat split.
Qed.

End OptimizeFacts.

(** ** The constraint solver *)

Module SolverFacts.

Import Basics CPSATSolver.

Section Facts.

Variable courses : list Course.t.
Variable teachers : list Teacher.t.
Variable rooms : list Room.t.
Variable timeSlots : list TimeSlot.t.
Variable constraints : TimetableConstraints.t.
Variable subjects : list Subject.t.
Variable parseDate : string -> option Z.
Variable ln : Z -> Q.
Variable stamp : nat -> string.

Abbreviation solve :=
  (CPSATSolver.solve courses teachers rooms timeSlots constraints subjects parseDate ln
     stamp).
Abbreviation solveWithRelaxedConstraints :=
  (CPSATSolver.solveWithRelaxedConstraints courses teachers rooms timeSlots constraints
     parseDate ln stamp).
Abbreviation initialVariables :=
  (CPSATSolver.initializeVariables courses teachers rooms timeSlots constraints subjects
     parseDate).
Abbreviation resultFor := (CPSATSolver.resultFor rooms timeSlots).
Abbreviation backtrack := (CPSATSolver.backtrack courses subjects).
Abbreviation backtrackingSearch := (CPSATSolver.backtrackingSearch courses subjects).
Abbreviation isAssignmentComplete := (CPSATSolver.isAssignmentComplete courses subjects).
Abbreviation requiredSubjects := (CPSATSolver.requiredSubjects courses subjects).
Abbreviation assignmentToSchedule := (CPSATSolver.assignmentToSchedule timeSlots stamp).

(** *** The search returns, and only a complete assignment *)

Lemma chooseVariable_In constraintList first unassigned :
  In first unassigned -> In (chooseVariable constraintList first unassigned) unassigned.
Proof.
  unfold chooseVariable. intros Hfirst.
  assert (H : forall l st, In (snd st) unassigned ->
            (forall x, In x l -> In x unassigned) ->
            In (snd (fold_left
                       (fun (st : option nat * string) varId =>
                          let conflicts := countConflicts constraintList varId in
                          match fst st with
                          | Some minConflicts =>
                              if (conflicts <? minConflicts)%nat
                              then (Some conflicts, varId) else st
                          | None => (Some conflicts, varId)
                          end) l st)) unassigned).
  { induction l as [|x l IH]; intros st Hst Hl; simpl; [assumption|].
    apply IH; [|intros y Hy; apply Hl; now right].
    destruct (fst st) as [m|]; simpl.
    - destruct (_ <? m)%nat; simpl; [apply Hl; now left | assumption].
    - apply Hl. now left. }
  apply H; auto.
Qed.

Lemma filter_length_lt {A : Type} (p : A -> bool) (l : list A) (x : A) :
  In x l -> p x = false -> (List.length (filter p l) < List.length l)%nat.
Proof.
  induction l as [|y l IH]; simpl; [tauto|].
  intros [-> | Hx] Hp.
  - rewrite Hp. pose proof (filter_length_le p l). lia.
  - specialize (IH Hx Hp). destruct (p y); simpl; lia.
Qed.

Lemma backtrack_terminates constraintList vars fuel : forall assignment unassigned,
  (List.length unassigned <= fuel)%nat ->
  exists r, backtrack constraintList vars fuel assignment unassigned = Some r.
Proof.
  induction fuel as [|fuel IH]; intros assignment unassigned Hfuel.
  - destruct unassigned; [simpl; eauto | simpl in Hfuel; lia].
  - destruct unassigned as [|first rest]; [simpl; eauto|].
    cbn [CPSATSolver.backtrack].
    set (variable := chooseVariable constraintList first (first :: rest)).
    set (remaining := filter (fun v => negb (v =? variable)) (first :: rest)).
    assert (Hrem : (List.length remaining < List.length (first :: rest))%nat).
    { apply filter_length_lt with (x := variable).
      - apply chooseVariable_In. now left.
      - now rewrite String.eqb_refl. }
    assert (Hfc : forall a, (List.length (forwardCheck constraintList a remaining)
                             <= fuel)%nat).
    { intros a. unfold forwardCheck.
      pose proof (filter_length_le
                    (fun varId => isConsistent constraintList (set varId true a) varId)
                    remaining).
      cbn [List.length] in Hfuel, Hrem. lia. }
    assert (Hrem' : (List.length remaining <= fuel)%nat)
      by (cbn [List.length] in Hfuel, Hrem; lia).
    destruct (isConsistent constraintList (set variable true assignment) variable).
    + destruct (IH (set variable true assignment) _ (Hfc (set variable true assignment)))
        as [[[|] a1] ->]; [eauto|].
      destruct (isConsistent constraintList (set variable false a1) variable); [|eauto].
      destruct (IH (set variable false a1) remaining Hrem') as [[[|] a2] ->]; eauto.
    + destruct (isConsistent constraintList
                  (set variable false (set variable true assignment)) variable); [|eauto].
      destruct (IH (set variable false (set variable true assignment)) remaining Hrem')
        as [[[|] a2] ->]; eauto.
Qed.

Lemma backtrack_complete constraintList vars fuel : forall assignment unassigned result,
  backtrack constraintList vars fuel assignment unassigned = Some (true, result) ->
  isAssignmentComplete vars result = true.
Proof.
  induction fuel as [|fuel IH]; intros assignment unassigned result.
  - destruct unassigned; simpl; [|discriminate]. now intros [= H <-].
  - destruct unassigned as [|first rest]; [simpl; now intros [= H <-]|].
    cbn [CPSATSolver.backtrack].
    set (variable := chooseVariable constraintList first (first :: rest)).
    set (remaining := filter (fun v => negb (v =? variable)) (first :: rest)).
    assert (Hsecond : forall a,
              match
                (if isConsistent constraintList (set variable false a) variable
                 then backtrack constraintList vars fuel (set variable false a) remaining
                 else Some (false, set variable false a))
              with
              | Some (true, result0) => Some (true, result0)
              | Some (false, a') => Some (false, delete variable a')
              | None => None
              end = Some (true, result) ->
              isAssignmentComplete vars result = true).
    { intros a.
      destruct (isConsistent constraintList (set variable false a) variable);
        [|discriminate].
      destruct (backtrack constraintList vars fuel (set variable false a) remaining)
        as [[[|] a2]|] eqn:E2; try discriminate.
      intros [= <-]. eapply IH; eauto. }
    destruct (isConsistent constraintList (set variable true assignment) variable).
    + destruct (backtrack constraintList vars fuel (set variable true assignment) _)
        as [[[|] a1]|] eqn:E1; try discriminate.
      * intros [= <-]. eapply IH; eauto.
      * apply Hsecond.
    + apply Hsecond.
Qed.

(** The test [coverage >= 0.7], on the sizes of the two sets. *)
Lemma isAssignmentComplete_threshold vars assignment :
  isAssignmentComplete vars assignment = true <->
  (7 * Z.max (Z.of_nat (List.length requiredSubjects)) 1
   <= 10 * Z.of_nat (List.length (assignedSubjects vars assignment)))%Z.
Proof.
  unfold CPSATSolver.isAssignmentComplete, size.
  set (a := Z.of_nat (List.length (assignedSubjects vars assignment))).
  set (r := Z.max (Z.of_nat (List.length requiredSubjects)) 1).
  assert (Hr : (0 < r)%Z) by (subst r; lia).
  rewrite Qle_bool_iff.
  destruct r as [|r|r]; try lia.
  unfold Qle, Qdiv, Qmult, Qinv, inject_Z. cbn -[Z.mul Pos.mul].
  rewrite ?Pos.mul_1_l. lia.
Qed.

(** *** The keys counted by the coverage are required keys *)

Abbreviation required := (CPSATSolver.required courses subjects).

Lemma add_In (s : list string) (k k' : string) :
  In k' (add s k) <-> In k' s \/ k' = k.
Proof.
  rewrite <- !has_true_iff. split; [apply has_add | apply has_add_intro].
Qed.

Lemma fold_add_In (l : list string) : forall acc k,
  In k (fold_left add l acc) <-> In k acc \/ In k l.
Proof.
  induction l as [|x l IH]; intros acc k; simpl; [tauto|].
  rewrite IH, add_In. intuition auto.
Qed.

Lemma set_In_inv {A : Type} (key : string) (x : A) (m : list (string * A))
  (entry : string * A) :
  In entry (set key x m) -> snd entry = x \/ In entry m.
Proof.
  induction m as [|[k v] m IH]; simpl.
  - intros [<- | []]. now left.
  - destruct (k =? key); simpl.
    + intros [<- | H]; [now left | right; now right].
    + intros [<- | H]; [right; now left|].
      destruct (IH H) as [? | ?]; [now left | right; now right].
Qed.

Lemma initialVariables_required : required initialVariables.
Proof.
  unfold CPSATSolver.required, CPSATSolver.initializeVariables.
  set (candidates := flat_map _ courses).
  assert (Hcand : forall v, In v candidates -> In (coverageKey v) requiredSubjects).
  { intros v Hv. unfold candidates in Hv. apply in_flat_map in Hv as [course [Hc Hv]].
    destruct (Course.sections course) as [[|s0 ss]|] eqn:Es; try contradiction.
    apply in_flat_map in Hv as [section [Hsec Hv]].
    apply in_flat_map in Hv as [subject [Hsub Hv]].
    apply filter_In in Hsub as [Hsub Hwanted].
    unfold candidateVariables in Hv.
    apply in_flat_map in Hv as [teacher [_ Hv]].
    apply in_flat_map in Hv as [room [_ Hv]].
    apply in_map_iff in Hv as [timeSlot [<- _]].
    unfold coverageKey, CPSATSolver.requiredSubjects. simpl.
    apply fold_add_In. right.
    apply in_flat_map. exists course. split; [assumption|].
    apply in_flat_map. exists section. rewrite Es. split; [assumption|].
    apply in_map_iff. exists subject. split; [reflexivity|].
    apply filter_In. split; [assumption|].
    unfold subjectWanted in Hwanted.
    destruct (Subject.courseId subject =? Course.id course); [reflexivity|].
    discriminate. }
  assert (Hfold : forall l vars,
            (forall v, In v l -> In (coverageKey v) requiredSubjects) ->
            (forall entry, In entry vars ->
               In (coverageKey (snd entry)) requiredSubjects) ->
            forall entry,
              In entry (fold_left (fun vars v => set (CspVariable.id v) v vars) l vars) ->
              In (coverageKey (snd entry)) requiredSubjects).
  { induction l as [|v l IH]; intros vars Hl Hvars entry; simpl; [apply Hvars|].
    apply IH; [intros v' Hv'; apply Hl; now right|].
    intros e He. apply set_In_inv in He as [-> | He]; [apply Hl; now left | auto]. }
  apply Hfold; [exact Hcand | intros entry []].
Qed.

Lemma disablePeer_required only varId vars changed :
  required vars -> required (fst (disablePeer only (vars, changed) varId)).
Proof.
  intros Hvars. unfold disablePeer.
  destruct (negb (varId =? only)); [|assumption].
  destruct (lookup vars varId) as [v|] eqn:Ev; [|assumption]. simpl.
  intros entry He. apply set_In_inv in He as [-> | He]; [|auto].
  destruct (lookup_In _ _ _ Ev) as [k Hk]. exact (Hvars _ Hk).
Qed.

Lemma propagateConstraint_required constraint vars :
  required vars -> required (snd (fst (propagateConstraint constraint vars))).
Proof.
  intros Hvars. unfold propagateConstraint.
  destruct (isResourceConflict constraint); [|assumption].
  destruct (activeVariables vars constraint) as [|only [|]]; try assumption.
  assert (Hfold : forall ids st, required (fst st) ->
            required (fst (fold_left (disablePeer only) ids st))).
  { induction ids as [|x ids IH]; intros [vars0 changed0] Hst; simpl; [assumption|].
    apply IH. now apply disablePeer_required. }
  specialize (Hfold (CspConstraint.variables constraint) (vars, false) Hvars).
  destruct (fold_left (disablePeer only) (CspConstraint.variables constraint)
              (vars, false)) as [vars1 changed1].
  exact Hfold.
Qed.

Lemma propagateAll_required todo : forall vars changed,
  required vars -> required (snd (fst (propagateAll todo vars changed))).
Proof.
  induction todo as [|constraint todo IH]; intros vars changed Hvars; simpl; [assumption|].
  pose proof (propagateConstraint_required constraint vars Hvars) as H1.
  destruct (propagateConstraint constraint vars) as [[constraint' vars'] changedHere].
  simpl in H1.
  specialize (IH vars' (if changedHere then true else changed) H1).
  destruct (propagateAll todo vars' _) as [[done vars''] changed'].
  exact IH.
Qed.

Lemma constraintPropagation_required constraintList vars :
  required vars -> required (snd (constraintPropagation constraintList vars)).
Proof.
  unfold constraintPropagation. generalize 100%nat as passes. intros passes.
  revert constraintList vars.
  induction passes as [|passes IH]; intros constraintList vars Hvars; simpl;
    [assumption|].
  pose proof (propagateAll_required constraintList vars false Hvars) as H1.
  destruct (propagateAll constraintList vars false) as [[cs' vars'] changed].
  simpl in H1.
  assert (H2 : required (filter (fun entry => CspVariable.domain (snd entry)) vars')).
  { intros entry He. apply filter_In in He as [He _]. now apply H1. }
  unfold removeInconsistent.
  destruct (if forallb _ vars' then changed else true); [now apply IH | assumption].
Qed.

Lemma assignedSubjects_required vars assignment :
  required vars ->
  forall key, In key (assignedSubjects vars assignment) -> In key requiredSubjects.
Proof.
  intros Hvars. unfold assignedSubjects.
  assert (Hfold : forall l acc,
            (forall key, In key acc -> In key requiredSubjects) ->
            forall key,
              In key
                (fold_left
                   (fun (assigned : list string) (entry : string * bool) =>
                      if snd entry then
                        match lookup vars (fst entry) with
                        | Some variable =>
                            add assigned
                              (CspVariable.subjectId variable +++ "_"
                               +++ CspVariable.section variable)
                        | None => assigned
                        end
                      else assigned) l acc) ->
              In key requiredSubjects).
  { induction l as [|[id value] l IH]; intros acc Hacc key; simpl; [apply Hacc|].
    apply IH. destruct value; [|assumption].
    destruct (lookup vars id) as [v|] eqn:Ev; [|assumption].
    intros k Hk. apply add_In in Hk as [Hk | ->]; [auto|].
    destruct (lookup_In _ _ _ Ev) as [k0 Hk0]. exact (Hvars _ Hk0). }
  apply Hfold. intros key [].
Qed.

(** [solve] always returns a result. When the backtracking search
    returns an assignment, the (subject, section) keys that have a
    selected variable are required keys and make up at least 70% of the
    required keys, and the result is built from that assignment; when the
    search returns none, the result is the one of the greedy fallback. *)
Theorem solve_never_fails :
  let variables := initialVariables in
  let propagated :=
    constraintPropagation (initializeConstraints variables) variables in
  exists search,
    backtrackingSearch (fst propagated) (snd propagated) = Some search
    /\ (fst search = true ->
        (forall key, In key (assignedSubjects (snd propagated) (snd search)) ->
                     In key requiredSubjects)
        /\ (7 * Z.max (Z.of_nat (List.length requiredSubjects)) 1
            <= 10 * Z.of_nat
                     (List.length (assignedSubjects (snd propagated) (snd search))))%Z
        /\ solve
           = Returned
               (resultFor (assignmentToSchedule (snd propagated) (snd search))))
    /\ (fst search = false -> solve = Returned solveWithRelaxedConstraints).
Proof.
  intros variables propagated.
  assert (Hreq : required (snd propagated))
    by (apply constraintPropagation_required, initialVariables_required).
  unfold CPSATSolver.solve. fold variables.
  change (constraintPropagation (initializeConstraints variables) variables)
    with propagated.
  destruct propagated as [constraintList vars]. simpl in *.
  unfold CPSATSolver.backtrackingSearch.
  destruct (backtrack_terminates constraintList vars _ []
              (filter (isActive vars) (map fst vars)) (le_n _)) as [[found a] E].
  exists (found, a). rewrite E. simpl. split; [reflexivity|]. split.
  - intros ->. split; [now apply assignedSubjects_required|]. split; [|reflexivity].
    apply isAssignmentComplete_threshold. eapply backtrack_complete; eauto.
  - intros ->. reflexivity.
Qed.

End Facts.

(** On Scenario D a single slot serves one of the two subjects only, the
    search finds no assignment that covers 70%, and [solve] returns the
    result of the greedy fallback. *)
Lemma solve_never_fails_witness :
  CPSATSolver.solve Inputs.sectionA Inputs.mondayTeacher Inputs.oneRoom Inputs.oneSlot
    Inputs.noConstraints Inputs.twoSubjects Runtime.isoDate (fun _ => 0)
    (fun _ => "now")
  = Returned
      (CPSATSolver.solveWithRelaxedConstraints Inputs.sectionA Inputs.mondayTeacher
         Inputs.oneRoom Inputs.oneSlot Inputs.noConstraints Runtime.isoDate
         (fun _ => 0) (fun _ => "now")).
Proof.
  destruct (solve_never_fails Inputs.sectionA Inputs.mondayTeacher Inputs.oneRoom
              Inputs.oneSlot Inputs.noConstraints Inputs.twoSubjects Runtime.isoDate
              (fun _ => 0) (fun _ => "now")) as [search [Hsearch [_ Hfallback]]].
  apply Hfallback. vm_compute in Hsearch. now injection Hsearch as <-.
Defined.

(** [solve] where the search succeeds: with a teacher for each subject and
    two slots, the search selects a variable for both subjects, and the
    result is the schedule of that assignment. *)
Lemma solve_accepts_full_coverage :
  let variables :=
    initializeVariables Inputs.sectionA Inputs.twoTeachers Inputs.oneRoom
      Inputs.separateSlots Inputs.noConstraints Inputs.twoSubjects Runtime.isoDate in
  let propagated := constraintPropagation (initializeConstraints variables) variables in
  backtrackingSearch Inputs.sectionA Inputs.twoSubjects (fst propagated) (snd propagated)
  = Some (true,
          [("c1_algebra_A_t1_r1_mon-10-40min", true);
           ("c1_algebra_A_t1_r1_tue-10-40min", false);
           ("c1_logic_A_t2_r1_tue-10-40min", true)])
  /\ exists result,
       CPSATSolver.solve Inputs.sectionA Inputs.twoTeachers Inputs.oneRoom
         Inputs.separateSlots Inputs.noConstraints Inputs.twoSubjects Runtime.isoDate
         (fun _ => 0) (fun _ => "now")
       = Returned result
       /\ map (fun c => (ClassSchedule.subjectId c, ClassSchedule.timeSlotId c))
            (OptimizationResult.schedule result)
          = [(Some "algebra", "mon-10-40min"); (Some "logic", "tue-10-40min")]
       /\ OptimizationResult.conflicts result = [].
Proof.
  intros variables propagated. split; [vm_compute; reflexivity|].
  eexists. split; [vm_compute; reflexivity|]. split; reflexivity.
Qed.

(** C9 fails on the code. [Inputs.unitCourses] and [Inputs.unitSubjects]
    require two (subject, section) demand units, subject [s_A] for
    section [x] and subject [s] for section [A_x], and the two have the
    same key [s_A_x] in [isAssignmentComplete]. The teacher and the room
    are free in one slot only, the search selects the variable of the
    first unit, counts one required key of one as covered, and accepts the
    assignment: one demand unit of two has a selected variable, which is
    less than 70%, and [solve] returns the schedule of that assignment. *)
Theorem search_accepts_half_the_units :
  let propagated :=
    constraintPropagation (initializeConstraints Inputs.unitVariables)
      Inputs.unitVariables in
  let accepted := [("c1_s_A_x_t1_r1_mon-10-40min", true)] in
  requiredUnits Inputs.unitCourses Inputs.unitSubjects = [("s_A", "x"); ("s", "A_x")]
  /\ requiredSubjects Inputs.unitCourses Inputs.unitSubjects = ["s_A_x"]
  /\ backtrackingSearch Inputs.unitCourses Inputs.unitSubjects (fst propagated)
       (snd propagated)
     = Some (true, accepted)
  /\ assignedSubjects (snd propagated) accepted = ["s_A_x"]
  /\ coveredUnits Inputs.unitCourses Inputs.unitSubjects (snd propagated) accepted
     = [("s_A", "x")]
  /\ exists result,
       CPSATSolver.solve Inputs.unitCourses Inputs.unitTeacher Inputs.oneRoom
         Inputs.oneSlot Inputs.noConstraints Inputs.unitSubjects Runtime.isoDate
         (fun _ => 0) (fun _ => "now")
       = Returned result
       /\ map (fun c => (ClassSchedule.subjectId c, ClassSchedule.section c))
            (OptimizationResult.schedule result)
          = [(Some "s_A", Some "x")].
Proof.
  intros propagated accepted. repeat (split; [vm_compute; reflexivity|]).
  eexists. split; [vm_compute; reflexivity|]. reflexivity.
Qed.

(** *** Propagation *)

Lemma lookup_set_other {A : Type} (m : list (string * A)) (key k : string) (v : A) :
  k <> key -> lookup (set key v m) k = lookup m k.
Proof.
  intros Hk. induction m as [|[k0 v0] m IH]; simpl.
  - destruct (String.eqb_spec key k); [congruence | reflexivity].
  - destruct (String.eqb_spec k0 key) as [->|Hne]; simpl.
    + destruct (String.eqb_spec key k); [congruence | reflexivity].
    + now rewrite IH.
Qed.

Lemma lookup_set_same {A : Type} (m : list (string * A)) (key : string) (v : A) :
  lookup (set key v m) key = Some v.
Proof.
  induction m as [|[k0 v0] m IH]; simpl.
  - now rewrite String.eqb_refl.
  - destruct (String.eqb_spec k0 key) as [->|Hne]; simpl.
    + now rewrite String.eqb_refl.
    + destruct (String.eqb_spec k0 key); [contradiction | exact IH].
Qed.

Lemma lookup_set_present {A : Type} (m : list (string * A)) (key k : string) (v : A) :
  lookup m k = None -> lookup m key <> None -> lookup (set key v m) k = None.
Proof.
  intros Hk Hkey. rewrite lookup_set_other; [assumption|].
  intros ->. contradiction.
Qed.

(** The peers of the only active variable of a group are all disabled,
    and nothing else changes. *)
Lemma disablePeers_spec only ids : forall vars changed,
  let vars' := fst (fold_left (disablePeer only) ids (vars, changed)) in
  isActive vars' only = isActive vars only
  /\ (forall id, In id ids -> id <> only -> isActive vars' id = false)
  /\ (forall id, isActive vars id = false -> isActive vars' id = false).
Proof.
  induction ids as [|x ids IH]; intros vars changed; cbn [fold_left fst].
  - repeat split; auto. intros id [].
  - assert (Hstep : exists vars1 changed1,
              disablePeer only (vars, changed) x = (vars1, changed1)
              /\ isActive vars1 only = isActive vars only
              /\ (x <> only -> isActive vars1 x = false)
              /\ (forall id, isActive vars id = false -> isActive vars1 id = false)).
    { unfold disablePeer. destruct (String.eqb_spec x only) as [->|Hx]; simpl.
      - exists vars, changed. repeat split; auto. congruence.
      - destruct (lookup vars x) as [v|] eqn:Ev.
        + exists (set x (disable v) vars), true. repeat split.
          * unfold isActive. rewrite lookup_set_other; auto.
          * intros _. unfold isActive. now rewrite lookup_set_same.
          * intros id Hid. unfold isActive in *.
            destruct (String.eqb_spec id x) as [->|Hne].
            -- now rewrite lookup_set_same.
            -- rewrite lookup_set_other; auto.
        + exists vars, changed. repeat split; auto.
          intros _. unfold isActive. now rewrite Ev. }
    destruct Hstep as [vars1 [changed1 [-> [H1 [H2 H3]]]]].
    destruct (IH vars1 changed1) as [I1 [I2 I3]]. repeat split.
    + now rewrite I1.
    + intros id [<- | Hid] Hne; [apply I3; auto | apply I2; auto].
    + intros id Hid. apply I3. now apply H3.
Qed.

Lemma filter_ext_in_eq {A : Type} (p q : A -> bool) (l : list A) :
  (forall x, In x l -> p x = q x) -> filter p l = filter q l.
Proof.
  induction l as [|x l IH]; intros H; simpl; [reflexivity|].
  rewrite (H x) by now left. rewrite IH; [reflexivity|].
  intros y Hy. apply H. now right.
Qed.

(** Where every stored variable is a candidate, a group never has a lone
    candidate with a stored peer, and propagating it changes nothing. *)
Lemma propagateConstraint_all_candidates constraint vars :
  (forall entry, In entry vars -> CspVariable.domain (snd entry) = true) ->
  snd (fst (propagateConstraint constraint vars)) = vars
  /\ snd (propagateConstraint constraint vars) = false.
Proof.
  intros Hall. unfold propagateConstraint.
  destruct (isResourceConflict constraint); [|now split].
  destruct (activeVariables vars constraint) as [|only [|]] eqn:Ea; try now split.
  assert (Hfold : forall ids st,
            (forall id, In id ids -> In id (CspConstraint.variables constraint)) ->
            st = @pair Variables bool vars false ->
            fold_left (disablePeer only) ids st = @pair Variables bool vars false).
  { induction ids as [|x ids IH]; intros st Hids ->; simpl; [reflexivity|].
    apply IH; [intros id Hid; apply Hids; now right|].
    destruct (String.eqb_spec x only) as [->|Hx]; simpl; [reflexivity|].
    destruct (lookup vars x) as [v|] eqn:Ev; [|reflexivity]. exfalso.
    assert (Hact : In x (activeVariables vars constraint)).
    { apply filter_In. split; [apply Hids; now left|].
      unfold isActive. rewrite Ev.
      destruct (lookup_In _ _ _ Ev) as [k Hk]. exact (Hall _ Hk). }
    rewrite Ea in Hact. destruct Hact as [-> | []]. contradiction. }
  cbv iota beta. rewrite (Hfold _ _ (fun id H => H) eq_refl). now split.
Qed.

Lemma propagateAll_all_candidates todo : forall vars changed,
  (forall entry, In entry vars -> CspVariable.domain (snd entry) = true) ->
  snd (fst (propagateAll todo vars changed)) = vars
  /\ snd (propagateAll todo vars changed) = changed.
Proof.
  induction todo as [|constraint todo IH]; intros vars changed Hall; simpl; [now split|].
  destruct (propagateConstraint_all_candidates constraint vars Hall) as [H1 H2].
  destruct (propagateConstraint constraint vars) as [[constraint' vars'] changedHere].
  simpl in H1, H2. subst vars' changedHere.
  destruct (IH vars changed Hall) as [H3 H4].
  destruct (propagateAll todo vars changed) as [[done vars''] changed'].
  simpl in *. now split.
Qed.

Lemma lookup_absent {A : Type} (p : string * A -> bool) (m : list (string * A))
  (key : string) :
  ~ In key (map fst m) -> lookup (filter p m) key = None.
Proof.
  induction m as [|[k v] m IH]; simpl; [reflexivity|]. intros H.
  assert (Hk : k <> key) by (intros ->; apply H; now left).
  assert (Hm : ~ In key (map fst m)) by (intros Hin; apply H; now right).
  destruct (p (k, v)); simpl; [|now apply IH].
  destruct (String.eqb_spec k key); [contradiction | now apply IH].
Qed.

(** Deleting the variables whose domain is false leaves the candidates
    as they are. *)
Lemma isActive_kept (vars : Variables) (id : string) :
  NoDup (map fst vars) ->
  isActive (filter (fun entry => CspVariable.domain (snd entry)) vars) id
  = isActive vars id.
Proof.
  unfold isActive. induction vars as [|[k v] vars IH]; simpl; [reflexivity|].
  intros Hnd. apply NoDup_cons_iff in Hnd as [Hk Hnd].
  destruct (CspVariable.domain v) eqn:Ev; simpl.
  - destruct (String.eqb_spec k id); [reflexivity | now apply IH].
  - destruct (String.eqb_spec k id) as [->|Hne]; [|now apply IH].
    rewrite lookup_absent by assumption. now rewrite Ev.
Qed.

(** A group without a lone candidate is left as it is. *)
Lemma propagateConstraint_idle constraint vars :
  hasLoneCandidate vars constraint = false ->
  propagateConstraint constraint vars = (constraint, vars, false).
Proof.
  unfold hasLoneCandidate, propagateConstraint.
  destruct (isResourceConflict constraint); [|reflexivity]. simpl.
  now destruct (activeVariables vars constraint) as [|only [|]].
Qed.

Lemma propagateAll_idle todo : forall vars changed,
  existsb (hasLoneCandidate vars) todo = false ->
  propagateAll todo vars changed = (todo, vars, changed).
Proof.
  induction todo as [|constraint todo IH]; intros vars changed H; simpl; [reflexivity|].
  simpl in H. apply orb_false_iff in H as [H1 H2].
  rewrite (propagateConstraint_idle _ _ H1), (IH vars changed H2). reflexivity.
Qed.

Lemma kept_twice {A : Type} (p : A -> bool) (l : list A) :
  filter p (filter p l) = filter p l /\ forallb p (filter p l) = true.
Proof.
  induction l as [|x l [IH1 IH2]]; simpl; [now split|].
  destruct (p x) eqn:E; simpl; [|now split]. rewrite E, IH1, IH2. now split.
Qed.

(** Without a group that has a lone candidate, propagation deletes the
    variables whose domain is false, in its first pass, and changes
    nothing else. *)
Lemma propagation_only_deletes constraintList vars :
  NoDup (map fst vars) ->
  existsb (hasLoneCandidate vars) constraintList = false ->
  constraintPropagation constraintList vars
  = (constraintList, filter (fun entry => CspVariable.domain (snd entry)) vars).
Proof.
  intros Hnd Hnone. unfold constraintPropagation.
  change (propagationLoop 100) with (propagationLoop (S (S 98))).
  cbn [propagationLoop]. rewrite (propagateAll_idle _ _ _ Hnone).
  unfold removeInconsistent at 1.
  destruct (forallb _ vars) eqn:Ef; [reflexivity|].
  set (kept := filter _ vars).
  assert (Hkept : existsb (hasLoneCandidate kept) constraintList = false).
  { rewrite <- Hnone. clear Hnone.
    induction constraintList as [|c cs IH]; simpl; [reflexivity|].
    rewrite IH. f_equal. unfold hasLoneCandidate, activeVariables.
    rewrite (filter_ext_in_eq (isActive kept) (isActive vars)); [reflexivity|].
    intros id _. now apply isActive_kept. }
  rewrite (propagateAll_idle _ _ _ Hkept). unfold removeInconsistent.
  destruct (kept_twice (fun entry : string * CspVariable.t => CspVariable.domain (snd entry))
              vars) as [H1 H2].
  fold kept in H1, H2. rewrite H1, H2. reflexivity.
Qed.

(** C10, as amended. Propagation disables the peers of a resource-conflict
    group only when the group has a single candidate left: a group with no
    candidate or with several is left as it is, whatever the domains of
    the variables, and when no group has a single candidate propagation
    only deletes the variables whose domain is false already. The single
    candidate of a group stays its only candidate, and every other
    variable of the group is disabled. Where every stored variable is a
    candidate, as are the two competing variables of Scenario D,
    propagation leaves every variable as it is. *)
Theorem propagation_needs_a_lone_candidate :
  (forall constraint vars,
     hasLoneCandidate vars constraint = false ->
     propagateConstraint constraint vars = (constraint, vars, false))
  /\ (forall constraintList vars,
        NoDup (map fst vars) ->
        existsb (hasLoneCandidate vars) constraintList = false ->
        constraintPropagation constraintList vars
        = (constraintList, filter (fun entry => CspVariable.domain (snd entry)) vars))
  /\ (forall constraintList vars,
        (forall entry, In entry vars -> CspVariable.domain (snd entry) = true) ->
        snd (constraintPropagation constraintList vars) = vars)
  /\ (forall constraint vars only,
        isResourceConflict constraint = true ->
        activeVariables vars constraint = [only] ->
        let vars' := snd (fst (propagateConstraint constraint vars)) in
        activeVariables vars' constraint = [only]
        /\ forall id, In id (CspConstraint.variables constraint) -> id <> only ->
             isActive vars' id = false).
Proof.
  split; [exact propagateConstraint_idle|]. split; [exact propagation_only_deletes|].
  split.
  - intros constraintList vars Hall. unfold constraintPropagation.
    cbn [propagationLoop].
    destruct (propagateAll_all_candidates constraintList vars false Hall) as [H1 H2].
    destruct (propagateAll constraintList vars false) as [[cs' vars'] changed].
    simpl in H1, H2. subst vars' changed. unfold removeInconsistent.
    assert (Hf : forallb (fun entry => CspVariable.domain (snd entry)) vars = true)
      by (apply forallb_forall; exact Hall).
    rewrite Hf. simpl. apply forallb_filter_id in Hf. exact Hf.
  - intros constraint vars only Hkind Hactive. cbv zeta.
    unfold propagateConstraint. rewrite Hkind, Hactive.
    pose proof (disablePeers_spec only (CspConstraint.variables constraint) vars false)
      as [H1 [H2 H3]].
    destruct (fold_left (disablePeer only) (CspConstraint.variables constraint)
                (vars, false)) as [vars1 changed1].
    simpl in H1, H2, H3 |- *. split; [|exact H2].
    rewrite <- Hactive. unfold activeVariables at 1 2.
    apply filter_ext_in_eq. intros id Hid.
    destruct (String.eqb_spec id only) as [->|Hne]; [exact H1|].
    rewrite (H2 id Hid Hne). symmetry.
    destruct (isActive vars id) eqn:E; [|reflexivity]. exfalso.
    assert (Hin : In id (activeVariables vars constraint))
      by (apply filter_In; now split).
    rewrite Hactive in Hin. destruct Hin as [-> | []]. contradiction.
Qed.

(** The amended statement on Scenario D, where both competing variables
    are candidates and propagation returns the variables it was given, and
    on [Inputs.halfWeekVariables], where the two groups of the Monday slot
    have two candidates each and the two groups of the Tuesday slot none:
    propagation deletes the two Tuesday variables, whose domain is false
    from the start, and disables nothing. *)
Lemma propagation_needs_a_lone_candidate_witness :
  snd (constraintPropagation Inputs.scenarioDConstraints Inputs.scenarioDVariables)
  = Inputs.scenarioDVariables
  /\ constraintPropagation Inputs.halfWeekConstraints Inputs.halfWeekVariables
     = (Inputs.halfWeekConstraints,
        filter (fun entry => CspVariable.domain (snd entry)) Inputs.halfWeekVariables)
  /\ map (fun c => (CspConstraint.id c, activeVariables Inputs.halfWeekVariables c))
       (filter isResourceConflict Inputs.halfWeekConstraints)
     = [("teacher_conflict_t1_mon-10-40min",
         [Inputs.algebraVariable; Inputs.logicVariable]);
        ("room_conflict_r1_mon-10-40min",
         [Inputs.algebraVariable; Inputs.logicVariable]);
        ("teacher_conflict_t1_tue-10-40min", []);
        ("room_conflict_r1_tue-10-40min", []);
        ("teacher_diversity_c1_A_algebra_logic",
         [Inputs.algebraVariable; Inputs.logicVariable])]
  /\ map fst
       (snd (constraintPropagation Inputs.halfWeekConstraints Inputs.halfWeekVariables))
     = [Inputs.algebraVariable; Inputs.logicVariable].
Proof.
  destruct propagation_needs_a_lone_candidate as [_ [Hdeletes [Hall _]]].
  split; [|split; [|split]].
  - apply Hall. intros entry Hentry. vm_compute in Hentry.
    destruct Hentry as [<- | [<- | []]]; reflexivity.
  - apply Hdeletes; [|vm_compute; reflexivity].
    vm_compute. repeat (constructor; [simpl; intuition discriminate|]). constructor.
  - vm_compute. reflexivity.
  - rewrite Hdeletes; [vm_compute; reflexivity| |vm_compute; reflexivity].
    vm_compute. repeat (constructor; [simpl; intuition discriminate|]). constructor.
Defined.

(** C10, as stated, fails on Scenario D: after propagation each of the
    three resource-conflict groups over the slot still has both competing
    variables as candidates. *)
Lemma propagation_selects_neither :
  let propagated :=
    constraintPropagation Inputs.scenarioDConstraints Inputs.scenarioDVariables in
  map (fun c => (CspConstraint.id c, activeVariables (snd propagated) c))
    (filter isResourceConflict (fst propagated))
  = [("teacher_conflict_t1_mon-10-40min",
      [Inputs.algebraVariable; Inputs.logicVariable]);
     ("room_conflict_r1_mon-10-40min",
      [Inputs.algebraVariable; Inputs.logicVariable]);
     ("teacher_diversity_c1_A_algebra_logic",
      [Inputs.algebraVariable; Inputs.logicVariable])].
Proof.
  vm_compute. reflexivity.
Qed.

End SolverFacts.

(** ** The generation loop *)

Module EvolutionFacts.

Import Evolution.

Section Facts.

Variable courses : list Course.t.
Variable teachers : list Teacher.t.
Variable rooms : list Room.t.
Variable timeSlots : list TimeSlot.t.
Variable constraints : TimetableConstraints.t.
Variable subjects : list Subject.t.
Variable parseDate : string -> option Z.
Variable localeCompare : string -> string -> comparison.
Variable random : nat -> Q.

Abbreviation generationBody :=
  (Evolution.generationBody courses teachers rooms timeSlots constraints subjects
     parseDate localeCompare random).

Lemma bind_returned {A B : Type} (m : M A) (k : A -> M B) (w : World) (b : B)
  (w' : World) :
  bind m k w = Returned (b, w') ->
  exists a w1, m w = Returned (a, w1) /\ k a w1 = Returned (b, w').
Proof.
  unfold bind. destruct (m w) as [[a w1]| | |]; try discriminate. eauto.
Qed.

(** Each generation ends with [lastBestFitness = bestIndividual.fitness]. *)
Lemma generationBody_last_best params offset generation loop w loop' w' :
  generationBody params offset generation loop w = Returned (loop', w') ->
  lastBestFitness loop' = Individual.fitness (bestIndividual loop').
Proof.
  unfold Evolution.generationBody.
  destruct (adapt params generation loop) as [count rate].
  intros H. apply bind_returned in H as [population [w1 [_ H]]].
  apply bind_returned in H as [currentBest [w2 [_ H]]].
  unfold ret in H. injection H as <- _. reflexivity.
Qed.

(** With that, the test [bestIndividual.fitness <= lastBestFitness] of the
    next generation holds, whatever the generation achieved. *)
Lemma adapt_counts params generation loop :
  (0 < generation)%Z ->
  lastBestFitness loop = Individual.fitness (bestIndividual loop) ->
  fst (adapt params generation loop) = (stagnationCount loop + 1)%Z.
Proof.
  intros Hg Hlast. unfold adapt.
  apply Z.ltb_lt in Hg. rewrite Hg, Hlast.
  assert (H : Qle_bool (Individual.fitness (bestIndividual loop))
                (Individual.fitness (bestIndividual loop)) = true)
    by (apply Qle_bool_iff; apply Qle_refl).
  rewrite H. reflexivity.
Qed.

(** In the runs that this module follows, those in which every fitness
    is a finite number, the stagnation counter goes up in every generation
    after the first, also when the generation before it improved the best
    fitness. (Of a best fitness that is [NaN] the test
    [bestIndividual.fitness <= lastBestFitness] is false.) *)
Lemma stagnation_never_resets params offset generation loop w loop1 w1
  generation' loop2 w2 :
  generationBody params offset generation loop w = Returned (loop1, w1) ->
  (0 < generation')%Z ->
  generationBody params offset generation' loop1 w1 = Returned (loop2, w2) ->
  stagnationCount loop2 = (stagnationCount loop1 + 1)%Z.
Proof.
  intros H1 Hg H2. apply generationBody_last_best in H1.
  pose proof (adapt_counts params generation' loop1 Hg H1) as Hcount.
  unfold Evolution.generationBody in H2.
  destruct (adapt params generation' loop1) as [count rate]. simpl in Hcount. subst count.
  apply bind_returned in H2 as [population [w3 [_ H2]]].
  apply bind_returned in H2 as [currentBest [w4 [_ H2]]].
  unfold ret in H2. injection H2 as <- _. reflexivity.
Qed.

(** *** What elitism does keep: the individuals, as records of references *)

Abbreviation addChildren :=
  (Evolution.addChildren courses teachers rooms timeSlots constraints subjects parseDate
     localeCompare random).
Abbreviation fillPopulation :=
  (Evolution.fillPopulation courses teachers rooms timeSlots constraints subjects
     parseDate localeCompare random).
Abbreviation nextPopulation :=
  (Evolution.nextPopulation courses teachers rooms timeSlots constraints subjects
     parseDate localeCompare random).

Lemma item_returned {A : Type} (l : list A) (i : nat) (w : World) (x : A) (w' : World) :
  item l i w = Returned (x, w') -> nth_error l i = Some x /\ w' = w.
Proof.
  unfold item. destruct (nth_error l i); [|discriminate].
  unfold ret. intros [= <- <-]. now split.
Qed.

Lemma elites_returned count : forall i population w l w',
  elites count i population w = Returned (l, w') ->
  l = firstn count (skipn i population) /\ List.length l = count /\ w' = w.
Proof.
  induction count as [|count IH]; intros i population w l w'; cbn [elites].
  - unfold ret. intros [= <- <-]. repeat split.
  - intros H. apply bind_returned in H as [elite [w1 [H1 H]]].
    apply item_returned in H1 as [H1 ->].
    apply bind_returned in H as [rest [w2 [H2 H]]].
    apply IH in H2 as [-> [Hlen ->]]. unfold ret in H. injection H as <- <-.
    split; [|split; [exact (f_equal S Hlen) | reflexivity]].
    clear - H1. revert i H1. induction population as [|x population IHp]; intros i H1.
    + destruct i; discriminate.
    + destruct i; simpl in *.
      * now injection H1 as ->.
      * rewrite (IHp i H1). reflexivity.
Qed.

Lemma addChildren_extends children : forall size rate newPopulation w result w',
  addChildren children size rate newPopulation w = Returned (result, w') ->
  exists added, result = newPopulation ++ added.
Proof.
  induction children as [|child children IH]; intros size rate newPopulation w result w';
    simpl.
  - unfold ret. intros [= <- _]. exists []. now rewrite app_nil_r.
  - destruct (Z.of_nat (List.length newPopulation) <? size)%Z.
    + intros H. apply bind_returned in H as [r [w1 [_ H]]].
      apply bind_returned in H as [mutated [w2 [_ H]]].
      apply IH in H as [added ->]. exists (mutated :: added).
      now rewrite <- app_assoc.
    + apply IH.
Qed.

Lemma fillPopulation_extends fuel : forall params rate population newPopulation w result w',
  fillPopulation fuel params rate population newPopulation w = Returned (result, w') ->
  exists added, result = newPopulation ++ added.
Proof.
  induction fuel as [|fuel IH]; intros params rate population newPopulation w result w';
    simpl.
  - destruct (_ <? _)%Z; [discriminate|].
    unfold ret. intros [= <- _]. exists []. now rewrite app_nil_r.
  - destruct (_ <? _)%Z.
    + intros H. apply bind_returned in H as [parent1 [w1 [_ H]]].
      apply bind_returned in H as [parent2 [w2 [_ H]]].
      apply bind_returned in H as [r [w3 [_ H]]].
      destruct (Qlt_le_dec r (GeneticAlgorithmParams.crossoverRate params)).
      * apply bind_returned in H as [children [w4 [_ H]]].
        apply bind_returned in H as [grown [w5 [Hgrown H]]].
        apply addChildren_extends in Hgrown as [added1 ->].
        apply IH in H as [added2 ->]. exists (added1 ++ added2).
        now rewrite app_assoc.
      * apply bind_returned in H as [mutated [w4 [_ H]]].
        apply IH in H as [added ->]. exists (mutated :: added).
        now rewrite <- app_assoc.
    + unfold ret. intros [= <- _]. exists []. now rewrite app_nil_r.
Qed.

(** The first [eliteSize] individuals of the new population are the first
    [eliteSize] of the selected and sorted population, each with the
    references and the fitness it had. *)
Lemma elites_carried_over params rate population w population' w' :
  nextPopulation params rate population w = Returned (population', w') ->
  let parents :=
    sortBy byFitness
      (diversityPreservingSelection (heap w) population
         (GeneticAlgorithmParams.eliteSize params)) in
  let count := Z.to_nat (GeneticAlgorithmParams.eliteSize params) in
  firstn count population' = firstn count parents
  /\ List.length (firstn count parents) = count.
Proof.
  intros H parents count. unfold Evolution.nextPopulation in H.
  apply bind_returned in H as [kept [w1 [Hkept H]]].
  apply elites_returned in Hkept as [Hkept [Hlen ->]].
  apply fillPopulation_extends in H as [added ->].
  simpl in Hkept. fold parents count in Hkept, Hlen. rewrite <- Hkept.
  split; [|assumption].
  rewrite firstn_app, Hlen, Nat.sub_diag, firstn_O, app_nil_r.
  rewrite <- Hlen. apply firstn_all.
Qed.

(** *** The loops of the model never run out of rounds *)

Lemma bind_not_out {A B : Type} (m : M A) (k : A -> M B) (w : World) :
  m w <> OutOfFuel ->
  (forall a w', m w = Returned (a, w') -> k a w' <> OutOfFuel) ->
  bind m k w <> OutOfFuel.
Proof.
  unfold bind. destruct (m w) as [[a w']| | |]; intros Hm Hk; try discriminate.
  - now apply Hk.
  - contradiction.
Qed.

Lemma bind_terminates {A B : Type} (m : M A) (k : A -> M B) :
  terminates m -> (forall a, terminates (k a)) -> terminates (bind m k).
Proof.
  intros Hm Hk w. apply bind_not_out; [apply Hm|]. intros a w' _. apply Hk.
Qed.

Lemma ret_terminates {A : Type} (a : A) : terminates (ret a).
Proof. intros w. discriminate. Qed.

Lemma typeError_terminates {A : Type} : terminates (@typeError A).
Proof. intros w. discriminate. Qed.

Lemma deref_terminates l : terminates (deref l).
Proof. intros w. unfold deref. destruct (nth_error _ _); discriminate. Qed.

Lemma store_terminates l c : terminates (store l c).
Proof. intros w. discriminate. Qed.

Lemma alloc_terminates c : terminates (alloc c).
Proof. intros w. discriminate. Qed.

Lemma values_terminates schedule : terminates (values schedule).
Proof. intros w. discriminate. Qed.

Lemma item_terminates {A : Type} (l : list A) i : terminates (item l i).
Proof. intros w. unfold item. destruct (nth_error _ _); discriminate. Qed.

Lemma mathRandom_terminates : terminates (mathRandom random).
Proof. intros w. discriminate. Qed.

Lemma finiteNumber_terminates x : terminates (finiteNumber x).
Proof. intros w. destruct x; discriminate. Qed.

Lemma calculateFitness_terminates schedule :
  terminates
    (calculateFitness courses teachers rooms timeSlots constraints subjects parseDate
       localeCompare schedule).
Proof. intros w. unfold calculateFitness. apply finiteNumber_terminates. Qed.

Create HintDb terminates.
#[local] Hint Resolve ret_terminates typeError_terminates deref_terminates store_terminates
  alloc_terminates values_terminates item_terminates mathRandom_terminates
  finiteNumber_terminates calculateFitness_terminates : terminates.

Ltac step :=
  match goal with
  | |- terminates (bind _ _) => apply bind_terminates; [|intros ?]
  | |- terminates (if ?b then _ else _) => destruct b
  | |- terminates (match ?x with _ => _ end) => destruct x
  | |- terminates _ => solve [auto with terminates]
  end.

Lemma randomIndex_terminates n : terminates (randomIndex random n).
Proof. unfold randomIndex. repeat step. Qed.
#[local] Hint Resolve randomIndex_terminates : terminates.

Lemma repairLoop_terminates todo : forall repaired used,
  terminates (repairLoop teachers timeSlots parseDate todo repaired used).
Proof.
  induction todo as [|l todo IH]; intros repaired used; cbn [repairLoop]; repeat step.
Qed.
#[local] Hint Resolve repairLoop_terminates : terminates.

Lemma makeChildren_terminates s1 s2 :
  terminates
    (makeChildren courses teachers rooms timeSlots constraints subjects parseDate
       localeCompare s1 s2).
Proof. unfold makeChildren, repairSchedule. repeat step. Qed.
#[local] Hint Resolve makeChildren_terminates : terminates.

Lemma uniformLoop_terminates todo : forall i s1 s2 c1 c2,
  terminates (uniformLoop random todo i s1 s2 c1 c2).
Proof.
  induction todo as [|todo IH]; intros i s1 s2 c1 c2; cbn [uniformLoop]; repeat step.
Qed.
#[local] Hint Resolve uniformLoop_terminates : terminates.

Lemma crossover_terminates p1 p2 :
  terminates
    (crossover courses teachers rooms timeSlots constraints subjects parseDate
       localeCompare random p1 p2).
Proof.
  unfold crossover, uniformCrossover, twoPointCrossover, singlePointCrossover.
  repeat step.
Qed.

Lemma mutateLoop_terminates todo : forall i schedule rate,
  terminates (mutateLoop teachers rooms timeSlots subjects random todo i schedule rate).
Proof.
  induction todo as [|todo IH]; intros i schedule rate; cbn [mutateLoop];
    unfold mutateTimeSlot, mutateRoom, mutateTeacher, swapMutation; repeat step.
Qed.
#[local] Hint Resolve mutateLoop_terminates : terminates.

Lemma mutate_terminates individual rate :
  terminates
    (mutate courses teachers rooms timeSlots constraints subjects parseDate localeCompare
       random individual rate).
Proof. unfold mutate, repairSchedule. repeat step. Qed.

Lemma selectParent_terminates population : terminates (selectParent random population).
Proof. unfold selectParent. repeat step. Qed.

Abbreviation crossover :=
  (Evolution.crossover courses teachers rooms timeSlots constraints subjects parseDate
       localeCompare random).
Abbreviation makeChildren :=
  (Evolution.makeChildren courses teachers rooms timeSlots constraints subjects parseDate
       localeCompare).

Lemma addChildren_terminates children : forall size rate newPopulation,
  terminates (addChildren children size rate newPopulation).
Proof.
  induction children as [|child children IH]; intros size rate newPopulation;
    cbn [Evolution.addChildren]; repeat step; auto using mutate_terminates.
Qed.

Lemma elites_terminates count : forall i population, terminates (elites count i population).
Proof.
  induction count as [|count IH]; intros i population; cbn [elites]; repeat step.
Qed.

Lemma makeChildren_two s1 s2 w children w' :
  makeChildren s1 s2 w = Returned (children, w') -> List.length children = 2%nat.
Proof.
  unfold Evolution.makeChildren. intros H.
  apply bind_returned in H as [r1 [w1 [_ H]]].
  apply bind_returned in H as [r2 [w2 [_ H]]].
  apply bind_returned in H as [f1 [w3 [_ H]]].
  apply bind_returned in H as [f2 [w4 [_ H]]].
  unfold ret in H. now injection H as <- _.
Qed.

(** A crossover makes two children. *)
Lemma crossover_two parent1 parent2 w children w' :
  crossover parent1 parent2 w = Returned (children, w') -> List.length children = 2%nat.
Proof.
  assert (Hsingle : forall w children w',
            singlePointCrossover courses teachers rooms timeSlots constraints subjects
              parseDate localeCompare random parent1 parent2 w = Returned (children, w') ->
            List.length children = 2%nat).
  { intros w0 c0 w0'. unfold singlePointCrossover.
    destruct (_ =? 0)%nat.
    - unfold ret. now intros [= <- _].
    - intros H. apply bind_returned in H as [point [w1 [_ H]]].
      now apply makeChildren_two in H. }
  unfold Evolution.crossover. intros H.
  apply bind_returned in H as [strategy [w1 [_ H]]].
  destruct (Qlt_le_dec strategy (4 # 10)); [|destruct (Qlt_le_dec strategy (7 # 10))].
  - unfold uniformCrossover in H. apply bind_returned in H as [pair [w2 [_ H]]].
    now apply makeChildren_two in H.
  - unfold twoPointCrossover in H. destruct (_ <? 2)%nat; [now apply Hsingle in H|].
    apply bind_returned in H as [point1 [w2 [_ H]]].
    apply bind_returned in H as [point2 [w3 [_ H]]].
    now apply makeChildren_two in H.
  - now apply Hsingle in H.
Qed.

(** The first child finds room in a population that is not full. *)
Lemma addChildren_grows child children size rate newPopulation w result w' :
  (Z.of_nat (List.length newPopulation) < size)%Z ->
  addChildren (child :: children) size rate newPopulation w = Returned (result, w') ->
  (List.length newPopulation < List.length result)%nat.
Proof.
  intros Hroom. cbn [Evolution.addChildren]. apply Z.ltb_lt in Hroom. rewrite Hroom.
  intros H. apply bind_returned in H as [r [w1 [_ H]]].
  apply bind_returned in H as [mutated [w2 [_ H]]].
  apply addChildren_extends in H as [added ->].
  rewrite !length_app. simpl. lia.
Qed.

(** Every round of the loop adds an individual, so the rounds it is given
    are enough. *)
Lemma fillPopulation_terminates fuel : forall params rate population newPopulation,
  (GeneticAlgorithmParams.populationSize params - Z.of_nat (List.length newPopulation)
   <= Z.of_nat fuel)%Z ->
  terminates (fillPopulation fuel params rate population newPopulation).
Proof.
  induction fuel as [|fuel IH]; intros params rate population newPopulation Hfuel w;
    cbn [Evolution.fillPopulation];
    destruct (_ <? _)%Z eqn:Hroom; try discriminate.
  - apply Z.ltb_lt in Hroom. lia.
  - apply Z.ltb_lt in Hroom.
    apply bind_not_out; [apply selectParent_terminates | intros parent1 w1 _].
    apply bind_not_out; [apply selectParent_terminates | intros parent2 w2 _].
    apply bind_not_out; [apply mathRandom_terminates | intros r w3 _].
    destruct (Qlt_le_dec r (GeneticAlgorithmParams.crossoverRate params)).
    + apply bind_not_out; [apply crossover_terminates | intros children w4 Hchildren].
      apply bind_not_out; [apply addChildren_terminates | intros grown w5 Hgrown].
      apply IH. apply crossover_two in Hchildren.
      destruct children as [|child children]; [discriminate|].
      apply addChildren_grows in Hgrown; [lia | assumption].
    + apply bind_not_out; [apply mutate_terminates | intros mutated w4 _].
      apply IH. rewrite length_app. simpl. lia.
Qed.

Lemma nextPopulation_terminates params rate population :
  terminates (nextPopulation params rate population).
Proof.
  intros w. unfold Evolution.nextPopulation.
  apply bind_not_out; [apply elites_terminates | intros kept w1 _].
  apply fillPopulation_terminates. lia.
Qed.

(** The generation loop of [runGeneticEvolution] never runs out of the
    rounds given to its inner loop. *)
Lemma generationLoop_terminates todo : forall params offset generation loop,
  terminates
    (generationLoop courses teachers rooms timeSlots constraints subjects parseDate
       localeCompare random todo params offset generation loop).
Proof.
  induction todo as [|todo IH]; intros params offset generation loop;
    cbn [generationLoop]; [apply ret_terminates|].
  apply bind_terminates.
  - unfold generationBody. destruct (adapt params generation loop) as [count rate].
    apply bind_terminates; [apply nextPopulation_terminates | intros population].
    apply bind_terminates; [|intros best; apply ret_terminates].
    unfold fittest. destruct population; auto with terminates.
  - intros loop'. apply bind_terminates.
    + unfold goodEnough. repeat step.
    + intros [|]; [apply ret_terminates | apply IH].
Qed.

(** [runGeneticEvolution] never runs out of rounds: in every generation the
    loop that fills the new population adds at least one individual in
    each round, so it ends after at most [populationSize] rounds. *)
Lemma runGeneticEvolution_terminates initialPopulation params offset :
  terminates
    (runGeneticEvolution courses teachers rooms timeSlots constraints subjects parseDate
       localeCompare random initialPopulation params offset).
Proof.
  unfold runGeneticEvolution. apply bind_terminates.
  - unfold fittest. destruct initialPopulation; auto with terminates.
  - intros best. apply bind_terminates; [apply generationLoop_terminates | intros loop].
    repeat step.
Qed.

End Facts.

(** C7 fails on the code. After one generation on the population of
    [Inputs.elitismPopulation] the three fittest individuals are in the
    new population with the fitness they had, but the second class of the
    fittest one, an object it shares with the child [mutate] made of it,
    has been moved from 10:00 to 19:00, and its recorded fitness of 1372
    is no longer the fitness of its assignments. *)
Lemma elite_is_mutated_in_place :
  let before := mkWorld Inputs.elitismHeap 0 in
  let elite := Individual.mk [0; 1]%nat 1372 in
  exists loop after,
    generationBody Inputs.sectionA Inputs.mondayLongTeacher Inputs.oneRoom
      Inputs.mondaySlots Inputs.noConstraints Inputs.twoSubjects Runtime.isoDate
      Runtime.codeUnitCompare (Inputs.randomFrom Inputs.elitismDraws)
      Inputs.elitismParams 0 0 Inputs.elitismStart before
    = Returned (loop, after)
    /\ firstn 3 (sortBy byFitness Inputs.elitismPopulation)
       = [elite; Individual.mk [2; 3]%nat 1332; Individual.mk [4; 5]%nat 1312]
    /\ firstn 3 (population loop) = firstn 3 (sortBy byFitness Inputs.elitismPopulation)
    /\ List.length (population loop) = 10%nat
    /\ startTimes (heap before) (Individual.schedule elite) = ["08:00"; "10:00"]
    /\ Inputs.mondayFitness (valuesIn (heap before) (Individual.schedule elite)) = 1372
    /\ startTimes (heap after) (Individual.schedule elite) = ["08:00"; "19:00"]
    /\ Inputs.mondayFitness (valuesIn (heap after) (Individual.schedule elite))
       = 3466 # 3.
Proof.
  intros before elite. eexists. eexists.
  split; [vm_compute; reflexivity|].
  repeat split; vm_compute; reflexivity.
Qed.

(** C8 fails on the code. On [Inputs.weekStart] each of the three
    generations improves the best fitness, from 6555/13 to 8635/13, to
    10715/13 and to 12795/13, and the stagnation counter is 0 after the
    first generation, 1 after the second and 2 after the third: it is
    counted up in the generations that follow an improvement, and it is
    not set back to zero. *)
Lemma stagnation_counted_after_improvement :
  let generations n :=
    generationLoop Inputs.sectionA Inputs.weekTeacher Inputs.oneRoom Inputs.weekSlots
      Inputs.noConstraints Inputs.twoSubjects Runtime.isoDate Runtime.codeUnitCompare
      (Inputs.randomFrom Inputs.weekDraws) n Inputs.weekParams 0 0 Inputs.weekStart
      (mkWorld Inputs.weekHeap 0) in
  let after n :=
    match generations n with
    | Returned (loop, _) =>
        Some (stagnationCount loop, Qred (currentMutationRate loop),
              Qred (Individual.fitness (bestIndividual loop)),
              map (fun g => Qred (GenerationData.bestFitness g)) (generationData loop))
    | _ => None
    end in
  Individual.fitness (bestIndividual Inputs.weekStart) = 6555 # 13
  /\ after 1%nat = Some (0%Z, 1 # 10, 8635 # 13, [8635 # 13])
  /\ after 2%nat = Some (1%Z, 1 # 10, 10715 # 13, [8635 # 13; 10715 # 13])
  /\ after 3%nat
     = Some (2%Z, 1 # 10, 12795 # 13, [8635 # 13; 10715 # 13; 12795 # 13]).
Proof.
  intros generations after. repeat split; vm_compute; reflexivity.
Qed.

(** On [Inputs.weekStart] the second generation follows a generation that
    improved the best fitness, and counts the stagnation up to 1. *)
Lemma stagnation_never_resets_witness :
  exists loop1 w1 loop2 w2,
    generationBody Inputs.sectionA Inputs.weekTeacher Inputs.oneRoom Inputs.weekSlots
      Inputs.noConstraints Inputs.twoSubjects Runtime.isoDate Runtime.codeUnitCompare
      (Inputs.randomFrom Inputs.weekDraws) Inputs.weekParams 0 0 Inputs.weekStart
      (mkWorld Inputs.weekHeap 0)
    = Returned (loop1, w1)
    /\ generationBody Inputs.sectionA Inputs.weekTeacher Inputs.oneRoom Inputs.weekSlots
         Inputs.noConstraints Inputs.twoSubjects Runtime.isoDate Runtime.codeUnitCompare
         (Inputs.randomFrom Inputs.weekDraws) Inputs.weekParams 0 1 loop1 w1
       = Returned (loop2, w2)
    /\ stagnationCount loop2 = (stagnationCount loop1 + 1)%Z.
Proof.
  do 4 eexists. split; [vm_compute; reflexivity|]. split; [vm_compute; reflexivity|].
  eapply (stagnation_never_resets Inputs.sectionA Inputs.weekTeacher Inputs.oneRoom
            Inputs.weekSlots Inputs.noConstraints Inputs.twoSubjects Runtime.isoDate
            Runtime.codeUnitCompare (Inputs.randomFrom Inputs.weekDraws) Inputs.weekParams
            0 0 Inputs.weekStart (mkWorld Inputs.weekHeap 0) _ _ 1).
  - vm_compute. reflexivity.
  - reflexivity.
  - vm_compute. reflexivity.
Defined.

(** On [Inputs.elitismPopulation] the three fittest individuals head the
    new population. *)
Lemma elites_carried_over_witness :
  exists population' w',
    Evolution.nextPopulation Inputs.sectionA Inputs.mondayLongTeacher Inputs.oneRoom
      Inputs.mondaySlots Inputs.noConstraints Inputs.twoSubjects Runtime.isoDate
      Runtime.codeUnitCompare (Inputs.randomFrom Inputs.elitismDraws) Inputs.elitismParams
      (1 # 10) Inputs.elitismPopulation (mkWorld Inputs.elitismHeap 0)
    = Returned (population', w')
    /\ firstn 3 population'
       = firstn 3
           (sortBy byFitness
              (diversityPreservingSelection Inputs.elitismHeap Inputs.elitismPopulation
                 3))
    /\ List.length
         (firstn 3
            (sortBy byFitness
               (diversityPreservingSelection Inputs.elitismHeap
                  Inputs.elitismPopulation 3)))
       = 3%nat.
Proof.
  do 2 eexists. split; [vm_compute; reflexivity|].
  eapply (elites_carried_over Inputs.sectionA Inputs.mondayLongTeacher Inputs.oneRoom
           Inputs.mondaySlots Inputs.noConstraints Inputs.twoSubjects Runtime.isoDate
           Runtime.codeUnitCompare (Inputs.randomFrom Inputs.elitismDraws)
           Inputs.elitismParams (1 # 10) Inputs.elitismPopulation
           (mkWorld Inputs.elitismHeap 0)).
  vm_compute. reflexivity.
Defined.

End EvolutionFacts.

(** ** Conflicts and repair, on every schedule *)

Module ConflictFacts.

Import Basics.

Section Facts.

Variable teachers : list Teacher.t.
Variable timeSlots : list TimeSlot.t.
Variable parseDate : string -> option Z.

Abbreviation time := (GeneticAlgorithm.time parseDate).
Abbreviation timeSlotsOverlap := (GeneticAlgorithm.timeSlotsOverlap parseDate).
Abbreviation teacherClash := (GeneticAlgorithm.teacherClash parseDate).
Abbreviation roomClash := (GeneticAlgorithm.roomClash parseDate).
Abbreviation pairConflicts := (GeneticAlgorithm.pairConflicts parseDate).
Abbreviation classConflicts := (GeneticAlgorithm.classConflicts parseDate).
Abbreviation detectConflicts := (GeneticAlgorithm.detectConflicts parseDate).
Abbreviation detectConflictsForClass := (GeneticAlgorithm.detectConflictsForClass parseDate).
Abbreviation repairStep := (GeneticAlgorithm.repairStep teachers timeSlots parseDate).
Abbreviation repairLoop := (GeneticAlgorithm.repairLoop teachers timeSlots parseDate).
Abbreviation repairSchedule := (GeneticAlgorithm.repairSchedule teachers timeSlots parseDate).
Abbreviation slotKey := GeneticAlgorithm.slotKey.
Abbreviation moveTo := GeneticAlgorithm.moveTo.

Lemma timeSlotsOverlap_sym (a b : ClassSchedule.t) :
  timeSlotsOverlap a b = timeSlotsOverlap b a.
Proof. unfold GeneticAlgorithm.timeSlotsOverlap. apply andb_comm. Qed.

Lemma roomClash_sym (a b : ClassSchedule.t) : roomClash a b = roomClash b a.
Proof.
  unfold GeneticAlgorithm.roomClash.
  now rewrite timeSlotsOverlap_sym, (String.eqb_sym (ClassSchedule.roomId a)),
    (String.eqb_sym (ClassSchedule.day a)).
Qed.

Lemma teacherClash_sym (a b : ClassSchedule.t) : teacherClash a b = teacherClash b a.
Proof.
  unfold GeneticAlgorithm.teacherClash.
  now rewrite timeSlotsOverlap_sym, (String.eqb_sym (ClassSchedule.teacherId a)),
    (String.eqb_sym (ClassSchedule.day a)).
Qed.

Lemma pairConflicts_length_sym (a b : ClassSchedule.t) :
  List.length (pairConflicts a b) = List.length (pairConflicts b a).
Proof.
  unfold GeneticAlgorithm.pairConflicts.
  rewrite (roomClash_sym a b), (teacherClash_sym a b).
  destruct (roomClash b a), (teacherClash b a); reflexivity.
Qed.

Lemma flat_map_length_perm {A B : Type} (f : A -> list B) (l l' : list A) :
  Permutation l l' -> List.length (flat_map f l) = List.length (flat_map f l').
Proof.
  intros H. induction H; simpl; rewrite ?length_app; lia.
Qed.

(** The number of conflicts found does not depend on the order of the
    classes in the schedule. *)
Theorem conflict_count_ignores_order (schedule schedule' : list ClassSchedule.t) :
  Permutation schedule schedule' ->
  List.length (detectConflicts schedule) = List.length (detectConflicts schedule').
Proof.
  intros H. induction H as [|x l l' H IH|x y l|l l' l'' H1 IH1 H2 IH2].
  - reflexivity.
  - simpl. rewrite !length_app, IH, (flat_map_length_perm _ _ _ H). reflexivity.
  - simpl. rewrite !length_app, (pairConflicts_length_sym y x). lia.
  - congruence.
Qed.

Lemma pairConflicts_high (a b : ClassSchedule.t) (c : Conflict.t) :
  In c (pairConflicts a b) ->
  Conflict.severity c = high
  /\ Conflict.classes c = [ClassSchedule.id a; ClassSchedule.id b]
  /\ (Conflict.type c = room_conflict /\ roomClash a b = true
      \/ Conflict.type c = teacher_conflict /\ teacherClash a b = true).
Proof.
  unfold GeneticAlgorithm.pairConflicts. intros H. apply in_app_or in H as [H | H].
  - destruct (roomClash a b); [|destruct H]. destruct H as [<- | []]. simpl. auto.
  - destruct (teacherClash a b); [|destruct H]. destruct H as [<- | []]. simpl. auto.
Qed.

Lemma detectConflicts_high (schedule : list ClassSchedule.t) (c : Conflict.t) :
  In c (detectConflicts schedule) ->
  Conflict.severity c = high
  /\ exists before a between b after,
       schedule = before ++ a :: between ++ b :: after
       /\ Conflict.classes c = [ClassSchedule.id a; ClassSchedule.id b]
       /\ (Conflict.type c = room_conflict /\ roomClash a b = true
           \/ Conflict.type c = teacher_conflict /\ teacherClash a b = true).
Proof.
  induction schedule as [|x l IH]; simpl; [intros []|].
  intros H. apply in_app_or in H as [H | H].
  - apply in_flat_map in H as [y [Hy H]].
    apply pairConflicts_high in H as [H1 [H2 H3]]. split; [assumption|].
    apply in_split in Hy as [l1 [l2 ->]].
    exists [], x, l1, y, l2. auto.
  - destruct (IH H) as [H1 [before [a [between [b [after [-> H2]]]]]]].
    split; [assumption|]. exists (x :: before), a, between, b, after. auto.
Qed.

(** Every conflict [detectConflicts] reports is of severity high and names
    two classes of the schedule that clash, the earlier one first; so
    [calculateFitness] takes 100 off for each conflict, and its cases for
    medium and low severity never apply. *)
Theorem conflicts_are_high_and_cost_100 (schedule : list ClassSchedule.t) :
  (forall c, In c (detectConflicts schedule) ->
     Conflict.severity c = high
     /\ exists before a between b after,
          schedule = before ++ a :: between ++ b :: after
          /\ Conflict.classes c = [ClassSchedule.id a; ClassSchedule.id b]
          /\ (Conflict.type c = room_conflict /\ roomClash a b = true
              \/ Conflict.type c = teacher_conflict /\ teacherClash a b = true))
  /\ fold_left GeneticAlgorithm.penalise (detectConflicts schedule) 1000
     == 1000 - 100 * size (detectConflicts schedule).
Proof.
  split; [apply detectConflicts_high|].
  assert (H : forall l fitness,
            (forall c, In c l -> Conflict.severity c = high) ->
            fold_left GeneticAlgorithm.penalise l fitness == fitness - 100 * size l).
  { induction l as [|c l IH]; intros fitness Hl.
    - unfold size. simpl. ring.
    - cbn [fold_left]. rewrite IH by (intros c' Hc'; apply Hl; now right).
      unfold GeneticAlgorithm.penalise. rewrite (Hl c) by now left.
      unfold size. cbn [List.length]. rewrite Nat2Z.inj_succ, <- Z.add_1_r, inject_Z_plus.
      ring. }
  apply H. intros c Hc. now apply detectConflicts_high in Hc.
Qed.

(** *** Times that do not parse *)

Lemma unparsable_no_overlap (x y : ClassSchedule.t) :
  time (ClassSchedule.startTime x) = None \/ time (ClassSchedule.endTime x) = None ->
  timeSlotsOverlap x y = false.
Proof.
  unfold GeneticAlgorithm.timeSlotsOverlap. intros [-> | ->]; simpl.
  - reflexivity.
  - destruct (time (ClassSchedule.startTime x)), (time (ClassSchedule.startTime y));
      simpl; rewrite ?andb_false_r; reflexivity.
Qed.

Lemma unparsable_pairConflicts (x y : ClassSchedule.t) :
  time (ClassSchedule.startTime x) = None \/ time (ClassSchedule.endTime x) = None ->
  pairConflicts x y = [] /\ pairConflicts y x = [].
Proof.
  intros H. unfold GeneticAlgorithm.pairConflicts, GeneticAlgorithm.roomClash,
    GeneticAlgorithm.teacherClash.
  rewrite (timeSlotsOverlap_sym y x), (unparsable_no_overlap x y H), !andb_false_r.
  now split.
Qed.

(** A class whose start or end time is not a valid time is in no conflict:
    the conflicts of a schedule are those of the schedule without it, and
    [detectConflictsForClass] finds nothing for it. *)
Theorem unparsable_time_never_conflicts (x : ClassSchedule.t)
  (before after : list ClassSchedule.t) :
  time (ClassSchedule.startTime x) = None \/ time (ClassSchedule.endTime x) = None ->
  detectConflicts (before ++ x :: after) = detectConflicts (before ++ after)
  /\ detectConflictsForClass x (before ++ after) = [].
Proof.
  intros H. split.
  - induction before as [|a before IH]; simpl.
    + replace (flat_map (pairConflicts x) after) with (@nil Conflict.t); [reflexivity|].
      symmetry. apply flat_map_nil_iff. intros y _.
      exact (proj1 (unparsable_pairConflicts x y H)).
    + rewrite IH, !flat_map_app. simpl.
      now rewrite (proj2 (unparsable_pairConflicts x a H)).
  - unfold GeneticAlgorithm.detectConflictsForClass. apply flat_map_nil_iff. intros y _.
    apply RepairFacts.classConflicts_nil_iff.
    unfold GeneticAlgorithm.roomClash, GeneticAlgorithm.teacherClash.
    rewrite (timeSlotsOverlap_sym y x), (unparsable_no_overlap x y H), !andb_false_r.
    now split.
Qed.

(** *** Repair of a schedule that needs none *)

Lemma repairLoop_keeps_all (l : list ClassSchedule.t) : forall r u,
  detectConflicts (r ++ l) = [] ->
  NoDup (map slotKey l) ->
  (forall x, In x l -> has u (slotKey x) = false) ->
  fst (repairLoop l (r, u)) = r ++ l.
Proof.
  unfold GeneticAlgorithm.repairLoop.
  induction l as [|x l IH]; intros r u Hfree Hkeys Hu; cbn [fold_left fst].
  - now rewrite app_nil_r.
  - assert (Hx : detectConflicts (r ++ [x]) = []).
    { clear - Hfree. revert Hfree.
      replace (r ++ x :: l) with ((r ++ [x]) ++ l) by now rewrite <- app_assoc.
      generalize (r ++ [x]). intros s. induction l as [|y l IH] using rev_ind.
      - now rewrite app_nil_r.
      - rewrite app_assoc. intros H. apply RepairFacts.detectConflicts_snoc_nil in H.
        now apply IH. }
    apply RepairFacts.detectConflicts_snoc_nil in Hx as [_ Hx].
    rewrite (RepairFacts.repairStep_keep teachers timeSlots parseDate r u x
               (Hu x (or_introl eq_refl)) Hx).
    inversion Hkeys as [|k ks Hk Hks]; subst.
    rewrite IH.
    + now rewrite <- app_assoc.
    + now rewrite <- app_assoc.
    + assumption.
    + intros y Hy. destruct (has (add u (slotKey x)) (slotKey y)) eqn:E; [|reflexivity].
      apply has_add in E as [E | E].
      * rewrite (Hu y (or_intror Hy)) in E. discriminate.
      * exfalso. apply Hk. rewrite <- E. now apply in_map.
Qed.

(** Repair leaves a schedule as it is when the schedule has no conflict
    and no two of its classes have the same key. *)
Theorem repair_keeps_a_clean_schedule (schedule : list ClassSchedule.t) :
  detectConflicts schedule = [] ->
  NoDup (map slotKey schedule) ->
  repairSchedule schedule = schedule.
Proof.
  intros Hfree Hkeys. unfold GeneticAlgorithm.repairSchedule.
  now rewrite repairLoop_keeps_all.
Qed.

(** *** Where repair moves a class to *)

Lemma firstFreeSlot_available teacher classItem existing slots y :
  GeneticAlgorithm.firstFreeSlot parseDate teacher classItem existing slots = Some y ->
  exists t, In t slots /\ GeneticAlgorithm.teacherAvailableAt teacher t = true
            /\ y = moveTo classItem t.
Proof.
  induction slots as [|t slots IH]; simpl; [discriminate|].
  destruct (GeneticAlgorithm.teacherAvailableAt teacher t) eqn:Ea; simpl.
  - destruct (detectConflictsForClass (moveTo classItem t) existing).
    + intros [= <-]. exists t. auto.
    + intros H. destruct (IH H) as [t' [H1 H2]]. exists t'. auto.
  - intros H. destruct (IH H) as [t' [H1 H2]]. exists t'. auto.
Qed.

Lemma repairStep_moves r u x :
  repairStep (r, u) x = (r, u)
  \/ repairStep (r, u) x = (r ++ [x], add u (slotKey x))
  \/ exists teacher t,
       find (fun t => Teacher.id t =? ClassSchedule.teacherId x) teachers = Some teacher
       /\ In t timeSlots
       /\ GeneticAlgorithm.teacherAvailableAt teacher t = true
       /\ repairStep (r, u) x
          = (r ++ [moveTo x t], add u (slotKey (moveTo x t))).
Proof.
  unfold GeneticAlgorithm.repairStep.
  destruct (has u (slotKey x)); simpl; [now left|].
  destruct (detectConflictsForClass x r); [right; now left|].
  unfold GeneticAlgorithm.findAlternativeSlot.
  destruct (find _ teachers) as [teacher|]; [|now left].
  destruct (GeneticAlgorithm.firstFreeSlot parseDate teacher x r timeSlots) as [y|] eqn:E;
    [|now left].
  apply firstFreeSlot_available in E as [slot [H1 [H2 ->]]].
  right. right. exists teacher, slot. auto.
Qed.

(** A class of a repaired schedule is a class of the input, or a class of
    the input moved to a configured time slot in which its teacher, the
    first one listed with its teacher id, is available. A class whose
    teacher is not listed is never moved. *)
Theorem repair_moves_to_available_slots (schedule : list ClassSchedule.t)
  (y : ClassSchedule.t) :
  In y (repairSchedule schedule) ->
  In y schedule
  \/ exists x teacher t,
       In x schedule
       /\ find (fun t => Teacher.id t =? ClassSchedule.teacherId x) teachers = Some teacher
       /\ In t timeSlots
       /\ GeneticAlgorithm.teacherAvailableAt teacher t = true
       /\ y = moveTo x t.
Proof.
  unfold GeneticAlgorithm.repairSchedule, GeneticAlgorithm.repairLoop.
  assert (H : forall l r u,
            In y (fst (fold_left repairStep l (r, u))) ->
            In y r \/ In y l
            \/ exists x teacher t,
                 In x l
                 /\ find (fun t => Teacher.id t =? ClassSchedule.teacherId x) teachers
                    = Some teacher
                 /\ In t timeSlots
                 /\ GeneticAlgorithm.teacherAvailableAt teacher t = true
                 /\ y = moveTo x t).
  { induction l as [|x l IH]; intros r u; cbn [fold_left fst]; [now left|].
    assert (Hl : In y l
              \/ (exists x0 teacher t, In x0 l
                   /\ find (fun t0 => Teacher.id t0 =? ClassSchedule.teacherId x0) teachers
                      = Some teacher
                   /\ In t timeSlots
                   /\ GeneticAlgorithm.teacherAvailableAt teacher t = true
                   /\ y = moveTo x0 t) ->
            In y (x :: l)
              \/ (exists x0 teacher t, In x0 (x :: l)
                   /\ find (fun t0 => Teacher.id t0 =? ClassSchedule.teacherId x0) teachers
                      = Some teacher
                   /\ In t timeSlots
                   /\ GeneticAlgorithm.teacherAvailableAt teacher t = true
                   /\ y = moveTo x0 t)).
    { intros [H | [x0 [teacher [t [H1 H2]]]]]; [left; now right|].
      right. exists x0, teacher, t. split; [now right | assumption]. }
    destruct (repairStep_moves r u x) as [-> | [-> | [teacher [t [H1 [H2 [H3 ->]]]]]]];
      intros Hy; destruct (IH _ _ Hy) as [H | H]; auto.
    - apply in_app_or in H as [H | [<- | []]]; [now left|]. right. left. now left.
    - apply in_app_or in H as [H | [<- | []]]; [now left|]. right. right.
      exists x, teacher, t. split; [now left | auto]. }
  intros Hy. destruct (H _ _ _ Hy) as [[] | H']. exact H'.
Qed.

End Facts.

(** The two orders of the first classes of [Inputs.plainSchedule]. *)
Lemma conflict_count_ignores_order_witness :
  List.length
    (GeneticAlgorithm.detectConflicts Runtime.isoDate Inputs.plainSchedule)
  = List.length
      (GeneticAlgorithm.detectConflicts Runtime.isoDate Inputs.swappedSchedule).
Proof.
  apply (conflict_count_ignores_order Runtime.isoDate Inputs.plainSchedule
           Inputs.swappedSchedule).
  apply perm_swap.
Defined.

(** A class that starts at [noon] between two classes that clash. *)
Lemma unparsable_time_never_conflicts_witness :
  GeneticAlgorithm.detectConflicts Runtime.isoDate
    ([Inputs.class "k1" "t1" "r1" Inputs.mon9] ++ Inputs.noonClass
     :: [Inputs.class "k3" "t1" "r2" Inputs.mon9])
  = GeneticAlgorithm.detectConflicts Runtime.isoDate
      ([Inputs.class "k1" "t1" "r1" Inputs.mon9]
       ++ [Inputs.class "k3" "t1" "r2" Inputs.mon9])
  /\ GeneticAlgorithm.detectConflictsForClass Runtime.isoDate Inputs.noonClass
       ([Inputs.class "k1" "t1" "r1" Inputs.mon9]
        ++ [Inputs.class "k3" "t1" "r2" Inputs.mon9])
     = [].
Proof.
  apply (unparsable_time_never_conflicts Runtime.isoDate Inputs.noonClass).
  left. reflexivity.
Defined.

(** The first two classes of [Inputs.plainSchedule] need no repair. *)
Lemma repair_keeps_a_clean_schedule_witness :
  GeneticAlgorithm.repairSchedule Inputs.plainTeachers Inputs.collidingSlots
    Runtime.isoDate (firstn 2 Inputs.plainSchedule)
  = firstn 2 Inputs.plainSchedule.
Proof.
  apply (repair_keeps_a_clean_schedule Inputs.plainTeachers Inputs.collidingSlots
           Runtime.isoDate (firstn 2 Inputs.plainSchedule)).
  - reflexivity.
  - simpl. constructor; [|constructor; [|constructor]].
    + intros [H | []]. discriminate.
    + intros [].
Defined.

(** The third class of [Inputs.plainSchedule] is moved to Monday 10:00,
    where its teacher is available. *)
Lemma repair_moves_to_available_slots_witness :
  In (GeneticAlgorithm.moveTo (Inputs.class "k3" "t1" "r2" Inputs.mon9) Inputs.mon10)
    Inputs.plainSchedule
  \/ exists x teacher t,
       In x Inputs.plainSchedule
       /\ find (fun t => Teacher.id t =? ClassSchedule.teacherId x) Inputs.plainTeachers
          = Some teacher
       /\ In t Inputs.collidingSlots
       /\ GeneticAlgorithm.teacherAvailableAt teacher t = true
       /\ GeneticAlgorithm.moveTo (Inputs.class "k3" "t1" "r2" Inputs.mon9) Inputs.mon10
          = GeneticAlgorithm.moveTo x t.
Proof.
  apply (repair_moves_to_available_slots Inputs.plainTeachers Inputs.collidingSlots
           Runtime.isoDate Inputs.plainSchedule).
  vm_compute. right. right. left. reflexivity.
Defined.

End ConflictFacts.

(** ** The scores weighed by the fitness *)

Module ScoreFacts.

Import Basics.

(** *** Numbers *)

Lemma add_finite (a b : number) (q : Q) :
  Num.add a b = finite q -> exists x y, a = finite x /\ b = finite y /\ q = x + y.
Proof. destruct a, b; simpl; try discriminate. intros [= <-]. eauto. Qed.

Lemma sum_from (l : list number) : forall acc q,
  fold_left Num.add l acc = finite q ->
  (exists x, acc = finite x) /\ forall y, In y l -> exists x, y = finite x.
Proof.
  induction l as [|a l IH]; intros acc q; cbn [fold_left].
  - intros ->. split; [eauto | intros y []].
  - intros H. apply IH in H as [[x Hx] Hl].
    apply add_finite in Hx as [x1 [x2 [-> [-> _]]]].
    split; [eauto|]. intros y [<- | Hy]; eauto.
Qed.

Lemma sum_finite (qs : list Q) : forall acc,
  fold_left Num.add (map finite qs) (finite acc) = finite (fold_left Qplus qs acc).
Proof. induction qs as [|q qs IH]; intros acc; simpl; [reflexivity | apply IH]. Qed.

Lemma add_NaN_l (a : number) : Num.add NaN a = NaN.
Proof. now destruct a. Qed.

Lemma add_NaN_r (a : number) : Num.add a NaN = NaN.
Proof. now destruct a. Qed.

Lemma sum_NaN (l : list number) : fold_left Num.add l NaN = NaN.
Proof.
  induction l as [|a l IH]; cbn [fold_left]; [reflexivity|]. now rewrite add_NaN_l.
Qed.

Lemma sum_with_NaN (l : list number) : forall acc,
  In NaN l -> fold_left Num.add l acc = NaN.
Proof.
  induction l as [|a l IH]; intros acc; cbn [fold_left]; [intros []|].
  intros [-> | H]; [rewrite add_NaN_r; apply sum_NaN | now apply IH].
Qed.

Lemma add_not_below (a b : number) :
  a <> NegativeInfinity -> b <> NegativeInfinity -> Num.add a b <> NegativeInfinity.
Proof. destruct a, b; simpl; congruence. Qed.

Lemma sum_not_below (l : list number) : forall acc,
  acc <> NegativeInfinity -> (forall x, In x l -> x <> NegativeInfinity) ->
  fold_left Num.add l acc <> NegativeInfinity.
Proof.
  induction l as [|a l IH]; intros acc Hacc Hl; cbn [fold_left]; [assumption|].
  apply IH; [|intros x Hx; apply Hl; now right].
  apply add_not_below; [assumption | apply Hl; now left].
Qed.

(** *** Counters in a plain object *)

Lemma set_entry {B : Type} (k : string) (v : B) (m : list (string * B))
  (entry : string * B) :
  In entry (set k v m) -> entry = (k, v) \/ In entry m.
Proof.
  induction m as [|[k0 v0] m IH]; simpl.
  - intros [<- | []]. now left.
  - destruct (String.eqb_spec k0 k) as [->|Hne]; simpl.
    + intros [<- | H]; [now left | right; now right].
    + intros [<- | H]; [right; now left|].
      destruct (IH H) as [-> | H']; [now left | right; now right].
Qed.

Lemma shadows_inherited (k : string) : shadows k = true -> inherited k = true.
Proof. unfold shadows. now intros H%andb_prop. Qed.

Lemma bumpObject_tallied (k : string) (m : list (string * Counter)) :
  tallied m -> tallied (bumpObject k m).
Proof.
  intros Hm. unfold bumpObject.
  destruct (lookup m k) as [[n|]|] eqn:E.
  - apply lookup_own in E. pose proof (Hm _ E) as [Hn Hk]. simpl in Hn, Hk.
    intros e He. apply set_entry in He as [-> | He]; [|now apply Hm].
    simpl. split; [lia | assumption].
  - assumption.
  - destruct (inherited k) eqn:Ei.
    + destruct (shadows k) eqn:Es; [|assumption].
      intros e He. apply set_entry in He as [-> | He]; [exact Es | now apply Hm].
    + intros e He. apply set_entry in He as [-> | He]; [|now apply Hm].
      simpl. split; [lia | assumption].
Qed.

Lemma bumpObject_keeps_text (k k' : string) (m : list (string * Counter)) :
  lookup m k = Some text -> lookup (bumpObject k' m) k = Some text.
Proof.
  intros H. unfold bumpObject. destruct (String.eqb_spec k' k) as [->|Hne].
  - now rewrite H.
  - assert (Hk : k <> k') by congruence.
    destruct (lookup m k') as [[n|]|];
      [| |destruct (inherited k'); [destruct (shadows k')|]];
      rewrite ?(SolverFacts.lookup_set_other _ _ _ _ Hk); assumption.
Qed.

Lemma bumpObject_text (k : string) (m : list (string * Counter)) :
  tallied m -> shadows k = true -> lookup (bumpObject k m) k = Some text.
Proof.
  intros Hm Hk. unfold bumpObject.
  destruct (lookup m k) as [[n|]|] eqn:E.
  - apply lookup_own in E. destruct (Hm _ E) as [_ Hi]. simpl in Hi.
    apply shadows_inherited in Hk. congruence.
  - assumption.
  - rewrite (shadows_inherited k Hk), Hk. apply SolverFacts.lookup_set_same.
Qed.

Section Counters.

Context {A : Type}.
Variable key : A -> string.

Abbreviation countUp :=
  (fun (xs : list A) (m : list (string * Counter)) =>
     fold_left (fun m x => bumpObject (key x) m) xs m).

Lemma countUp_tallied xs : forall m, tallied m -> tallied (countUp xs m).
Proof.
  induction xs as [|x xs IH]; intros m Hm; simpl; [assumption|].
  apply IH. now apply bumpObject_tallied.
Qed.

Lemma countUp_keeps_text xs k : forall m,
  lookup m k = Some text -> lookup (countUp xs m) k = Some text.
Proof.
  induction xs as [|x xs IH]; intros m Hm; simpl; [assumption|].
  apply IH. now apply bumpObject_keeps_text.
Qed.

(** The counter of a name that shadows an inherited one is a text. *)
Lemma countUp_text xs x : forall m,
  tallied m -> In x xs -> shadows (key x) = true ->
  lookup (countUp xs m) (key x) = Some text.
Proof.
  induction xs as [|y xs IH]; intros m Hm; simpl; [intros []|].
  intros [-> | Hx] Hs.
  - apply countUp_keeps_text. now apply bumpObject_text.
  - apply IH; auto. now apply bumpObject_tallied.
Qed.

(** Without such a name every counter is a positive count. *)
Lemma countUp_counts xs : forall m,
  (forall entry, In entry m -> exists n, snd entry = counted n /\ (0 < n)%Z) ->
  existsb (fun x => shadows (key x)) xs = false ->
  forall entry, In entry (countUp xs m) -> exists n, snd entry = counted n /\ (0 < n)%Z.
Proof.
  induction xs as [|x xs IH]; intros m Hm Hxs; simpl in *; [assumption|].
  apply orb_false_iff in Hxs as [Hx Hxs]. apply IH; [|assumption].
  intros e He. unfold bumpObject in He.
  destruct (lookup m (key x)) as [[n|]|] eqn:E.
  - apply set_entry in He as [-> | He]; [|now apply Hm].
    apply lookup_own in E. destruct (Hm _ E) as [n' [[= <-] Hn]].
    exists (n + 1)%Z. split; [reflexivity | lia].
  - now apply Hm.
  - rewrite Hx in He. destruct (inherited (key x)); [now apply Hm|].
    apply set_entry in He as [-> | He]; [|now apply Hm].
    exists 1%Z. split; [reflexivity | lia].
Qed.

End Counters.

Lemma counts_values (m : list (string * Counter)) :
  (forall entry, In entry m -> exists n, snd entry = counted n /\ (0 < n)%Z) ->
  exists qs, map (fun kv => counterValue (snd kv)) m = map finite qs
             /\ forall q, In q qs -> 0 < q.
Proof.
  induction m as [|[k c] m IH]; intros Hm.
  - exists []. split; [reflexivity | intros q []].
  - destruct IH as [qs [E Hqs]]; [intros e He; apply Hm; now right|].
    destruct (Hm (k, c) (or_introl eq_refl)) as [n [Hc Hn]]. simpl in Hc. subst c.
    exists (inject_Z n :: qs). split; [simpl; now rewrite E|].
    intros q [<- | Hq]; [unfold Qlt; simpl; lia | now apply Hqs].
Qed.

(** *** The old helper lemmas *)

Lemma square_nonneg (x : Q) : 0 <= x * x.
Proof. destruct x as [n d]. unfold Qle. simpl. nia. Qed.

Lemma squares_nonneg (l : list Q) (c : Q) : forall acc,
  0 <= acc -> 0 <= fold_left (fun sum x => sum + (x - c) * (x - c)) l acc.
Proof.
  induction l as [|x l IH]; intros acc Hacc; simpl; [assumption|].
  apply IH. rewrite <- (Qplus_0_r 0). apply Qplus_le_compat; [assumption|].
  apply square_nonneg.
Qed.

Lemma size_pos {A : Type} (x : A) (l : list A) : 0 < size (x :: l).
Proof. unfold size. simpl. reflexivity. Qed.

Lemma orOne_pos (x : Q) : 0 <= x -> 0 < orOne x.
Proof.
  intros Hx. unfold orOne. destruct (Qeq_bool x 0) eqn:E; [reflexivity|].
  apply Qeq_bool_neq in E. apply Qle_lteq in Hx as [Hx | Hx]; [assumption|].
  exfalso. apply E. now symmetry.
Qed.

(** [Math.max(0, 1 - a / b)] with [a] non-negative and [b] positive. *)
Lemma evenness_bounds (a b : Q) : 0 <= a -> 0 < b -> 0 <= Qmax 0 (1 - a / b) <= 1.
Proof.
  intros Ha Hb. split; [apply Q.le_max_l|].
  apply Q.max_lub; [discriminate|].
  assert (H : 0 <= a / b) by (apply Qle_shift_div_l; [assumption | now rewrite Qmult_0_l]).
  rewrite <- (Qplus_0_r 1) at 2. unfold Qminus. apply Qplus_le_compat; [apply Qle_refl|].
  rewrite <- (Qopp_involutive 0). apply Qopp_le_compat. exact H.
Qed.

Lemma bump_positive (k : string) (m : list (string * Z)) :
  (forall e, In e m -> (0 < snd e)%Z) -> forall e, In e (bump k m) -> (0 < snd e)%Z.
Proof.
  induction m as [|[k' n] m IH]; simpl; intros Hm e He.
  - destruct He as [<- | []]. simpl. lia.
  - destruct (k' =? k).
    + destruct He as [<- | He]; [|apply Hm; now right].
      simpl. specialize (Hm (k', n) (or_introl eq_refl)). simpl in Hm. lia.
    + destruct He as [<- | He]; [apply Hm; now left|].
      apply IH; [|assumption]. intros e' He'. apply Hm. now right.
Qed.

Lemma tally_positive (keys : list string) :
  forall e, In e (tally keys) -> (0 < snd e)%Z.
Proof.
  unfold tally.
  assert (H : forall m, (forall e, In e m -> (0 < snd e)%Z) ->
            forall e, In e (fold_left (fun m k => bump k m) keys m) -> (0 < snd e)%Z).
  { induction keys as [|k keys IH]; intros m Hm; simpl; [assumption|].
    apply IH. now apply bump_positive. }
  apply H. intros e [].
Qed.

Lemma sumQ_pos (l : list Q) : forall acc,
  0 <= acc -> (forall x, In x l -> 0 < x) -> 0 <= fold_left Qplus l acc.
Proof.
  induction l as [|x l IH]; intros acc Hacc Hl; simpl; [assumption|].
  apply IH; [|intros y Hy; apply Hl; now right].
  rewrite <- (Qplus_0_r 0). apply Qplus_le_compat; [assumption|].
  apply Qlt_le_weak, Hl. now left.
Qed.

Lemma sumQ_strictly_pos (x : Q) (l : list Q) :
  (forall y, In y (x :: l) -> 0 < y) -> 0 < sumQ (x :: l).
Proof.
  intros Hl. unfold sumQ. simpl.
  assert (H : forall l acc, 0 < acc -> (forall y, In y l -> 0 < y) ->
            0 < fold_left Qplus l acc).
  { clear. induction l as [|y l IH]; intros acc Hacc Hl; simpl; [assumption|].
    apply IH; [|intros z Hz; apply Hl; now right].
    rewrite <- (Qplus_0_r 0). apply Qplus_lt_le_compat; [assumption|].
    apply Qlt_le_weak, Hl. now left. }
  apply H; [|intros y Hy; apply Hl; now right].
  rewrite Qplus_0_l. apply Hl. now left.
Qed.

Lemma sumQ_nonneg (l : list Q) : forall acc,
  0 <= acc -> (forall x, In x l -> 0 <= x) -> 0 <= fold_left Qplus l acc.
Proof.
  induction l as [|x l IH]; intros acc Hacc Hl; simpl; [assumption|].
  apply IH; [|intros y Hy; apply Hl; now right].
  rewrite <- (Qplus_0_r 0). apply Qplus_le_compat; [assumption|].
  apply Hl. now left.
Qed.

(** A sum of terms that are [NaN] or [Infinity], from [NaN] or [Infinity]. *)
Lemma sum_unbounded (l : list number) : forall acc,
  (forall x, In x l -> x = NaN \/ x = PositiveInfinity) ->
  acc = NaN \/ acc = PositiveInfinity ->
  fold_left Num.add l acc = NaN \/ fold_left Num.add l acc = PositiveInfinity.
Proof.
  induction l as [|x l IH]; intros acc Hl Hacc; cbn [fold_left]; [assumption|].
  apply IH; [intros y Hy; apply Hl; now right|].
  destruct (Hl x (or_introl eq_refl)) as [-> | ->], Hacc as [-> | ->]; simpl; auto.
Qed.

(** *** The room utilisation *)

Lemma countIn_tallied (m : list (string * Counter)) (k : string) :
  tallied m ->
  if inherited k then countIn m k = NaN
  else exists c, countIn m k = finite c /\ 0 <= c.
Proof.
  intros Hm. unfold countIn. destruct (lookup m k) as [c|] eqn:E.
  - apply lookup_own in E. apply Hm in E. cbn [fst snd] in E.
    destruct c as [n|].
    + destruct E as [Hn ->]. exists (inject_Z n). split; [reflexivity|].
      unfold Qle. simpl. lia.
    + now rewrite (shadows_inherited _ E).
  - destruct (inherited k); [reflexivity|]. exists 0. split; [reflexivity | discriminate].
Qed.

(** *** The workload balance *)

Lemma size_map {A B : Type} (f : A -> B) (l : list A) : size (map f l) = size l.
Proof. unfold size. now rewrite length_map. Qed.

Lemma size_nonzero {A : Type} (x : A) (l : list A) : Qeq_bool (size (x :: l)) 0 = false.
Proof.
  destruct (Qeq_bool (size (x :: l)) 0) eqn:E; [|reflexivity].
  apply Qeq_bool_eq in E. pose proof (size_pos x l) as H. rewrite E in H.
  discriminate H.
Qed.

Lemma squares_finite (qs : list Q) (a : Q) : forall acc,
  fold_left
    (fun sum load =>
       Num.add sum (Num.mul (Num.sub load (finite a)) (Num.sub load (finite a))))
    (map finite qs) (finite acc)
  = finite (fold_left (fun sum load => sum + (load - a) * (load - a)) qs acc).
Proof. induction qs as [|q qs IH]; intros acc; simpl; [reflexivity | apply IH]. Qed.

Lemma squares_NaN (l : list number) : forall acc,
  l <> [] ->
  fold_left (fun sum load => Num.add sum (Num.mul (Num.sub load NaN) (Num.sub load NaN)))
    l acc
  = NaN.
Proof.
  assert (Hterm : forall load, Num.mul (Num.sub load NaN) (Num.sub load NaN) = NaN).
  { intros load. unfold Num.sub. cbn [Num.opp]. now rewrite add_NaN_r. }
  assert (H : forall l,
            fold_left
              (fun sum load =>
                 Num.add sum (Num.mul (Num.sub load NaN) (Num.sub load NaN))) l NaN
            = NaN).
  { clear -Hterm. induction l as [|x l IH]; cbn [fold_left]; [reflexivity|].
    now rewrite Hterm. }
  intros acc Hl. destruct l as [|x l]; [contradiction|]. cbn [fold_left].
  rewrite Hterm, add_NaN_r. apply H.
Qed.

Section Facts.

Variable courses : list Course.t.
Variable teachers : list Teacher.t.
Variable rooms : list Room.t.
Variable timeSlots : list TimeSlot.t.
Variable constraints : TimetableConstraints.t.
Variable subjects : list Subject.t.
Variable parseDate : string -> option Z.
Variable localeCompare : string -> string -> comparison.

Abbreviation calculateRoomUtilization :=
  (GeneticAlgorithm.calculateRoomUtilization rooms timeSlots).
Abbreviation calculateConstraintSatisfaction :=
  (GeneticAlgorithm.calculateConstraintSatisfaction teachers rooms timeSlots
     constraints subjects parseDate).
Abbreviation calculateCoverage :=
  (GeneticAlgorithm.calculateCoverage courses constraints subjects).
Abbreviation calculateFitness :=
  (GeneticAlgorithm.calculateFitness courses teachers rooms timeSlots constraints
     subjects parseDate localeCompare).

(** The workload balance is [NaN] when the id of a teacher shadows an
    inherited name, and a number between 0 and 1 otherwise. *)
Lemma workloadBalance_bounds (schedule : list ClassSchedule.t) :
  if existsb (fun cls => shadows (ClassSchedule.teacherId cls)) schedule
  then GeneticAlgorithm.calculateWorkloadBalance schedule = NaN
  else exists balance,
         GeneticAlgorithm.calculateWorkloadBalance schedule = finite balance
         /\ 0 <= balance <= 1.
Proof.
  unfold GeneticAlgorithm.calculateWorkloadBalance.
  set (teacherWorkload := fold_left _ schedule []).
  assert (Htallied : tallied teacherWorkload)
    by (apply (countUp_tallied ClassSchedule.teacherId); intros entry []).
  destruct (existsb _ schedule) eqn:Es.
  - apply existsb_exists in Es as [cls [Hcls Hs]].
    pose proof (countUp_text ClassSchedule.teacherId schedule cls [] (fun _ H => match H with end)
                  Hcls Hs) as Htext.
    fold teacherWorkload in Htext. apply lookup_own in Htext.
    assert (Hin : In NaN (map (fun kv => counterValue (snd kv)) teacherWorkload)).
    { apply in_map_iff. exists (ClassSchedule.teacherId cls, text). now split. }
    destruct (map _ teacherWorkload) as [|w ws] eqn:Ew; [destruct Hin|].
    cbv zeta. unfold Num.sum. rewrite (sum_with_NaN _ _ Hin). cbn [Num.div].
    rewrite squares_NaN by discriminate. reflexivity.
  - destruct (counts_values teacherWorkload) as [qs [E Hqs]].
    { apply (countUp_counts ClassSchedule.teacherId); [intros entry []|assumption]. }
    rewrite E. destruct qs as [|q qs]; [exists 0; split; [reflexivity | split; discriminate]|].
    cbn [map]. cbv zeta. change (finite q :: map finite qs) with (map finite (q :: qs)).
    unfold Num.sum. rewrite sum_finite, size_map.
    cbn [Num.div]. rewrite size_nonzero. rewrite squares_finite.
    cbn [Num.div Num.mul]. rewrite size_nonzero.
    assert (HorElse : forall x, Num.orElse (finite x) (finite 1) = finite (orOne x)).
    { intros x. unfold Num.orElse, orOne. now destruct (Qeq_bool x 0). }
    rewrite HorElse. set (avg := fold_left Qplus (q :: qs) 0 / size (q :: qs)).
    set (variance := _ / size (q :: qs)).
    assert (Hvariance : 0 <= variance).
    { apply Qle_shift_div_l; [apply size_pos|]. rewrite Qmult_0_l.
      apply squares_nonneg. discriminate. }
    pose proof (orOne_pos (avg * avg) (square_nonneg avg)) as HorOne.
    cbn [Num.div].
    destruct (Qeq_bool (orOne (avg * avg)) 0) eqn:E0.
    { apply Qeq_bool_eq in E0. rewrite E0 in HorOne. discriminate HorOne. }
    eexists. split; [reflexivity|]. now apply evenness_bounds.
Qed.

(** The room utilisation is a finite number, and then not negative, when
    there is a room and a time slot and no room id is an inherited name;
    otherwise it is [NaN] or [Infinity]. *)
Lemma roomUtilization_cases (schedule : list ClassSchedule.t) :
  match rooms, timeSlots with
  | _ :: _, _ :: _ =>
      if existsb (fun room => inherited (Room.id room)) rooms
      then calculateRoomUtilization schedule = NaN
      else exists utilization,
             calculateRoomUtilization schedule = finite utilization /\ 0 <= utilization
  | _, _ =>
      calculateRoomUtilization schedule = NaN
      \/ calculateRoomUtilization schedule = PositiveInfinity
  end.
Proof.
  unfold GeneticAlgorithm.calculateRoomUtilization.
  set (roomUsage := fold_left _ schedule []).
  assert (Htallied : tallied roomUsage)
    by (apply (countUp_tallied ClassSchedule.roomId); intros entry []).
  set (totalSlots := inject_Z (Z.of_nat (List.length timeSlots) * 5)).
  set (rate := fun room : Room.t => Num.div (countIn roomUsage (Room.id room)) (finite totalSlots)).
  assert (Hinherited : forall l, existsb (fun room => inherited (Room.id room)) l = true ->
            Num.sum (map rate l) = NaN).
  { intros l Hl. apply existsb_exists in Hl as [room [Hroom Hid]].
    apply sum_with_NaN. apply in_map_iff. exists room. split; [|assumption].
    unfold rate. pose proof (countIn_tallied roomUsage (Room.id room) Htallied) as H.
    rewrite Hid in H. now rewrite H. }
  destruct rooms as [|room rooms'] eqn:Er.
  { left. reflexivity. }
  rewrite <- Er.
  assert (Hsize : Qeq_bool (size rooms) 0 = false) by (rewrite Er; apply size_nonzero).
  assert (Hcompare : Qcompare (size rooms) 0 = Gt).
  { rewrite Er. apply Qgt_alt. apply size_pos. }
  destruct (existsb (fun room => inherited (Room.id room)) rooms) eqn:Ei.
  { rewrite (Hinherited _ Ei). destruct timeSlots; [left|]; reflexivity. }
  assert (Hids : forall r, In r rooms -> inherited (Room.id r) = false).
  { intros r Hr. destruct (inherited (Room.id r)) eqn:E; [|reflexivity].
    assert (H : existsb (fun room => inherited (Room.id room)) rooms = true)
      by (apply existsb_exists; eauto).
    congruence. }
  destruct timeSlots as [|slot slots] eqn:Et.
  - assert (H : forall x, In x (map rate rooms) -> x = NaN \/ x = PositiveInfinity).
    { intros x Hx. apply in_map_iff in Hx as [r [<- Hr]]. unfold rate.
      pose proof (countIn_tallied roomUsage (Room.id r) Htallied) as Hc.
      rewrite (Hids r Hr) in Hc. destruct Hc as [c [-> Hc]].
      change totalSlots with (inject_Z 0). cbn [Num.div].
      change (Qeq_bool (inject_Z 0) 0) with true. cbv iota.
      destruct (Qcompare c 0) eqn:Ec; cbn [Num.scaled]; auto.
      apply Qlt_alt in Ec. exfalso. now apply (Qle_not_lt _ _ Hc). }
    unfold Num.sum. rewrite Er in H |- *. cbn [map fold_left] in H |- *.
    destruct (sum_unbounded (map rate rooms') (Num.add (finite 0) (rate room))) as [-> | ->].
    + intros x Hx. apply H. now right.
    + destruct (H (rate room) (or_introl eq_refl)) as [-> | ->]; simpl; auto.
    + left. reflexivity.
    + right. cbn [Num.div]. rewrite <- Er, Hcompare. reflexivity.
  - assert (Htotal : 0 < totalSlots).
    { unfold totalSlots, Qlt. cbn [List.length]. simpl. lia. }
    assert (H : exists rates, map rate rooms = map finite rates
                               /\ forall x, In x rates -> 0 <= x).
    { clear Er Hsize Hcompare Ei. induction rooms as [|r l IH].
      - exists []. split; [reflexivity | intros x []].
      - destruct IH as [rates [E Hrates]]; [intros r' Hr'; apply Hids; now right|].
        pose proof (countIn_tallied roomUsage (Room.id r) Htallied) as Hc.
        rewrite (Hids r (or_introl eq_refl)) in Hc. destruct Hc as [c [Ec Hc]].
        exists (c / totalSlots :: rates). split.
        + cbn [map]. rewrite E. f_equal. unfold rate. rewrite Ec. cbn [Num.div].
          destruct (Qeq_bool totalSlots 0) eqn:E0; [|reflexivity].
          apply Qeq_bool_eq in E0. rewrite E0 in Htotal. discriminate Htotal.
        + intros x [<- | Hx]; [|now apply Hrates].
          apply Qle_shift_div_l; [assumption|]. now rewrite Qmult_0_l. }
    destruct H as [rates [-> Hrates]]. unfold Num.sum. rewrite sum_finite.
    cbn [Num.div]. rewrite Hsize. eexists. split; [reflexivity|].
    apply Qle_shift_div_l; [rewrite Er; apply size_pos|]. rewrite Qmult_0_l.
    apply sumQ_nonneg; [discriminate | assumption].
Qed.

Lemma timeDistribution_bounds (schedule : list ClassSchedule.t) :
  0 <= GeneticAlgorithm.calculateTimeDistribution schedule <= 1.
Proof.
  unfold GeneticAlgorithm.calculateTimeDistribution.
  set (usage := tally _).
  assert (Hpos : forall x, In x (map (fun kv : string * Z => inject_Z (snd kv)) usage) ->
            0 < x).
  { intros x Hx. apply in_map_iff in Hx as [e [<- He]].
    apply tally_positive in He. unfold Qlt. simpl. lia. }
  destruct (map _ usage) as [|w ws]; [split; discriminate|].
  apply evenness_bounds.
  - apply Qle_shift_div_l; [apply size_pos|]. rewrite Qmult_0_l.
    apply squares_nonneg. apply Qle_refl.
  - apply orOne_pos. apply Qle_shift_div_l; [apply size_pos|]. rewrite Qmult_0_l.
    apply Qlt_le_weak. now apply sumQ_strictly_pos.
Qed.

Lemma ratio_bounds (a b : Z) : (0 <= a <= b)%Z -> (0 < b)%Z ->
  0 <= inject_Z a / inject_Z b <= 1.
Proof.
  intros Ha Hb.
  assert (Hb' : 0 < inject_Z b) by (unfold Qlt; simpl; lia).
  split.
  - apply Qle_shift_div_l; [assumption|]. rewrite Qmult_0_l. unfold Qle. simpl. lia.
  - apply Qle_shift_div_r; [assumption|]. rewrite Qmult_1_l. unfold Qle. simpl. lia.
Qed.

Lemma satisfiedChecks_sum (schedule : list ClassSchedule.t) :
  (0 <= fold_right Z.add 0
          (map (GeneticAlgorithm.satisfiedChecks teachers rooms timeSlots constraints
                  subjects parseDate) schedule)
     <= 3 * Z.of_nat (List.length schedule))%Z.
Proof.
  induction schedule as [|cls schedule IH]; [simpl; lia|].
  cbn [map fold_right List.length].
  assert (Hc : (0 <= GeneticAlgorithm.satisfiedChecks teachers rooms timeSlots constraints
                  subjects parseDate cls <= 3)%Z).
  { unfold GeneticAlgorithm.satisfiedChecks.
    destruct (GeneticAlgorithm.teacherAvailabilityOk _ _ _),
      (GeneticAlgorithm.inPreferredWindow _ _ _), (GeneticAlgorithm.roomTypeOk _ _ _); lia. }
  lia.
Qed.

Lemma constraintSatisfaction_bounds (schedule : list ClassSchedule.t) :
  0 <= calculateConstraintSatisfaction schedule <= 1.
Proof.
  unfold GeneticAlgorithm.calculateConstraintSatisfaction.
  rewrite FitnessFacts.checkClass_counts.
  destruct (0 <? _)%Z eqn:E; [|split; discriminate].
  apply Z.ltb_lt in E. apply ratio_bounds; [|assumption].
  rewrite !Z.add_0_l. apply satisfiedChecks_sum.
Qed.

Lemma coverage_bounds (schedule : list ClassSchedule.t) :
  0 <= calculateCoverage schedule <= 1.
Proof.
  unfold GeneticAlgorithm.calculateCoverage.
  set (actual := GeneticAlgorithm.generateActualCourses courses constraints subjects).
  set (scheduled := fold_left add _ []).
  assert (H : forall l n,
            (n <= fold_left
                    (fun covered course =>
                       if has scheduled (GeneticAlgorithm.ac_id course)
                       then (covered + 1)%Z else covered) l n
               <= n + Z.of_nat (List.length l))%Z).
  { induction l as [|c l IH]; intros n; simpl; [lia|].
    destruct (has scheduled _).
    - specialize (IH (n + 1)%Z). lia.
    - specialize (IH n). lia. }
  destruct actual as [|c l] eqn:E; [split; discriminate|].
  unfold size. apply ratio_bounds; [|simpl; lia].
  specialize (H (c :: l) 0%Z). lia.
Qed.

(** Of the four scores that [calculateFitness] weighs by 80, 40, 100 and
    150, the time distribution, the constraint satisfaction and the coverage
    are numbers between 0 and 1 for every schedule; so is the workload
    balance, unless the id of a teacher of the schedule shadows a name that
    objects inherit, when it is [NaN]. *)
Theorem fitness_scores_between_0_and_1 (schedule : list ClassSchedule.t) :
  (if existsb (fun cls => shadows (ClassSchedule.teacherId cls)) schedule
   then GeneticAlgorithm.calculateWorkloadBalance schedule = NaN
   else exists balance,
          GeneticAlgorithm.calculateWorkloadBalance schedule = finite balance
          /\ 0 <= balance <= 1)
  /\ 0 <= GeneticAlgorithm.calculateTimeDistribution schedule <= 1
  /\ 0 <= calculateConstraintSatisfaction schedule <= 1
  /\ 0 <= calculateCoverage schedule <= 1.
Proof.
  split; [apply workloadBalance_bounds|]. split; [apply timeDistribution_bounds|].
  split; [apply constraintSatisfaction_bounds | apply coverage_bounds].
Qed.

(** The fitness by the kind of its two scores that need not be finite. *)
Lemma weighed_cases (base distribution satisfaction gaps coverage : Q)
  (workloadBalance roomUtilization : number) :
  let fitness :=
    Num.max
      (Num.add
         (Num.sub
            (Num.add
               (Num.add
                  (Num.add (Num.add (finite base) (Num.mul workloadBalance (finite 80)))
                     (Num.mul roomUtilization (finite 60)))
                  (finite distribution))
               (finite satisfaction))
            (finite gaps))
         (finite coverage))
      (finite 0) in
  match workloadBalance, roomUtilization with
  | finite _, finite _ => exists q, fitness = finite q /\ 0 <= q
  | finite _, PositiveInfinity => fitness = PositiveInfinity
  | NaN, _ | _, NaN => fitness = NaN
  | _, _ => True
  end.
Proof.
  destruct workloadBalance as [b| | |], roomUtilization as [u| | |];
    cbn [Num.add Num.sub Num.mul Num.max Num.opp Num.scaled];
    change (Qcompare 60 0) with Gt; cbn [Num.add Num.sub Num.mul Num.max Num.opp Num.scaled];
    try reflexivity; try exact I.
  eexists. split; [reflexivity | apply Q.le_max_r].
Qed.

(** [calculateFitness] is a finite number exactly when there is a room and
    a time slot, no room id is a name that objects inherit and no teacher id
    of the schedule shadows one; a finite fitness is at least 0, and the
    fitness is never [-Infinity]. *)
Theorem fitness_finite_iff (schedule : list ClassSchedule.t) :
  ((exists fitness, calculateFitness schedule = finite fitness)
   <-> rooms <> [] /\ timeSlots <> []
       /\ (forall room, In room rooms -> inherited (Room.id room) = false)
       /\ (forall cls, In cls schedule -> shadows (ClassSchedule.teacherId cls) = false))
  /\ (forall fitness, calculateFitness schedule = finite fitness -> 0 <= fitness)
  /\ calculateFitness schedule <> NegativeInfinity.
Proof.
  assert (Hnone : forall {A : Type} (p : A -> bool) (l : list A),
            existsb p l = false <-> forall x, In x l -> p x = false).
  { intros A p l. split.
    - intros H x Hx. destruct (p x) eqn:E; [|reflexivity].
      assert (H' : existsb p l = true) by (apply existsb_exists; eauto). congruence.
    - intros H. destruct (existsb p l) eqn:E; [|reflexivity].
      apply existsb_exists in E as [x [Hx E]]. rewrite (H x Hx) in E. discriminate E. }
  set (fitness := calculateFitness schedule).
  set (workloadBalance := GeneticAlgorithm.calculateWorkloadBalance schedule).
  set (roomUtilization := calculateRoomUtilization schedule).
  assert (Hf : match workloadBalance, roomUtilization with
               | finite _, finite _ => exists q, fitness = finite q /\ 0 <= q
               | finite _, PositiveInfinity => fitness = PositiveInfinity
               | NaN, _ | _, NaN => fitness = NaN
               | _, _ => True
               end)
    by exact (weighed_cases _ _ _ _ _ workloadBalance roomUtilization).
  pose proof (workloadBalance_bounds schedule) as Hb. fold workloadBalance in Hb.
  pose proof (roomUtilization_cases schedule) as Hu. fold roomUtilization in Hu.
  assert (Hcases :
            if negb (existsb (fun cls => shadows (ClassSchedule.teacherId cls)) schedule)
               && match rooms, timeSlots with
                  | _ :: _, _ :: _ =>
                      negb (existsb (fun room => inherited (Room.id room)) rooms)
                  | _, _ => false
                  end
            then exists q, fitness = finite q /\ 0 <= q
            else fitness = NaN \/ fitness = PositiveInfinity).
  { destruct (existsb _ schedule).
    - rewrite Hb in Hf. left. now destruct roomUtilization.
    - destruct Hb as [balance [Hb _]]. rewrite Hb in Hf. cbn [negb andb].
      destruct rooms as [|room rooms'].
      { destruct Hu as [Hu | Hu]; rewrite Hu in Hf; auto. }
      destruct timeSlots as [|slot slots].
      { destruct Hu as [Hu | Hu]; rewrite Hu in Hf; auto. }
      destruct (existsb _ (room :: rooms')); cbn [negb].
      + rewrite Hu in Hf. now left.
      + destruct Hu as [utilization [Hu _]]. now rewrite Hu in Hf. }
  clearbody fitness. clear Hf Hb Hu. split; [|split].
  - split.
    + intros [q Hq].
      destruct (existsb _ schedule) eqn:Es;
        [destruct Hcases as [H | H]; rewrite H in Hq; discriminate Hq|].
      cbn [negb andb] in Hcases.
      destruct rooms as [|room rooms'];
        [destruct Hcases as [H | H]; rewrite H in Hq; discriminate Hq|].
      destruct timeSlots as [|slot slots];
        [destruct Hcases as [H | H]; rewrite H in Hq; discriminate Hq|].
      destruct (existsb _ (room :: rooms')) eqn:Ei;
        [destruct Hcases as [H | H]; rewrite H in Hq; discriminate Hq|].
      repeat split; try discriminate; now apply Hnone.
    + intros [Hr [Ht [Hi Hs]]]. apply Hnone in Hi, Hs. rewrite Hs in Hcases.
      destruct rooms as [|room rooms']; [contradiction|].
      destruct timeSlots as [|slot slots]; [contradiction|].
      rewrite Hi in Hcases. destruct Hcases as [q [Hq _]]. eauto.
  - intros q Hq. destruct (_ && _).
    + destruct Hcases as [q' [Hq' Hnonneg]]. rewrite Hq' in Hq. now injection Hq as <-.
    + destruct Hcases as [H | H]; rewrite H in Hq; discriminate Hq.
  - destruct (_ && _).
    + destruct Hcases as [q [-> _]]. discriminate.
    + destruct Hcases as [-> | ->]; discriminate.
Qed.

End Facts.

(** A class of the teacher [constructor] makes the workload balance
    [NaN]; the workload balance of [Inputs.plainSchedule] is a number
    between 0 and 1. *)
Lemma fitness_scores_between_0_and_1_witness :
  GeneticAlgorithm.calculateWorkloadBalance
    [Inputs.class "k1" "constructor" "r1" Inputs.mon9; Inputs.class "k2" "t2" "r2" Inputs.mon9]
  = NaN
  /\ exists balance,
       GeneticAlgorithm.calculateWorkloadBalance Inputs.plainSchedule = finite balance
       /\ 0 <= balance <= 1.
Proof.
  split.
  - exact (proj1 (fitness_scores_between_0_and_1 Inputs.oneCourse Inputs.plainTeachers
                    Inputs.oneRoom Inputs.collidingSlots Inputs.noConstraints
                    Inputs.twoSubjects Runtime.isoDate
                    [Inputs.class "k1" "constructor" "r1" Inputs.mon9;
                     Inputs.class "k2" "t2" "r2" Inputs.mon9])).
  - exact (proj1 (fitness_scores_between_0_and_1 Inputs.oneCourse Inputs.plainTeachers
                    Inputs.oneRoom Inputs.collidingSlots Inputs.noConstraints
                    Inputs.twoSubjects Runtime.isoDate Inputs.plainSchedule)).
Defined.

(** The fitness of [Inputs.plainSchedule] is finite, with one room and two
    time slots; the fitness of a class of the teacher [constructor] is
    not. *)
Lemma fitness_finite_iff_witness :
  (exists fitness,
     GeneticAlgorithm.calculateFitness Inputs.oneCourse Inputs.plainTeachers Inputs.oneRoom
       Inputs.collidingSlots Inputs.noConstraints Inputs.twoSubjects Runtime.isoDate
       Runtime.codeUnitCompare Inputs.plainSchedule
     = finite fitness)
  /\ ~ (exists fitness,
          GeneticAlgorithm.calculateFitness Inputs.oneCourse Inputs.plainTeachers
            Inputs.oneRoom Inputs.collidingSlots Inputs.noConstraints Inputs.twoSubjects
            Runtime.isoDate Runtime.codeUnitCompare
            [Inputs.class "k1" "constructor" "r1" Inputs.mon9]
          = finite fitness).
Proof.
  split.
  - apply (proj1 (fitness_finite_iff Inputs.oneCourse Inputs.plainTeachers Inputs.oneRoom
                    Inputs.collidingSlots Inputs.noConstraints Inputs.twoSubjects
                    Runtime.isoDate Runtime.codeUnitCompare Inputs.plainSchedule)).
    repeat split; try discriminate.
    + intros room [<- | []]. reflexivity.
    + intros cls Hcls. simpl in Hcls.
      repeat (destruct Hcls as [<- | Hcls]; [reflexivity|]). destruct Hcls.
  - intros H.
    apply (proj1 (fitness_finite_iff Inputs.oneCourse Inputs.plainTeachers Inputs.oneRoom
                    Inputs.collidingSlots Inputs.noConstraints Inputs.twoSubjects
                    Runtime.isoDate Runtime.codeUnitCompare
                    [Inputs.class "k1" "constructor" "r1" Inputs.mon9])) in H.
    destruct H as [_ [_ [_ H]]].
    specialize (H _ (or_introl eq_refl)). discriminate H.
Defined.

End ScoreFacts.

(** ** The solver: groups, propagation, fallback and search *)

Module GroupFacts.

Import Basics.

Section Groups.

Context {X B : Type}.
Variable sel : X -> option (string * B).

Abbreviation filed := (filed sel).
Abbreviation file := (file sel).

Lemma pushTo_keys (k : string) (v : B) (m : list (string * list B)) :
  map fst (pushTo k v m) = if has (map fst m) k then map fst m else map fst m ++ [k].
Proof.
  induction m as [|[k0 l0] m IH]; simpl; [reflexivity|].
  rewrite (String.eqb_sym k k0). destruct (k0 =? k); simpl; [reflexivity|].
  rewrite IH. unfold has. destruct (existsb _ _); reflexivity.
Qed.

Lemma pushTo_groups (k : string) (v : B) (m : list (string * list B)) :
  NoDup (map fst m) ->
  forall k' l', In (k', l') (pushTo k v m) <->
    (k' <> k /\ In (k', l') m)
    \/ (k' = k /\ ((exists l, In (k, l) m /\ l' = l ++ [v])
                   \/ (~ In k (map fst m) /\ l' = [v]))).
Proof.
  induction m as [|[k0 l0] m IH]; intros Hm k' l'; simpl.
  - split.
    + intros [[= <- <-] | []]. right. split; [reflexivity|]. right. auto.
    + intros [[_ []] | [-> [[l [[] _]] | [_ ->]]]]. now left.
  - inversion Hm as [|? ? Hk0 Hm']; subst.
    destruct (String.eqb_spec k0 k) as [->|Hne]; simpl.
    + split.
      * intros [[= <- <-] | H].
        -- right. split; [reflexivity|]. left. exists l0. auto.
        -- left. split; [|now right]. intros ->. apply Hk0.
           apply in_map_iff. exists (k, l'). auto.
      * intros [[Hk [[= -> _] | H]] | [-> [[l [[[= <-] | H] ->]] | [H _]]]].
        -- contradiction.
        -- now right.
        -- now left.
        -- exfalso. apply Hk0. apply in_map_iff. exists (k, l). auto.
        -- exfalso. apply H. now left.
    + rewrite (IH Hm' k' l'). split.
      * intros [[= <- <-] | [[H1 H2] | [-> [[l [H1 ->]] | [H1 ->]]]]].
        -- left. split; [assumption | now left].
        -- left. split; [assumption | now right].
        -- right. split; [reflexivity|]. left. exists l. split; [now right | reflexivity].
        -- right. split; [reflexivity|]. right. split; [|reflexivity].
           intros [H | H]; [now apply Hne | now apply H1].
      * intros [[H1 [[= <- <-] | H2]] | [-> [[l [[[= -> _] | H1] ->]] | [H1 ->]]]].
        -- now left.
        -- right. left. auto.
        -- contradiction.
        -- right. right. split; [reflexivity|]. left. exists l. auto.
        -- right. right. split; [reflexivity|]. right. split; [|reflexivity].
           intros H. apply H1. now right.
Qed.

(** What [fold_left file] builds: the keys are distinct, the values under a
    key are the values filed under it, in order, and there is at least
    one. *)
Lemma filed_groups (l : list X) :
  let m := fold_left file l [] in
  NoDup (map fst m)
  /\ (forall k g, In (k, g) m <-> g = filed k l /\ g <> []).
Proof.
  induction l as [|x l IH] using rev_ind; cbv zeta.
  - simpl. split; [constructor|]. intros k g. split; [intros [] | intros [-> H]; now apply H].
  - rewrite fold_left_app. cbn [fold_left]. cbv zeta in IH. destruct IH as [Hkeys Hgroups].
    set (m := fold_left file l []) in *.
    assert (Hfiled : forall k, filed k (l ++ [x])
              = filed k l ++ match sel x with
                             | Some (k', v) => if k' =? k then [v] else []
                             | None => []
                             end).
    { intros k. unfold filed. rewrite flat_map_app. simpl. now rewrite app_nil_r. }
    destruct (sel x) as [[kx v]|] eqn:Ex.
    + replace (file m x) with (pushTo kx v m) by (unfold file; now rewrite Ex).
      split.
      * rewrite pushTo_keys. destruct (has (map fst m) kx) eqn:Hh; [assumption|].
        apply NoDup_snoc; [assumption|].
        intros Hin. apply has_true_iff in Hin. congruence.
      * intros k g. rewrite (pushTo_groups kx v m Hkeys k g), Hfiled.
        destruct (String.eqb_spec kx k) as [->|Hne].
        -- split.
           ++ intros [[H _] | [_ [[g0 [H ->]] | [H ->]]]]; [contradiction | |].
              ** apply Hgroups in H as [-> _]. split; [reflexivity|].
                 intros E. now apply app_eq_nil in E as [_ E].
              ** split; [|discriminate].
                 destruct (filed k l) as [|b g0] eqn:E; [reflexivity|].
                 exfalso. apply H. apply in_map_iff. exists (k, b :: g0).
                 split; [reflexivity|]. apply Hgroups. split; [now rewrite E | discriminate].
           ++ intros [-> _]. right. split; [reflexivity|].
              destruct (filed k l) as [|b g0] eqn:E.
              ** right. split; [|reflexivity]. intros Hin.
                 apply in_map_iff in Hin as [[k' g'] [Hk Hin]]. simpl in Hk. subst k'.
                 apply Hgroups in Hin as [-> Hin]. now apply Hin.
              ** left. exists (b :: g0). split; [|reflexivity].
                 apply Hgroups. split; [now rewrite E | discriminate].
        -- rewrite app_nil_r. split.
           ++ intros [[_ H] | [-> _]]; [now apply Hgroups | contradiction].
           ++ intros H. left. split; [congruence | now apply Hgroups].
    + replace (file m x) with m by (unfold file; now rewrite Ex).
      split; [assumption|]. intros k g. rewrite Hfiled, app_nil_r. apply Hgroups.
Qed.

End Groups.

(** Filing every element under its key: a key is filed at most once
    exactly when the keys are pairwise distinct. *)
Lemma filed_total {A : Type} (key : A -> string) (k : string) (l : list A) :
  filed (fun x => Some (key x, x)) k l = filter (fun x => key x =? k) l.
Proof.
  unfold filed. induction l as [|x l IH]; simpl; [reflexivity|].
  rewrite IH. now destruct (key x =? k).
Qed.

Lemma NoDup_filter_key {A : Type} (key : A -> string) (l : list A) :
  NoDup (map key l) <->
  forall k, (List.length (filter (fun x => (key x =? k)%string) l) <= 1)%nat.
Proof.
  induction l as [|x l IH]; simpl.
  - split; [intros _ k; lia | constructor].
  - split.
    + intros H k. inversion H as [|? ? Hx Hl]; subst.
      destruct (String.eqb_spec (key x) k) as [<-|Hne]; [|now apply IH].
      destruct (filter (fun y => key y =? key x) l) as [|y ys] eqn:E; [simpl; lia|].
      exfalso. assert (Hy : In y (filter (fun y => key y =? key x) l))
        by (rewrite E; now left).
      apply filter_In in Hy as [Hy Hk]. apply String.eqb_eq in Hk.
      apply Hx. rewrite <- Hk. now apply in_map.
    + intros H. constructor.
      * intros Hin. apply in_map_iff in Hin as [y [Hy Hin]].
        specialize (H (key x)). rewrite String.eqb_refl in H. simpl in H.
        assert (Hf : In y (filter (fun z => key z =? key x) l)).
        { apply filter_In. split; [assumption|]. rewrite Hy. apply String.eqb_refl. }
        destruct (filter _ l); [destruct Hf | simpl in H; lia].
      * apply IH. intros k. specialize (H k).
        destruct (key x =? k); simpl in H; lia.
Qed.

End GroupFacts.

Module SolverConflictFacts.

Import Basics GroupFacts CPSATSolver.

Lemma groupConflicts_nil (type : ConflictType) (label : string)
  (groups : list (string * list ClassSchedule.t)) :
  groupConflicts type label groups = [] <->
  forall g, In g groups -> (List.length (snd g) <= 1)%nat.
Proof.
  unfold groupConflicts. rewrite flat_map_nil_iff. split; intros H g Hg.
  - specialize (H g Hg). destruct (snd g) as [|a [|b l]]; simpl; try lia. discriminate.
  - specialize (H g Hg). destruct (snd g) as [|a [|b l]]; simpl in *; try reflexivity. lia.
Qed.

Lemma grouped_by_key (key : ClassSchedule.t -> string) (schedule : list ClassSchedule.t) :
  let groups := fold_left (fun m cls => pushTo (key cls) cls m) schedule [] in
  (forall k g, In (k, g) groups <->
     g = filter (fun cls => key cls =? k) schedule /\ g <> [])
  /\ ((forall g, In g groups -> (List.length (snd g) <= 1)%nat) <->
      NoDup (map key schedule)).
Proof.
  intros groups.
  pose proof (filed_groups (fun cls => Some (key cls, cls)) schedule) as [_ H].
  change (fold_left (file (fun cls => Some (key cls, cls))) schedule []) with groups in H.
  assert (Hgroups : forall k g, In (k, g) groups <->
            g = filter (fun cls => key cls =? k) schedule /\ g <> []).
  { intros k g. rewrite H, filed_total. reflexivity. }
  split; [exact Hgroups|]. rewrite NoDup_filter_key. split.
  - intros Hg k. destruct (filter (fun x => key x =? k) schedule) as [|a l] eqn:E;
      [simpl; lia|].
    rewrite <- E. apply (Hg (k, filter (fun x => key x =? k) schedule)).
    apply Hgroups. split; [reflexivity | rewrite E; discriminate].
  - intros Hk [k g] Hg. apply Hgroups in Hg as [-> _]. apply Hk.
Qed.

(** The solver's [detectConflicts] finds nothing exactly when no two
    classes have the same room, day and start time key and no two the
    same teacher, day and start time key; only then is the solver's
    fitness 1000. A conflict it reports has severity high and names the
    two or more classes of the schedule that share the key. *)
Theorem solver_conflicts_are_shared_keys (schedule : list ClassSchedule.t) :
  (detectConflicts schedule = [] <->
   NoDup (map roomTimeKey schedule) /\ NoDup (map teacherTimeKey schedule))
  /\ (calculateFitness schedule == 1000 <-> detectConflicts schedule = [])
  /\ (forall c, In c (detectConflicts schedule) ->
        Conflict.severity c = high
        /\ (2 <= List.length (Conflict.classes c))%nat
        /\ exists k,
             Conflict.type c = room_conflict
             /\ Conflict.classes c
                = map ClassSchedule.id (filter (fun cls => roomTimeKey cls =? k) schedule)
             \/ Conflict.type c = teacher_conflict
                /\ Conflict.classes c
                   = map ClassSchedule.id
                       (filter (fun cls => teacherTimeKey cls =? k) schedule)).
Proof.
  assert (Hfit : calculateFitness schedule == 1000 <-> detectConflicts schedule = []).
  { unfold calculateFitness. generalize (detectConflicts schedule). intros conflicts.
    split.
    + destruct conflicts as [|c l]; [reflexivity|]. intros H. exfalso.
      assert (Hlt : Qmax (1000 - size (c :: l) * 50) 0 < 1000).
      { apply Q.max_lub_lt; [|reflexivity].
        unfold size. cbn [List.length Z.of_nat].
        unfold Qlt, Qminus, Qplus, Qmult, Qopp, inject_Z. cbn [Qnum Qden]. lia. }
      rewrite H in Hlt. now apply Qlt_irrefl in Hlt.
    + intros ->. reflexivity. }
  assert (Heq : detectConflicts schedule
                = groupConflicts room_conflict "Room conflict at "
                    (fold_left (fun m cls => pushTo (roomTimeKey cls) cls m) schedule [])
                  ++ groupConflicts teacher_conflict "Teacher conflict at "
                       (fold_left (fun m cls => pushTo (teacherTimeKey cls) cls m)
                          schedule [])) by reflexivity.
  rewrite Heq in *. clear Heq.
  destruct (grouped_by_key roomTimeKey schedule) as [Hr1 Hr2].
  destruct (grouped_by_key teacherTimeKey schedule) as [Ht1 Ht2].
  set (rooms := fold_left (fun m cls => pushTo (roomTimeKey cls) cls m) schedule []) in *.
  set (teachers := fold_left (fun m cls => pushTo (teacherTimeKey cls) cls m) schedule [])
    in *.
  assert (Hnil : groupConflicts room_conflict "Room conflict at " rooms
                 ++ groupConflicts teacher_conflict "Teacher conflict at " teachers = []
                 <-> NoDup (map roomTimeKey schedule)
                     /\ NoDup (map teacherTimeKey schedule)).
  { rewrite <- Hr2, <- Ht2, <- !groupConflicts_nil. split.
    - apply app_eq_nil.
    - intros [-> ->]. reflexivity. }
  split; [exact Hnil|]. split; [exact Hfit|].
  assert (Hgroup : forall type label key groups c,
              (forall k g, In (k, g) groups <->
                 g = filter (fun cls => key cls =? k) schedule /\ g <> []) ->
              In c (groupConflicts type label groups) ->
              Conflict.severity c = high
              /\ (2 <= List.length (Conflict.classes c))%nat
              /\ Conflict.type c = type
              /\ exists k, Conflict.classes c
                           = map ClassSchedule.id
                               (filter (fun cls => key cls =? k) schedule)).
    { intros type label key groups c Hgroups Hc. unfold groupConflicts in Hc.
      apply in_flat_map in Hc as [[k g] [Hg Hc]]. simpl in Hc.
      apply Hgroups in Hg as [Hg _].
      destruct g as [|a [|b g]]; [destruct Hc | destruct Hc |].
      destruct Hc as [<- | []]. simpl.
      repeat split; [lia|]. exists k. now rewrite <- Hg. }
    intros c Hc. apply in_app_or in Hc as [Hc | Hc].
    + destruct (Hgroup _ _ _ _ _ Hr1 Hc) as [H1 [H2 [H3 [k H4]]]].
      repeat split; try assumption. exists k. left. now split.
    + destruct (Hgroup _ _ _ _ _ Ht1 Hc) as [H1 [H2 [H3 [k H4]]]].
      repeat split; try assumption. exists k. right. now split.
Qed.

End SolverConflictFacts.

Module PropagationFacts.

Import Basics CPSATSolver.

Section Facts.

Variable courses : list Course.t.
Variable teachers : list Teacher.t.
Variable rooms : list Room.t.
Variable timeSlots : list TimeSlot.t.
Variable constraints : TimetableConstraints.t.
Variable subjects : list Subject.t.
Variable parseDate : string -> option Z.
Variable ln : Z -> Q.
Variable stamp : nat -> string.

Abbreviation solve :=
  (CPSATSolver.solve courses teachers rooms timeSlots constraints subjects parseDate ln
     stamp).
Abbreviation solveWithRelaxedConstraints :=
  (CPSATSolver.solveWithRelaxedConstraints courses teachers rooms timeSlots constraints
     parseDate ln stamp).
Abbreviation initialVariables :=
  (CPSATSolver.initializeVariables courses teachers rooms timeSlots constraints subjects
     parseDate).
Abbreviation resultFor := (CPSATSolver.resultFor rooms timeSlots).

Lemma set_In_cases {A : Type} (key : string) (x : A) (m : list (string * A))
  (entry : string * A) :
  In entry (set key x m) -> entry = (key, x) \/ In entry m.
Proof.
  induction m as [|[k v] m IH]; simpl.
  - intros [<- | []]. now left.
  - destruct (String.eqb_spec k key) as [->|Hne]; simpl.
    + intros [<- | H]; [now left | right; now right].
    + intros [<- | H]; [right; now left|].
      destruct (IH H) as [? | ?]; [now left | right; now right].
Qed.

(** *** What a pass of the propagation keeps *)

Section Kept.

(** A property of stored variables that disabling a variable keeps. *)
Variable P : string * CspVariable.t -> Prop.
Hypothesis disable_keeps : forall k v, P (k, disable v).

Lemma disablePeer_kept only varId vars changed :
  (forall entry, In entry vars -> P entry) ->
  forall entry, In entry (fst (disablePeer only (vars, changed) varId)) -> P entry.
Proof.
  intros Hvars entry. unfold disablePeer.
  destruct (negb (varId =? only)); [|apply Hvars].
  destruct (lookup vars varId) as [v|]; [|apply Hvars]. simpl.
  intros H. apply set_In_cases in H as [-> | H]; [apply disable_keeps | auto].
Qed.

Lemma propagateConstraint_kept constraint vars :
  (forall entry, In entry vars -> P entry) ->
  forall entry, In entry (snd (fst (propagateConstraint constraint vars))) -> P entry.
Proof.
  intros Hvars. unfold propagateConstraint.
  destruct (isResourceConflict constraint); [|exact Hvars].
  destruct (activeVariables vars constraint) as [|only [|]]; try exact Hvars.
  assert (Hfold : forall ids st, (forall entry, In entry (fst st) -> P entry) ->
            forall entry, In entry (fst (fold_left (disablePeer only) ids st)) -> P entry).
  { induction ids as [|x ids IH]; intros [vs ch] Hst; simpl; [exact Hst|].
    apply IH. now apply disablePeer_kept. }
  specialize (Hfold (CspConstraint.variables constraint) (vars, false) Hvars).
  destruct (fold_left _ _ _) as [vars' changed]. exact Hfold.
Qed.

Lemma propagateAll_kept todo : forall vars changed,
  (forall entry, In entry vars -> P entry) ->
  forall entry, In entry (snd (fst (propagateAll todo vars changed))) -> P entry.
Proof.
  induction todo as [|constraint todo IH]; intros vars changed Hvars; simpl;
    [exact Hvars|].
  pose proof (propagateConstraint_kept constraint vars Hvars) as H1.
  destruct (propagateConstraint constraint vars) as [[constraint' vars'] changedHere].
  pose proof (IH vars' (if changedHere then true else changed) H1) as H2.
  destruct (propagateAll todo vars' _) as [[done vars''] changed']. exact H2.
Qed.

End Kept.

Lemma propagateAll_constraints todo : forall vars changed,
  map sameConstraint (fst (fst (propagateAll todo vars changed)))
  = map sameConstraint todo.
Proof.
  induction todo as [|constraint todo IH]; intros vars changed; simpl; [reflexivity|].
  assert (H1 : sameConstraint (fst (fst (propagateConstraint constraint vars)))
               = sameConstraint constraint).
  { unfold propagateConstraint. destruct (isResourceConflict constraint); [|reflexivity].
    destruct (activeVariables vars constraint) as [|only [|]]; try reflexivity.
    destruct (fold_left _ _ _). reflexivity. }
  destruct (propagateConstraint constraint vars) as [[constraint' vars'] changedHere].
  specialize (IH vars' (if changedHere then true else changed)).
  destruct (propagateAll todo vars' _) as [[done vars''] changed'].
  simpl in *. now rewrite H1, IH.
Qed.

Lemma propagationLoop_spec (vars0 : Variables) passes : forall constraintList vars,
  (forall entry, In entry vars ->
     In entry vars0 /\ (CspVariable.domain (snd entry) = true \/ (0 < passes)%nat)) ->
  let r := propagationLoop passes constraintList vars in
  (forall entry, In entry (snd r) ->
     In entry vars0 /\ CspVariable.domain (snd entry) = true)
  /\ map sameConstraint (fst r) = map sameConstraint constraintList.
Proof.
  induction passes as [|passes IH]; intros constraintList vars Hvars; cbn [propagationLoop].
  - split; [|reflexivity]. intros entry He. destruct (Hvars entry He) as [H1 [H2 | H2]];
      [now split | lia].
  - pose proof (propagateAll_kept
                  (fun entry => In entry vars0 \/ CspVariable.domain (snd entry) = false)
                  (fun k v => or_intror eq_refl) constraintList vars false) as H1.
    pose proof (propagateAll_constraints constraintList vars false) as H2.
    destruct (propagateAll constraintList vars false) as [[cs' vars'] changed].
    simpl in H1, H2. unfold removeInconsistent.
    assert (Hgood : forall entry,
              In entry (filter (fun entry => CspVariable.domain (snd entry)) vars') ->
              In entry vars0 /\ CspVariable.domain (snd entry) = true).
    { intros entry He. apply filter_In in He as [He Hd]. split; [|assumption].
      destruct (H1 (fun e H => or_introl (proj1 (Hvars e H))) entry He) as [H | H];
        [assumption | congruence]. }
    destruct (if forallb _ vars' then changed else true).
    + destruct (IH cs' (filter (fun entry => CspVariable.domain (snd entry)) vars'))
        as [H3 H4].
      * intros entry He. destruct (Hgood entry He). auto.
      * split; [exact H3 | congruence].
    + split; [exact Hgood | exact H2].
Qed.

(** Propagation only removes variables: a variable it keeps is a stored
    variable that was a candidate before, unchanged; and it changes no
    constraint but for its flag [satisfied]. *)
Theorem propagation_only_removes (constraintList : list CspConstraint.t)
  (vars : Variables) :
  let r := constraintPropagation constraintList vars in
  (forall entry, In entry (snd r) ->
     In entry vars /\ CspVariable.domain (snd entry) = true)
  /\ map sameConstraint (fst r) = map sameConstraint constraintList.
Proof.
  apply propagationLoop_spec. intros entry He. split; [assumption|]. right. lia.
Qed.

(** *** Nothing to select *)

Lemma no_candidate_no_variable (constraintList : list CspConstraint.t) (vars : Variables) :
  (forall entry, In entry vars -> CspVariable.domain (snd entry) = false) ->
  snd (constraintPropagation constraintList vars) = [].
Proof.
  intros Hvars.
  destruct (propagationLoop_spec vars 100 constraintList vars) as [H _].
  { intros entry He. split; [assumption|]. right. lia. }
  unfold constraintPropagation.
  destruct (snd (propagationLoop 100 constraintList vars)) as [|entry l]; [reflexivity|].
  destruct (H entry (or_introl eq_refl)) as [H1 H2]. rewrite (Hvars entry H1) in H2.
  discriminate.
Qed.

Lemma solve_without_candidates :
  (forall entry, In entry initialVariables -> CspVariable.domain (snd entry) = false) ->
  solve = Returned solveWithRelaxedConstraints.
Proof.
  intros Hvars. unfold CPSATSolver.solve.
  pose proof (no_candidate_no_variable (initializeConstraints initialVariables)
                initialVariables Hvars) as H.
  destruct (constraintPropagation _ _) as [constraintList vars]. simpl in H. subst vars.
  unfold backtrackingSearch. cbn [map filter List.length backtrack].
  destruct (isAssignmentComplete courses subjects [] []) eqn:E; [|reflexivity].
  apply SolverFacts.isAssignmentComplete_threshold in E.
  unfold assignedSubjects in E. cbn [fold_left List.length Z.of_nat] in E. lia.
Qed.

End Facts.

(** Without any subject [solve] makes no variable, the search has nothing
    to select and covers nothing, and the result is that of the greedy
    fallback, whatever the courses, teachers, rooms and time slots are. *)
Theorem solve_without_subjects_falls_back (courses : list Course.t)
  (teachers : list Teacher.t) (rooms : list Room.t) (timeSlots : list TimeSlot.t)
  (constraints : TimetableConstraints.t) (parseDate : string -> option Z) (ln : Z -> Q)
  (stamp : nat -> string) :
  initializeVariables courses teachers rooms timeSlots constraints [] parseDate = []
  /\ solve courses teachers rooms timeSlots constraints [] parseDate ln stamp
     = Returned
         (solveWithRelaxedConstraints courses teachers rooms timeSlots constraints
            parseDate ln stamp).
Proof.
  assert (H : initializeVariables courses teachers rooms timeSlots constraints []
                parseDate = []).
  { unfold initializeVariables.
    replace (flat_map _ courses) with (@nil CspVariable.t); [reflexivity|].
    symmetry. apply flat_map_nil_iff. intros course _.
    destruct (Course.sections course) as [[|s ss]|]; try reflexivity.
    apply flat_map_nil_iff. intros section _. reflexivity. }
  split; [exact H|]. apply solve_without_candidates. rewrite H. intros entry [].
Qed.

End PropagationFacts.

Module FallbackFacts.

Import Basics CPSATSolver.

Section Facts.

Variable courses : list Course.t.
Variable teachers : list Teacher.t.
Variable rooms : list Room.t.
Variable timeSlots : list TimeSlot.t.
Variable constraints : TimetableConstraints.t.
Variable parseDate : string -> option Z.
Variable ln : Z -> Q.
Variable stamp : nat -> string.

Abbreviation availableAssignments := (CPSATSolver.availableAssignments rooms timeSlots stamp).
Abbreviation findBestAssignment :=
  (CPSATSolver.findBestAssignment rooms timeSlots constraints parseDate stamp).
Abbreviation placeSessions :=
  (CPSATSolver.placeSessions rooms timeSlots constraints parseDate stamp).
Abbreviation generateConstraintBasedSchedule :=
  (CPSATSolver.generateConstraintBasedSchedule courses teachers rooms timeSlots constraints
     parseDate ln stamp).

Abbreviation offered := (CPSATSolver.offered rooms timeSlots).

Lemma RoomType_eqb_eq (a b : RoomType) : RoomType_eqb a b = true <-> a = b.
Proof. destruct a, b; simpl; split; congruence. Qed.

Lemma includes_In (l : list string) (k : string) : includes l k = true <-> In k l.
Proof. apply has_true_iff. Qed.

Lemma availableAssignments_offered course teacher roomUsage teacherUsage n a :
  In a (fst (availableAssignments course teacher roomUsage teacherUsage n)) ->
  offered course teacher roomUsage teacherUsage a.
Proof.
  unfold CPSATSolver.availableAssignments.
  set (pairs := flat_map _ rooms).
  assert (Hpairs : forall room timeSlot, In (room, timeSlot) pairs ->
            In room rooms /\ In timeSlot timeSlots
            /\ Room.type room = Course.roomType course
            /\ (Course.studentsCount course <= Room.capacity room)%Z
            /\ (forall eq, In eq (Course.requiredEquipment course) ->
                  In eq (Room.equipment room))).
  { intros room timeSlot H. unfold pairs in H. apply in_flat_map in H as [r [Hr H]].
    destruct (negb (RoomType_eqb (Room.type r) (Course.roomType course))) eqn:Et;
      [destruct H|].
    destruct (Room.capacity r <? Course.studentsCount course)%Z eqn:Ec; [destruct H|].
    simpl in H.
    destruct (forallb (includes (Room.equipment r)) (Course.requiredEquipment course))
      eqn:Ee; [|destruct H].
    simpl in H. apply in_map_iff in H as [ts [[= <- <-] Hts]].
    apply negb_false_iff, RoomType_eqb_eq in Et. apply Z.ltb_ge in Ec.
    repeat split; try assumption.
    intros eq Heq. rewrite forallb_forall in Ee. apply includes_In. now apply Ee. }
  clearbody pairs.
  assert (Hfold : forall st,
            (forall a, In a (fst st) -> offered course teacher roomUsage teacherUsage a) ->
            forall a,
              In a (fst (fold_left
                           (fun (st : list ClassSchedule.t * nat) (rt : Room.t * TimeSlot.t) =>
                              let '(room, timeSlot) := rt in
                              if negb (teacherAvailableAt teacher timeSlot) then st
                              else
                                let roomTimeKey :=
                                  Room.id room +++ "_" +++ TimeSlot.day timeSlot +++ "_"
                                  +++ TimeSlot.startTime timeSlot in
                                let teacherTimeKey :=
                                  Teacher.id teacher +++ "_" +++ TimeSlot.day timeSlot +++ "_"
                                  +++ TimeSlot.startTime timeSlot in
                                let roomAvailable :=
                                  negb (match lookup roomUsage (Room.id room) with
                                        | Some used => has used roomTimeKey
                                        | None => false
                                        end) in
                                let teacherTimeAvailable :=
                                  negb (match lookup teacherUsage (Teacher.id teacher) with
                                        | Some used => has used teacherTimeKey
                                        | None => false
                                        end) in
                                if roomAvailable && teacherTimeAvailable then
                                  (fst st
                                   ++ [ClassSchedule.mk (Course.id course +++ "_" +++ stamp (snd st))
                                         (Course.id course) None None None (Teacher.id teacher)
                                         (Room.id room) (TimeSlot.id timeSlot)
                                         (TimeSlot.day timeSlot) (TimeSlot.startTime timeSlot)
                                         (TimeSlot.endTime timeSlot)],
                                   S (snd st))
                                else st)
                           pairs st)) ->
              offered course teacher roomUsage teacherUsage a).
  { induction pairs as [|[room timeSlot] pairs IH]; intros st Hst; [exact Hst|].
    cbn [fold_left]. apply IH; [intros r t H; apply Hpairs; now right|].
    destruct (teacherAvailableAt teacher timeSlot) eqn:Ea; [|exact Hst]. cbn [negb].
    cbv zeta.
    destruct (lookup roomUsage (Room.id room)) as [usedR|] eqn:Er;
      destruct (lookup teacherUsage (Teacher.id teacher)) as [usedT|] eqn:Et;
      cbn [negb andb];
      try destruct (has usedR _) eqn:Ehr; try destruct (has usedT _) eqn:Eht;
      cbn [negb andb]; try exact Hst;
      (intros a' Ha'; cbn [fst] in Ha'; apply in_app_or in Ha' as [Ha' | [<- | []]];
       [now apply Hst|];
       destruct (Hpairs room timeSlot (or_introl eq_refl)) as [H1 [H2 [H3 [H4 H5]]]];
       exists room, timeSlot; cbn;
       repeat split; try assumption; try reflexivity;
       intros used Hu; first [rewrite Er in Hu | rewrite Et in Hu];
       first [discriminate | injection Hu as <-; first [exact Ehr | exact Eht]]). }
  apply Hfold. intros a' [].
Qed.

Lemma findBestAssignment_offered course teacher roomUsage teacherUsage n a n' :
  findBestAssignment course teacher roomUsage teacherUsage n = (Some a, n') ->
  offered course teacher roomUsage teacherUsage a.
Proof.
  unfold CPSATSolver.findBestAssignment.
  pose proof (availableAssignments_offered course teacher roomUsage teacherUsage n) as H.
  destruct (availableAssignments course teacher roomUsage teacherUsage n)
    as [available m]. simpl in H.
  destruct available as [|firstAvailable rest]; [discriminate|].
  destruct (filter _ (firstAvailable :: rest)) as [|preferred ?] eqn:E.
  - intros [= <- _]. apply H. now left.
  - intros [= <- _]. apply H.
    assert (Hin : In preferred (filter
              (fun assignment =>
                 inPreferredWindow constraints parseDate
                   (ClassSchedule.startTime assignment))
              (firstAvailable :: rest))) by (rewrite E; now left).
    now apply filter_In in Hin as [Hin _].
Qed.

(** *** A property of the greedy state that every placement keeps *)

Section Kept.

Variable Inv : Greedy -> Prop.

Hypothesis place_keeps : forall course teacher g a n,
  In course courses ->
  find (fun t => Teacher.id t =? Course.teacherId course) teachers = Some teacher ->
  Inv g ->
  offered course teacher (roomTimeSlotUsage g) (teacherTimeSlotUsage g) a ->
  Inv (mkGreedy (g_schedule g ++ [a])
         (addTo (ClassSchedule.roomId a) (roomTimeKey a) (roomTimeSlotUsage g))
         (addTo (ClassSchedule.teacherId a) (teacherTimeKey a) (teacherTimeSlotUsage g))
         n).

Hypothesis ids_keep : forall g n,
  Inv g -> Inv (mkGreedy (g_schedule g) (roomTimeSlotUsage g) (teacherTimeSlotUsage g) n).

Lemma placeSessions_kept sessions : forall course teacher g,
  In course courses ->
  find (fun t => Teacher.id t =? Course.teacherId course) teachers = Some teacher ->
  Inv g -> Inv (placeSessions sessions course teacher g).
Proof.
  induction sessions as [|sessions IH]; intros course teacher g Hc Ht Hg;
    cbn [CPSATSolver.placeSessions]; [assumption|].
  pose proof (findBestAssignment_offered course teacher (roomTimeSlotUsage g)
                (teacherTimeSlotUsage g) (idsMade g)) as Hf.
  destruct (findBestAssignment course teacher (roomTimeSlotUsage g)
              (teacherTimeSlotUsage g) (idsMade g)) as [[a|] n].
  - apply IH; try assumption. apply place_keeps with (course := course) (teacher := teacher);
      try assumption. now apply (Hf a n).
  - apply IH; try assumption. now apply ids_keep.
Qed.

Lemma fallback_kept :
  Inv (mkGreedy [] [] [] O) ->
  exists g, Inv g /\ generateConstraintBasedSchedule = g_schedule g.
Proof.
  intros H0. unfold CPSATSolver.generateConstraintBasedSchedule.
  set (sorted := sortBy _ courses).
  assert (Hsorted : forall c, In c sorted -> In c courses)
    by (intros c Hc; now apply sortBy_In in Hc).
  clearbody sorted. revert H0. generalize (mkGreedy [] [] [] 0).
  induction sorted as [|course sorted IH]; intros g Hg; cbn [fold_left].
  - exists g. now split.
  - apply IH; [intros c Hc; apply Hsorted; now right|].
    destruct (find _ teachers) as [teacher|] eqn:Et; [|assumption].
    apply placeSessions_kept; try assumption. apply Hsorted. now left.
Qed.

End Kept.

Lemma lookup_addTo_same (k x : string) (m : list (string * list string)) :
  exists l, lookup (addTo k x m) k = Some l /\ has l x = true
            /\ forall l0, lookup m k = Some l0 -> forall y, has l0 y = true -> has l y = true.
Proof.
  induction m as [|[k0 l0] m IH]; simpl.
  - rewrite String.eqb_refl. exists [x]. split; [reflexivity|]. split.
    + simpl. now rewrite String.eqb_refl.
    + discriminate.
  - destruct (String.eqb_spec k0 k) as [->|Hne]; simpl.
    + rewrite String.eqb_refl. exists (add l0 x). split; [reflexivity|]. split.
      * apply has_add_intro. now right.
      * intros l1 [= <-] y Hy. apply has_add_intro. now left.
    + destruct (String.eqb_spec k0 k); [contradiction|]. exact IH.
Qed.

Lemma lookup_addTo_other (k x k' : string) (m : list (string * list string)) :
  k' <> k -> lookup (addTo k x m) k' = lookup m k'.
Proof.
  intros Hk. induction m as [|[k0 l0] m IH]; simpl.
  - destruct (String.eqb_spec k k'); [congruence | reflexivity].
  - destruct (String.eqb_spec k0 k) as [->|Hne]; simpl.
    + destruct (String.eqb_spec k k'); [congruence | reflexivity].
    + now rewrite IH.
Qed.

(** A key stays recorded when another key is recorded. *)
Lemma recorded_addTo (k x k' y : string) (m : list (string * list string)) :
  (exists used, lookup m k' = Some used /\ has used y = true) ->
  exists used, lookup (addTo k x m) k' = Some used /\ has used y = true.
Proof.
  intros [used [H1 H2]]. destruct (String.eqb_spec k' k) as [->|Hne].
  - destruct (lookup_addTo_same k x m) as [l [H3 [_ H4]]]. exists l. eauto.
  - exists used. now rewrite lookup_addTo_other.
Qed.

Lemma recorded_new (k x : string) (m : list (string * list string)) :
  exists used, lookup (addTo k x m) k = Some used /\ has used x = true.
Proof. destruct (lookup_addTo_same k x m) as [l [H1 [H2 _]]]. eauto. Qed.

Abbreviation roomDayStart := HybridOptimizer.roomDayStart.
Abbreviation teacherDayStart := HybridOptimizer.teacherDayStart.

(** The greedy fallback never books a room twice, nor a teacher twice, for
    the same day and start time. *)
Theorem fallback_never_double_books :
  NoDup (map roomDayStart generateConstraintBasedSchedule)
  /\ NoDup (map teacherDayStart generateConstraintBasedSchedule).
Proof.
  destruct (fallback_kept
              (fun g =>
                 (forall c, In c (g_schedule g) ->
                    (exists used, lookup (roomTimeSlotUsage g) (ClassSchedule.roomId c)
                                  = Some used
                                  /\ has used (roomTimeKey c) = true)
                    /\ (exists used, lookup (teacherTimeSlotUsage g)
                                       (ClassSchedule.teacherId c) = Some used
                                     /\ has used (teacherTimeKey c) = true))
                 /\ NoDup (map roomDayStart (g_schedule g))
                 /\ NoDup (map teacherDayStart (g_schedule g))))
    as [g [[_ H] ->]]; [| |now split; [intros c [] | split; constructor] | exact H].
  - intros course teacher g a n _ _ [Hrec [Hr Ht]] Hoff. cbn [g_schedule
      roomTimeSlotUsage teacherTimeSlotUsage].
    destruct Hoff as [room [timeSlot [_ [_ [_ [_ [_ [_ [Hfr [Hft [_ [Hat [Har _]]]]]]]]]]]]].
    split; [|split].
    + intros c Hc. apply in_app_or in Hc as [Hc | [<- | []]].
      * destruct (Hrec c Hc) as [H1 H2]. split; now apply recorded_addTo.
      * split; apply recorded_new.
    + rewrite map_app. apply NoDup_snoc; [assumption|]. intros Hin.
      apply in_map_iff in Hin as [c [Hkey Hc]].
      destruct (Hrec c Hc) as [[used [H1 H2]] _].
      injection Hkey as E1 E2 E3.
      rewrite E1, Har in H1. specialize (Hfr used H1).
      unfold roomTimeKey in H2, Hfr. rewrite E1, E2, E3 in H2. congruence.
    + rewrite map_app. apply NoDup_snoc; [assumption|]. intros Hin.
      apply in_map_iff in Hin as [c [Hkey Hc]].
      destruct (Hrec c Hc) as [_ [used [H1 H2]]].
      injection Hkey as E1 E2 E3.
      rewrite E1, Hat in H1. specialize (Hft used H1).
      unfold teacherTimeKey in H2, Hft. rewrite E1, E2, E3 in H2. congruence.
  - intros g n H. exact H.
Qed.

(** Every class of the greedy fallback is a session of a listed course,
    given by the first teacher whose id is the course's [teacherId], in a
    listed room of the course's room type that holds all its students and
    has all its required equipment, in a listed time slot in which that
    teacher is available. *)
Theorem fallback_respects_rooms_and_availability (c : ClassSchedule.t) :
  In c generateConstraintBasedSchedule ->
  exists course teacher room timeSlot,
    In course courses
    /\ find (fun t => Teacher.id t =? Course.teacherId course) teachers = Some teacher
    /\ In room rooms /\ In timeSlot timeSlots
    /\ Room.type room = Course.roomType course
    /\ (Course.studentsCount course <= Room.capacity room)%Z
    /\ (forall eq, In eq (Course.requiredEquipment course) -> In eq (Room.equipment room))
    /\ teacherAvailableAt teacher timeSlot = true
    /\ ClassSchedule.courseId c = Course.id course
    /\ ClassSchedule.teacherId c = Teacher.id teacher
    /\ ClassSchedule.roomId c = Room.id room
    /\ ClassSchedule.timeSlotId c = TimeSlot.id timeSlot
    /\ ClassSchedule.day c = TimeSlot.day timeSlot
    /\ ClassSchedule.startTime c = TimeSlot.startTime timeSlot
    /\ ClassSchedule.endTime c = TimeSlot.endTime timeSlot.
Proof.
  destruct (fallback_kept
              (fun g =>
                 forall c, In c (g_schedule g) ->
                   exists course teacher room timeSlot,
                     In course courses
                     /\ find (fun t => Teacher.id t =? Course.teacherId course) teachers
                        = Some teacher
                     /\ In room rooms /\ In timeSlot timeSlots
                     /\ Room.type room = Course.roomType course
                     /\ (Course.studentsCount course <= Room.capacity room)%Z
                     /\ (forall eq, In eq (Course.requiredEquipment course) ->
                           In eq (Room.equipment room))
                     /\ teacherAvailableAt teacher timeSlot = true
                     /\ ClassSchedule.courseId c = Course.id course
                     /\ ClassSchedule.teacherId c = Teacher.id teacher
                     /\ ClassSchedule.roomId c = Room.id room
                     /\ ClassSchedule.timeSlotId c = TimeSlot.id timeSlot
                     /\ ClassSchedule.day c = TimeSlot.day timeSlot
                     /\ ClassSchedule.startTime c = TimeSlot.startTime timeSlot
                     /\ ClassSchedule.endTime c = TimeSlot.endTime timeSlot))
    as [g [H ->]]; [| |intros c' [] | apply H].
  - intros course teacher g a n Hc Ht Hg Hoff c' Hc'. cbn [g_schedule] in Hc'.
    apply in_app_or in Hc' as [Hc' | [<- | []]]; [now apply Hg|].
    destruct Hoff as [room [timeSlot [H1 [H2 [H3 [H4 [H5 [H6 [_ [_ H7]]]]]]]]]].
    exists course, teacher, room, timeSlot. repeat split; try assumption; apply H7.
  - intros g n H. exact H.
Qed.

End Facts.

(** The fallback on [Inputs.taughtCourse]: its first class is on Monday
    at ten, in room r1, with teacher t1. *)
Lemma fallback_respects_rooms_and_availability_witness :
  exists course teacher room timeSlot,
    In course Inputs.taughtCourse
    /\ find (fun t => Teacher.id t =? Course.teacherId course) Inputs.twoTeachers
       = Some teacher
    /\ In room Inputs.oneRoom /\ In timeSlot Inputs.separateSlots
    /\ Room.type room = Course.roomType course
    /\ (Course.studentsCount course <= Room.capacity room)%Z
    /\ (forall eq, In eq (Course.requiredEquipment course) -> In eq (Room.equipment room))
    /\ teacherAvailableAt teacher timeSlot = true
    /\ "c1" = Course.id course
    /\ "t1" = Teacher.id teacher
    /\ "r1" = Room.id room
    /\ "mon-10-40min" = TimeSlot.id timeSlot
    /\ "Monday" = TimeSlot.day timeSlot
    /\ "10:00" = TimeSlot.startTime timeSlot
    /\ "10:40" = TimeSlot.endTime timeSlot.
Proof.
  apply (fallback_respects_rooms_and_availability Inputs.taughtCourse Inputs.twoTeachers
           Inputs.oneRoom Inputs.separateSlots Inputs.noConstraints Runtime.isoDate
           (fun _ => 0) (fun _ => "now")
           (ClassSchedule.mk "c1_now" "c1" None None None "t1" "r1" "mon-10-40min"
              "Monday" "10:00" "10:40")).
  vm_compute. left. reflexivity.
Defined.

End FallbackFacts.

Module SearchFacts.

Import Basics GroupFacts CPSATSolver.

(** *** Maps of the search *)

Lemma set_absent {A : Type} (key : string) (v : A) (m : list (string * A)) :
  lookup m key = None -> set key v m = m ++ [(key, v)].
Proof.
  induction m as [|[k v0] m IH]; simpl; [reflexivity|].
  destruct (k =? key); [discriminate|]. intros H. now rewrite IH.
Qed.

Lemma set_last {A : Type} (key : string) (v v' : A) (m : list (string * A)) :
  lookup m key = None -> set key v' (m ++ [(key, v)]) = m ++ [(key, v')].
Proof.
  induction m as [|[k v0] m IH]; simpl.
  - now rewrite String.eqb_refl.
  - destruct (k =? key); [discriminate|]. intros H. now rewrite IH.
Qed.

Lemma delete_last {A : Type} (key : string) (v : A) (m : list (string * A)) :
  lookup m key = None -> delete key (m ++ [(key, v)]) = m.
Proof.
  induction m as [|[k v0] m IH]; simpl.
  - now rewrite String.eqb_refl.
  - destruct (k =? key); [discriminate|]. intros H. now rewrite IH.
Qed.

Lemma set_keys_In {A : Type} (key : string) (v : A) (m : list (string * A)) (k : string) :
  In k (map fst (set key v m)) <-> k = key \/ In k (map fst m).
Proof.
  induction m as [|[k0 v0] m IH]; simpl.
  - intuition.
  - destruct (String.eqb_spec k0 key) as [->|Hne]; simpl; [intuition|].
    rewrite IH. intuition.
Qed.

Lemma set_keys_NoDup {A : Type} (key : string) (v : A) (m : list (string * A)) :
  NoDup (map fst m) -> NoDup (map fst (set key v m)).
Proof.
  induction m as [|[k0 v0] m IH]; simpl.
  - intros _. constructor; [intros [] | constructor].
  - intros H. inversion H as [|? ? Hk Hm]; subst.
    destruct (String.eqb_spec k0 key) as [->|Hne]; simpl; [now constructor|].
    constructor; [|now apply IH].
    rewrite set_keys_In. intros [-> | Hin]; [now apply Hne | now apply Hk].
Qed.

Lemma lookup_of_In {A : Type} (m : list (string * A)) (k : string) (v : A) :
  NoDup (map fst m) -> In (k, v) m -> lookup m k = Some v.
Proof.
  induction m as [|[k0 v0] m IH]; simpl; [tauto|].
  intros H [[= -> ->] | Hin].
  - now rewrite String.eqb_refl.
  - inversion H as [|? ? Hk Hm]; subst.
    destruct (String.eqb_spec k0 k) as [->|Hne]; [|now apply IH].
    exfalso. apply Hk. apply in_map_iff. now exists (k, v).
Qed.

Lemma lookup_entry {A : Type} (m : list (string * A)) (k : string) (v : A) :
  lookup m k = Some v -> In (k, v) m.
Proof.
  induction m as [|[k0 v0] m IH]; simpl; [discriminate|].
  destruct (String.eqb_spec k0 k) as [->|Hne]; [intros [= ->]; now left | auto].
Qed.

Lemma two_members {A : Type} (l : list A) (x y : A) :
  In x l -> In y l -> x <> y -> exists a b r, l = a :: b :: r.
Proof.
  destruct l as [|a [|b r]]; simpl; [tauto| |eauto].
  intros [<- | []] [<- | []] H. now elim H.
Qed.

Lemma two_pass {A : Type} (p : A -> bool) (l : list A) (x y : A) :
  In x l -> In y l -> x <> y -> p x = true -> p y = true ->
  (2 <= List.length (filter p l))%nat.
Proof.
  intros Hx Hy Hne Px Py.
  destruct (two_members (filter p l) x y) as [a [b [r ->]]];
    [now apply filter_In | now apply filter_In | assumption | simpl; lia].
Qed.

Lemma NoDup_map_by {A B C : Type} (f : A -> B) (g : A -> C) (l : list A) :
  NoDup (map f l) ->
  (forall x y, In x l -> In y l -> f x <> f y -> g x <> g y) ->
  NoDup (map g l).
Proof.
  induction l as [|x l IH]; simpl; [constructor|].
  intros H Hg. inversion H as [|? ? Hx Hl]; subst. constructor.
  - intros Hin. apply in_map_iff in Hin as [y [Hy Hyl]].
    apply (Hg y x); auto. intros E. apply Hx. rewrite <- E. now apply in_map.
  - apply IH; auto.
Qed.

(** *** The constraints checked by the search *)

Section Facts.

Variable courses : list Course.t.
Variable teachers : list Teacher.t.
Variable rooms : list Room.t.
Variable timeSlots : list TimeSlot.t.
Variable constraints : TimetableConstraints.t.
Variable subjects : list Subject.t.
Variable parseDate : string -> option Z.
Variable ln : Z -> Q.
Variable stamp : nat -> string.

Abbreviation solve :=
  (CPSATSolver.solve courses teachers rooms timeSlots constraints subjects parseDate ln
     stamp).
Abbreviation solveWithRelaxedConstraints :=
  (CPSATSolver.solveWithRelaxedConstraints courses teachers rooms timeSlots constraints
     parseDate ln stamp).
Abbreviation initialVariables :=
  (CPSATSolver.initializeVariables courses teachers rooms timeSlots constraints subjects
     parseDate).
Abbreviation resultFor := (CPSATSolver.resultFor rooms timeSlots).
Abbreviation backtrackingSearch := (CPSATSolver.backtrackingSearch courses subjects).
Abbreviation assignmentToSchedule := (CPSATSolver.assignmentToSchedule timeSlots stamp).

Section Search.

Variable constraintList : list CspConstraint.t.
Variable vars : Variables.

Abbreviation checkConstraint := CPSATSolver.checkConstraint.
Abbreviation isConsistent := (CPSATSolver.isConsistent constraintList).
Abbreviation backtrack := (CPSATSolver.backtrack courses subjects constraintList vars).

Lemma checkConstraint_ext (c : CspConstraint.t) (a a' : Assignment) :
  (forall k, In k (CspConstraint.variables c) -> lookup a' k = lookup a k) ->
  checkConstraint c a' = checkConstraint c a.
Proof.
  intros H. unfold CPSATSolver.checkConstraint.
  destruct (isResourceConflict c); [|reflexivity].
  rewrite (SolverFacts.filter_ext_in_eq
             (fun varId => match lookup a' varId with Some true => true | _ => false end)
             (fun varId => match lookup a varId with Some true => true | _ => false end));
    [reflexivity|].
  intros k Hk. now rewrite H.
Qed.

Lemma consistent_all (a a' : Assignment) (variable : string) :
  (forall c, In c constraintList -> checkConstraint c a = true) ->
  (forall k, k <> variable -> lookup a' k = lookup a k) ->
  isConsistent a' variable = true ->
  forall c, In c constraintList -> checkConstraint c a' = true.
Proof.
  intros Hall Hagree Hcons c Hc.
  destruct (includes (CspConstraint.variables c) variable) eqn:E.
  - unfold CPSATSolver.isConsistent in Hcons. rewrite forallb_forall in Hcons.
    apply Hcons. apply filter_In. now split.
  - rewrite (checkConstraint_ext c a a'); [now apply Hall|].
    intros k Hk. apply Hagree. intros ->.
    apply has_true_iff in Hk. unfold includes in E. unfold has in Hk. congruence.
Qed.

Lemma lookup_set_set {A : Type} (m : list (string * A)) (key k : string) (v v' : A) :
  k <> key -> lookup (set key v' (set key v m)) k = lookup m k.
Proof.
  intros H. rewrite !SolverFacts.lookup_set_other; auto.
Qed.

(** A search that fails leaves the assignment as it found it; a search
    that succeeds leaves one that passes every constraint. *)
Lemma backtrack_sound fuel : forall a unassigned ok a',
  (forall c, In c constraintList -> checkConstraint c a = true) ->
  NoDup (map fst a) ->
  (forall v, In v unassigned -> lookup a v = None) ->
  backtrack fuel a unassigned = Some (ok, a') ->
  if ok then (forall c, In c constraintList -> checkConstraint c a' = true)
             /\ NoDup (map fst a')
  else a' = a.
Proof.
  induction fuel as [|fuel IH]; intros a unassigned ok a' Hall Hnd Hun.
  - destruct unassigned; simpl; [|discriminate]. intros [= <- <-].
    destruct (isAssignmentComplete _ _ _ _); auto.
  - destruct unassigned as [|first rest].
    { simpl. intros [= <- <-]. destruct (isAssignmentComplete _ _ _ _); auto. }
    cbn [CPSATSolver.backtrack].
    set (variable := chooseVariable constraintList first (first :: rest)).
    set (remaining := filter (fun v => negb (v =? variable)) (first :: rest)).
    assert (Hv : lookup a variable = None).
    { apply Hun. apply SolverFacts.chooseVariable_In. now left. }
    assert (Hrem : forall v, In v remaining -> v <> variable /\ lookup a v = None).
    { intros v Hin. apply filter_In in Hin as [Hin Hne]. split; [|now apply Hun].
      intros ->. now rewrite String.eqb_refl in Hne. }
    assert (H1 : set variable true a = a ++ [(variable, true)]) by now apply set_absent.
    assert (H2 : set variable false (set variable true a) = a ++ [(variable, false)]).
    { rewrite H1. now apply set_last. }
    assert (Hsecond :
              match
                (if isConsistent (set variable false (set variable true a)) variable
                 then backtrack fuel (set variable false (set variable true a)) remaining
                 else Some (false, set variable false (set variable true a)))
              with
              | Some (true, result0) => Some (true, result0)
              | Some (false, a2) => Some (false, delete variable a2)
              | None => None
              end = Some (ok, a') ->
              if ok then (forall c, In c constraintList -> checkConstraint c a' = true)
                         /\ NoDup (map fst a')
              else a' = a).
    { destruct (isConsistent (set variable false (set variable true a)) variable) eqn:Ec.
      - destruct (backtrack fuel (set variable false (set variable true a)) remaining)
          as [[[|] a2]|] eqn:E2; try discriminate.
        + intros [= <- <-].
          apply (IH _ _ true a2) in E2; [exact E2| | |].
          * apply (consistent_all a _ variable); auto.
            intros k Hk. now apply lookup_set_set.
          * now apply set_keys_NoDup, set_keys_NoDup.
          * intros v Hin. destruct (Hrem v Hin) as [Hne Hl].
            now rewrite lookup_set_set.
        + intros [= <- <-].
          apply (IH _ _ false a2) in E2.
          * subst a2. rewrite H2. now apply delete_last.
          * apply (consistent_all a _ variable); auto.
            intros k Hk. now apply lookup_set_set.
          * now apply set_keys_NoDup, set_keys_NoDup.
          * intros v Hin. destruct (Hrem v Hin) as [Hne Hl].
            now rewrite lookup_set_set.
      - intros [= <- <-]. rewrite H2. now apply delete_last. }
    destruct (isConsistent (set variable true a) variable) eqn:Ec.
    + destruct (backtrack fuel (set variable true a) _) as [[[|] a1]|] eqn:E1;
        try discriminate.
      * intros [= <- <-].
        apply (IH _ _ true a1) in E1; [exact E1| | |].
        -- apply (consistent_all a _ variable); auto.
           intros k Hk. now apply SolverFacts.lookup_set_other.
        -- now apply set_keys_NoDup.
        -- intros v Hin. apply filter_In in Hin as [Hin _].
           destruct (Hrem v Hin) as [Hne Hl].
           now rewrite SolverFacts.lookup_set_other.
      * apply (IH _ _ false a1) in E1.
        -- subst a1. apply Hsecond.
        -- apply (consistent_all a _ variable); auto.
           intros k Hk. now apply SolverFacts.lookup_set_other.
        -- now apply set_keys_NoDup.
        -- intros v Hin. apply filter_In in Hin as [Hin _].
           destruct (Hrem v Hin) as [Hne Hl].
           now rewrite SolverFacts.lookup_set_other.
    + apply Hsecond.
Qed.

End Search.

(** *** The conflict constraints cover every shared resource *)

Lemma fold_left_ext_eq {A B : Type} (f g : A -> B -> A) (l : list B) :
  (forall a x, f a x = g a x) -> forall a, fold_left f l a = fold_left g l a.
Proof.
  intros H. induction l as [|x l IH]; intros a; simpl; [reflexivity|].
  now rewrite H, IH.
Qed.

Lemma In_filed {X B : Type} (sel : X -> option (string * B)) (k : string) (l : list X)
  (x : X) (v : B) :
  In x l -> sel x = Some (k, v) -> In v (filed sel k l).
Proof.
  intros Hx Hs. unfold filed. apply in_flat_map. exists x. split; [assumption|].
  rewrite Hs, String.eqb_refl. now left.
Qed.

Lemma groupIds_spec (key : CspVariable.t -> string) (vars0 : Variables) (k : string)
  (g : list string) :
  In (k, g) (groupIds key vars0) <->
  g = filed (fun entry : string * CspVariable.t => Some (key (snd entry), fst entry)) k vars0
  /\ g <> [].
Proof.
  exact (proj2 (filed_groups
                  (fun entry : string * CspVariable.t => Some (key (snd entry), fst entry))
                  vars0) k g).
Qed.

Lemma groupIdsOf_spec (key : CspVariable.t -> string) (vars0 : Variables)
  (ids : list string) (k : string) (g : list string) :
  In (k, g) (groupIdsOf key vars0 ids) <->
  g = filed (fun varId => match lookup vars0 varId with
                          | Some variable => Some (key variable, varId)
                          | None => None
                          end) k ids
  /\ g <> [].
Proof.
  unfold groupIdsOf.
  rewrite (fold_left_ext_eq _
             (file (fun varId => match lookup vars0 varId with
                                 | Some variable => Some (key variable, varId)
                                 | None => None
                                 end))).
  - apply (proj2 (filed_groups _ ids)).
  - intros a x. unfold file. now destruct (lookup vars0 x).
Qed.

Lemma shared_group (key : CspVariable.t -> string) (prefix timeSlotKey : string)
  (vars0 : Variables) (ids : list string) (id1 id2 : string) (v1 v2 : CspVariable.t) :
  lookup vars0 id1 = Some v1 -> lookup vars0 id2 = Some v2 ->
  In id1 ids -> In id2 ids -> id1 <> id2 -> key v1 = key v2 ->
  exists c, In c (conflictConstraints prefix timeSlotKey (groupIdsOf key vars0 ids))
            /\ isResourceConflict c = true
            /\ In id1 (CspConstraint.variables c) /\ In id2 (CspConstraint.variables c).
Proof.
  intros L1 L2 H1 H2 Hne Hk.
  set (sel := fun varId => match lookup vars0 varId with
                           | Some variable => Some (key variable, varId)
                           | None => None
                           end).
  assert (G1 : In id1 (filed sel (key v1) ids)).
  { apply In_filed with (x := id1); [assumption|]. unfold sel. now rewrite L1. }
  assert (G2 : In id2 (filed sel (key v1) ids)).
  { apply In_filed with (x := id2); [assumption|]. unfold sel. now rewrite L2, Hk. }
  destruct (two_members _ _ _ G1 G2 Hne) as [a [b [r E]]].
  exists (CspConstraint.mk (prefix +++ key v1 +++ "_" +++ timeSlotKey) resource_conflict
            (filed sel (key v1) ids) false).
  split; [|now repeat split].
  unfold conflictConstraints. apply in_flat_map. exists (key v1, filed sel (key v1) ids).
  split.
  - apply groupIdsOf_spec. split; [reflexivity|]. fold sel. rewrite E. discriminate.
  - cbn [fst snd].
    destruct (filed sel (key v1) ids) as [|? [|? ?]];
      [discriminate E | discriminate E | now left].
Qed.

Lemma resource_constraint_covers (vars0 : Variables) (id1 id2 : string)
  (v1 v2 : CspVariable.t) :
  NoDup (map fst vars0) ->
  In (id1, v1) vars0 -> In (id2, v2) vars0 -> id1 <> id2 ->
  CspVariable.timeSlotId v1 = CspVariable.timeSlotId v2 ->
  CspVariable.teacherId v1 = CspVariable.teacherId v2
  \/ CspVariable.roomId v1 = CspVariable.roomId v2 ->
  exists c, In c (initializeConstraints vars0)
            /\ isResourceConflict c = true
            /\ In id1 (CspConstraint.variables c) /\ In id2 (CspConstraint.variables c).
Proof.
  intros Hnd H1 H2 Hne Hts Hres.
  set (sel := fun entry : string * CspVariable.t =>
                Some (CspVariable.timeSlotId (snd entry), fst entry)).
  set (ids := filed sel (CspVariable.timeSlotId v1) vars0).
  assert (G1 : In id1 ids) by now apply In_filed with (x := (id1, v1)).
  assert (G2 : In id2 ids).
  { apply In_filed with (x := (id2, v2)); [assumption|]. unfold sel. simpl. now rewrite Hts. }
  assert (Hg : In (CspVariable.timeSlotId v1, ids)
                 (groupIds CspVariable.timeSlotId vars0)).
  { apply groupIds_spec. split; [reflexivity|]. fold sel ids. intros E. now rewrite E in G1. }
  pose proof (lookup_of_In _ _ _ Hnd H1) as L1.
  pose proof (lookup_of_In _ _ _ Hnd H2) as L2.
  assert (H : exists c,
             In c (conflictConstraints "teacher_conflict_" (CspVariable.timeSlotId v1)
                     (groupIdsOf CspVariable.teacherId vars0 ids)
                   ++ conflictConstraints "room_conflict_" (CspVariable.timeSlotId v1)
                        (groupIdsOf CspVariable.roomId vars0 ids))
             /\ isResourceConflict c = true
             /\ In id1 (CspConstraint.variables c) /\ In id2 (CspConstraint.variables c)).
  { destruct Hres as [Hk | Hk].
    - destruct (shared_group CspVariable.teacherId "teacher_conflict_"
                  (CspVariable.timeSlotId v1) vars0 ids id1 id2 v1 v2 L1 L2 G1 G2 Hne Hk)
        as [c [Hc H]].
      exists c. split; [apply in_or_app; now left | exact H].
    - destruct (shared_group CspVariable.roomId "room_conflict_"
                  (CspVariable.timeSlotId v1) vars0 ids id1 id2 v1 v2 L1 L2 G1 G2 Hne Hk)
        as [c [Hc H]].
      exists c. split; [apply in_or_app; now right | exact H]. }
  destruct H as [c [Hc H]]. exists c. split; [|exact H].
  unfold initializeConstraints. apply in_or_app. left.
  unfold addResourceConflictConstraints. apply in_flat_map.
  exists (CspVariable.timeSlotId v1, ids). now split.
Qed.

Lemma initialVariables_keys : NoDup (map fst initialVariables).
Proof.
  unfold CPSATSolver.initializeVariables.
  generalize (flat_map
       (fun course =>
          match Course.sections course with
          | None | Some [] => []
          | Some sections =>
              flat_map
                (fun section =>
                   flat_map (candidateVariables teachers rooms timeSlots constraints
                               parseDate course section)
                     (filter (subjectWanted constraints course) subjects))
                sections
          end)
       courses).
  intros l. assert (H : NoDup (map fst (@nil (string * CspVariable.t)))) by constructor.
  revert H. generalize (@nil (string * CspVariable.t)).
  induction l as [|v l IH]; intros acc H; simpl; [assumption|].
  apply IH. now apply set_keys_NoDup.
Qed.

(** *** The classes made from an assignment *)

Lemma assignmentToSchedule_origin (vars : Variables) (assignment : Assignment) :
  NoDup (map fst assignment) ->
  exists L : list (string * CspVariable.t),
    NoDup (map fst L)
    /\ (forall p, In p L ->
          In (fst p, true) assignment /\ lookup vars (fst p) = Some (snd p))
    /\ map resources (assignmentToSchedule vars assignment)
       = map (fun p => (CspVariable.teacherId (snd p), CspVariable.roomId (snd p),
                        CspVariable.timeSlotId (snd p))) L.
Proof.
  unfold CPSATSolver.assignmentToSchedule.
  match goal with |- context [fold_left ?f _ _] => set (step := f) end.
  assert (H : forall l st, NoDup (map fst l) ->
            exists L : list (string * CspVariable.t),
              NoDup (map fst L)
              /\ (forall p, In p L ->
                    In (fst p, true) l /\ lookup vars (fst p) = Some (snd p))
              /\ map resources (fst (fold_left step l st))
                 = map resources (fst st)
                   ++ map (fun p => (CspVariable.teacherId (snd p),
                                     CspVariable.roomId (snd p),
                                     CspVariable.timeSlotId (snd p))) L).
  { induction l as [|[id b] l IH]; intros st Hnd.
    - exists []. simpl. rewrite app_nil_r.
      split; [constructor | split; [intros p [] | reflexivity]].
    - simpl in Hnd. inversion Hnd as [|? ? Hid Hl]; subst.
      destruct (IH (step st (id, b)) Hl) as [L [HL1 [HL2 HL3]]].
      cbn [fold_left]. rewrite HL3.
      assert (Hskip : fst (step st (id, b)) = fst st ->
                exists L0 : list (string * CspVariable.t),
                  NoDup (map fst L0)
                  /\ (forall p, In p L0 ->
                        In (fst p, true) ((id, b) :: l)
                        /\ lookup vars (fst p) = Some (snd p))
                  /\ map resources (fst (step st (id, b)))
                     ++ map (fun p => (CspVariable.teacherId (snd p),
                                       CspVariable.roomId (snd p),
                                       CspVariable.timeSlotId (snd p))) L
                     = map resources (fst st)
                       ++ map (fun p => (CspVariable.teacherId (snd p),
                                         CspVariable.roomId (snd p),
                                         CspVariable.timeSlotId (snd p))) L0).
      { intros E. exists L. rewrite E. split; [assumption | split; [|reflexivity]].
        intros p Hp. split; [right; now apply HL2 | now apply HL2]. }
      unfold step at 1. cbn [fst snd]. unfold step in Hskip. cbn [fst snd] in Hskip.
      destruct b; [|now apply Hskip].
      destruct (lookup vars id) as [variable|] eqn:Ev; [|now apply Hskip].
      destruct (find _ timeSlots) as [timeSlot|]; [|now apply Hskip].
      clear Hskip. exists ((id, variable) :: L). cbn [fst snd map]. split; [|split].
      + constructor; [|assumption]. intros Hin. apply Hid.
        apply in_map_iff in Hin as [p [<- Hp]]. apply in_map_iff.
        exists (fst p, true). split; [reflexivity | now apply HL2].
      + intros p [<- | Hp]; [split; [now left | assumption]|].
        split; [right; now apply HL2 | now apply HL2].
      + rewrite map_app. cbn [map]. rewrite <- app_assoc. reflexivity. }
  intros Hnd. destruct (H assignment ([], O) Hnd) as [L HL]. exists L. exact HL.
Qed.

(** When the backtracking search accepts an assignment, [solve] returns
    the schedule made from it, and in that schedule no teacher and no room
    is in two classes of the same time slot. *)
Theorem accepted_search_never_double_books (assignment : Assignment) :
  let propagated :=
    constraintPropagation (initializeConstraints initialVariables) initialVariables in
  let schedule := assignmentToSchedule (snd propagated) assignment in
  backtrackingSearch (fst propagated) (snd propagated) = Some (true, assignment) ->
  solve = Returned (resultFor schedule)
  /\ NoDup (map (fun c => (ClassSchedule.teacherId c, ClassSchedule.timeSlotId c)) schedule)
  /\ NoDup (map (fun c => (ClassSchedule.roomId c, ClassSchedule.timeSlotId c)) schedule).
Proof.
  cbv zeta. intros Hsearch. split.
  { unfold CPSATSolver.solve.
    destruct (constraintPropagation _ _) as [constraintList vars]. cbn [fst snd] in *.
    now rewrite Hsearch. }
  pose proof (PropagationFacts.propagationLoop_spec initialVariables 100
                (initializeConstraints initialVariables) initialVariables) as Hprop.
  fold (constraintPropagation (initializeConstraints initialVariables) initialVariables)
    in Hprop.
  destruct Hprop as [Hvars Hcs].
  { intros entry He. split; [assumption|]. right. lia. }
  destruct (constraintPropagation _ _) as [constraintList vars]. cbn [fst snd] in *.
  pose proof Hsearch as Hsound. unfold CPSATSolver.backtrackingSearch in Hsound.
  apply backtrack_sound in Hsound; [destruct Hsound as [Hall Hnd] | | constructor | reflexivity].
  2:{ intros c _. unfold CPSATSolver.checkConstraint.
      destruct (isResourceConflict c); [|reflexivity].
      replace (filter _ (CspConstraint.variables c)) with (@nil string); [reflexivity|].
      symmetry. induction (CspConstraint.variables c); simpl; auto. }
  destruct (assignmentToSchedule_origin vars assignment Hnd) as [L [HL1 [HL2 HL3]]].
  assert (Hno : forall p q, In p L -> In q L -> fst p <> fst q ->
            CspVariable.timeSlotId (snd p) = CspVariable.timeSlotId (snd q) ->
            CspVariable.teacherId (snd p) = CspVariable.teacherId (snd q)
            \/ CspVariable.roomId (snd p) = CspVariable.roomId (snd q) ->
            False).
  { intros [id1 v1] [id2 v2] Hp Hq Hne Hts Hres. cbn [fst snd] in *.
    destruct (HL2 _ Hp) as [A1 V1]. destruct (HL2 _ Hq) as [A2 V2]. cbn [fst snd] in *.
    apply lookup_entry in V1, V2.
    destruct (resource_constraint_covers initialVariables id1 id2 v1 v2
                initialVariables_keys (proj1 (Hvars _ V1)) (proj1 (Hvars _ V2)) Hne Hts Hres)
      as [c0 [Hc0 [Hrc [Hi1 Hi2]]]].
    assert (Hc : In (sameConstraint c0) (map sameConstraint constraintList)).
    { rewrite Hcs. now apply in_map. }
    apply in_map_iff in Hc as [c [Hsame Hc]].
    unfold CPSATSolver.sameConstraint in Hsame. injection Hsame as _ Htype Hvs.
    specialize (Hall c Hc). unfold CPSATSolver.checkConstraint in Hall.
    unfold isResourceConflict in Hall, Hrc. rewrite Htype, Hrc, Hvs in Hall.
    apply Nat.leb_le in Hall.
    pose proof (two_pass
                  (fun varId =>
                     match lookup assignment varId with Some true => true | _ => false end)
                  (CspConstraint.variables c0) id1 id2 Hi1 Hi2 Hne) as H2.
    cbv beta in H2.
    rewrite (lookup_of_In _ _ _ Hnd A1), (lookup_of_In _ _ _ Hnd A2) in H2.
    specialize (H2 eq_refl eq_refl). lia. }
  split.
  - replace (map (fun c => (ClassSchedule.teacherId c, ClassSchedule.timeSlotId c))
               (assignmentToSchedule vars assignment))
      with (map (fun t : string * string * string => (fst (fst t), snd t))
              (map resources (assignmentToSchedule vars assignment)))
      by (rewrite map_map; reflexivity).
    rewrite HL3, map_map. cbn [fst snd].
    apply (NoDup_map_by fst _ L HL1). intros p q Hp Hq Hne [= Ht Hs].
    apply (Hno p q); auto.
  - replace (map (fun c => (ClassSchedule.roomId c, ClassSchedule.timeSlotId c))
               (assignmentToSchedule vars assignment))
      with (map (fun t : string * string * string => (snd (fst t), snd t))
              (map resources (assignmentToSchedule vars assignment)))
      by (rewrite map_map; reflexivity).
    rewrite HL3, map_map. cbn [fst snd].
    apply (NoDup_map_by fst _ L HL1). intros p q Hp Hq Hne [= Ht Hs].
    apply (Hno p q); auto.
Qed.

(** *** No teacher available *)

Lemma fold_set_In (l : list CspVariable.t) : forall (acc : Variables) entry,
  In entry (fold_left (fun vars v => set (CspVariable.id v) v vars) l acc) ->
  In entry acc \/ In (snd entry) l.
Proof.
  induction l as [|v l IH]; intros acc entry; simpl; [now left|].
  intros H. apply IH in H as [H | H]; [|now right; right].
  apply PropagationFacts.set_In_cases in H as [-> | H]; [right; now left | now left].
Qed.

Lemma unavailable_variables :
  (forall teacher timeSlot, In teacher teachers -> In timeSlot timeSlots ->
     teacherAvailableAt teacher timeSlot = false) ->
  forall entry, In entry initialVariables -> CspVariable.domain (snd entry) = false.
Proof.
  intros Hno entry He. unfold CPSATSolver.initializeVariables in He.
  apply fold_set_In in He as [[] | He].
  apply in_flat_map in He as [course [_ He]].
  assert (H : exists section subject,
             In (snd entry)
               (candidateVariables teachers rooms timeSlots constraints parseDate course
                  section subject)).
  { destruct (Course.sections course) as [[|s ss]|]; try now destruct He.
    apply in_flat_map in He as [section [_ He]].
    apply in_flat_map in He as [subject [_ He]]. eauto. }
  destruct H as [section [subject H]]. unfold candidateVariables in H.
  apply in_flat_map in H as [teacher [Ht H]]. apply filter_In in Ht as [Ht _].
  apply in_flat_map in H as [room [_ H]].
  apply in_map_iff in H as [timeSlot [<- Hts]]. cbn [CspVariable.domain].
  unfold isVariableValid. now rewrite (Hno teacher timeSlot Ht Hts).
Qed.

(** When no listed teacher is available in any listed time slot, [solve]
    returns an empty schedule, and reports it without any conflict and
    with the highest fitness, 1000. *)
Theorem solve_without_availability :
  (forall teacher timeSlot, In teacher teachers -> In timeSlot timeSlots ->
     teacherAvailableAt teacher timeSlot = false) ->
  exists result fitness,
    solve = Returned result
    /\ OptimizationResult.schedule result = []
    /\ OptimizationResult.conflicts result = []
    /\ OptimizationResult.fitness result = finite fitness
    /\ fitness == 1000.
Proof.
  intros Hno.
  destruct (FallbackFacts.fallback_kept courses teachers rooms timeSlots constraints
              parseDate ln stamp (fun g => g_schedule g = []))
    as [g [Hg Hfallback]]; [| |reflexivity|].
  - intros course teacher g a n _ Hfind _ Hoff. exfalso.
    destruct Hoff as [room [timeSlot [_ [Hts [_ [_ [_ [Hav _]]]]]]]].
    apply find_some in Hfind as [Hteacher _].
    rewrite (Hno teacher timeSlot Hteacher Hts) in Hav. discriminate.
  - intros g n H. exact H.
  - exists solveWithRelaxedConstraints, 1000.
    split; [apply PropagationFacts.solve_without_candidates,
              unavailable_variables, Hno|].
    unfold CPSATSolver.solveWithRelaxedConstraints. rewrite Hfallback, Hg.
    repeat split; reflexivity.
Qed.

End Facts.

(** The search of [solve_accepts_full_coverage]: algebra on Monday with
    teacher t1, logic on Tuesday with teacher t2, both in room r1. *)
Lemma accepted_search_never_double_books_witness :
  let variables :=
    initializeVariables Inputs.sectionA Inputs.twoTeachers Inputs.oneRoom
      Inputs.separateSlots Inputs.noConstraints Inputs.twoSubjects Runtime.isoDate in
  let propagated := constraintPropagation (initializeConstraints variables) variables in
  let schedule :=
    assignmentToSchedule Inputs.separateSlots (fun _ => "now") (snd propagated)
      [("c1_algebra_A_t1_r1_mon-10-40min", true);
       ("c1_algebra_A_t1_r1_tue-10-40min", false);
       ("c1_logic_A_t2_r1_tue-10-40min", true)] in
  CPSATSolver.solve Inputs.sectionA Inputs.twoTeachers Inputs.oneRoom Inputs.separateSlots
    Inputs.noConstraints Inputs.twoSubjects Runtime.isoDate (fun _ => 0) (fun _ => "now")
  = Returned (resultFor Inputs.oneRoom Inputs.separateSlots schedule)
  /\ NoDup (map (fun c => (ClassSchedule.teacherId c, ClassSchedule.timeSlotId c)) schedule)
  /\ NoDup (map (fun c => (ClassSchedule.roomId c, ClassSchedule.timeSlotId c)) schedule).
Proof.
  apply (accepted_search_never_double_books Inputs.sectionA Inputs.twoTeachers
           Inputs.oneRoom Inputs.separateSlots Inputs.noConstraints Inputs.twoSubjects
           Runtime.isoDate (fun _ => 0) (fun _ => "now")).
  vm_compute. reflexivity.
Defined.

(** A teacher without any availability: [solve] returns the empty
    schedule with fitness 1000. *)
Lemma solve_without_availability_witness :
  exists result fitness,
    CPSATSolver.solve Inputs.taughtCourse Inputs.oneTeacher Inputs.oneRoom
      Inputs.separateSlots Inputs.noConstraints Inputs.twoSubjects Runtime.isoDate
      (fun _ => 0) (fun _ => "now")
    = Returned result
    /\ OptimizationResult.schedule result = []
    /\ OptimizationResult.conflicts result = []
    /\ OptimizationResult.fitness result = finite fitness
    /\ fitness == 1000.
Proof.
  apply (solve_without_availability Inputs.taughtCourse Inputs.oneTeacher Inputs.oneRoom
           Inputs.separateSlots Inputs.noConstraints Inputs.twoSubjects Runtime.isoDate
           (fun _ => 0) (fun _ => "now")).
  intros teacher timeSlot [<- | []] _. reflexivity.
Defined.

End SearchFacts.

(** ** The schedule built by [optimize] *)

Module PlacementFacts.

Import Basics HybridOptimizer.

Section Facts.

Variable courses : list Course.t.
Variable teachers : list Teacher.t.
Variable rooms : list Room.t.
Variable timeSlots : list TimeSlot.t.
Variable constraints : TimetableConstraints.t.
Variable subjects : list Subject.t.
Variable localeCompare : string -> string -> comparison.

Abbreviation slotsByDay := (HybridOptimizer.slotsByDay timeSlots localeCompare).
Abbreviation subjectsByCourse := (HybridOptimizer.subjectsByCourse constraints subjects).
Abbreviation placeInSlots := (HybridOptimizer.placeInSlots teachers rooms).
Abbreviation tryPlaceOneOnDay :=
  (HybridOptimizer.tryPlaceOneOnDay teachers rooms slotsByDay).
Abbreviation pass1Round := (HybridOptimizer.pass1Round teachers rooms slotsByDay).
Abbreviation pass1 := (HybridOptimizer.pass1 teachers rooms slotsByDay).
Abbreviation fillDay := (HybridOptimizer.fillDay teachers rooms slotsByDay).
Abbreviation pass2 := (HybridOptimizer.pass2 teachers rooms slotsByDay).
Abbreviation scheduleSection := (HybridOptimizer.scheduleSection teachers rooms slotsByDay).
Abbreviation scheduleSections :=
  (HybridOptimizer.scheduleSections teachers rooms slotsByDay).
Abbreviation scheduleCourse :=
  (HybridOptimizer.scheduleCourse teachers rooms slotsByDay subjectsByCourse).
Abbreviation scheduleCourses :=
  (HybridOptimizer.scheduleCourses teachers rooms slotsByDay subjectsByCourse).
Abbreviation buildTestSchedule :=
  (HybridOptimizer.buildTestSchedule courses teachers rooms timeSlots constraints
     subjects localeCompare).
Abbreviation optimize :=
  (HybridOptimizer.optimize courses teachers rooms timeSlots constraints subjects
     localeCompare).
Abbreviation subjectsOf := (HybridOptimizer.subjectsOf constraints subjects).
Abbreviation planOf := (HybridOptimizer.planOf constraints subjects).
Abbreviation filteredSubjects := (HybridOptimizer.filteredSubjects constraints subjects).
Abbreviation listed :=
  (HybridOptimizer.listed courses teachers rooms timeSlots constraints subjects).

(** *** Groups *)

Lemma findIndex_found {A : Type} (p : A -> bool) (l : list A) : forall i x,
  findIndex p l = Some i -> nth_error l i = Some x -> p x = true.
Proof.
  induction l as [|y l IH]; intros i x; simpl; [discriminate|].
  destruct (p y) eqn:E.
  - intros [= <-] [= <-]. exact E.
  - destruct (findIndex p l) as [j|]; [|discriminate]. intros [= <-]. simpl.
    now apply IH.
Qed.

Lemma grouped_key {A : Type} (key : A -> string) (xs : list A) (k : string)
  (l : list A) (y : A) :
  In (k, l) (fold_left (fun m x => pushTo (key x) x m) xs []) -> In y l ->
  In y xs /\ key y = k.
Proof.
  intros H Hy.
  pose proof (proj2 (GroupFacts.filed_groups (fun x => Some (key x, x)) xs) k l) as Hg.
  apply Hg in H as [-> _]. rewrite GroupFacts.filed_total in Hy.
  apply filter_In in Hy as [H1 H2]. split; [assumption | now apply String.eqb_eq].
Qed.

Lemma slotsByDay_day day l slot :
  lookup slotsByDay day = Some l -> In slot l ->
  In slot timeSlots /\ TimeSlot.day slot = day.
Proof.
  intros Hl Hs. apply SearchFacts.lookup_entry in Hl.
  unfold HybridOptimizer.slotsByDay in Hl. apply in_map_iff in Hl as [[k' l'] [[= <- <-] Hk]].
  apply sortBy_In in Hs. exact (grouped_key _ _ _ _ _ Hk Hs).
Qed.

Lemma subjectsOf_In course s :
  In s (subjectsOf course) -> In s filteredSubjects /\ Subject.courseId s = Course.id course.
Proof.
  unfold HybridOptimizer.subjectsOf.
  destruct (lookup _ (Course.id course)) as [l|] eqn:E; [|intros []].
  intros Hs. apply SearchFacts.lookup_entry in E.
  unfold HybridOptimizer.subjectsByCourse in E.
  exact (grouped_key _ _ _ _ _ E Hs).
Qed.

Lemma rotatedDays_In course section day :
  In day (rotatedDays course section) -> In day dayOrder.
Proof.
  unfold rotatedDays. intros H. apply in_app_or in H as [H | H].
  - rewrite <- (firstn_skipn (rotation course section) dayOrder).
    apply in_or_app. now right.
  - rewrite <- (firstn_skipn (rotation course section) dayOrder).
    apply in_or_app. now left.
Qed.

(** *** A property of the state kept by every assignment of a section *)

Section Inner.

Variable course : Course.t.
Variable section : string.
Variable I : Occupancy -> SectionState -> Prop.

Hypothesis placed_keeps : forall day slot idx d teacher room occ st,
  In day dayOrder -> In slot timeSlots -> TimeSlot.day slot = day ->
  nth_error (demand st) idx = Some d ->
  (0 < remaining d)%Z -> has (usedDays d) day = false ->
  In teacher teachers -> qualified course d teacher = true ->
  has (occupiedByTeacher occ) (Teacher.id teacher +++ "|" +++ TimeSlot.id slot) = false ->
  In room rooms -> Room.type room = Subject.type (subject d) ->
  has (occupiedByRoom occ) (Room.id room +++ "|" +++ TimeSlot.id slot) = false ->
  has (occupiedBySection occ)
    (Course.id course +++ "|" +++ section +++ "|" +++ TimeSlot.id slot) = false ->
  I occ st ->
  I (fst (placed course section day slot idx d teacher room occ st))
    (snd (placed course section day slot idx d teacher room occ st)).

Lemma placeInSlots_kept day slots : forall occ st,
  In day dayOrder ->
  (forall slot, In slot slots -> In slot timeSlots /\ TimeSlot.day slot = day) ->
  I occ st ->
  I (snd (fst (placeInSlots course section day slots occ st)))
    (snd (placeInSlots course section day slots occ st)).
Proof.
  induction slots as [|slot slots IH]; intros occ st Hday Hslots Hocc;
    cbn [HybridOptimizer.placeInSlots]; [assumption|].
  assert (Hslots' : forall s, In s slots -> In s timeSlots /\ TimeSlot.day s = day)
    by (intros s Hs; apply Hslots; now right).
  destruct (findIndex _ (demand st)) as [idx|] eqn:Eidx; [|assumption].
  destruct (nth_error (demand st) idx) as [d|] eqn:Ed; [|assumption].
  destruct (filter _ teachers) as [|firstAvailable others] eqn:Eavail; [now apply IH|].
  destruct (find _ rooms) as [room|] eqn:Eroom; [|now apply IH].
  destruct (has (occupiedBySection occ) _) eqn:Esec; [now apply IH|].
  match goal with |- context [Teacher.id ?t +++ "|" +++ TimeSlot.id slot] =>
    assert (Hteacher : In t teachers /\ qualified course d t = true
                       /\ has (occupiedByTeacher occ)
                            (Teacher.id t +++ "|" +++ TimeSlot.id slot) = false);
    [|set (teacher := t) in *]
  end.
  { assert (Hav : forall t, In t (firstAvailable :: others) ->
              In t teachers /\ qualified course d t = true
              /\ has (occupiedByTeacher occ)
                   (Teacher.id t +++ "|" +++ TimeSlot.id slot) = false).
    { intros t Ht. rewrite <- Eavail in Ht. apply filter_In in Ht as [H1 H2].
      apply andb_prop in H2 as [H2 H3]. apply negb_true_iff in H3. auto. }
    match goal with |- context [filter ?p (firstAvailable :: others)] =>
      destruct (filter p (firstAvailable :: others)) as [|t ts] eqn:Eun
    end.
    - apply Hav. now left.
    - apply OptimizeFacts.filter_head in Eun as [Hin _]. now apply Hav. }
  destruct Hteacher as [Ht1 [Ht2 Ht3]].
  apply find_some in Eroom as [Hr1 Hr2]. apply andb_prop in Hr2 as [Hr2 Hr3].
  apply negb_true_iff in Hr3.
  pose proof (findIndex_found _ _ _ _ Eidx Ed) as Hd. cbv beta in Hd.
  apply andb_prop in Hd as [Hd1 Hd2]. apply Z.ltb_lt in Hd1. apply negb_true_iff in Hd2.
  destruct (Hslots slot (or_introl eq_refl)) as [Hs1 Hs2].
  apply (placed_keeps day slot idx d teacher room occ st); auto.
  destruct (Room.type room), (Subject.type (subject d)); simpl in Hr2; congruence.
Qed.

Lemma tryPlaceOneOnDay_kept day occ st :
  In day dayOrder -> I occ st ->
  I (snd (fst (tryPlaceOneOnDay course section day occ st)))
    (snd (tryPlaceOneOnDay course section day occ st)).
Proof.
  intros Hday Hocc. unfold HybridOptimizer.tryPlaceOneOnDay.
  destruct (lookup _ day) as [l|] eqn:E.
  - apply placeInSlots_kept; auto. intros slot. now apply slotsByDay_day.
  - simpl. assumption.
Qed.

Lemma pass1Round_kept days : forall rt ps occ st,
  (forall day, In day days -> In day dayOrder) -> I occ st ->
  I (snd (fst (pass1Round course section days rt ps occ st)))
    (snd (pass1Round course section days rt ps occ st)).
Proof.
  induction days as [|day days IH]; intros rt ps occ st Hdays Hocc; simpl; [assumption|].
  destruct (rt <=? 0)%Z; [assumption|].
  pose proof (tryPlaceOneOnDay_kept day occ st (Hdays day (or_introl eq_refl)) Hocc) as Ht.
  destruct (tryPlaceOneOnDay course section day occ st) as [[placed occ'] st'].
  destruct placed; apply IH; auto; intros d Hd; apply Hdays; now right.
Qed.

Lemma pass1_kept fuel : forall rt occ st r,
  I occ st -> pass1 fuel course section rt occ st = Some r -> I (fst r) (snd r).
Proof.
  induction fuel as [|fuel IH]; intros rt occ st r Hocc; simpl.
  - destruct (0 <? rt)%Z; [discriminate | now intros [= <-]].
  - destruct (0 <? rt)%Z; [|now intros [= <-]].
    pose proof (pass1Round_kept (rotatedDays course section) rt false occ st
                  (rotatedDays_In course section) Hocc) as Hr.
    destruct (pass1Round _ _ _ rt false occ st) as [[[rt' ps] occ'] st'].
    destruct ps; [now apply IH | now intros [= <-]].
Qed.

Lemma fillDay_kept tryMore : forall day occ st,
  In day dayOrder -> I occ st ->
  I (fst (fillDay tryMore course section day occ st))
    (snd (fillDay tryMore course section day occ st)).
Proof.
  induction tryMore as [|tryMore IH]; intros day occ st Hday Hocc; simpl; [assumption|].
  destruct (existsb _ (demand st)); [|assumption].
  pose proof (tryPlaceOneOnDay_kept day occ st Hday Hocc) as Ht.
  destruct (tryPlaceOneOnDay course section day occ st) as [[placed occ'] st'].
  destruct placed; [now apply IH | assumption].
Qed.

Lemma pass2_kept occ st :
  I occ st -> I (fst (pass2 course section occ st)) (snd (pass2 course section occ st)).
Proof.
  unfold HybridOptimizer.pass2. intros Hocc.
  destruct (0 <? totalRemaining (demand st))%Z; [|assumption].
  change (I (fst (occ, st)) (snd (occ, st))) in Hocc. revert Hocc.
  generalize (occ, st).
  pose proof (rotatedDays_In course section) as Hdays. revert Hdays.
  induction (rotatedDays course section) as [|day days IH];
    intros Hdays os Hos; cbn [fold_left]; [assumption|].
  apply IH; [intros d Hd; apply Hdays; now right|].
  apply fillDay_kept; [apply Hdays; now left | assumption].
Qed.

Lemma scheduleSection_kept subjectsForCourse occ occ' :
  I occ (startOf subjectsForCourse) ->
  scheduleSection course subjectsForCourse section occ = Some occ' ->
  exists st', I occ' st'.
Proof.
  unfold HybridOptimizer.scheduleSection. intros Hocc.
  destruct (pass1 _ course section _ occ _) as [[occ1 st1]|] eqn:E; [|discriminate].
  intros [= <-]. exists (snd (pass2 course section occ1 st1)).
  apply pass2_kept. exact (pass1_kept _ _ _ _ _ Hocc E).
Qed.

End Inner.

(** *** A property of the schedule kept by every section *)

Section Outer.

Variable P : list (Course.t * string) -> Occupancy -> Prop.

Hypothesis section_keeps : forall done course section rest occ occ',
  planOf courses = done ++ (course, section) :: rest ->
  P done occ ->
  scheduleSection course (subjectsOf course) section occ = Some occ' ->
  P (done ++ [(course, section)]) occ'.

Lemma scheduleSections_kept course sections : forall done rest occ occ',
  planOf courses = done ++ map (pair course) sections ++ rest ->
  P done occ ->
  scheduleSections course (subjectsOf course) sections occ = Some occ' ->
  P (done ++ map (pair course) sections) occ'.
Proof.
  induction sections as [|section sections IH]; intros done rest occ occ' Hplan Hocc; simpl.
  - intros [= <-]. now rewrite app_nil_r.
  - destruct (scheduleSection course (subjectsOf course) section occ) as [occ1|] eqn:E;
      [|discriminate].
    intros H.
    replace (done ++ (course, section) :: map (pair course) sections)
      with ((done ++ [(course, section)]) ++ map (pair course) sections)
      by (rewrite <- app_assoc; reflexivity).
    apply (IH _ rest occ1); [| |exact H].
    + rewrite Hplan, <- app_assoc. reflexivity.
    + apply (section_keeps done course section (map (pair course) sections ++ rest) occ);
        auto.
Qed.

Lemma planOf_cons course cs :
  planOf (course :: cs)
  = match subjectsOf course with
    | [] => []
    | _ :: _ => map (pair course) (HybridOptimizer.sectionsOf course)
    end ++ planOf cs.
Proof. reflexivity. Qed.

Lemma scheduleCourses_kept cs : forall done occ occ',
  planOf courses = done ++ planOf cs ->
  P done occ -> scheduleCourses cs occ = Returned occ' -> P (planOf courses) occ'.
Proof.
  induction cs as [|course cs IH]; intros done occ occ' Hplan Hocc; simpl.
  - intros [= <-]. rewrite Hplan. simpl. now rewrite app_nil_r.
  - destruct (scheduleCourse course occ) as [occ1| | |] eqn:E; try discriminate.
    rewrite planOf_cons in Hplan.
    unfold HybridOptimizer.scheduleCourse in E.
    remember (lookup subjectsByCourse (Course.id course)) as found eqn:El.
    assert (Hs : subjectsOf course = match found with Some l => l | None => [] end)
      by (unfold HybridOptimizer.subjectsOf; now rewrite <- El).
    destruct found as [[|s ss]|]; rewrite Hs in Hplan; cbn [app] in Hplan.
    + injection E as <-. now apply (IH done).
    + rewrite <- Hs in E. fold (HybridOptimizer.sectionsOf course) in E.
      destruct (scheduleSections course (subjectsOf course)
                  (HybridOptimizer.sectionsOf course) occ) as [occ2|] eqn:E2;
        [|discriminate].
      injection E as <-.
      apply (scheduleSections_kept course _ done (planOf cs)) in E2; auto.
      apply (IH (done ++ map (pair course) (HybridOptimizer.sectionsOf course)) occ2);
        auto.
      rewrite Hplan, <- app_assoc. reflexivity.
    + destruct (unreadable (Course.id course)); [discriminate|].
      injection E as <-. now apply (IH done).
Qed.

Lemma buildTestSchedule_kept schedule :
  P [] (mkOccupancy [] [] [] []) ->
  buildTestSchedule = Returned schedule ->
  schedule = [] \/ exists occ, testSchedule occ = schedule /\ P (planOf courses) occ.
Proof.
  intros H0 Hb.
  apply OptimizeFacts.buildTestSchedule_returned in Hb as [-> | [occ [E <-]]];
    [now left|].
  right. exists occ. split; [reflexivity|].
  exact (scheduleCourses_kept courses [] _ _ eq_refl H0 E).
Qed.

End Outer.

Lemma planOf_In cs course section :
  In (course, section) (planOf cs) ->
  In course cs /\ In section (HybridOptimizer.sectionsOf course).
Proof.
  unfold HybridOptimizer.planOf. intros H.
  apply in_flat_map in H as [course' [Hc H]].
  destruct (subjectsOf course'); [destruct H|].
  apply in_map_iff in H as [s [[= <- <-] Hs]]. now split.
Qed.

Lemma replaceAt_In {A : Type} (l : list A) : forall i x y,
  In y (replaceAt i x l) -> y = x \/ In y l.
Proof.
  induction l as [|a l IH]; intros [|i] x y; simpl; try tauto.
  - intros [<- | H]; auto.
  - intros [<- | H]; auto. apply IH in H as [H | H]; auto.
Qed.

(** *** Every class is made of listed parts *)

Lemma buildTestSchedule_listed schedule :
  buildTestSchedule = Returned schedule -> forall c, In c schedule -> listed c.
Proof.
  intros Hb.
  destruct (buildTestSchedule_kept
              (fun _ occ => forall c, In c (testSchedule occ) -> listed c)) with
    (schedule := schedule) as [-> | [occ [<- H]]]; auto; [|intros c []|intros c []].
  intros done course section rest occ occ' Hplan Hocc Hsec.
  assert (Hin : In (course, section) (planOf courses)).
  { rewrite Hplan. apply in_or_app. right. now left. }
  apply planOf_In in Hin as [Hcourse Hsection].
  destruct (scheduleSection_kept course section
              (fun occ st =>
                 (forall c, In c (testSchedule occ) -> listed c)
                 /\ forall d, In d (demand st) ->
                      In (subject d) filteredSubjects
                      /\ Subject.courseId (subject d) = Course.id course))
    with (subjectsForCourse := subjectsOf course) (occ := occ) (occ' := occ')
    as [st' [H _]]; auto.
  - intros day slot idx d teacher room occ0 st Hday Hslot Hsd Hd Hrem Hused Hteacher
      Hqual Hfree Hroom Htype Hrfree Hsfree [Hall Hdem]. simpl. split.
    + intros c Hc. apply in_app_or in Hc as [Hc | [<- | []]]; [now apply Hall|].
      apply nth_error_In in Hd. destruct (Hdem d Hd) as [Hd1 Hd2].
      exists course, section, (subject d), teacher, room, slot.
      repeat split; auto; [|now rewrite Hsd].
      unfold qualified in Hqual. apply orb_prop in Hqual as [Hq | Hq].
      * left. destruct (Teacher.taughtSubjectIds teacher) as [ids|]; [|discriminate].
        exists ids. split; [reflexivity|]. now apply has_true_iff.
      * right. destruct (Teacher.departmentCourseId teacher) as [c0|]; [|discriminate].
        apply String.eqb_eq in Hq. now subst.
    + intros d' Hd'. apply replaceAt_In in Hd' as [-> | Hd'];
        [|now apply Hdem].
      simpl. apply Hdem. now apply nth_error_In in Hd.
  - split; [assumption|]. intros d Hd. simpl in Hd.
    apply in_map_iff in Hd as [s [<- Hs]]. simpl. now apply subjectsOf_In.
Qed.

(** Every class of a schedule returned by [optimize] is made of listed
    parts: it is for a section of a listed course (section A when the
    course lists none) and a listed subject of that course with the
    requested semester parity; its teacher is a listed teacher who teaches
    the subject or belongs to the course; its room is a listed room of the
    subject's type; and its time slot is a listed time slot on a day from
    Monday to Friday. *)
Theorem optimize_uses_listed_parts (params : GeneticAlgorithmParams.t)
  (result : OptimizationResult.t) (c : ClassSchedule.t) :
  snd (optimize params) = Returned result ->
  In c (OptimizationResult.schedule result) ->
  exists course section subject teacher room slot,
    In course courses /\ In section (sectionsOf course)
    /\ In subject filteredSubjects
    /\ Subject.courseId subject = Course.id course
    /\ In teacher teachers
    /\ ((exists ids, Teacher.taughtSubjectIds teacher = Some ids
                     /\ In (Subject.id subject) ids)
        \/ Teacher.departmentCourseId teacher = Some (Course.id course))
    /\ In room rooms /\ Room.type room = Subject.type subject
    /\ In slot timeSlots /\ In (TimeSlot.day slot) dayOrder
    /\ c = ClassSchedule.mk
             ("sched_" +++ Course.id course +++ "_" +++ section +++ "_"
              +++ Subject.id subject +++ "_" +++ TimeSlot.id slot)
             (Course.id course) (Some (Subject.id subject)) (Some section)
             (Some (Subject.semester subject)) (Teacher.id teacher) (Room.id room)
             (TimeSlot.id slot) (TimeSlot.day slot) (TimeSlot.startTime slot)
             (TimeSlot.endTime slot).
Proof.
  intros Hret Hc.
  destruct (OptimizeFacts.optimize_returned _ _ _ _ _ _ _ _ _ Hret) as [schedule [E ->]].
  exact (buildTestSchedule_listed schedule E c Hc).
Qed.

End Facts.

(** The first class of [Inputs.weekResult]: algebra for section A of course
    c1 on Wednesday at eight, with teacher t1 of the course, in room r1. *)
Lemma optimize_uses_listed_parts_witness :
  exists course section subject teacher room slot,
    In course Inputs.sectionA /\ In section (sectionsOf course)
    /\ In subject (filteredSubjects Inputs.noConstraints Inputs.twoSubjects)
    /\ Subject.courseId subject = Course.id course
    /\ In teacher Inputs.oneTeacher
    /\ ((exists ids, Teacher.taughtSubjectIds teacher = Some ids
                     /\ In (Subject.id subject) ids)
        \/ Teacher.departmentCourseId teacher = Some (Course.id course))
    /\ In room Inputs.oneRoom /\ Room.type room = Subject.type subject
    /\ In slot Inputs.weekSlots /\ In (TimeSlot.day slot) dayOrder
    /\ ClassSchedule.mk "sched_c1_A_algebra_Wednesday-08" "c1" (Some "algebra")
         (Some "A") (Some 1%Z) "t1" "r1" "Wednesday-08" "Wednesday" "08:00" "09:00"
       = ClassSchedule.mk
           ("sched_" +++ Course.id course +++ "_" +++ section +++ "_"
            +++ Subject.id subject +++ "_" +++ TimeSlot.id slot)
           (Course.id course) (Some (Subject.id subject)) (Some section)
           (Some (Subject.semester subject)) (Teacher.id teacher) (Room.id room)
           (TimeSlot.id slot) (TimeSlot.day slot) (TimeSlot.startTime slot)
           (TimeSlot.endTime slot).
Proof.
  apply (optimize_uses_listed_parts Inputs.sectionA Inputs.oneTeacher Inputs.oneRoom
           Inputs.weekSlots Inputs.noConstraints Inputs.twoSubjects
           Runtime.codeUnitCompare Inputs.params Inputs.weekResult).
  - vm_compute. reflexivity.
  - left. reflexivity.
Defined.

End PlacementFacts.

Module RuleFacts.

Import Basics HybridOptimizer PlacementFacts.

(** *** Lists *)

Lemma replaceAt_map {A B : Type} (f : A -> B) (l : list A) : forall i x d,
  nth_error l i = Some d -> f x = f d -> map f (replaceAt i x l) = map f l.
Proof.
  induction l as [|a l IH]; intros [|i] x d; simpl; try discriminate.
  - intros [= ->] ->. reflexivity.
  - intros H Hf. now rewrite (IH i x d).
Qed.

Lemma replaceAt_new {A : Type} (l : list A) : forall i x d,
  nth_error l i = Some d -> In x (replaceAt i x l).
Proof.
  induction l as [|a l IH]; intros [|i] x d; simpl; try discriminate.
  - intros _. now left.
  - intros H. right. now apply (IH i x d).
Qed.

Lemma replaceAt_old {A B : Type} (f : A -> B) (l : list A) : forall i x d y,
  nth_error l i = Some d -> In y l -> f y <> f d -> In y (replaceAt i x l).
Proof.
  induction l as [|a l IH]; intros [|i] x d y; simpl; try discriminate.
  - intros [= ->] [-> | H] Hf; [now elim Hf | now right].
  - intros Hd [-> | H] Hf; [now left|]. right. now apply (IH i x d).
Qed.

Lemma replaceAt_cases {A B : Type} (f : A -> B) (l : list A) : forall i x d y,
  NoDup (map f l) -> nth_error l i = Some d -> In y (replaceAt i x l) ->
  y = x \/ (In y l /\ f y <> f d).
Proof.
  induction l as [|a l IH]; intros [|i] x d y Hnd; simpl; try discriminate;
    inversion Hnd as [|? ? Ha Hl]; subst.
  - intros [= ->] [<- | H]; [now left|]. right. split; [now right|].
    intros E. apply Ha. rewrite <- E. now apply in_map.
  - intros Hd [<- | H].
    + right. split; [now left|]. intros E. apply Ha. rewrite E.
      apply in_map. now apply nth_error_In in Hd.
    + destruct (IH i x d y Hl Hd H) as [-> | [H1 H2]]; [now left|].
      right. split; [now right | assumption].
Qed.

Lemma NoDup_map_eq {A B : Type} (f : A -> B) (l : list A) (x y : A) :
  NoDup (map f l) -> In x l -> In y l -> f x = f y -> x = y.
Proof.
  induction l as [|a l IH]; simpl; [tauto|].
  intros Hnd Hx Hy E. inversion Hnd as [|? ? Ha Hl]; subst.
  destruct Hx as [-> | Hx], Hy as [-> | Hy]; auto.
  - exfalso. apply Ha. rewrite E. now apply in_map.
  - exfalso. apply Ha. rewrite <- E. now apply in_map.
Qed.

Lemma kept_distinct {A : Type} (key : A -> string) (keep : A -> bool) :
  forall xs : list A, NoDup (map key xs) -> NoDup (map key (filter keep xs)).
Proof.
  induction xs as [|x xs IH]; simpl; intros Hxs; [constructor|].
  apply NoDup_cons_iff in Hxs as [Hx Hxs].
  destruct (keep x); simpl; [|now apply IH].
  constructor; [|now apply IH]. intros Hin. apply Hx.
  apply in_map_iff in Hin as [y [E Hy]]. apply filter_In in Hy as [Hy _].
  rewrite <- E. now apply in_map.
Qed.

(** *** Sessions *)

Lemma sessionsOf_snoc courseId section subjectId schedule c :
  sessionsOf courseId section subjectId (schedule ++ [c])
  = sessionsOf courseId section subjectId schedule
    ++ (if isSession courseId section subjectId c then [c] else []).
Proof. unfold sessionsOf. rewrite filter_app. reflexivity. Qed.

Lemma isSession_true courseId section subjectId c :
  isSession courseId section subjectId c = true <->
  ClassSchedule.courseId c = courseId /\ ClassSchedule.section c = Some section
  /\ ClassSchedule.subjectId c = Some subjectId.
Proof.
  unfold isSession. rewrite !andb_true_iff, String.eqb_eq.
  destruct (ClassSchedule.section c) as [s|], (ClassSchedule.subjectId c) as [s'|];
    rewrite ?String.eqb_eq; intuition congruence.
Qed.

Lemma sessionsOf_none courseId section subjectId schedule :
  (forall c, In c schedule ->
     ~ (courseSection c = (courseId, Some section)
        /\ ClassSchedule.subjectId c = Some subjectId)) ->
  sessionsOf courseId section subjectId schedule = [].
Proof.
  intros H. unfold sessionsOf.
  destruct (filter _ schedule) as [|c l] eqn:E; [reflexivity|]. exfalso.
  assert (Hc : In c (filter (isSession courseId section subjectId) schedule))
    by (rewrite E; now left).
  apply filter_In in Hc as [Hc Hs]. apply isSession_true in Hs as [H1 [H2 H3]].
  apply (H c Hc). unfold courseSection. split; congruence.
Qed.

Section Facts.

Variable courses : list Course.t.
Variable teachers : list Teacher.t.
Variable rooms : list Room.t.
Variable timeSlots : list TimeSlot.t.
Variable constraints : TimetableConstraints.t.
Variable subjects : list Subject.t.
Variable localeCompare : string -> string -> comparison.

Abbreviation scheduleSection :=
  (HybridOptimizer.scheduleSection teachers rooms
     (HybridOptimizer.slotsByDay timeSlots localeCompare)).
Abbreviation buildTestSchedule :=
  (HybridOptimizer.buildTestSchedule courses teachers rooms timeSlots constraints
     subjects localeCompare).
Abbreviation optimize :=
  (HybridOptimizer.optimize courses teachers rooms timeSlots constraints subjects
     localeCompare).
Abbreviation subjectsOf := (HybridOptimizer.subjectsOf constraints subjects).
Abbreviation planOf := (HybridOptimizer.planOf constraints subjects).
Abbreviation filteredSubjects := (HybridOptimizer.filteredSubjects constraints subjects).
Abbreviation ruled := (HybridOptimizer.ruled subjects).
Abbreviation ruledIn := (HybridOptimizer.ruledIn subjects).
Abbreviation withinWeek := (HybridOptimizer.withinWeek subjects).

(** *** No section is in two classes of one time slot *)

Lemma buildTestSchedule_sections schedule :
  buildTestSchedule = Returned schedule -> NoDup (map sectionKey schedule).
Proof.
  intros Hb.
  destruct (PlacementFacts.buildTestSchedule_kept courses teachers rooms timeSlots
              constraints subjects localeCompare
              (fun _ occ =>
                 (forall c, In c (testSchedule occ) ->
                    has (occupiedBySection occ) (sectionKey c) = true)
                 /\ NoDup (map sectionKey (testSchedule occ)))) with
    (schedule := schedule) as [-> | [occ [<- [_ H]]]]; auto.
  - intros done course section rest occ occ' _ Hocc Hsec.
    destruct (PlacementFacts.scheduleSection_kept teachers rooms timeSlots localeCompare
                course section
                (fun occ _ =>
                   (forall c, In c (testSchedule occ) ->
                      has (occupiedBySection occ) (sectionKey c) = true)
                   /\ NoDup (map sectionKey (testSchedule occ))))
      with (subjectsForCourse := subjectsOf course) (occ := occ) (occ' := occ')
      as [_ H]; auto.
    intros day slot idx d teacher room occ0 st _ _ _ _ _ _ _ _ _ _ _ _ Hfree [Hall Hnd].
    cbn [placed fst snd testSchedule occupiedBySection]. split.
    + intros c Hc. apply has_add_intro.
      apply in_app_or in Hc as [Hc | [<- | []]]; [left; now apply Hall | now right].
    + rewrite map_app. apply NoDup_snoc; [assumption|].
      now apply (OptimizeFacts.fresh_key (occupiedBySection occ0)).
  - split; [intros c [] | constructor].
  - constructor.
Qed.

(** In a schedule returned by [optimize] no section of a course is in two
    classes of the same time slot. *)
Theorem optimize_never_double_books_a_section (params : GeneticAlgorithmParams.t)
  (result : OptimizationResult.t) :
  snd (optimize params) = Returned result ->
  NoDup (map sectionSlot (OptimizationResult.schedule result)).
Proof.
  intros Hret.
  destruct (OptimizeFacts.optimize_returned _ _ _ _ _ _ _ _ _ Hret) as [schedule [E ->]].
  apply (NoDup_map_coarser sectionKey); [|now apply buildTestSchedule_sections].
  intros a b _ _ [= H1 H2 H3]. unfold sectionKey. now rewrite H1, H2, H3.
Qed.

Hypothesis courses_distinct : NoDup (map Course.id courses).
Hypothesis sections_distinct : forall course sections,
  In course courses -> Course.sections course = Some sections -> NoDup sections.
Hypothesis subjects_distinct : NoDup (map Subject.id subjects).

Lemma sectionsOf_distinct course : In course courses -> NoDup (sectionsOf course).
Proof.
  intros Hc. unfold sectionsOf.
  destruct (Course.sections course) as [[|s l]|] eqn:E.
  - constructor; [intros [] | constructor].
  - now apply (sections_distinct course).
  - constructor; [intros [] | constructor].
Qed.

Lemma planOf_distinct cs :
  (forall course, In course cs -> In course courses) ->
  NoDup (map Course.id cs) -> NoDup (map pairKey (planOf cs)).
Proof.
  induction cs as [|course cs IH]; intros Hcs Hnd; [constructor|].
  simpl in Hnd. inversion Hnd as [|? ? Hc Hl]; subst.
  rewrite (PlacementFacts.planOf_cons constraints subjects), map_app.
  apply NoDup_app.
  - destruct (subjectsOf course); [constructor|].
    rewrite map_map. unfold pairKey. cbn [fst snd].
    assert (H : NoDup (sectionsOf course)) by (apply sectionsOf_distinct, Hcs; now left).
    induction H as [|s0 l0 Hs Hl0 IHl]; simpl; constructor; [|assumption].
    intros Hin. apply in_map_iff in Hin as [s' [[= ->] Hs']]. now apply Hs.
  - apply IH; [intros c Hc'; apply Hcs; now right | assumption].
  - intros key H1 H2. apply Hc.
    apply in_map_iff in H2 as [[course' section'] [<- H2]].
    apply (PlacementFacts.planOf_In constraints subjects) in H2 as [H2 _].
    destruct (subjectsOf course); [destruct H1|].
    apply in_map_iff in H1 as [[course'' section''] [E H1]].
    apply in_map_iff in H1 as [s [[= <- <-] _]].
    unfold pairKey in E. cbn [fst snd] in E. injection E as E _. rewrite E.
    now apply in_map.
Qed.

Lemma subjectsOf_distinct course : NoDup (map Subject.id (subjectsOf course)).
Proof.
  unfold HybridOptimizer.subjectsOf.
  destruct (lookup _ (Course.id course)) as [l|] eqn:E; [|constructor].
  apply SearchFacts.lookup_entry in E.
  unfold HybridOptimizer.subjectsByCourse in E.
  pose proof (proj2 (GroupFacts.filed_groups
                       (fun x => Some (Subject.courseId x, x)) filteredSubjects)
                (Course.id course) l) as Hg.
  apply Hg in E as [-> _]. rewrite GroupFacts.filed_total.
  apply kept_distinct. unfold HybridOptimizer.filteredSubjects.
  now apply kept_distinct.
Qed.

Lemma subject_by_id s s' :
  In s subjects -> In s' subjects -> Subject.id s = Subject.id s' -> s = s'.
Proof. apply NoDup_map_eq. exact subjects_distinct. Qed.

(** *** One assignment *)

Lemma placed_ruled done course section day slot idx d teacher room occ st :
  ~ In (Course.id course, Some section) (map pairKey done) ->
  TimeSlot.day slot = day ->
  nth_error (demand st) idx = Some d ->
  (0 < remaining d)%Z -> has (usedDays d) day = false ->
  ruledIn done course section (testSchedule occ) (demand st) ->
  ruledIn done course section
    (testSchedule (fst (placed course section day slot idx d teacher room occ st)))
    (demand (snd (placed course section day slot idx d teacher room occ st))).
Proof.
  intros Hfresh Hday Hd Hrem Hused [H1 [H2 [H3 [H4 H5]]]].
  cbn [placed fst snd testSchedule demand].
  set (c0 := ClassSchedule.mk _ _ _ _ _ _ _ _ _ _ _).
  set (d' := mkDemand (subject d) (remaining d - 1) (add (usedDays d) day)).
  pose proof (nth_error_In _ _ Hd) as Hdin.
  assert (Hc0 : forall courseId sec subjectId,
            isSession courseId sec subjectId c0 = true <->
            Course.id course = courseId /\ section = sec
            /\ Subject.id (subject d) = subjectId).
  { intros courseId sec subjectId. rewrite isSession_true. subst c0. simpl.
    split; intros [E1 [E2 E3]]; repeat split; congruence. }
  split; [|split; [|split; [|split]]].
  - intros c Hc. apply in_app_or in Hc as [Hc | [<- | []]].
    + destruct (H1 c Hc) as [H | [Hp [dd [Hdd [Hs Hu]]]]]; [now left|]. right.
      split; [assumption|].
      destruct (String.eqb_spec (Subject.id (subject dd)) (Subject.id (subject d)))
        as [E | E].
      * assert (dd = d)
          by (apply (NoDup_map_eq (fun d => Subject.id (subject d)) (demand st)); auto).
        subst dd. exists d'. split; [now apply (replaceAt_new _ _ _ d)|].
        split; [assumption|]. apply has_add_intro. now left.
      * exists dd. split; [|now split].
        apply (replaceAt_old (fun d => Subject.id (subject d)) _ _ _ d); auto.
    + right. split; [reflexivity|]. exists d'.
      split; [now apply (replaceAt_new _ _ _ d)|]. split; [reflexivity|].
      apply has_add_intro. right. subst c0. simpl. now symmetry.
  - rewrite map_app. apply NoDup_snoc; [assumption|]. intros Hin.
    apply in_map_iff in Hin as [c [Hkey Hc]].
    unfold subjectDay in Hkey. subst c0. cbn in Hkey. injection Hkey as K1 K2 K3 K4.
    destruct (H1 c Hc) as [H | [Hp [dd [Hdd [Hs Hu]]]]].
    + apply Hfresh. unfold courseSection in H. now rewrite K1, K2 in H.
    + rewrite K3 in Hs. injection Hs as Hs.
      assert (dd = d)
        by (apply (NoDup_map_eq (fun d => Subject.id (subject d)) (demand st)); auto).
      subst dd. rewrite K4, Hday in Hu. congruence.
  - rewrite (replaceAt_map _ _ _ _ d); auto.
  - intros dd Hdd.
    apply (replaceAt_cases (fun d => Subject.id (subject d)) _ _ _ d) in Hdd
      as [-> | [Hdd Hne]]; auto.
    + destruct (H4 d Hdin) as [G1 [G2 G3]]. subst d'. cbn [subject remaining].
      split; [assumption|]. split; [lia|].
      rewrite sessionsOf_snoc.
      rewrite (proj2 (Hc0 (Course.id course) section (Subject.id (subject d))))
        by (repeat split).
      rewrite length_app. cbn [List.length]. lia.
    + destruct (H4 dd Hdd) as [G1 [G2 G3]]. split; [assumption|]. split; [assumption|].
      rewrite sessionsOf_snoc.
      destruct (isSession _ _ _ c0) eqn:E.
      * apply Hc0 in E as [_ [_ E]]. now elim Hne.
      * now rewrite app_nil_r.
  - intros courseId sec subjectId Hin. unfold HybridOptimizer.withinWeek.
    rewrite sessionsOf_snoc.
    destruct (isSession _ _ _ c0) eqn:E.
    + apply Hc0 in E as [E1 [E2 _]]. subst. contradiction.
    + rewrite app_nil_r. now apply H5.
Qed.

(** *** One section *)

Lemma scheduleSection_ruled done course section rest occ occ' :
  planOf courses = done ++ (course, section) :: rest ->
  ruled done (testSchedule occ) ->
  scheduleSection course (subjectsOf course) section occ = Some occ' ->
  ruled (done ++ [(course, section)]) (testSchedule occ').
Proof.
  intros Hplan [P1 [P2 P3]] Hsec.
  assert (Hfresh : ~ In (Course.id course, Some section) (map pairKey done)).
  { pose proof (planOf_distinct courses (fun c H => H) courses_distinct) as Hnd.
    rewrite Hplan, map_app in Hnd. cbn [map] in Hnd.
    apply NoDup_remove_2 in Hnd. intros H. apply Hnd. apply in_or_app. now left. }
  destruct (PlacementFacts.scheduleSection_kept teachers rooms timeSlots localeCompare
              course section
              (fun occ st => ruledIn done course section (testSchedule occ) (demand st)))
    with (subjectsForCourse := subjectsOf course) (occ := occ) (occ' := occ')
    as [st' [I1 [I2 [I3 [I4 I5]]]]]; auto.
  - intros day slot idx d teacher room occ0 st _ _ Hsd Hd Hrem Hused _ _ _ _ _ _ _ H.
    now apply placed_ruled.
  - split; [|split; [|split; [|split]]]; auto.
    + unfold startOf. cbn [demand]. rewrite map_map. cbn [subject].
      apply subjectsOf_distinct.
    + intros d Hd. unfold startOf in Hd. cbn [demand] in Hd.
      apply in_map_iff in Hd as [s [<- Hs]]. cbn [subject remaining].
      apply (PlacementFacts.subjectsOf_In constraints subjects) in Hs as [Hs _].
      apply filter_In in Hs as [Hs _]. split; [assumption|].
      rewrite sessionsOf_none.
      * unfold wanted. destruct (Subject.type s); simpl; lia.
      * intros c Hc [E _]. apply Hfresh. rewrite <- E. now apply P1.
  - split; [|split].
    + intros c Hc. rewrite map_app. apply in_or_app.
      destruct (I1 c Hc) as [H | [H _]]; [now left|]. right. rewrite H. now left.
    + assumption.
    + intros courseId sec subjectId Hin. rewrite map_app in Hin.
      apply in_app_or in Hin as [Hin | [[= <- <-] | []]]; [now apply I5|].
      cbn [fst snd].
      destruct (in_dec string_dec subjectId
                  (map (fun d => Subject.id (subject d)) (demand st'))) as [Hid | Hid].
      * apply in_map_iff in Hid as [d [<- Hd]]. destruct (I4 d Hd) as [G1 [G2 G3]].
        split.
        -- unfold wanted in G3. destruct (Subject.type (subject d)); lia.
        -- intros s Hs E Hlab. rewrite (subject_by_id s (subject d) Hs G1 E) in Hlab.
           unfold wanted in G3. rewrite Hlab in G3. lia.
      * unfold HybridOptimizer.withinWeek.
        rewrite sessionsOf_none; [split; intros; simpl; lia|].
        intros c Hc [E1 E2]. destruct (I1 c Hc) as [H | [_ [d [Hd [Hs _]]]]].
        -- apply Hfresh. now rewrite <- E1.
        -- apply Hid. apply in_map_iff. exists d. split; [congruence | assumption].
Qed.

Lemma buildTestSchedule_ruled schedule :
  buildTestSchedule = Returned schedule ->
  NoDup (map subjectDay schedule)
  /\ forall courseId section subjectId,
       withinWeek courseId section subjectId schedule.
Proof.
  intros Hb.
  destruct (PlacementFacts.buildTestSchedule_kept courses teachers rooms timeSlots
              constraints subjects localeCompare
              (fun done occ => ruled done (testSchedule occ))) with
    (schedule := schedule) as [-> | [occ [<- [P1 [P2 P3]]]]]; auto.
  - intros done course section rest occ occ'. apply scheduleSection_ruled.
  - split; [|split]; simpl; [intros c [] | constructor | intros ? ? ? []].
  - split; [constructor|]. intros. split; intros; simpl; lia.
  - split; [assumption|]. intros courseId section subjectId.
    assert (Hdec : forall x y : string * option string, {x = y} + {x <> y})
      by (repeat decide equality; apply string_dec).
    destruct (in_dec Hdec (courseId, Some section) (map pairKey (planOf courses)))
      as [Hin | Hin]; [now apply P3|].
    unfold HybridOptimizer.withinWeek. rewrite sessionsOf_none;
      [split; intros; simpl; lia|].
    intros c Hc [E _]. apply Hin. rewrite <- E. now apply P1.
Qed.

(** When the ids of the courses, the sections of each course and the ids
    of the subjects are pairwise distinct, no section has two classes of
    the same subject on one day in a schedule returned by [optimize]. *)
Theorem optimize_never_repeats_a_subject_on_a_day (params : GeneticAlgorithmParams.t)
  (result : OptimizationResult.t) :
  snd (optimize params) = Returned result ->
  NoDup (map subjectDay (OptimizationResult.schedule result)).
Proof.
  intros Hret.
  destruct (OptimizeFacts.optimize_returned _ _ _ _ _ _ _ _ _ Hret) as [schedule [E ->]].
  exact (proj1 (buildTestSchedule_ruled schedule E)).
Qed.

(** Under the same conditions a schedule returned by [optimize] has at
    most two classes of a subject for a section, and at most one when the
    subject is a lab. *)
Theorem optimize_keeps_weekly_sessions (params : GeneticAlgorithmParams.t)
  (result : OptimizationResult.t) (courseId section subjectId : string) :
  snd (optimize params) = Returned result ->
  (List.length
     (sessionsOf courseId section subjectId (OptimizationResult.schedule result)) <= 2)%nat
  /\ forall s, In s subjects -> Subject.id s = subjectId -> Subject.type s = lab ->
       (List.length
          (sessionsOf courseId section subjectId (OptimizationResult.schedule result))
        <= 1)%nat.
Proof.
  intros Hret.
  destruct (OptimizeFacts.optimize_returned _ _ _ _ _ _ _ _ _ Hret) as [schedule [E ->]].
  exact (proj2 (buildTestSchedule_ruled schedule E) courseId section subjectId).
Qed.

End Facts.

(** On [Inputs.weekResult] no section is in two classes of a slot. *)
Lemma optimize_never_double_books_a_section_witness :
  NoDup (map sectionSlot (OptimizationResult.schedule Inputs.weekResult)).
Proof.
  apply (optimize_never_double_books_a_section Inputs.sectionA Inputs.oneTeacher
           Inputs.oneRoom Inputs.weekSlots Inputs.noConstraints Inputs.twoSubjects
           Runtime.codeUnitCompare Inputs.params Inputs.weekResult).
  vm_compute. reflexivity.
Defined.

Lemma week_ids_distinct :
  NoDup (map Course.id Inputs.sectionA)
  /\ (forall course sections,
        In course Inputs.sectionA -> Course.sections course = Some sections ->
        NoDup sections)
  /\ NoDup (map Subject.id Inputs.twoSubjects).
Proof.
  split; [|split].
  - constructor; [intros [] | constructor].
  - intros course sections [<- | []] [= <-]. constructor; [intros [] | constructor].
  - constructor; [intros [H | []]; discriminate|].
    constructor; [intros [] | constructor].
Qed.

(** On [Inputs.weekResult] algebra and logic are each on two different
    days. *)
Lemma optimize_never_repeats_a_subject_on_a_day_witness :
  NoDup (map subjectDay (OptimizationResult.schedule Inputs.weekResult)).
Proof.
  apply (optimize_never_repeats_a_subject_on_a_day Inputs.sectionA Inputs.oneTeacher
           Inputs.oneRoom Inputs.weekSlots Inputs.noConstraints Inputs.twoSubjects
           Runtime.codeUnitCompare (proj1 week_ids_distinct)
           (proj1 (proj2 week_ids_distinct)) (proj2 (proj2 week_ids_distinct))
           Inputs.params Inputs.weekResult).
  vm_compute. reflexivity.
Defined.

(** On [Inputs.weekResult] algebra has its two classes for section A. *)
Lemma optimize_keeps_weekly_sessions_witness :
  (List.length
     (sessionsOf "c1" "A" "algebra" (OptimizationResult.schedule Inputs.weekResult))
   <= 2)%nat
  /\ forall s, In s Inputs.twoSubjects -> Subject.id s = "algebra" ->
       Subject.type s = lab ->
       (List.length
          (sessionsOf "c1" "A" "algebra" (OptimizationResult.schedule Inputs.weekResult))
        <= 1)%nat.
Proof.
  apply (optimize_keeps_weekly_sessions Inputs.sectionA Inputs.oneTeacher
           Inputs.oneRoom Inputs.weekSlots Inputs.noConstraints Inputs.twoSubjects
           Runtime.codeUnitCompare (proj1 week_ids_distinct)
           (proj1 (proj2 week_ids_distinct)) (proj2 (proj2 week_ids_distinct))
           Inputs.params Inputs.weekResult "c1" "A" "algebra").
  vm_compute. reflexivity.
Defined.

End RuleFacts.

(** ** Selection and offspring *)

Module SelectionFacts.

Import Basics Evolution.

(** *** Sorting and taking out *)

Lemma insertBy_perm {A : Type} (cmp : A -> A -> comparison) (x : A) (l : list A) :
  Permutation (insertBy cmp x l) (x :: l).
Proof.
  induction l as [|y l IH]; simpl; [reflexivity|].
  destruct (cmp x y); try reflexivity.
  rewrite IH. apply perm_swap.
Qed.

Lemma sortBy_perm {A : Type} (cmp : A -> A -> comparison) (l : list A) :
  Permutation (sortBy cmp l) l.
Proof.
  unfold sortBy. induction l as [|x l IH]; simpl; [reflexivity|].
  rewrite insertBy_perm. now constructor.
Qed.

Lemma removeAt_perm {A : Type} (l : list A) : forall i x,
  nth_error l i = Some x -> Permutation l (x :: removeAt i l).
Proof.
  induction l as [|y l IH]; intros [|i] x; simpl; try discriminate.
  - now intros [= ->].
  - intros H. rewrite (IH i x H) at 1. apply perm_swap.
Qed.

Lemma mostDiverse_bound h selected remaining : forall i maxDiversity bestIndex,
  (bestIndex < i + List.length remaining)%nat ->
  (mostDiverse h selected remaining i maxDiversity bestIndex
   < i + List.length remaining)%nat.
Proof.
  induction remaining as [|candidate remaining IH]; intros i maxDiversity bestIndex Hb;
    simpl; [assumption|].
  simpl in Hb. destruct (Qlt_le_dec maxDiversity _).
  - replace (i + S (List.length remaining))%nat with (S i + List.length remaining)%nat
      by lia.
    apply IH. lia.
  - replace (i + S (List.length remaining))%nat with (S i + List.length remaining)%nat
      by lia.
    apply IH. lia.
Qed.

(** The loop moves every individual of [remaining] to [selected]. *)
Lemma addDiverse_spec h rounds : forall selected remaining,
  (List.length remaining <= rounds)%nat ->
  exists rest,
    addDiverse rounds h (List.length selected + List.length remaining) selected remaining
    = selected ++ rest
    /\ Permutation rest remaining.
Proof.
  induction rounds as [|rounds IH]; intros selected remaining Hr.
  - destruct remaining; [|simpl in Hr; lia]. exists []. simpl.
    now rewrite app_nil_r.
  - cbn [addDiverse]. destruct remaining as [|first remaining].
    + exists []. rewrite app_nil_r. split; [|reflexivity].
      destruct (_ <? _)%nat; reflexivity.
    + assert (Hlt : (List.length selected
                     <? List.length selected + List.length (first :: remaining))%nat
                    = true) by (apply Nat.ltb_lt; simpl; lia).
      rewrite Hlt.
      pose proof (mostDiverse_bound h selected (first :: remaining) 0 (-1) 0) as Hb.
      set (bestIndex := mostDiverse h selected (first :: remaining) 0 (-1) 0) in *.
      assert (Hb' : (bestIndex < List.length (first :: remaining))%nat)
        by (apply Hb; simpl; lia).
      destruct (nth_error (first :: remaining) bestIndex) as [chosen|] eqn:E;
        [|apply nth_error_None in E; lia].
      pose proof (removeAt_perm _ _ _ E) as Hp.
      pose proof (Permutation_length Hp) as Hlen. cbn [List.length] in Hlen.
      destruct (IH (selected ++ [chosen]) (removeAt bestIndex (first :: remaining)))
        as [rest [H1 H2]]; [simpl in Hr; lia|].
      replace (List.length (selected ++ [chosen])
               + List.length (removeAt bestIndex (first :: remaining)))%nat
        with (List.length selected + List.length (first :: remaining))%nat in H1
        by (rewrite length_app; simpl; lia).
      exists (chosen :: rest). rewrite H1, <- app_assoc. split; [reflexivity|].
      rewrite Hp. now constructor.
Qed.

(** [diversityPreservingSelection] selects nothing: it returns the whole
    population, every individual once, the [eliteSize] fittest first in
    the order of the sort and the others after them in some order. *)
Theorem diversity_selection_keeps_everyone (h : list ClassSchedule.t)
  (population : list Individual.t) (eliteSize : Z) :
  let sorted := sortBy byFitness population in
  exists rest,
    diversityPreservingSelection h population eliteSize
    = slice sorted 0 eliteSize ++ rest
    /\ Permutation rest (sliceFrom sorted eliteSize)
    /\ Permutation (diversityPreservingSelection h population eliteSize) population.
Proof.
  intros sorted. unfold diversityPreservingSelection. fold sorted.
  assert (Hsplit : slice sorted 0 eliteSize ++ sliceFrom sorted eliteSize = sorted).
  { unfold slice, sliceFrom.
    replace (clampIndex 0 (List.length sorted)) with 0%nat by reflexivity.
    rewrite Nat.sub_0_r. cbn [skipn]. apply firstn_skipn. }
  destruct (addDiverse_spec h (List.length (sliceFrom sorted eliteSize))
              (slice sorted 0 eliteSize) (sliceFrom sorted eliteSize) (le_n _))
    as [rest [H1 H2]].
  rewrite <- length_app, Hsplit in H1. exists rest. rewrite H1.
  split; [reflexivity|]. split; [assumption|].
  rewrite H2, Hsplit. apply sortBy_perm.
Qed.

(** *** The difference of two schedules *)

Lemma fold_add_extends (l : list string) : forall acc,
  exists more, fold_left add l acc = acc ++ more.
Proof.
  induction l as [|x l IH]; intros acc; simpl.
  - exists []. now rewrite app_nil_r.
  - unfold add at 2. destruct (has acc x); [apply IH|].
    destruct (IH (acc ++ [x])) as [more ->]. exists (x :: more).
    now rewrite <- app_assoc.
Qed.

Lemma fold_add_has (l : list string) : forall acc x,
  has acc x = true -> has (fold_left add l acc) x = true.
Proof.
  induction l as [|y l IH]; intros acc x H; simpl; [assumption|].
  apply IH. apply has_add_intro. now left.
Qed.

Lemma fold_add_all (l : list string) : forall acc x,
  In x l -> has (fold_left add l acc) x = true.
Proof.
  induction l as [|y l IH]; intros acc x; simpl; [tauto|].
  intros [-> | H]; [|now apply IH].
  apply fold_add_has. apply has_add_intro. now right.
Qed.

Lemma fold_add_known (l : list string) : forall acc,
  (forall x, In x l -> has acc x = true) -> fold_left add l acc = acc.
Proof.
  induction l as [|y l IH]; intros acc H; simpl; [reflexivity|].
  unfold add at 2. rewrite (H y (or_introl eq_refl)). apply IH.
  intros x Hx. apply H. now right.
Qed.

Lemma fold_add_from (l : list string) : forall acc x,
  In x (fold_left add l acc) -> In x acc \/ In x l.
Proof.
  induction l as [|y l IH]; intros acc x; simpl; [now left|].
  intros H. apply IH in H as [H | H]; [|now right; right].
  unfold add in H. destruct (has acc y); [now left|].
  apply in_app_or in H as [H | [<- | []]]; [now left | right; now left].
Qed.

Lemma one_minus_ratio (a b : Z) : (0 <= a <= b)%Z -> (0 < b)%Z ->
  0 <= 1 - inject_Z a / inject_Z b <= 1.
Proof.
  intros Ha Hb. destruct (ScoreFacts.ratio_bounds a b Ha Hb) as [H1 H2]. split.
  - unfold Qminus. rewrite <- (Qplus_opp_r 1).
    apply Qplus_le_compat; [apply Qle_refl | now apply Qopp_le_compat].
  - rewrite <- (Qplus_0_r 1) at 2. unfold Qminus.
    apply Qplus_le_compat; [apply Qle_refl|].
    rewrite <- (Qopp_involutive 0). apply Qopp_le_compat. exact H1.
Qed.

Lemma calculateScheduleDifference_bounds (schedule1 schedule2 : list ClassSchedule.t) :
  0 <= calculateScheduleDifference schedule1 schedule2 <= 1.
Proof.
  unfold calculateScheduleDifference.
  set (set1 := fold_left add (map signature schedule1) []).
  set (set2 := fold_left add (map signature schedule2) []).
  destruct (fold_add_extends set2 set1) as [more Hu].
  pose proof (filter_length_le (has set2) set1) as Hle.
  pose proof (f_equal (@List.length string) Hu) as Hlen. rewrite length_app in Hlen.
  destruct (fold_left add set2 set1) as [|u union]; [split; discriminate|].
  unfold size. apply one_minus_ratio; [lia | simpl; lia].
Qed.

Lemma filter_all {A : Type} (p : A -> bool) (l : list A) :
  (forall x, In x l -> p x = true) -> filter p l = l.
Proof.
  induction l as [|y l IH]; intros Hl; simpl; [reflexivity|].
  rewrite (Hl y (or_introl eq_refl)). f_equal. apply IH.
  intros z Hz. apply Hl. now right.
Qed.

Lemma difference_sum (f : Individual.t -> Q) (l : list Individual.t) :
  (forall x, 0 <= f x <= 1) ->
  forall total n, 0 <= total <= inject_Z (Z.of_nat n) ->
    0 <= fold_left (fun total other => total + f other) l total
    <= inject_Z (Z.of_nat (n + List.length l)).
Proof.
  intros Hf. induction l as [|o l IH]; intros total n Ht; simpl.
  - now rewrite Nat.add_0_r.
  - replace (n + S (List.length l))%nat with (S n + List.length l)%nat by lia.
    apply IH. destruct Ht as [H1 H2]. destruct (Hf o) as [H3 H4]. split.
    + rewrite <- (Qplus_0_r 0). now apply Qplus_le_compat.
    + rewrite Nat2Z.inj_succ. unfold Z.succ. rewrite inject_Z_plus.
      now apply Qplus_le_compat.
Qed.

(** [calculateScheduleDifference] is a number from 0 to 1, and 0 for two
    schedules with the same classes; so the diversity of an individual
    with respect to a population is a number from 0 to 1 as well. *)
Theorem schedule_difference_between_0_and_1 (h : list ClassSchedule.t)
  (schedule1 schedule2 : list ClassSchedule.t) (individual : Individual.t)
  (others : list Individual.t) :
  0 <= calculateScheduleDifference schedule1 schedule2 <= 1
  /\ calculateScheduleDifference schedule1 schedule1 == 0
  /\ 0 <= calculateDiversity h individual others <= 1.
Proof.
  split; [apply calculateScheduleDifference_bounds|]. split.
  - unfold calculateScheduleDifference.
    set (set1 := fold_left add (map signature schedule1) []).
    assert (Hall : forall x, In x set1 -> has set1 x = true)
      by (intros x Hx; now apply has_true_iff).
    rewrite (fold_add_known set1 set1 Hall), (filter_all _ _ Hall).
    destruct set1 as [|x set1']; [reflexivity|].
    assert (Hne : ~ size (x :: set1') == 0).
    { intros H. pose proof (ScoreFacts.size_pos x set1') as Hp.
      rewrite H in Hp. discriminate. }
    field. exact Hne.
  - unfold calculateDiversity. destruct others as [|other others]; [split; discriminate|].
    destruct (difference_sum
                (fun other =>
                   calculateScheduleDifference
                     (valuesIn h (Individual.schedule individual))
                     (valuesIn h (Individual.schedule other)))
                (other :: others)
                (fun x => calculateScheduleDifference_bounds _ _) 0 0) as [H1 H2];
      [split; apply Qle_refl|].
    pose proof (ScoreFacts.size_pos other others) as Hpos. unfold size in *.
    cbn [Nat.add] in H2. split.
    + apply Qle_shift_div_l; [assumption|]. now rewrite Qmult_0_l.
    + apply Qle_shift_div_r; [assumption|]. now rewrite Qmult_1_l.
Qed.

End SelectionFacts.

Module OffspringFacts.

Import Basics Evolution EvolutionFacts.

Lemma valuesIn_app (h new : list ClassSchedule.t) (schedule : list nat) :
  (forall l, In l schedule -> (l < List.length h)%nat) ->
  valuesIn (h ++ new) schedule = valuesIn h schedule.
Proof.
  induction schedule as [|l schedule IH]; intros H; simpl; [reflexivity|].
  rewrite nth_error_app1 by (apply H; now left).
  rewrite IH; [reflexivity|]. intros l' Hl'. apply H. now right.
Qed.

Lemma valuesIn_snoc (h : list ClassSchedule.t) (schedule : list nat) (l : nat)
  (c : ClassSchedule.t) :
  nth_error h l = Some c -> valuesIn h (schedule ++ [l]) = valuesIn h schedule ++ [c].
Proof.
  intros H. unfold valuesIn. rewrite flat_map_app. simpl. now rewrite H.
Qed.

Section Facts.

Variable courses : list Course.t.
Variable teachers : list Teacher.t.
Variable rooms : list Room.t.
Variable timeSlots : list TimeSlot.t.
Variable constraints : TimetableConstraints.t.
Variable subjects : list Subject.t.
Variable parseDate : string -> option Z.
Variable localeCompare : string -> string -> comparison.
Variable random : nat -> Q.

Abbreviation repairLoop := (Evolution.repairLoop teachers timeSlots parseDate).
Abbreviation repairSchedule := (Evolution.repairSchedule teachers timeSlots parseDate).
Abbreviation calculateFitness :=
  (Evolution.calculateFitness courses teachers rooms timeSlots constraints subjects
     parseDate localeCompare).
Abbreviation makeChildren :=
  (Evolution.makeChildren courses teachers rooms timeSlots constraints subjects parseDate
     localeCompare).
Abbreviation crossover :=
  (Evolution.crossover courses teachers rooms timeSlots constraints subjects parseDate
     localeCompare random).
Abbreviation mutate :=
  (Evolution.mutate courses teachers rooms timeSlots constraints subjects parseDate
     localeCompare random).
Abbreviation sound :=
  (Evolution.sound courses teachers rooms timeSlots constraints subjects parseDate
     localeCompare).
Abbreviation addChildren :=
  (Evolution.addChildren courses teachers rooms timeSlots constraints subjects parseDate
     localeCompare random).
Abbreviation fillPopulation :=
  (Evolution.fillPopulation courses teachers rooms timeSlots constraints subjects
     parseDate localeCompare random).
Abbreviation nextPopulation :=
  (Evolution.nextPopulation courses teachers rooms timeSlots constraints subjects
     parseDate localeCompare random).

(** *** Repair by reference *)

Lemma deref_returned l w c w' :
  deref l w = Returned (c, w') -> nth_error (heap w) l = Some c /\ w' = w.
Proof.
  unfold deref. destruct (nth_error (heap w) l); [|discriminate].
  intros [= <- <-]. now split.
Qed.

Lemma world_eta (w : World) : mkWorld (heap w) (draws w) = w.
Proof. now destruct w. Qed.

(** On references into the store, repair returns, leaves every object of
    the store as it is, and makes the classes that the repair of the
    values makes; a relocated class is a new object. *)
Lemma repairLoop_refines todo : forall repaired used w,
  (forall l, In l todo -> (l < List.length (heap w))%nat) ->
  (forall l, In l repaired -> (l < List.length (heap w))%nat) ->
  exists result new,
    repairLoop todo repaired used w
    = Returned (result, mkWorld (heap w ++ new) (draws w))
    /\ valuesIn (heap w ++ new) result
       = fst (GeneticAlgorithm.repairLoop teachers timeSlots parseDate
                (valuesIn (heap w) todo) (valuesIn (heap w) repaired, used))
    /\ (forall l, In l result -> (l < List.length (heap w ++ new))%nat).
Proof.
  induction todo as [|l todo IH]; intros repaired used w Htodo Hvalid.
  - exists repaired, []. cbn [Evolution.repairLoop]. unfold ret.
    rewrite app_nil_r, world_eta. repeat split. assumption.
  - assert (Hl : (l < List.length (heap w))%nat) by (apply Htodo; now left).
    assert (Htodo' : forall l0, In l0 todo -> (l0 < List.length (heap w))%nat)
      by (intros l0 Hl0; apply Htodo; now right).
    destruct (nth_error (heap w) l) as [classItem|] eqn:El;
      [|apply nth_error_None in El; lia].
    assert (Hstep : valuesIn (heap w) (l :: todo) = classItem :: valuesIn (heap w) todo)
      by (cbn [valuesIn flat_map]; now rewrite El).
    rewrite Hstep. unfold GeneticAlgorithm.repairLoop. cbn [fold_left].
    unfold GeneticAlgorithm.repairStep at 2.
    cbn [Evolution.repairLoop]. unfold bind at 1. unfold deref at 1. rewrite El.
    unfold bind at 1. unfold Evolution.values at 1.
    destruct (negb (has used (GeneticAlgorithm.slotKey classItem))).
    + destruct (GeneticAlgorithm.detectConflictsForClass parseDate classItem
                  (valuesIn (heap w) repaired)) as [|conflict conflicts].
      * destruct (IH (repaired ++ [l]) (add used (GeneticAlgorithm.slotKey classItem)) w)
          as [result [new [H1 [H2 H3]]]]; auto.
        { intros l0 Hl0. apply in_app_or in Hl0 as [Hl0 | [<- | []]]; auto. }
        exists result, new. split; [assumption|]. split; [|assumption].
        rewrite H2. now rewrite (valuesIn_snoc _ _ _ _ El).
      * destruct (GeneticAlgorithm.findAlternativeSlot teachers timeSlots parseDate
                    classItem (valuesIn (heap w) repaired)) as [repairedClass|].
        -- unfold bind at 1. unfold alloc at 1.
           destruct (IH (repaired ++ [List.length (heap w)])
                       (add used (GeneticAlgorithm.slotKey repairedClass))
                       (mkWorld (heap w ++ [repairedClass]) (draws w)))
             as [result [new [H1 [H2 H3]]]]; cbn [heap draws] in *.
           { intros l0 Hl0. rewrite length_app. specialize (Htodo' l0 Hl0). lia. }
           { intros l0 Hl0. rewrite length_app. simpl.
             apply in_app_or in Hl0 as [Hl0 | [<- | []]]; [|lia].
             specialize (Hvalid l0 Hl0). lia. }
           exists result, (repairedClass :: new).
           rewrite <- app_assoc in H1, H2, H3. cbn [app] in H1, H2, H3.
           split; [assumption|]. split; [|assumption].
           rewrite H2, (valuesIn_app (heap w) [repairedClass] todo Htodo').
           rewrite (valuesIn_snoc _ _ _ repairedClass).
           ++ now rewrite (valuesIn_app (heap w) [repairedClass] repaired).
           ++ rewrite nth_error_app2, Nat.sub_diag by lia. reflexivity.
        -- now apply IH.
    + now apply IH.
Qed.

(** On valid references [repairSchedule] returns; it leaves the objects of
    the store as they are and draws no random number; the classes of its
    result are those of the repair of the classes referred to, a relocated
    class being a new object at the end of the store; and they are free of
    conflicts. *)
Theorem repair_by_reference_makes_new_objects (schedule : list nat) (w : World) :
  (forall l, In l schedule -> (l < List.length (heap w))%nat) ->
  exists result new,
    repairSchedule schedule w = Returned (result, mkWorld (heap w ++ new) (draws w))
    /\ valuesIn (heap w ++ new) result
       = GeneticAlgorithm.repairSchedule teachers timeSlots parseDate
           (valuesIn (heap w) schedule)
    /\ GeneticAlgorithm.detectConflicts parseDate (valuesIn (heap w ++ new) result) = [].
Proof.
  intros Hvalid.
  destruct (repairLoop_refines schedule [] [] w Hvalid) as [result [new [H1 [H2 _]]]];
    [intros l []|].
  exists result, new. split; [exact H1|]. split; [exact H2|].
  rewrite H2. now apply RepairFacts.run_conflict_free.
Qed.

(** *** Mutation keeps the objects of the store in place *)

Lemma bind_steady {A B : Type} (m : M A) (k : A -> M B) :
  steady m -> (forall a, steady (k a)) -> steady (bind m k).
Proof.
  intros Hm Hk w b w' H. apply bind_returned in H as [a [w1 [H1 H2]]].
  rewrite (Hk a _ _ _ H2). exact (Hm _ _ _ H1).
Qed.

Lemma ret_steady {A : Type} (a : A) : steady (ret a).
Proof. intros w a' w'. unfold ret. now intros [= _ <-]. Qed.

Lemma typeError_steady {A : Type} : steady (@typeError A).
Proof. intros w a w'. discriminate. Qed.

Lemma deref_steady l : steady (deref l).
Proof. intros w c w' H. now apply deref_returned in H as [_ ->]. Qed.

Lemma replaceAt_length {A : Type} (l : list A) : forall i x,
  List.length (replaceAt i x l) = List.length l.
Proof.
  induction l as [|y l IH]; intros [|i] x; simpl; auto.
Qed.

Lemma store_steady l c : steady (store l c).
Proof.
  intros w u w'. unfold store. intros [= _ <-]. cbn [heap]. apply replaceAt_length.
Qed.

Lemma item_steady {A : Type} (l : list A) i : steady (item l i).
Proof. intros w x w' H. now apply item_returned in H as [_ ->]. Qed.

Lemma mathRandom_steady : steady (mathRandom random).
Proof. intros w r w'. unfold mathRandom. now intros [= _ <-]. Qed.

Create HintDb steady.
#[local] Hint Resolve ret_steady typeError_steady deref_steady store_steady item_steady
  mathRandom_steady : steady.

Ltac keep :=
  match goal with
  | |- steady (bind _ _) => apply bind_steady; [|intros ?]
  | |- steady (if ?b then _ else _) => destruct b
  | |- steady (match ?x with _ => _ end) => destruct x
  | |- steady _ => solve [auto with steady]
  end.

Lemma randomIndex_steady n : steady (randomIndex random n).
Proof. unfold randomIndex. repeat keep. Qed.
#[local] Hint Resolve randomIndex_steady : steady.

Lemma mutateLoop_steady todo : forall i schedule rate,
  steady (mutateLoop teachers rooms timeSlots subjects random todo i schedule rate).
Proof.
  induction todo as [|todo IH]; intros i schedule rate; cbn [mutateLoop];
    unfold mutateTimeSlot, mutateRoom, mutateTeacher, swapMutation; repeat keep.
Qed.

(** *** Offspring *)

Lemma finiteNumber_returned x w q w' :
  finiteNumber x w = Returned (q, w') -> w' = w /\ x = finite q.
Proof. destruct x; simpl; try discriminate. unfold ret. intros [= <- <-]. now split. Qed.

Lemma calculateFitness_returned schedule w fitness w' :
  calculateFitness schedule w = Returned (fitness, w') ->
  w' = w
  /\ GeneticAlgorithm.calculateFitness courses teachers rooms timeSlots constraints
       subjects parseDate localeCompare (valuesIn (heap w) schedule)
     = finite fitness.
Proof. unfold Evolution.calculateFitness. apply finiteNumber_returned. Qed.

(** The individual [mutate] returns is free of conflicts, and its fitness
    is the fitness of its classes as they are when it is returned. *)
Theorem mutated_individual_is_sound (individual : Individual.t) (mutationRate : Q)
  (w : World) (mutated : Individual.t) (w' : World) :
  allocated (heap w) individual ->
  mutate individual mutationRate w = Returned (mutated, w') ->
  sound (heap w') mutated /\ allocated (heap w') mutated.
Proof.
  intros Hvalid H. unfold Evolution.mutate in H.
  apply bind_returned in H as [rate [w0 [Hrate H]]].
  apply finiteNumber_returned in Hrate as [-> _].
  apply bind_returned in H as [u [w1 [Hloop H]]].
  apply mutateLoop_steady in Hloop.
  apply bind_returned in H as [repaired [w2 [Hrepair H]]].
  apply bind_returned in H as [fitness [w3 [Hfit H]]].
  apply calculateFitness_returned in Hfit as [-> Hfit].
  unfold ret in H. injection H as <- <-.
  destruct (repairLoop_refines (Individual.schedule individual) [] [] w1)
    as [result [new [H1 [H2 H3]]]].
  - intros l Hl. rewrite Hloop. now apply Hvalid.
  - intros l [].
  - unfold Evolution.repairSchedule in Hrepair. rewrite H1 in Hrepair.
    injection Hrepair as <- <-. cbn [heap] in *.
    split; [split|]; cbn [Individual.schedule Individual.fitness].
    + rewrite H2. now apply RepairFacts.run_conflict_free.
    + assumption.
    + exact H3.
Qed.

Lemma makeChildren_sound s1 s2 w children w' :
  (forall l, In l s1 -> (l < List.length (heap w))%nat) ->
  (forall l, In l s2 -> (l < List.length (heap w))%nat) ->
  makeChildren s1 s2 w = Returned (children, w') ->
  forall child, In child children ->
    sound (heap w') child /\ allocated (heap w') child.
Proof.
  intros Hs1 Hs2 H. unfold Evolution.makeChildren in H.
  apply bind_returned in H as [r1 [w1 [Hr1 H]]].
  apply bind_returned in H as [r2 [w2 [Hr2 H]]].
  apply bind_returned in H as [f1 [w3 [Hf1 H]]].
  apply calculateFitness_returned in Hf1 as [-> Hf1].
  apply bind_returned in H as [f2 [w3 [Hf2 H]]].
  apply calculateFitness_returned in Hf2 as [-> Hf2].
  unfold ret in H. injection H as <- <-.
  destruct (repairLoop_refines s1 [] [] w Hs1) as [x1 [new1 [A1 [A2 A3]]]];
    [intros l []|].
  unfold Evolution.repairSchedule in Hr1. rewrite A1 in Hr1. injection Hr1 as <- <-.
  destruct (repairLoop_refines s2 [] [] (mkWorld (heap w ++ new1) (draws w)))
    as [x2 [new2 [B1 [B2 B3]]]]; cbn [heap draws] in *.
  { intros l Hl. rewrite length_app. specialize (Hs2 l Hl). lia. }
  { intros l []. }
  unfold Evolution.repairSchedule in Hr2. rewrite B1 in Hr2. injection Hr2 as <- <-.
  cbn [heap] in *.
  intros child [<- | [<- | []]]; (split; [split|]);
    cbn [Individual.schedule Individual.fitness]; try assumption.
  - rewrite (valuesIn_app _ new2 x1 A3), A2. now apply RepairFacts.run_conflict_free.
  - intros l Hl. rewrite length_app. specialize (A3 l Hl). lia.
  - rewrite B2. now apply RepairFacts.run_conflict_free.
Qed.

Lemma uniformLoop_refs todo : forall i s1 s2 c1 c2 w r w',
  uniformLoop random todo i s1 s2 c1 c2 w = Returned (r, w') ->
  List.length (heap w') = List.length (heap w)
  /\ forall l, In l (fst r) \/ In l (snd r) ->
       In l c1 \/ In l c2 \/ In l s1 \/ In l s2.
Proof.
  induction todo as [|todo IH]; intros i s1 s2 c1 c2 w r w'; cbn [uniformLoop].
  - unfold ret. intros [= <- <-]. split; [reflexivity|]. cbn [fst snd]. tauto.
  - intros H. apply bind_returned in H as [x [w1 [Hx H]]].
    apply mathRandom_steady in Hx. apply IH in H as [H1 H2].
    split; [congruence|]. intros l Hl. specialize (H2 l Hl).
    assert (H1' : forall k, nth_error s1 i = Some k -> In k s1)
      by (intros k; apply nth_error_In).
    assert (H2' : forall k, nth_error s2 i = Some k -> In k s2)
      by (intros k; apply nth_error_In).
    destruct (Qlt_le_dec x (1 # 2)), (nth_error s1 i) as [k1|], (nth_error s2 i) as [k2|];
      repeat match goal with
             | H : _ \/ _ |- _ => destruct H
             | H : In _ (_ ++ [_]) |- _ => apply in_app_or in H as [H | [<- | []]]
             end; auto 6.
Qed.

Lemma firstn_In {A : Type} (n : nat) (l : list A) (x : A) : In x (firstn n l) -> In x l.
Proof.
  intros H. rewrite <- (firstn_skipn n l). apply in_or_app. now left.
Qed.

Lemma skipn_In {A : Type} (n : nat) (l : list A) (x : A) : In x (skipn n l) -> In x l.
Proof.
  intros H. rewrite <- (firstn_skipn n l). apply in_or_app. now right.
Qed.

(** The two children of a crossover are free of conflicts and have the
    fitness of their classes as they are when the children are returned,
    unless one of the parents is empty and the crossover returns the two
    parents as they are. *)
Theorem crossover_children_are_sound (parent1 parent2 : Individual.t) (w : World)
  (children : list Individual.t) (w' : World) :
  allocated (heap w) parent1 -> allocated (heap w) parent2 ->
  crossover parent1 parent2 w = Returned (children, w') ->
  children = [parent1; parent2]
  \/ forall child, In child children ->
       sound (heap w') child /\ allocated (heap w') child.
Proof.
  intros Hp1 Hp2.
  assert (Hmix : forall (w0 : World) s1 s2,
            List.length (heap w0) = List.length (heap w) ->
            (forall l, In l s1 \/ In l s2 ->
               In l (Individual.schedule parent1) \/ In l (Individual.schedule parent2)) ->
            makeChildren s1 s2 w0 = Returned (children, w') ->
            forall child, In child children ->
              sound (heap w') child /\ allocated (heap w') child).
  { intros w0 s1 s2 Hlen Hrefs. apply makeChildren_sound.
    - intros l Hl. rewrite Hlen. destruct (Hrefs l (or_introl Hl)); auto.
    - intros l Hl. rewrite Hlen. destruct (Hrefs l (or_intror Hl)); auto. }
  assert (Hsingle : forall w0,
            List.length (heap w0) = List.length (heap w) ->
            singlePointCrossover courses teachers rooms timeSlots constraints subjects
              parseDate localeCompare random parent1 parent2 w0 = Returned (children, w') ->
            children = [parent1; parent2]
            \/ forall child, In child children ->
                 sound (heap w') child /\ allocated (heap w') child).
  { intros w0 Hlen. unfold singlePointCrossover. destruct (_ =? 0)%nat.
    - unfold ret. intros [= <- _]. now left.
    - intros H. right. apply bind_returned in H as [point [w1 [Hpoint H]]].
      apply randomIndex_steady in Hpoint. revert H. apply Hmix; [congruence|].
      intros l [Hl | Hl]; apply in_app_or in Hl as [Hl | Hl];
        (apply firstn_In in Hl || apply skipn_In in Hl); auto. }
  unfold Evolution.crossover. intros H.
  apply bind_returned in H as [strategy [w1 [Hstrategy H]]].
  apply mathRandom_steady in Hstrategy.
  destruct (Qlt_le_dec strategy (4 # 10)); [|destruct (Qlt_le_dec strategy (7 # 10))].
  - right. unfold uniformCrossover in H. apply bind_returned in H as [pair [w2 [Hpair H]]].
    apply uniformLoop_refs in Hpair as [Hlen Hrefs]. revert H.
    apply Hmix; [congruence|]. intros l Hl.
    destruct (Hrefs l Hl) as [[] | [[] | Hr]]. exact Hr.
  - unfold twoPointCrossover in H. destruct (_ <? 2)%nat; [now apply Hsingle in H|].
    right. apply bind_returned in H as [point1 [w2 [Hpoint1 H]]].
    apply bind_returned in H as [point2 [w3 [Hpoint2 H]]].
    apply randomIndex_steady in Hpoint1, Hpoint2. revert H.
    apply Hmix; [congruence|].
    intros l [Hl | Hl]; apply in_app_or in Hl as [Hl | Hl];
      try (apply in_app_or in Hl as [Hl | Hl]);
      repeat (apply firstn_In in Hl || apply skipn_In in Hl); auto.
  - now apply Hsingle in H.
Qed.

(** *** The size of the population *)

Lemma addChildren_size children : forall size rate newPopulation w result w',
  addChildren children size rate newPopulation w = Returned (result, w') ->
  (Z.of_nat (List.length newPopulation) <= Z.of_nat (List.length result)
   <= Z.max size (Z.of_nat (List.length newPopulation)))%Z.
Proof.
  induction children as [|child children IH]; intros size rate newPopulation w result w';
    cbn [Evolution.addChildren].
  - unfold ret. intros [= <- _]. lia.
  - destruct (Z.of_nat (List.length newPopulation) <? size)%Z eqn:E.
    + apply Z.ltb_lt in E. intros H. apply bind_returned in H as [r [w1 [_ H]]].
      apply bind_returned in H as [mutated [w2 [_ H]]].
      apply IH in H. rewrite length_app in H. simpl in H. lia.
    + apply IH.
Qed.

Lemma fillPopulation_size fuel : forall params rate population newPopulation w result w',
  fillPopulation fuel params rate population newPopulation w = Returned (result, w') ->
  Z.of_nat (List.length result)
  = Z.max (GeneticAlgorithmParams.populationSize params)
      (Z.of_nat (List.length newPopulation)).
Proof.
  induction fuel as [|fuel IH]; intros params rate population newPopulation w result w';
    cbn [Evolution.fillPopulation];
    destruct (_ <? _)%Z eqn:E; try discriminate;
    try (apply Z.ltb_ge in E; unfold ret; intros [= <- _]; lia).
  apply Z.ltb_lt in E. intros H.
  apply bind_returned in H as [parent1 [w1 [_ H]]].
  apply bind_returned in H as [parent2 [w2 [_ H]]].
  apply bind_returned in H as [r [w3 [_ H]]].
  destruct (Qlt_le_dec r (GeneticAlgorithmParams.crossoverRate params)).
  - apply bind_returned in H as [children [w4 [_ H]]].
    apply bind_returned in H as [grown [w5 [Hgrown H]]].
    apply addChildren_size in Hgrown. apply IH in H. lia.
  - apply bind_returned in H as [mutated [w4 [_ H]]].
    apply IH in H. rewrite length_app in H. simpl in H. lia.
Qed.

(** Every generation makes a population of [populationSize] individuals,
    or of [eliteSize] individuals when that is more, whatever the size of
    the population it starts from. *)
Theorem generation_restores_population_size (params : GeneticAlgorithmParams.t)
  (currentMutationRate : Q) (population : list Individual.t) (w : World)
  (population' : list Individual.t) (w' : World) :
  nextPopulation params currentMutationRate population w = Returned (population', w') ->
  Z.of_nat (List.length population')
  = Z.max (GeneticAlgorithmParams.populationSize params)
      (Z.max (GeneticAlgorithmParams.eliteSize params) 0).
Proof.
  intros H. unfold Evolution.nextPopulation in H.
  apply bind_returned in H as [kept [w1 [Hkept H]]].
  apply elites_returned in Hkept as [_ [Hlen _]].
  apply fillPopulation_size in H. rewrite H, Hlen. lia.
Qed.

End Facts.

(** *** The adaptive mutation rate *)

(** With a base rate that is not negative, the adaptive mutation rate of
    a finite fitness is a finite number between the base rate and twice
    the base rate: the base rate from a fitness of 1000 on, and twice the
    base rate up to a fitness of 0. Of a fitness that is [NaN] the rate is
    [NaN]; of the fitness [Infinity] it is the base rate, and of
    [-Infinity] twice the base rate. *)
Theorem adaptive_mutation_rate_bounds (baseMutationRate : Q) :
  0 <= baseMutationRate ->
  (forall fitness, exists rate,
     GeneticAlgorithm.calculateAdaptiveMutationRate (finite fitness) baseMutationRate
     = finite rate
     /\ baseMutationRate <= rate <= 2 * baseMutationRate
     /\ (1000 <= fitness -> rate == baseMutationRate)
     /\ (fitness <= 0 -> rate == 2 * baseMutationRate))
  /\ GeneticAlgorithm.calculateAdaptiveMutationRate NaN baseMutationRate = NaN
  /\ sameNumber
       (GeneticAlgorithm.calculateAdaptiveMutationRate PositiveInfinity baseMutationRate)
       (finite baseMutationRate)
  /\ sameNumber
       (GeneticAlgorithm.calculateAdaptiveMutationRate NegativeInfinity baseMutationRate)
       (finite (2 * baseMutationRate)).
Proof.
  intros Hbase. unfold GeneticAlgorithm.calculateAdaptiveMutationRate.
  split; [|split; [reflexivity | split]].
  2: { change (sameNumber (finite (baseMutationRate * (2 + - Qmax 0 1)))
                 (finite baseMutationRate)).
       change (Qmax 0 1) with 1. simpl. ring. }
  2: { change (sameNumber (finite (baseMutationRate * (2 + - 0)))
                 (finite (2 * baseMutationRate))).
       simpl. ring. }
  intros fitness. eexists. split; [reflexivity|].
  set (n := Qmax 0 (Qmin 1 (fitness / 1000))).
  assert (Hn : 0 <= n <= 1).
  { split; [apply Q.le_max_l|]. apply Q.max_lub; [discriminate | apply Q.le_min_l]. }
  destruct Hn as [Hn0 Hn1]. split; [split|split].
  - apply Qle_minus_iff.
    setoid_replace (baseMutationRate * (2 + - n) + - baseMutationRate)
      with (baseMutationRate * (1 - n)) by ring.
    apply Qmult_le_0_compat; [assumption|]. now apply Qle_minus_iff in Hn1.
  - apply Qle_minus_iff.
    setoid_replace (2 * baseMutationRate + - (baseMutationRate * (2 + - n)))
      with (baseMutationRate * n) by ring.
    now apply Qmult_le_0_compat.
  - intros Hf. assert (E : n == 1).
    { subst n. rewrite Q.min_l.
      - now apply Q.max_r.
      - apply Qle_shift_div_l; [reflexivity|]. now rewrite Qmult_1_l. }
    rewrite E. ring.
  - intros Hf. assert (E : n == 0).
    { subst n. apply Q.max_l. apply Q.min_le_iff. right.
      apply Qle_shift_div_r; [reflexivity|]. now rewrite Qmult_0_l. }
    rewrite E. ring.
Qed.

(** Repair of the ten classes of [Inputs.weekHeap]. *)
Lemma repair_by_reference_makes_new_objects_witness :
  exists result new,
    Evolution.repairSchedule Inputs.weekTeacher Inputs.weekSlots Runtime.isoDate
      (seq 0 10) (mkWorld Inputs.weekHeap 0)
    = Returned (result, mkWorld (Inputs.weekHeap ++ new) 0)
    /\ valuesIn (Inputs.weekHeap ++ new) result
       = GeneticAlgorithm.repairSchedule Inputs.weekTeacher Inputs.weekSlots
           Runtime.isoDate (valuesIn Inputs.weekHeap (seq 0 10))
    /\ GeneticAlgorithm.detectConflicts Runtime.isoDate
         (valuesIn (Inputs.weekHeap ++ new) result)
       = [].
Proof.
  apply (repair_by_reference_makes_new_objects Inputs.weekTeacher Inputs.weekSlots
           Runtime.isoDate (seq 0 10) (mkWorld Inputs.weekHeap 0)).
  intros l Hl. apply in_seq in Hl. vm_compute. lia.
Defined.

Lemma week_allocated : allocated Inputs.weekHeap Inputs.weekIndividual.
Proof. intros l Hl. apply in_seq in Hl. vm_compute. lia. Qed.

(** A mutation of [Inputs.weekIndividual] that moves its last class. *)
Lemma mutated_individual_is_sound_witness :
  exists mutated w',
    Evolution.mutate Inputs.sectionA Inputs.weekTeacher Inputs.oneRoom Inputs.weekSlots
      Inputs.noConstraints Inputs.twoSubjects Runtime.isoDate Runtime.codeUnitCompare
      (Inputs.randomFrom (repeat (1 # 2) 9 ++ [5 # 100; 2 # 10; 8 # 10]))
      Inputs.weekIndividual (1 # 10) (mkWorld Inputs.weekHeap 0)
    = Returned (mutated, w')
    /\ Evolution.sound Inputs.sectionA Inputs.weekTeacher Inputs.oneRoom Inputs.weekSlots
         Inputs.noConstraints Inputs.twoSubjects Runtime.isoDate Runtime.codeUnitCompare
         (heap w') mutated
    /\ allocated (heap w') mutated.
Proof.
  do 2 eexists. split; [vm_compute; reflexivity|].
  apply (mutated_individual_is_sound Inputs.sectionA Inputs.weekTeacher Inputs.oneRoom
           Inputs.weekSlots Inputs.noConstraints Inputs.twoSubjects Runtime.isoDate
           Runtime.codeUnitCompare
           (Inputs.randomFrom (repeat (1 # 2) 9 ++ [5 # 100; 2 # 10; 8 # 10]))
           Inputs.weekIndividual (1 # 10) (mkWorld Inputs.weekHeap 0)).
  - exact week_allocated.
  - vm_compute. reflexivity.
Defined.

(** A single-point crossover of [Inputs.weekIndividual] with itself. *)
Lemma crossover_children_are_sound_witness :
  exists children w',
    Evolution.crossover Inputs.sectionA Inputs.weekTeacher Inputs.oneRoom Inputs.weekSlots
      Inputs.noConstraints Inputs.twoSubjects Runtime.isoDate Runtime.codeUnitCompare
      (Inputs.randomFrom [8 # 10; 1 # 2]) Inputs.weekIndividual Inputs.weekIndividual
      (mkWorld Inputs.weekHeap 0)
    = Returned (children, w')
    /\ (children = [Inputs.weekIndividual; Inputs.weekIndividual]
        \/ forall child, In child children ->
             Evolution.sound Inputs.sectionA Inputs.weekTeacher Inputs.oneRoom
               Inputs.weekSlots Inputs.noConstraints Inputs.twoSubjects Runtime.isoDate
               Runtime.codeUnitCompare (heap w') child
             /\ allocated (heap w') child).
Proof.
  do 2 eexists. split; [vm_compute; reflexivity|].
  apply (crossover_children_are_sound Inputs.sectionA Inputs.weekTeacher Inputs.oneRoom
           Inputs.weekSlots Inputs.noConstraints Inputs.twoSubjects Runtime.isoDate
           Runtime.codeUnitCompare (Inputs.randomFrom [8 # 10; 1 # 2])
           Inputs.weekIndividual Inputs.weekIndividual (mkWorld Inputs.weekHeap 0)).
  - exact week_allocated.
  - exact week_allocated.
  - vm_compute. reflexivity.
Defined.

(** One generation on [Inputs.elitismPopulation] makes ten individuals. *)
Lemma generation_restores_population_size_witness :
  exists population' w',
    Evolution.nextPopulation Inputs.sectionA Inputs.mondayLongTeacher Inputs.oneRoom
      Inputs.mondaySlots Inputs.noConstraints Inputs.twoSubjects Runtime.isoDate
      Runtime.codeUnitCompare (Inputs.randomFrom Inputs.elitismDraws) Inputs.elitismParams
      (1 # 10) Inputs.elitismPopulation (mkWorld Inputs.elitismHeap 0)
    = Returned (population', w')
    /\ Z.of_nat (List.length population') = Z.max 10 (Z.max 3 0).
Proof.
  do 2 eexists. split; [vm_compute; reflexivity|].
  eapply (generation_restores_population_size Inputs.sectionA Inputs.mondayLongTeacher
           Inputs.oneRoom Inputs.mondaySlots Inputs.noConstraints Inputs.twoSubjects
           Runtime.isoDate Runtime.codeUnitCompare (Inputs.randomFrom Inputs.elitismDraws)
           Inputs.elitismParams (1 # 10) Inputs.elitismPopulation
           (mkWorld Inputs.elitismHeap 0)).
  vm_compute. reflexivity.
Defined.

(** The base rate 1/10, with the rate of the fitness 500. *)
Lemma adaptive_mutation_rate_bounds_witness :
  (exists rate,
     GeneticAlgorithm.calculateAdaptiveMutationRate (finite 500) (1 # 10) = finite rate
     /\ (1 # 10) <= rate <= 2 * (1 # 10)
     /\ (1000 <= 500 -> rate == 1 # 10)
     /\ (500 <= 0 -> rate == 2 * (1 # 10)))
  /\ GeneticAlgorithm.calculateAdaptiveMutationRate NaN (1 # 10) = NaN
  /\ sameNumber (GeneticAlgorithm.calculateAdaptiveMutationRate PositiveInfinity (1 # 10))
       (finite (1 # 10))
  /\ sameNumber (GeneticAlgorithm.calculateAdaptiveMutationRate NegativeInfinity (1 # 10))
       (finite (2 * (1 # 10))).
Proof.
  destruct (adaptive_mutation_rate_bounds (1 # 10)) as [H1 H2]; [discriminate|].
  split; [apply (H1 500) | exact H2].
Defined.

End OffspringFacts.

(** ** The selection of [GeneticAlgorithm] and the variations of a seed *)

Module WheelFacts.

Import Basics Evolution EvolutionFacts.

Lemma element_returned {A : Type} (l : list A) (i : nat) (w : World) (x : A) (w' : World) :
  element l i w = Returned (x, w') -> nth_error l i = Some x /\ w' = w.
Proof.
  unfold element. destruct (nth_error l i); [|discriminate].
  unfold ret. intros [= <- <-]. now split.
Qed.

Lemma Qmin_one_of (x y : Q) : Qmin x y = x \/ Qmin x y = y.
Proof.
  unfold Qmin, GenericMinMax.gmin. destruct (Qcompare x y); auto.
Qed.

Lemma minimum_spec (l : list Q) : forall first,
  minimum l first <= first
  /\ (forall x, In x l -> minimum l first <= x)
  /\ (minimum l first = first \/ In (minimum l first) l).
Proof.
  unfold minimum. induction l as [|y l IH]; intros first; simpl.
  - split; [apply Qle_refl|]. split; [intros x []|now left].
  - destruct (IH (Qmin first y)) as [H1 [H2 H3]]. split; [|split].
    + eapply Qle_trans; [exact H1 | apply Q.le_min_l].
    + intros x [<- | Hx]; [|now apply H2].
      eapply Qle_trans; [exact H1 | apply Q.le_min_r].
    + destruct H3 as [H3 | H3]; [|now right; right].
      rewrite H3. destruct (Qmin_one_of first y) as [-> | ->]; [now left | right; now left].
Qed.

Section Facts.

Variable random : nat -> Q.

Abbreviation tournamentLoop := (Evolution.tournamentLoop random).
Abbreviation tournamentSelection := (Evolution.tournamentSelection random).
Abbreviation rouletteWheelSelection := (Evolution.rouletteWheelSelection random).
Abbreviation tournaments := (Evolution.tournaments random).
Abbreviation roulettes := (Evolution.roulettes random).
Abbreviation selection := (Evolution.selection random).

Lemma tournamentLoop_members todo : forall population tournament w result w',
  tournamentLoop todo population tournament w = Returned (result, w') ->
  forall x, In x result -> In x tournament \/ In x population.
Proof.
  induction todo as [|todo IH]; intros population tournament w result w';
    cbn [Evolution.tournamentLoop].
  - unfold ret. intros [= <- _] x Hx. now left.
  - intros H. apply bind_returned in H as [k [w1 [_ H]]].
    apply bind_returned in H as [individual [w2 [Hi H]]].
    apply element_returned in Hi as [Hi _]. apply nth_error_In in Hi.
    intros x Hx. destruct (IH _ _ _ _ _ H x Hx) as [Hin | Hin]; [|now right].
    apply in_app_or in Hin as [Hin | [<- | []]]; auto.
Qed.

Lemma tournamentSelection_member population size w winner w' :
  tournamentSelection population size w = Returned (winner, w') -> In winner population.
Proof.
  unfold Evolution.tournamentSelection. intros H.
  apply bind_returned in H as [tournament [w1 [Ht H]]].
  apply element_returned in H as [H _]. apply nth_error_In, sortBy_In in H.
  destruct (tournamentLoop_members _ _ _ _ _ _ Ht winner H) as [[] | Hin]. exact Hin.
Qed.

Lemma spin_member adjusted : forall cumulative randomValue x,
  spin adjusted cumulative randomValue = Some x -> In x adjusted.
Proof.
  induction adjusted as [|y adjusted IH]; intros cumulative randomValue x; simpl;
    [discriminate|].
  destruct (Qle_bool _ _); [intros [= ->]; now left|].
  intros H. right. eapply IH. exact H.
Qed.

(** The individual the wheel returns is a copy of an individual of the
    population, with its fitness moved by the least fitness. *)
Lemma rouletteWheelSelection_copy population w picked w' :
  rouletteWheelSelection population w = Returned (picked, w') ->
  exists first rest p,
    population = first :: rest /\ In p population
    /\ picked
       = Individual.mk (Individual.schedule p)
           (Individual.fitness p
            - minimum (map Individual.fitness population) (Individual.fitness first) + 1).
Proof.
  unfold Evolution.rouletteWheelSelection.
  destruct population as [|first rest]; [discriminate|].
  set (population := first :: rest). intros H.
  apply bind_returned in H as [r [w1 [_ H]]].
  match type of H with
  | context [spin ?a 0 ?v] => destruct (spin a 0 v) as [x|] eqn:E
  end.
  - unfold ret in H. injection H as <- _. apply spin_member in E.
    apply in_map_iff in E as [p [<- Hp]]. exists first, rest, p. auto.
  - apply element_returned in H as [H _]. apply nth_error_In in H.
    apply in_map_iff in H as [p [<- Hp]]. exists first, rest, p. auto.
Qed.

Lemma tournaments_spec todo : forall population selected w result w',
  tournaments todo population selected w = Returned (result, w') ->
  exists winners,
    result = selected ++ winners /\ List.length winners = todo
    /\ forall x, In x winners -> In x population.
Proof.
  induction todo as [|todo IH]; intros population selected w result w';
    cbn [Evolution.tournaments].
  - unfold ret. intros [= <- _]. exists []. rewrite app_nil_r.
    repeat split. intros x [].
  - intros H. apply bind_returned in H as [winner [w1 [Hw H]]].
    apply tournamentSelection_member in Hw.
    apply IH in H as [winners [-> [Hlen Hin]]]. exists (winner :: winners).
    rewrite <- app_assoc. split; [reflexivity|]. split; [simpl; now rewrite Hlen|].
    intros x [<- | Hx]; auto.
Qed.

Lemma roulettes_spec fuel : forall population selected w result w',
  roulettes fuel population selected w = Returned (result, w') ->
  exists copies,
    result = selected ++ copies
    /\ List.length result = Nat.max (List.length selected) (List.length population)
    /\ forall c, In c copies ->
         exists first rest p,
           population = first :: rest /\ In p population
           /\ c = Individual.mk (Individual.schedule p)
                    (Individual.fitness p
                     - minimum (map Individual.fitness population)
                         (Individual.fitness first) + 1).
Proof.
  induction fuel as [|fuel IH]; intros population selected w result w';
    cbn [Evolution.roulettes];
    destruct (_ <? _)%nat eqn:E; try discriminate;
    try (apply Nat.ltb_ge in E; unfold ret; intros [= <- _]; exists [];
         rewrite app_nil_r; repeat split; [lia | intros c []]).
  apply Nat.ltb_lt in E. intros H.
  apply bind_returned in H as [picked [w1 [Hp H]]].
  apply rouletteWheelSelection_copy in Hp.
  apply IH in H as [copies [-> [Hlen Hin]]]. exists (picked :: copies).
  rewrite <- app_assoc. split; [reflexivity|]. split.
  - rewrite !length_app in *. cbn [List.length] in *. lia.
  - intros c [<- | Hc]; auto.
Qed.

(** With an [eliteSize] that is not negative, [selection] returns as many
    individuals as the population has: the [eliteSize] fittest, then the
    winners of the tournaments, which are individuals of the population,
    then the individuals of the roulette wheel. These last are copies: the
    schedule is that of an individual of the population, but the fitness
    is that individual's fitness minus the least fitness of the population
    plus one. *)
Theorem selection_returns_shifted_copies (population : list Individual.t) (eliteSize : Z)
  (w : World) (selected : list Individual.t) (w' : World) :
  (0 <= eliteSize)%Z ->
  selection population eliteSize w = Returned (selected, w') ->
  List.length selected = List.length population
  /\ exists winners copies least,
       selected = slice (sortBy byFitness population) 0 eliteSize ++ winners ++ copies
       /\ (forall x, In x winners -> In x population)
       /\ (forall p, In p population -> least <= Individual.fitness p)
       /\ (population = [] \/ exists p, In p population /\ Individual.fitness p = least)
       /\ forall c, In c copies ->
            exists p, In p population
                      /\ c = Individual.mk (Individual.schedule p)
                               (Individual.fitness p - least + 1).
Proof.
  intros He H. unfold Evolution.selection in H.
  set (sorted := sortBy byFitness population) in *.
  assert (Hperm : Permutation sorted population) by apply SelectionFacts.sortBy_perm.
  pose proof (Permutation_length Hperm) as Hlen.
  apply bind_returned in H as [chosen [w1 [Ht H]]].
  apply tournaments_spec in Ht as [winners [-> [Hw Hin]]].
  apply roulettes_spec in H as [copies [-> [Hsize Hcopies]]].
  assert (Helite : List.length (slice sorted 0 eliteSize)
                   = Nat.min (Z.to_nat eliteSize) (List.length sorted)).
  { unfold slice. replace (clampIndex 0 (List.length sorted)) with 0%nat by reflexivity.
    rewrite Nat.sub_0_r. cbn [skipn]. rewrite length_firstn. unfold clampIndex.
    destruct (eliteSize <? 0)%Z eqn:E; [apply Z.ltb_lt in E; lia|].
    apply Nat.min_l. apply Nat.le_min_r. }
  split.
  - rewrite Hsize, length_app, Helite, Hw, <- Hlen.
    assert (Hhalf : ((Z.of_nat (List.length sorted) - eliteSize) / 2
                     <= Z.max 0 (Z.of_nat (List.length sorted) - eliteSize))%Z).
    { destruct (Z_lt_le_dec (Z.of_nat (List.length sorted) - eliteSize) 0).
      - assert (((Z.of_nat (List.length sorted) - eliteSize) / 2 < 0)%Z)
          by (apply Z.div_lt_upper_bound; lia).
        lia.
      - assert (((Z.of_nat (List.length sorted) - eliteSize) / 2
                 <= Z.of_nat (List.length sorted) - eliteSize)%Z)
          by (apply Z.div_le_upper_bound; lia).
        lia. }
    lia.
  - exists winners, copies.
    destruct sorted as [|first rest] eqn:Es.
    + assert (population = []) by (apply Permutation_nil; now symmetry).
      subst population. exists 0. rewrite <- app_assoc.
      split; [reflexivity|]. split; [intros x Hx; apply Hin in Hx; destruct Hx|].
      split; [intros p []|]. split; [now left|].
      intros c Hc. destruct (Hcopies c Hc) as [f [r [p [E _]]]]. discriminate.
    + rewrite <- Es in *.
      exists (minimum (map Individual.fitness sorted) (Individual.fitness first)).
      destruct (minimum_spec (map Individual.fitness sorted) (Individual.fitness first))
        as [M1 [M2 M3]].
      rewrite <- app_assoc. split; [reflexivity|].
      split; [intros x Hx; apply (Permutation_in _ Hperm); now apply Hin|].
      split; [|split].
      * intros p Hp. apply M2. apply in_map.
        apply (Permutation_in _ (Permutation_sym Hperm) Hp).
      * right. destruct M3 as [M3 | M3].
        -- exists first. split; [|now symmetry].
           apply (Permutation_in _ Hperm). rewrite Es. now left.
        -- apply in_map_iff in M3 as [p [E Hp]]. exists p.
           split; [now apply (Permutation_in _ Hperm) | assumption].
      * intros c Hc. destruct (Hcopies c Hc) as [f [r [p [E [Hp ->]]]]].
        exists p. split; [now apply (Permutation_in _ Hperm)|].
        rewrite Es in E. injection E as <- <-. reflexivity.
Qed.

End Facts.

(** A selection of ten from [Inputs.elitismPopulation] with three elites:
    three tournaments and four turns of the wheel. *)
Lemma selection_returns_shifted_copies_witness :
  exists selected w',
    Evolution.selection (Inputs.randomFrom []) Inputs.elitismPopulation 3
      (mkWorld Inputs.elitismHeap 0)
    = Returned (selected, w')
    /\ List.length selected = List.length Inputs.elitismPopulation
    /\ exists winners copies least,
         selected
         = slice (sortBy byFitness Inputs.elitismPopulation) 0 3 ++ winners ++ copies
         /\ (forall x, In x winners -> In x Inputs.elitismPopulation)
         /\ (forall p, In p Inputs.elitismPopulation -> least <= Individual.fitness p)
         /\ (Inputs.elitismPopulation = []
             \/ exists p, In p Inputs.elitismPopulation /\ Individual.fitness p = least)
         /\ forall c, In c copies ->
              exists p, In p Inputs.elitismPopulation
                        /\ c = Individual.mk (Individual.schedule p)
                                 (Individual.fitness p - least + 1).
Proof.
  do 2 eexists. split; [vm_compute; reflexivity|].
  eapply (selection_returns_shifted_copies (Inputs.randomFrom []) Inputs.elitismPopulation
           3 (mkWorld Inputs.elitismHeap 0)).
  - lia.
  - vm_compute. reflexivity.
Defined.

End WheelFacts.

Module VariationFacts.

Import Basics Evolution EvolutionFacts.

Lemma moveTo_twice (c : ClassSchedule.t) (s1 s2 : TimeSlot.t) :
  GeneticAlgorithm.moveTo (GeneticAlgorithm.moveTo c s1) s2 = GeneticAlgorithm.moveTo c s2.
Proof. reflexivity. Qed.

Lemma replaceAt_nth {A : Type} (l : list A) : forall i x j,
  nth_error (replaceAt i x l) j
  = if (j =? i)%nat then match nth_error l j with Some _ => Some x | None => None end
    else nth_error l j.
Proof.
  induction l as [|y l IH]; intros [|i] x [|j]; simpl; try reflexivity.
  - now destruct (j =? i)%nat.
  - apply IH.
Qed.

(** [Math.floor(Math.random() * n)] is an index below [n]. *)
Lemma randomIndex_below (random : nat -> Q) (n : nat) (w : World) :
  0 <= random (draws w) -> random (draws w) < 1 -> (0 < n)%nat ->
  exists k, (k < n)%nat
            /\ randomIndex random n w = Returned (k, mkWorld (heap w) (S (draws w))).
Proof.
  intros H0 H1 Hn. eexists. split; [|reflexivity].
  set (r := random (draws w)) in *.
  assert (Hlt : (Qfloor (r * inject_Z (Z.of_nat n)) < Z.of_nat n)%Z).
  { rewrite Zlt_Qlt. eapply Qle_lt_trans; [apply Qfloor_le|].
    rewrite <- (Qmult_1_l (inject_Z (Z.of_nat n))) at 2.
    apply Qmult_lt_compat_r; [|assumption]. unfold Qlt. simpl. lia. }
  assert (Hge : (0 <= Qfloor (r * inject_Z (Z.of_nat n)))%Z).
  { change 0%Z with (Qfloor 0). apply Qfloor_resp_le.
    apply Qmult_le_0_compat; [assumption|]. unfold Qle. simpl. lia. }
  lia.
Qed.

Section Facts.

Variable timeSlots : list TimeSlot.t.
Variable random : nat -> Q.

Abbreviation variationLoop := (Evolution.variationLoop timeSlots random).
Abbreviation createVariation := (Evolution.createVariation timeSlots random).

Lemma randomIndex_heap n w k w' :
  randomIndex random n w = Returned (k, w') -> heap w' = heap w.
Proof.
  unfold randomIndex. intros H. apply bind_returned in H as [r [w1 [Hr H]]].
  unfold mathRandom in Hr. injection Hr as _ <-. unfold ret in H. now injection H as _ <-.
Qed.

(** What the loop keeps: the objects of the store, the length of the
    array, and in each place the object that was there or a new object
    that is a copy of it in a listed time slot. *)
Lemma variationLoop_spec todo : forall variation w result w',
  variationLoop todo variation w = Returned (result, w') ->
  (forall l, In l variation -> (l < List.length (heap w))%nat) ->
  (exists new, heap w' = heap w ++ new)
  /\ List.length result = List.length variation
  /\ forall i l, nth_error variation i = Some l ->
       exists v, nth_error result i = Some v
                 /\ (v = l
                     \/ ((List.length (heap w) <= v)%nat
                         /\ exists c slot,
                              nth_error (heap w) l = Some c /\ In slot timeSlots
                              /\ nth_error (heap w') v
                                 = Some (GeneticAlgorithm.moveTo c slot))).
Proof.
  induction todo as [|todo IH]; intros variation w result w';
    cbn [Evolution.variationLoop].
  - unfold ret. intros [= <- <-] _. split; [exists []; now rewrite app_nil_r|].
    split; [reflexivity|]. intros i l Hl. exists l. auto.
  - intros H Hvalid. apply bind_returned in H as [index [w1 [Hindex H]]].
    apply randomIndex_heap in Hindex.
    destruct (nth_error variation index) as [l0|] eqn:El0.
    + apply bind_returned in H as [k [w2 [Hk H]]]. apply randomIndex_heap in Hk.
      apply bind_returned in H as [c0 [w3 [Hc0 H]]].
      apply OffspringFacts.deref_returned in Hc0 as [Hc0 ->].
      apply bind_returned in H as [slot0 [w3 [Hslot H]]].
      apply item_returned in Hslot as [Hslot ->]. apply nth_error_In in Hslot.
      apply bind_returned in H as [l' [w3 [Halloc H]]].
      unfold alloc in Halloc. injection Halloc as <- <-.
      rewrite Hk, Hindex in *.
      apply IH in H as [[new Hnew] [Hlen Hall]]; cbn [heap] in *.
      * split; [exists (GeneticAlgorithm.moveTo c0 slot0 :: new);
                rewrite Hnew, <- app_assoc; reflexivity|].
        split; [now rewrite Hlen, OffspringFacts.replaceAt_length|].
        intros i l Hl.
        assert (Hl' : (l < List.length (heap w))%nat)
          by (apply Hvalid; now apply nth_error_In in Hl).
        destruct (Hall i (if (i =? index)%nat then List.length (heap w) else l))
          as [v [Hv Hcase]].
        { rewrite replaceAt_nth, Hl. now destruct (i =? index)%nat. }
        exists v. split; [assumption|].
        rewrite length_app in Hcase. cbn [List.length] in Hcase.
        destruct (Nat.eqb_spec i index) as [-> | Hne].
        -- right. rewrite El0 in Hl. injection Hl as <-.
           destruct Hcase as [-> | [Hge [c [slot [Hc [Hs Hm]]]]]].
           ++ split; [lia|]. exists c0, slot0. repeat split; auto.
              rewrite Hnew, <- app_assoc. cbn [app].
              rewrite nth_error_app2, Nat.sub_diag by lia. reflexivity.
           ++ split; [lia|]. exists c0, slot. repeat split; auto.
              rewrite nth_error_app2, Nat.sub_diag in Hc by lia.
              injection Hc as <-. now rewrite Hm.
        -- destruct Hcase as [-> | [Hge [c [slot [Hc [Hs Hm]]]]]]; [now left|].
           right. split; [lia|]. exists c, slot. repeat split; auto.
           now rewrite nth_error_app1 in Hc by lia.
      * intros l Hl. rewrite length_app. cbn [List.length].
        apply In_nth_error in Hl as [j Hj]. rewrite replaceAt_nth in Hj.
        destruct (j =? index)%nat.
        -- destruct (nth_error variation j); [|discriminate]. injection Hj as <-. lia.
        -- apply nth_error_In in Hj. specialize (Hvalid l Hj). lia.
    + rewrite <- Hindex in Hvalid. apply IH in H as [[new Hnew] H]; [|assumption].
      rewrite Hindex in *. split; [now exists new|]. exact H.
Qed.

(** [createVariation] copies on write. Given an array of existing class
    objects, the variation it returns has the same length; in each place
    it has the object of the input or a new object that is a copy of it
    moved to a listed time slot; and the existing objects stay as they
    are. Without any time slot it throws a [TypeError] on a schedule that
    is not empty. *)
Theorem variation_copies_on_write (schedule : list nat) (w : World) :
  (forall l, In l schedule -> (l < List.length (heap w))%nat) ->
  (forall variation w',
     createVariation schedule w = Returned (variation, w') ->
     (exists new, heap w' = heap w ++ new)
     /\ List.length variation = List.length schedule
     /\ forall i l, nth_error schedule i = Some l ->
          exists v, nth_error variation i = Some v
                    /\ (v = l
                        \/ ((List.length (heap w) <= v)%nat
                            /\ exists c slot,
                                 nth_error (heap w) l = Some c /\ In slot timeSlots
                                 /\ nth_error (heap w') v
                                    = Some (GeneticAlgorithm.moveTo c slot))))
  /\ (timeSlots = [] -> schedule <> [] ->
      0 <= random (draws w) -> random (draws w) < 1 ->
      createVariation schedule w = Thrown "TypeError").
Proof.
  intros Hvalid. split.
  - intros variation w' H. now apply variationLoop_spec in H.
  - intros Hslots Hne H0 H1. unfold Evolution.createVariation.
    rewrite Nat.add_1_r. cbn [Evolution.variationLoop].
    destruct (randomIndex_below random (List.length schedule) w H0 H1)
      as [index [Hindex Hrun]].
    { destruct schedule; [contradiction | simpl; lia]. }
    unfold bind at 1. rewrite Hrun.
    destruct (nth_error schedule index) as [l|] eqn:El;
      [|apply nth_error_None in El; lia].
    assert (Hl : (l < List.length (heap w))%nat)
      by (apply Hvalid; now apply nth_error_In in El).
    destruct (nth_error (heap w) l) as [c|] eqn:Ec; [|apply nth_error_None in Ec; lia].
    unfold bind at 1. unfold randomIndex at 1. unfold bind at 1, mathRandom at 1, ret at 1.
    unfold bind at 1. unfold deref at 1. cbn [heap]. rewrite Ec.
    unfold bind at 1. unfold item at 1. rewrite Hslots.
    now destruct (Z.to_nat _).
Qed.

End Facts.

(** A variation of the ten classes of [Inputs.weekHeap]: the run returns,
    and what it returns is as the theorem says. *)
Lemma variation_copies_on_write_witness :
  exists variation w',
    Evolution.createVariation Inputs.weekSlots (Inputs.randomFrom []) (seq 0 10)
      (mkWorld Inputs.weekHeap 0)
    = Returned (variation, w')
    /\ (exists new, heap w' = Inputs.weekHeap ++ new)
    /\ List.length variation = List.length (seq 0 10)
    /\ forall i l, nth_error (seq 0 10) i = Some l ->
         exists v, nth_error variation i = Some v
                   /\ (v = l
                       \/ ((List.length Inputs.weekHeap <= v)%nat
                           /\ exists c slot,
                                nth_error Inputs.weekHeap l = Some c
                                /\ In slot Inputs.weekSlots
                                /\ nth_error (heap w') v
                                   = Some (GeneticAlgorithm.moveTo c slot))).
Proof.
  do 2 eexists. split; [vm_compute; reflexivity|].
  apply (proj1 (variation_copies_on_write Inputs.weekSlots (Inputs.randomFrom [])
                  (seq 0 10) (mkWorld Inputs.weekHeap 0)
                  (fun l Hl => proj2 (proj1 (in_seq 10 0 l) Hl)))).
  vm_compute. reflexivity.
Defined.

End VariationFacts.
